(* ===== verification/_CoqProject ===== *)
-Q . S2P
Prelude.v
Text.v
Types.v
Timer.v
PhysMem.v
Mmu.v
Ivt.v
Cpu.v
FrameAlloc.v
Paging.v
Sync.v
Disk.v
Block.v
Swap.v
Sched.v
Assembler.v
Ipc.v
Messages.v
Bus.v
MemService.v
SharedMmu.v
HwDevices.v
Devices.v
DeviceService.v
Pcb.v
Dumps.v
Vfs.v
Restart.v
Files.v
FileService.v
FileInv.v
FileRestart.v
Reports.v
Errors.v
ProcService.v
ProcLoop.v
ProcInv.v
UserMem.v
Debugger.v
ShellParser.v
Shell.v
System.v
Monitor.v
MonitorScreen.v
Programs.v
Async.v
Testing.v
Requests.v
TestsProcess.v
TestsMemory.v
TestsHardware.v
TestsFile.v
TestsDevice.v
TestsShell.v
TestsMessages.v
TestsService.v
