(* ===== verification/Prelude.v ===== *)
(** * Genshin-OS: a verification library for the kernel simulation

    The program (src/src, Rust) simulates an operating system: virtual hardware
    (physical memory, an MMU, CPUs, a disk on a host file) and services, threads
    that exchange messages over channels and run one handler per message.  This
    library translates its core into executable Rocq definitions and proves what
    makes each part correct.

    ** The parts, and the file that models each

    - [Types], [Messages] - messaging/msg.rs, response.rs, error.rs: identifiers,
      protections, signals; the requests of every service, what a response
      carries, the errors, and the monad [HM] of handlers.  [Text] - the UTF-8
      and number formatting of the standard library that the source uses.
      [Errors] - error.rs, response.rs: the errors with their texts, the
      conversions between them, and how errors and responses are displayed.
    - [Bus] - messaging/bus.rs, response.rs, services/kernel.rs: envelopes, the
      bus, and the kernel that moves each envelope to its service, over any
      channel that satisfies the class [Bus.ChannelOk].  [Requests] - requests
      that carry their own response channel, and the direct bus.
    - [Timer] - hardware/timer.rs: the calls and the threads that send ticks.
    - [PhysMem] - hardware/memory.rs: byte-addressed memory with bounds and
      alignment errors.  [Mmu] - hardware/mmu.rs: per-process page tables,
      translation with permissions, access through it.  [Ivt] - hardware/ivt.rs.
    - [Cpu] - hardware/cpu.rs: registers, flags, fetch, decode, execute and the
      [step] of a CPU on a machine (a CPU, the MMU and the interrupts sent).
    - [Assembler] - services/process/assembler.rs, with the [Display] of
      instructions of cpu.rs.
    - [FrameAlloc], [Paging], [Swap] - services/memory/{alloc,paging,swap}.rs:
      physical frames and who owns them, the page tables of the service, the
      slots of the swap disk.  [Disk] - hardware/disk.rs, used by [Swap].
      [Block] - hardware/block.rs: block devices and partitions on them.
    - [MemService] - services/memory/service.rs: all request handlers of the
      memory service over the four managers above and the MMU.  [SharedMmu] -
      the same handlers as sequences of accesses between which the CPUs store.
    - [Sched], [Sync], [Ipc] - services/process/{scheduler,sync,ipc}.rs: the
      multi-CPU scheduler, semaphores and locks, message queues and shared
      memory.  [Pcb] - pcb.rs: processes, threads and their states.
    - [ProcService], [ProcLoop], [ProcInv] - services/process/service.rs: the
      handlers, fork and exec; the system calls, the timer tick that runs the
      CPUs and the main loop; what holds of every run.  [Reports] - the texts of
      its answers: process lines, mapped frames, and the process tree, which
      is specified as a forest.  [UserMem] - what a program finds in its page.
    - [Dumps] - hardware/{memory,mmu}.rs: the texts that show the memory and a
      page table, and what can be read back from them.
    - [Vfs], [Files] - services/file/{vfs,file,descriptor}.rs: the tree of
      nodes, open files on the disk, descriptors.  [FileService], [FileInv] -
      service.rs: the requests on them, and what holds of every run.  [Restart],
      [FileRestart] - the tree that is saved after every request and loaded at
      the next start, and what holds of all the runs together.
    - [HwDevices] - hardware/device.rs: the devices and their registry, over the
      class of the trait.  [Devices], [DeviceService] - services/device: devices,
      drivers, the manager, and the requests on them and on the clipboard.
    - [ShellParser], [Shell] - ui/shell: command lines, the built-in commands,
      paths, and what each command asks of the services, which are the class
      [Shell.ShellBus].  [Debugger] - ui/shell/mod.rs: the debugger and the CPU
      demonstration, with their own machine.
    - [System] - main.rs: the machine and the services as they are started, as
      threads behind one bus.  It gives the classes [ProcService.Peers] and
      [Shell.ShellBus] their instances, so that a session at the shell runs.
      [Programs] - the built-in programs of service.rs, from exec through the
      CPU and the system call to the file service.  [Async] - the channels
      between the services: messages that wait while others are sent.
      [Monitor], [MonitorScreen] - ui/monitor.rs: the snapshot, what is drawn
      from it, and the loop that draws it.
    - [Testing] - a unit test as a list of calls and assertions that may panic;
      [TestsProcess], [TestsService], [TestsMemory], [TestsHardware], [TestsFile],
      [TestsDevice], [TestsMessages], [TestsShell] - the unit tests that the
      source files end with, translated and run on the definitions.

    A Rust method is the definition of the same name; a method with the same
    name in two types of one file has the type as a prefix ([Frame_new],
    [pmm_new]).  A struct is a Record without the fields that only carry text or
    time stamps.  The order of the files in _CoqProject is the order of use.

    ** Conventions

    - Unsigned integers are [N]; [wadd64], [to_u32] and the like write out the
      wrap-around of the release profile and the truncation of [as] casts.
    - [result] is Rust's [Result]; [outcome] tells a call that returns from one
      that panics (an index out of range, an [unwrap] of [None]) or blocks on a
      mutex its own thread holds.  [SE] and [HM] are the state and error monads
      of the methods that change state and also fail.
    - The services a service calls are the record [ProcService.Peers], what
      serde_json reads and writes are arguments of [Vfs.save_to_file] and
      [Vfs.load_from_file].
    - The handles of one open file are an index in the list of files of the
      file service; that of a CPU or a process is its key in a map.
    - A [HashMap] is a [gmap]; where the program iterates over one, whose order
      Rust leaves open, [map_to_list] stands for that order and the theorems
      do not depend on which one it is.
    - A mutex that a method takes and gives back makes the method one atomic
      step.  Atomic variables are modelled access by access in [Sync], where
      calls interleave.  A shared handle ([Arc]) is one object in the state.
    - A panic message, a printed line, a wall-clock time and a floating-point
      percentage are left out; the handlers carry the kinds of errors and not
      their texts.

    ** What the theorems show

    - The CPU ([Cpu], [Mmu], [PhysMem]): a step preserves well-formedness; it
      writes only bytes that the running process may write; a step that faults
      changes nothing else, so it can be repeated; a saved state runs the same
      on any CPU; the flags of additions and comparisons; mapping, unmapping
      and stores through the MMU are seen exactly where they should be.
    - The assembler: what it accepts the CPU can fetch and decode, at any load
      address that is a multiple of four; printing and assembling a program gives
      it back up to the truncation of values to 32 bits.
    - Memory management: after any history the frames, the queue and the
      counters of the allocator agree and each process has all its frames in its
      list - and no other, as long as frames are given back by their owners, which
      the memory service does not see to; the slots of the swap disk agree with
      their owners; allocation is exclusive and all or nothing, a page swapped out
      comes back unchanged, a bitmap flushed to disk is read back; the handlers
      of the memory service do not panic and answer every request; a page
      fault maps a free frame or swaps a victim out - and the cases in which
      it does not work.  While the CPUs run on, stores that keep off the pages
      that are moved are as good as stores made afterwards, and one into a page
      that is being swapped out can be lost.
    - Processes: no process on two CPUs, nothing lost, and each process
      dispatched in turn; semaphores conserve their units under every
      interleaving and their retry loops end; locks exclude, except in the
      races shown; queues are bounded FIFOs; regions are reference-counted.
      The process service, from its boot and whatever messages and timer ticks
      come, never panics, keeps init and its tables, and can only block on
      itself, in the timer tick.  Executing a command on a path does to the file
      tree what its request says, on the path and what the last owner of the
      frame left behind it: an argument has no end of its own.  The
      process tree shows every process once.
    - Files: what is written is read back, a synchronised file loads back
      and disturbs no other; the file service refines a map from paths to kinds
      of nodes, one map through all its restarts, and the bytes it wrote
      survive them (as long as it reads and writes less than 2^62 bytes, 2^61
      through restarts; one write without data of 2^63 bytes panics it); descriptors are never reused, and a failed synchronisation
      loses the extent of its file.
    - Devices: the maps of the managers agree after any history, exclusive use
      excludes as long as each process closes what it opened, partitions do not
      reach each other; the device service refines a catalogue in which devices
      are never usable, and returns the clipboard, unless a read or write of
      2^63 bytes panics it; input is first in, first out.
    - Messages and time: the kernel delivers every envelope to its service, in
      order; a request reaches every subscriber and is answered with its own
      number; interrupts sent and ticks counted since the last reset of the
      counter agree in every reachable state of the timer, which is dead after a
      pause.  However messages wait in the channels and are taken from
      them, the services end as if each had been served when it was sent.
      Requests of their own are answered apart; the direct bus is a queue.
    - The unit tests of the source ([..._unit_tests]): the definitions pass them,
      but for tests of the scheduler, the memory service, the file system and the
      process service that expect what the code, as it is, does not do.
    - Errors: the display of an error tells which part of the system it is from,
      whatever texts it carries.
    - The shell: every command can be written as a line that is parsed as that
      command; relative paths name the components they should; the working
      directory was confirmed by the file service; a failed program is
      reported as success, and a blank line ends the shell.  The debugger's
      continue is a series of steps, and never ends after a page fault.  The
      monitor's snapshot is the state of the system; its rows show names and
      colours for some states only; its frame bar covers the memory; it draws a
      screen per turn until a key quits, and shows nothing old if it is answered.

    ** Bounds and fuel

    Recursion follows the data or a counter that the source has; the recursion
    of build_tree_recursive, which the source does not bound, has the argument
    [depth], and a tree deeper than it counts as a call that does not return; a
    [Vec] of 2^63 bytes or more is a panic, which the timer catches where the source has
    catch_unwind.  The recursion of format_tree has the number of processes as
    its fuel, which [Reports.process_list_forest] proves to be enough, since a child
    is younger than its parent.  The loops of the debugger have fuel, and
    [continue_is_steps] holds for any that is not less than the steps needed.
    The scan of the disk bitmap runs over the sectors, [Sched.dequeue_loop] over
    the length of the queue, as its [for] does.  The only loops without a bound are the
    compare-exchange loops of sync.rs: [Sync.sem_step] is one atomic access, and
    [sem_call_sequential] proves that a call alone ends within a stated number
    of accesses with the result of the sequential function.

    ** What is not modelled

    Where the monitor lays out its parts, which are calls of third-party crates,
    the percentages in it, and the lines that the debugger prints; the programs under
    src/examples, which only print; the unit tests of the timer's thread and of
    wall-clock times.  Many tests call constructors with fewer or more arguments
    than these now have; they are translated with those of today.  A service handles one
    message at a time; in [System] a request is served when it is made, and
    [Async] shows that waiting in the channels makes no difference to the
    services, as long as nobody else touches the MMU that the CPUs and the
    memory service share; [SharedMmu] treats the handlers that touch it, with a
    call of the MMU as one step although it takes the locks of the page tables
    and of the memory one after the other.  The process service gets its messages and ticks one after the other.  The
    channels of the crossbeam crate are the class [Bus.Channel]; in the handlers
    of a service the response channel is the parameter [connected], which says
    whether the requester still listens. *)
From Stdlib Require Export NArith ZArith Lia.
From Stdlib Require Export Sorted.
From stdpp Require Export base tactics list gmap fin_maps numbers option.

#[global] Open Scope N_scope.

(** ** Machine integers

    Every unsigned Rust integer is an [N]; the definitions write out the
    truncation of [as] casts and the wrap-around of release-profile [+], [-],
    [*].  Signed values appear as [Z]. *)

Definition u8_max : N := 2 ^ 8.
Definition u32_max : N := 2 ^ 32.
Definition u64_max : N := 2 ^ 64.

Definition to_u8 (x : N) : N := x mod 2 ^ 8.
Definition to_u32 (x : N) : N := x mod 2 ^ 32.
Definition to_u64 (x : N) : N := x mod 2 ^ 64.

Definition wadd64 (x y : N) : N := (x + y) mod 2 ^ 64.
Definition wsub64 (x y : N) : N := (x + (2 ^ 64 - y mod 2 ^ 64)) mod 2 ^ 64.
Definition wmul64 (x y : N) : N := (x * y) mod 2 ^ 64.
Definition wadd32 (x y : N) : N := (x + y) mod 2 ^ 32.
Definition wsub32 (x y : N) : N := (x + (2 ^ 32 - y mod 2 ^ 32)) mod 2 ^ 32.

(** [x as i64 < 0] for a 64-bit pattern [x]. *)
Definition neg64 (x : N) : bool := 2 ^ 63 <=? x.
(** the value of [x as i64] *)
Definition to_i64 (x : N) : Z :=
  if neg64 x then (Z.of_N x - 2 ^ 64)%Z else Z.of_N x.

(** ** Fallible results and outcomes *)

Inductive result (E A : Type) : Type :=
  | Ok (a : A)
  | Err (e : E).
Arguments Ok {E A} a.
Arguments Err {E A} e.

#[export] Instance result_ret E : MRet (result E) := fun A a => Ok a.
#[export] Instance result_bind E : MBind (result E) := fun A B k m =>
  match m with Ok a => k a | Err e => Err e end.
#[export] Instance result_fmap E : FMap (result E) := fun A B f m =>
  match m with Ok a => Ok (f a) | Err e => Err e end.

#[export] Instance result_eq_dec E A `{EqDecision E, EqDecision A} : EqDecision (result E A).
Proof. solve_decision. Defined.

Definition map_err {E F A} (f : E -> F) (m : result E A) : result F A :=
  match m with Ok a => Ok a | Err e => Err (f e) end.

Definition ok_or {E A} (e : E) (o : option A) : result E A :=
  match o with Some a => Ok a | None => Err e end.

Definition is_ok {E A} (m : result E A) : bool :=
  match m with Ok _ => true | Err _ => false end.

(** What a call does when it does not simply return: a Rust panic (an index out
    of range, an [unwrap] of [None]), or a thread that blocks for ever on a
    mutex it already holds. *)
Inductive outcome (A : Type) : Type :=
  | Done (a : A)
  | Panicked
  | Deadlocked.
Arguments Done {A} a.
Arguments Panicked {A}.
Arguments Deadlocked {A}.

#[export] Instance outcome_ret : MRet outcome := fun A a => Done a.
#[export] Instance outcome_bind : MBind outcome := fun A B k m =>
  match m with Done a => k a | Panicked => Panicked | Deadlocked => Deadlocked end.
#[export] Instance outcome_fmap : FMap outcome := fun A B f m =>
  match m with Done a => Done (f a) | Panicked => Panicked | Deadlocked => Deadlocked end.

(** A state-and-error computation: it always returns a new state, also when it
    fails, as a [&mut self] method that returns a [Result] does. *)
Definition SE (S E A : Type) : Type := S -> S * result E A.

#[export] Instance SE_ret S E : MRet (SE S E) := fun A a s => (s, Ok a).
#[export] Instance SE_bind S E : MBind (SE S E) := fun A B k m s =>
  match m s with
  | (s', Ok a) => k a s'
  | (s', Err e) => (s', Err e)
  end.

Definition se_get {S E} : SE S E S := fun s => (s, Ok s).
Definition se_modify {S E} (f : S -> S) : SE S E unit := fun s => (f s, Ok tt).
Definition se_lift {S E A} (r : result E A) : SE S E A := fun s => (s, r).
Definition se_throw {S E A} (e : E) : SE S E A := fun s => (s, Err e).

(** [v[i]] on a vector: a panic when the index is out of range. *)
Definition index {A} (v : list A) (i : N) : outcome A :=
  match v !! N.to_nat i with Some a => Done a | None => Panicked end.

(** [v.len()] *)
Notation len l := (N.of_nat (length l)).

(** ** Sorting

    [sort] on a vector of strings: the byte order of [String]'s [Ord]. *)
Fixpoint str_le (a b : list N) : bool :=
  match a, b with
  | [], _ => true
  | _, [] => false
  | x :: a, y :: b => if x =? y then str_le a b else x <? y
  end.
Fixpoint insert_sorted (x : list N) (l : list (list N)) : list (list N) :=
  match l with [] => [x] | y :: l => if str_le x y then x :: y :: l else y :: insert_sorted x l end.
Definition sort_strings (l : list (list N)) : list (list N) := foldr insert_sorted [] l.

(** ** Tactics *)

(** Case analysis on the boolean comparisons of a goal or a hypothesis. *)
Ltac bdestruct_one :=
  match goal with
  | |- context [N.ltb ?a ?b] => destruct (N.ltb_spec a b)
  | |- context [N.leb ?a ?b] => destruct (N.leb_spec a b)
  | |- context [N.eqb ?a ?b] => destruct (N.eqb_spec a b)
  | H : context [N.ltb ?a ?b] |- _ => revert H; destruct (N.ltb_spec a b); intros H
  | H : context [N.leb ?a ?b] |- _ => revert H; destruct (N.leb_spec a b); intros H
  | H : context [N.eqb ?a ?b] |- _ => revert H; destruct (N.eqb_spec a b); intros H
  end.
Ltac bdestruct_all := repeat (bdestruct_one; cbn [negb andb orb] in *).

(** Destruct the scrutinee of a [match] in a hypothesis, keeping the equation. *)
Ltac inv_match H :=
  match type of H with
  | context [match ?x with _ => _ end] =>
      lazymatch x with
      | context [match _ with _ => _ end] => fail
      | _ => let E := fresh "E" in destruct x eqn:E
      end
  end.
Ltac inv_matches H := repeat (inv_match H; simplify_eq/=).

(** Case analysis on every [match] of the goal. *)
Ltac case_match_goal :=
  match goal with
  | |- context [match ?x with _ => _ end] =>
      lazymatch x with
      | context [match _ with _ => _ end] => fail
      | _ => let E := fresh "E" in destruct x eqn:E
      end
  end.

(** ** Arithmetic lemmas *)

Lemma two64_pos : 2 ^ 64 <> 0. Proof. done. Qed.

Lemma wadd64_small x y : x + y < 2 ^ 64 -> wadd64 x y = x + y.
Proof. intros H. by apply N.mod_small. Qed.

Lemma wadd64_bound x y : wadd64 x y < 2 ^ 64.
Proof. by apply N.mod_lt. Qed.

Lemma wsub64_bound x y : wsub64 x y < 2 ^ 64.
Proof. by apply N.mod_lt. Qed.

Lemma wmul64_bound x y : wmul64 x y < 2 ^ 64.
Proof. by apply N.mod_lt. Qed.

Lemma wsub64_ge x y : x < 2 ^ 64 -> y <= x -> wsub64 x y = x - y.
Proof.
  intros Hx Hy. unfold wsub64. rewrite (N.mod_small y) by lia.
  replace (x + (2 ^ 64 - y)) with ((x - y) + 1 * 2 ^ 64) by lia.
  rewrite N.Div0.mod_add. apply N.mod_small. lia.
Qed.

Lemma wsub64_lt x y : x < y -> y < 2 ^ 64 -> wsub64 x y = 2 ^ 64 + x - y.
Proof.
  intros Hx Hy. unfold wsub64. rewrite (N.mod_small y) by lia.
  rewrite N.mod_small; lia.
Qed.

Lemma wsub32_ge x y : x < 2 ^ 32 -> y <= x -> wsub32 x y = x - y.
Proof.
  intros Hx Hy. unfold wsub32. rewrite (N.mod_small y) by lia.
  replace (x + (2 ^ 32 - y)) with ((x - y) + 1 * 2 ^ 32) by lia.
  rewrite N.Div0.mod_add. apply N.mod_small. lia.
Qed.

Lemma wadd32_small x y : x + y < 2 ^ 32 -> wadd32 x y = x + y.
Proof. intros H. by apply N.mod_small. Qed.

Lemma to_u8_bound x : to_u8 x < 2 ^ 8.
Proof. by apply N.mod_lt. Qed.

(** ** Results *)

Lemma bind_ok {E A B} (m : result E A) (k : A -> result E B) b :
  (m ≫= k) = Ok b <-> exists a, m = Ok a /\ k a = Ok b.
Proof.
  destruct m as [a|e]; split.
  - intros H. by exists a.
  - intros (a' & [= <-] & H). exact H.
  - done.
  - by intros (a' & ? & _).
Qed.

Lemma bind_err {E A B} (m : result E A) (k : A -> result E B) e :
  (m ≫= k) = Err e <-> m = Err e \/ exists a, m = Ok a /\ k a = Err e.
Proof.
  destruct m as [a|e']; split.
  - intros H. right. by exists a.
  - intros [?|(a' & [= <-] & H)]; [done|exact H].
  - intros [= ->]. by left.
  - intros [[= ->]|(a' & ? & _)]; done.
Qed.

Lemma ok_or_ok {E A} (e : E) (o : option A) a : ok_or e o = Ok a <-> o = Some a.
Proof. destruct o; split; intros; simplify_eq/=; done. Qed.

Lemma map_err_ok {E F A} (f : E -> F) (m : result E A) a : map_err f m = Ok a <-> m = Ok a.
Proof. destruct m; split; intros; simplify_eq/=; done. Qed.

(** Split a chain of [←] that succeeds into its steps. *)
Ltac inv_binds :=
  repeat match goal with
  | H : (_ ≫= _) = Ok _ |- _ => apply bind_ok in H as (? & ? & H)
  | H : ok_or _ _ = Ok _ |- _ => apply ok_or_ok in H
  | H : map_err _ _ = Ok _ |- _ => apply map_err_ok in H
  | H : (_ ≫= _) = Err _ |- _ => apply bind_err in H as [H|(? & ? & H)]
  end.

(** Reduce one step of a state-and-error computation applied to a state. *)
Ltac se_step :=
  cbv beta iota delta [mret mbind SE_ret SE_bind se_get se_modify se_lift se_throw].

(** Reduce the head of a [←] chain whose first step is a value. *)
Ltac rstep := cbn [ok_or map_err mbind result_bind].

(** ** List lemmas *)

Lemma index_done {A} (v : list A) i a :
  v !! N.to_nat i = Some a -> index v i = Done a.
Proof. unfold index. by intros ->. Qed.

Lemma lookup_total_lookup_N {A} `{Inhabited A} (l : list A) (i : nat) :
  (i < length l)%nat -> l !! i = Some (l !!! i).
Proof. intros Hi. by apply list_lookup_lookup_total_lt. Qed.

(** *** Sorting *)

Lemma str_le_total a b : str_le a b = false -> str_le b a = true.
Proof.
  revert b. induction a as [|x a IH]; intros [|y b]; cbn; try done.
  rewrite (N.eqb_sym y x). destruct (N.eqb_spec x y); [apply IH|]. rewrite N.ltb_ge, N.ltb_lt. lia.
Qed.

Lemma insert_sorted_Permutation x l : insert_sorted x l ≡ₚ x :: l.
Proof. induction l as [|y l IH]; cbn; [done|]. destruct (str_le x y); [done|]. rewrite IH. by constructor. Qed.

Lemma sort_strings_Permutation l : sort_strings l ≡ₚ l.
Proof. induction l as [|x l IH]; [done|]. cbn. rewrite insert_sorted_Permutation. by constructor. Qed.

(** neighbours are in order *)
Lemma insert_sorted_sorted x l : Sorted (fun a b => str_le a b = true) l -> Sorted (fun a b => str_le a b = true) (insert_sorted x l).
Proof.
  induction 1 as [|y l Hl IH Hy]; cbn; [by repeat constructor|].
  destruct (str_le x y) eqn:E; [by repeat constructor|]. constructor; [exact IH|].
  destruct l as [|z l]; cbn in *; [constructor; by apply str_le_total|].
  destruct (str_le x z); constructor; [by apply str_le_total|by inversion Hy].
Qed.

Lemma sort_strings_sorted l : Sorted (fun a b => str_le a b = true) (sort_strings l).
Proof. induction l as [|x l IH]; [constructor|]. by apply insert_sorted_sorted. Qed.
