(* ===== verification/Text.v ===== *)
(** * Text (String::from_utf8_lossy and decimal numbers of the standard library)

    A [String] is the list of its bytes.  [from_utf8_lossy] follows the decoder of
    the standard library: it takes the longest prefix of a character that can
    still be completed, and puts U+FFFD for one that is not. *)
From S2P Require Import Prelude.

#[local] Ltac Zify.zify_post_hook ::= Z.to_euclidean_division_equations.

Notation text := (list N) (only parsing).

(** ** Characters *)

(** the Unicode scalar values: surrogates are no characters *)
Definition is_char (c : N) : bool := (c <? 0x110000) && negb ((0xD800 <=? c) && (c <=? 0xDFFF)).
Definition encode_char (c : N) : text :=
  if c <? 0x80 then [c]
  else if c <? 0x800 then [0xC0 + c / 64; 0x80 + c mod 64]
  else if c <? 0x10000 then [0xE0 + c / 4096; 0x80 + c / 64 mod 64; 0x80 + c mod 64]
  else [0xF0 + c / 262144; 0x80 + c / 4096 mod 64; 0x80 + c / 64 mod 64; 0x80 + c mod 64].
Fixpoint encode (cs : list N) : text := match cs with [] => [] | c :: cs => encode_char c ++ encode cs end.

Definition within (a x b : N) : bool := (a <=? x) && (x <=? b).
Definition is_cont (x : N) : bool := within 0x80 x 0xBF.
(** the second byte after the first byte of a character of three or four bytes *)
Definition second_of_3 (b c : N) : bool :=
  (b =? 0xE0) && within 0xA0 c 0xBF || within 0xE1 b 0xEC && is_cont c ||
  (b =? 0xED) && within 0x80 c 0x9F || within 0xEE b 0xEF && is_cont c.
Definition second_of_4 (b c : N) : bool :=
  (b =? 0xF0) && within 0x90 c 0xBF || within 0xF1 b 0xF3 && is_cont c || (b =? 0xF4) && within 0x80 c 0x8F.
Definition replacement : text := [0xEF; 0xBF; 0xBD].

Fixpoint from_utf8_lossy (bs : text) : text :=
  match bs with
  | [] => []
  | b :: r1 =>
      let bad1 := replacement ++ from_utf8_lossy r1 in
      if b <? 0x80 then b :: from_utf8_lossy r1
      else match r1 with
           | [] => replacement
           | c1 :: r2 =>
               if within 0xC2 b 0xDF then
                 if is_cont c1 then b :: c1 :: from_utf8_lossy r2 else bad1
               else if second_of_3 b c1 then
                 match r2 with
                 | [] => replacement
                 | c2 :: r3 => if is_cont c2 then b :: c1 :: c2 :: from_utf8_lossy r3
                               else replacement ++ from_utf8_lossy r2
                 end
               else if second_of_4 b c1 then
                 match r2 with
                 | [] => replacement
                 | c2 :: r3 =>
                     if is_cont c2 then
                       match r3 with
                       | [] => replacement
                       | c3 :: r4 => if is_cont c3 then b :: c1 :: c2 :: c3 :: from_utf8_lossy r4
                                     else replacement ++ from_utf8_lossy r3
                       end
                     else replacement ++ from_utf8_lossy r2
                 end
               else bad1
           end
  end.

(** ** Valid text *)

Definition utf8 (bs : text) : Prop := exists cs, Forall (fun c => is_char c = true) cs /\ bs = encode cs.

Lemma within_spec a x b : within a x b = true <-> a <= x <= b.
Proof. unfold within. rewrite andb_true_iff, !N.leb_le. done. Qed.
Lemma within_false a x b : within a x b = false <-> x < a \/ b < x.
Proof. unfold within. rewrite andb_false_iff, !N.leb_gt. done. Qed.

(** what a character looks like *)
Lemma encode_char_shape c : is_char c = true ->
  c < 0x80 /\ encode_char c = [c] \/
  (exists b c1, encode_char c = [b; c1] /\ within 0xC2 b 0xDF = true /\ is_cont c1 = true) \/
  (exists b c1 c2, encode_char c = [b; c1; c2] /\ within 0xE0 b 0xEF = true /\ second_of_3 b c1 = true /\ is_cont c2 = true) \/
  (exists b c1 c2 c3, encode_char c = [b; c1; c2; c3] /\ within 0xF0 b 0xF4 = true /\ second_of_4 b c1 = true /\
     is_cont c2 = true /\ is_cont c3 = true).
Proof.
  intros Hc. unfold is_char in Hc. apply andb_true_iff in Hc as [H1%N.ltb_lt H2%negb_true_iff].
  rewrite andb_false_iff, !N.leb_gt in H2. unfold encode_char.
  destruct (N.ltb_spec c 0x80); [by left|right]. destruct (N.ltb_spec c 0x800); [left|right; destruct (N.ltb_spec c 0x10000); [left|right]].
  - eexists _, _. split; [done|]. unfold is_cont. rewrite !within_spec. lia.
  - eexists _, _, _. split; [done|]. unfold second_of_3, is_cont. rewrite !orb_true_iff, !andb_true_iff, !within_spec, !N.eqb_eq. lia.
  - eexists _, _, _, _. split; [done|]. unfold second_of_4, is_cont. rewrite !orb_true_iff, !andb_true_iff, !within_spec, !N.eqb_eq. lia.
Qed.

Ltac byte_facts :=
  unfold second_of_3, second_of_4, is_cont in *;
  rewrite ?orb_true_iff, ?andb_true_iff, ?orb_false_iff, ?andb_false_iff, ?within_spec, ?within_false, ?N.eqb_eq, ?N.eqb_neq in *.

Lemma lossy_char c bs : is_char c = true -> from_utf8_lossy (encode_char c ++ bs) = encode_char c ++ from_utf8_lossy bs.
Proof.
  intros Hc.
  destruct (encode_char_shape c Hc) as [[Hlt ->]|[(b & c1 & -> & Hb & H1)|[(b & c1 & c2 & -> & Hb & H1 & H2)|
    (b & c1 & c2 & c3 & -> & Hb & H1 & H2 & H3)]]]; cbn [app from_utf8_lossy].
  - by rewrite (proj2 (N.ltb_lt _ _) Hlt).
  - rewrite (proj2 (N.ltb_ge b 0x80)) by (byte_facts; lia). by rewrite Hb, H1.
  - rewrite (proj2 (N.ltb_ge b 0x80)) by (byte_facts; lia). rewrite (proj2 (within_false 0xC2 b 0xDF)) by (byte_facts; lia).
    by rewrite H1, H2.
  - rewrite (proj2 (N.ltb_ge b 0x80)) by (byte_facts; lia). rewrite (proj2 (within_false 0xC2 b 0xDF)) by (byte_facts; lia).
    rewrite (not_true_is_false (second_of_3 b c1)) by (byte_facts; lia). by rewrite H1, H2, H3.
Qed.

(** text that is valid is kept as it is *)
Lemma lossy_id bs : utf8 bs -> from_utf8_lossy bs = bs.
Proof.
  intros (cs & Hcs & ->). induction Hcs as [|c cs Hc _ IH]; [done|]. cbn [encode]. rewrite lossy_char by done. by rewrite IH.
Qed.

Lemma utf8_nil : utf8 [].
Proof. by exists []. Qed.
Lemma utf8_char c bs : is_char c = true -> utf8 bs -> utf8 (encode_char c ++ bs).
Proof. intros Hc (cs & Hcs & ->). exists (c :: cs). split; [by constructor|done]. Qed.
Lemma utf8_replacement bs : utf8 bs -> utf8 (replacement ++ bs).
Proof. apply (utf8_char 0xFFFD). done. Qed.

Lemma is_char_spec c : is_char c = true <-> c < 0x110000 /\ (c < 0xD800 \/ 0xDFFF < c).
Proof. unfold is_char. rewrite andb_true_iff, N.ltb_lt, negb_true_iff, andb_false_iff, !N.leb_gt. done. Qed.

Lemma utf8_1 b bs : b < 0x80 -> utf8 bs -> utf8 (b :: bs).
Proof.
  intros Hb Hbs. assert (E : encode_char b = [b]) by (unfold encode_char; by rewrite (proj2 (N.ltb_lt _ _) Hb)).
  change (b :: bs) with ([b] ++ bs). rewrite <- E. apply utf8_char; [|done]. apply is_char_spec. lia.
Qed.
Lemma utf8_2 b c bs : within 0xC2 b 0xDF = true -> is_cont c = true -> utf8 bs -> utf8 (b :: c :: bs).
Proof.
  intros Hb Hc Hbs. byte_facts. set (x := (b - 0xC0) * 64 + (c - 0x80)).
  assert (E : encode_char x = [b; c]).
  { unfold encode_char. rewrite (proj2 (N.ltb_ge x _)), (proj2 (N.ltb_lt x _)) by lia. f_equal; [lia|]. f_equal. lia. }
  change (b :: c :: bs) with ([b; c] ++ bs). rewrite <- E. apply utf8_char; [|done]. apply is_char_spec. lia.
Qed.
Lemma utf8_3 b c d bs : second_of_3 b c = true -> is_cont d = true -> utf8 bs -> utf8 (b :: c :: d :: bs).
Proof.
  intros Hb Hd Hbs. byte_facts. set (x := (b - 0xE0) * 4096 + (c - 0x80) * 64 + (d - 0x80)).
  assert (Hx : 0x800 <= x < 0x10000 /\ (x < 0xD800 \/ 0xDFFF < x)) by lia.
  assert (E : encode_char x = [b; c; d]).
  { unfold encode_char. rewrite (proj2 (N.ltb_ge x 0x80)), (proj2 (N.ltb_ge x 0x800)), (proj2 (N.ltb_lt x _)) by lia.
    repeat (f_equal; [lia|]). f_equal. lia. }
  change (b :: c :: d :: bs) with ([b; c; d] ++ bs). rewrite <- E. apply utf8_char; [|done]. apply is_char_spec. lia.
Qed.
Lemma utf8_4 b c d e bs : second_of_4 b c = true -> is_cont d = true -> is_cont e = true -> utf8 bs -> utf8 (b :: c :: d :: e :: bs).
Proof.
  intros Hb Hd He Hbs. byte_facts. set (x := (b - 0xF0) * 262144 + (c - 0x80) * 4096 + (d - 0x80) * 64 + (e - 0x80)).
  assert (Hx : 0x10000 <= x < 0x110000) by lia.
  assert (E : encode_char x = [b; c; d; e]).
  { unfold encode_char. rewrite (proj2 (N.ltb_ge x 0x80)), (proj2 (N.ltb_ge x 0x800)), (proj2 (N.ltb_ge x 0x10000)) by lia.
    repeat (f_equal; [lia|]). f_equal. lia. }
  change (b :: c :: d :: e :: bs) with ([b; c; d; e] ++ bs). rewrite <- E. apply utf8_char; [|done]. apply is_char_spec. lia.
Qed.

(** what comes out is valid, whatever goes in *)
Lemma lossy_utf8 bs : utf8 (from_utf8_lossy bs).
Proof.
  induction bs as [bs IH] using (induction_ltof1 _ (@length N)). unfold ltof in IH.
  destruct bs as [|b r1]; [apply utf8_nil|]. cbn [from_utf8_lossy].
  destruct (N.ltb_spec b 0x80); [apply utf8_1; [done|apply IH; cbn; lia]|].
  destruct r1 as [|c1 r2]; [apply (utf8_replacement []), utf8_nil|].
  assert (H1 : utf8 (from_utf8_lossy (c1 :: r2))) by (apply IH; cbn; lia).
  destruct (within 0xC2 b 0xDF) eqn:Hb.
  { destruct (is_cont c1) eqn:Hc; [apply utf8_2; [done..|apply IH; cbn; lia]|by apply utf8_replacement]. }
  destruct (second_of_3 b c1) eqn:H3.
  { destruct r2 as [|c2 r3]; [apply (utf8_replacement []), utf8_nil|].
    destruct (is_cont c2) eqn:Hc; [apply utf8_3; [done..|]|apply utf8_replacement]; apply IH; cbn; lia. }
  destruct (second_of_4 b c1) eqn:H4; [|by apply utf8_replacement].
  destruct r2 as [|c2 r3]; [apply (utf8_replacement []), utf8_nil|].
  destruct (is_cont c2) eqn:Hc2; [|apply utf8_replacement; apply IH; cbn; lia].
  destruct r3 as [|c3 r4]; [apply (utf8_replacement []), utf8_nil|].
  destruct (is_cont c3) eqn:Hc3; [apply utf8_4; [done..|]|apply utf8_replacement]; apply IH; cbn; lia.
Qed.

Lemma utf8_ascii bs : Forall (fun b => b < 0x80) bs -> utf8 bs.
Proof. induction 1 as [|b bs Hb _ IH]; [apply utf8_nil|by apply utf8_1]. Qed.

(** ** Decimal numbers ([format!("{}", n)]) *)

Fixpoint decimal_digits (fuel : nat) (v : N) : text :=
  match fuel with
  | O => []
  | S fuel => if v <? 10 then [48 + v] else decimal_digits fuel (v / 10) ++ [48 + v mod 10]
  end.
(** a 64-bit number has at most 20 digits *)
Definition decimal (v : N) : text := decimal_digits 20 v.

(** the number that digits stand for *)
Definition digits_value (ds : text) : N := foldl (fun a d => a * 10 + (d - 48)) 0 ds.
Lemma decimal_digits_value fuel v : v < 10 ^ N.of_nat fuel -> digits_value (decimal_digits fuel v) = v.
Proof.
  revert v. induction fuel as [|fuel IH]; intros v Hv; [cbn in *; lia|]. cbn [decimal_digits].
  destruct (N.ltb_spec v 10); [unfold digits_value; cbn; lia|].
  rewrite Nat2N.inj_succ, N.pow_succ_r' in Hv. unfold digits_value in *. rewrite foldl_app. cbn [foldl].
  rewrite IH by (apply N.Div0.div_lt_upper_bound; lia). lia.
Qed.
Lemma decimal_value v : v < 2 ^ 64 -> digits_value (decimal v) = v.
Proof. intros Hv. apply decimal_digits_value. change (10 ^ N.of_nat 20) with 100000000000000000000. lia. Qed.

(** ** White space *)

(** the Unicode property White_Space *)
Definition is_space (c : N) : bool :=
  within 9 c 13 || (c =? 0x20) || (c =? 0x85) || (c =? 0xA0) || (c =? 0x1680) || within 0x2000 c 0x200A ||
  (c =? 0x2028) || (c =? 0x2029) || (c =? 0x202F) || (c =? 0x205F) || (c =? 0x3000).
Fixpoint trim_start (s : list N) : list N :=
  match s with [] => [] | c :: r => if is_space c then trim_start r else s end.
Definition trim_end (s : list N) : list N := rev (trim_start (rev s)).
Definition trim (s : list N) : list N := trim_end (trim_start s).

Lemma trim_id c s d : is_space c = false -> is_space d = false -> trim (c :: s ++ [d]) = c :: s ++ [d].
Proof.
  intros Hc Hd. unfold trim, trim_end. cbn [trim_start]. rewrite Hc.
  change (c :: s ++ [d]) with ((c :: s) ++ [d]). rewrite rev_app_distr. cbn [rev app trim_start]. rewrite Hd.
  change (d :: rev s ++ [c]) with ([d] ++ rev (c :: s)). rewrite rev_app_distr, rev_involutive. done.
Qed.

(** ** Characters of a text, and its words *)

(** [chars()], for a valid text *)
Fixpoint decode (bs : text) : list N :=
  match bs with
  | [] => []
  | b :: r =>
      if b <? 0x80 then b :: decode r
      else if b <? 0xE0 then match r with c :: r => (b - 0xC0) * 64 + (c - 0x80) :: decode r | [] => [] end
      else if b <? 0xF0 then
        match r with c :: d :: r => (b - 0xE0) * 4096 + (c - 0x80) * 64 + (d - 0x80) :: decode r | _ => [] end
      else
        match r with
        | c :: d :: e :: r => (b - 0xF0) * 262144 + (c - 0x80) * 4096 + (d - 0x80) * 64 + (e - 0x80) :: decode r
        | _ => []
        end
  end.
Lemma decode_char c bs : is_char c = true -> decode (encode_char c ++ bs) = c :: decode bs.
Proof.
  intros [Hc _]%is_char_spec. unfold encode_char.
  destruct (N.ltb_spec c 0x80); [|destruct (N.ltb_spec c 0x800); [|destruct (N.ltb_spec c 0x10000)]];
    cbn [app decode]; bdestruct_all; try lia; f_equal; lia.
Qed.
Lemma decode_encoded cs : Forall (fun c => is_char c = true) cs -> decode (encode cs) = cs.
Proof. induction 1 as [|c cs Hc _ IH]; [done|]. cbn [encode]. by rewrite decode_char, IH. Qed.
Lemma encode_app a b : encode (a ++ b) = encode a ++ encode b.
Proof. induction a as [|c a IH]; [done|]. cbn [app encode]. by rewrite IH, app_assoc. Qed.
Lemma encode_ascii s : Forall (fun c => c < 0x80) s -> encode s = s.
Proof.
  induction 1 as [|c s Hc _ IH]; [done|]. cbn [encode]. rewrite IH. unfold encode_char. by rewrite (proj2 (N.ltb_lt _ _) Hc).
Qed.

(** [split_whitespace] *)
Definition emit (cur : list N) (ws : list (list N)) : list (list N) := match cur with [] => ws | _ => cur :: ws end.
Fixpoint words_from (cur s : list N) : list (list N) :=
  match s with
  | [] => emit cur []
  | c :: s => if is_space c then emit cur (words_from [] s) else words_from (cur ++ [c]) s
  end.
Definition words (s : list N) : list (list N) := words_from [] s.

Lemma words_from_space cur s c t : is_space c = true -> words_from cur (s ++ c :: t) = words_from cur s ++ words t.
Proof.
  intros Hc. revert cur. induction s as [|x s IH]; intros cur; cbn [app words_from]; [rewrite Hc; by destruct cur|].
  destruct (is_space x); [|apply IH]. rewrite IH. by destruct cur.
Qed.
Lemma words_space s c t : is_space c = true -> words (s ++ c :: t) = words s ++ words t.
Proof. apply words_from_space. Qed.
Lemma words_pad n s : words (replicate n 32 ++ s) = words s.
Proof. induction n as [|n IH]; [done|exact IH]. Qed.
Lemma words_from_token t : Forall (fun c => is_space c = false) t -> forall cur s, words_from cur (t ++ s) = words_from (cur ++ t) s.
Proof.
  induction 1 as [|c t Hc _ IH]; intros cur s; [by rewrite app_nil_r|]. cbn [app words_from]. rewrite Hc, IH. by rewrite <- app_assoc.
Qed.
Lemma words_token t : t <> [] -> Forall (fun c => is_space c = false) t -> words t = [t].
Proof.
  intros Hn Ht. unfold words. rewrite <- (app_nil_r t) at 1. rewrite words_from_token by done. cbn. by destruct t.
Qed.

(** the digits of a number *)
Lemma decimal_digits_chars fuel v : Forall (fun c => 48 <= c <= 57) (decimal_digits fuel v).
Proof.
  revert v. induction fuel as [|fuel IH]; intros v; [constructor|]. cbn [decimal_digits]. destruct (N.ltb_spec v 10).
  - repeat constructor; lia.
  - apply Forall_app. split; [apply IH|]. repeat constructor; lia.
Qed.
Lemma decimal_chars v : Forall (fun c => 48 <= c <= 57) (decimal v).
Proof. apply decimal_digits_chars. Qed.
Lemma decimal_nonempty v : decimal v <> [].
Proof. unfold decimal. cbn [decimal_digits]. destruct (v <? 10); [done|]. by intros [_ ?]%app_eq_nil. Qed.
