(* ===== verification/Types.v ===== *)
(** * Shared message types (src/src/messaging/msg.rs)

    The identifiers, protections, access kinds, interrupts, block reasons and
    signals that the hardware layer and the services exchange.  [Pid], [Tid],
    [VirtAddr] and [PhysAddr] are [u64] aliases in the source and plain [N]
    here. *)
From Stdlib Require String.
From S2P Require Import Prelude.

Notation Pid := N (only parsing).
Notation Tid := N (only parsing).
Notation VirtAddr := N (only parsing).
Notation PhysAddr := N (only parsing).

(** ** Memory protection *)

Record MemProt := { readable : bool; prot_writable : bool; prot_executable : bool }.

Definition MemProt_new : MemProt :=
  {| readable := false; prot_writable := false; prot_executable := false |}.
Definition MemProt_read_only : MemProt :=
  {| readable := true; prot_writable := false; prot_executable := false |}.
Definition MemProt_read_write : MemProt :=
  {| readable := true; prot_writable := true; prot_executable := false |}.
Definition MemProt_execute : MemProt :=
  {| readable := false; prot_writable := false; prot_executable := true |}.

Inductive AccessType := Read | Write | Execute.

#[export] Instance AccessType_eq_dec : EqDecision AccessType.
Proof. solve_decision. Defined.

(** ** Interrupts

    [HardwareFailure] carries a rendered string in the source; here it carries
    the values that the [format!] calls of cpu.rs interpolate. *)
Inductive Component :=
  | UnknownInterruptVector (vector : N)
  | DivideByZeroIn (pid pc : N).

Inductive Interrupt :=
  | Timer
  | PageFault (addr : VirtAddr) (access_type : AccessType)
  | IoComplete (device_id : N)
  | SyscallTrap
  | HardwareFailure (component : Component).

(** ** Why a process is blocked *)
Inductive BlockReason :=
  | WaitingForIo (device_id : N)
  | WaitingForMemory
  | WaitingForLock (lock_addr : VirtAddr)
  | Sleeping (duration_ms : N)
  | WaitingForChild (child : Pid).

#[export] Instance BlockReason_eq_dec : EqDecision BlockReason.
Proof. solve_decision. Defined.

(** ** Requests to the memory service *)
Inductive MemoryRequest :=
  | AllocFrame (count : N) (pid : Pid)
  | FreeFrame (paddr : PhysAddr)
  | MapPage (pid : Pid) (virt : VirtAddr) (phys : PhysAddr) (prot : MemProt)
  | UnmapPage (pid : Pid) (virt : VirtAddr)
  | PageFaultHandler (pid : Pid) (faulting_addr : VirtAddr) (access_type : AccessType)
  | SwapOut (pid : Pid) (virt : VirtAddr)
  | SwapIn (pid : Pid) (virt : VirtAddr)
  | GetFrameMap
  | GetStats.

(** ** Signals and inter-process messages *)
Inductive SignalType :=
  | SigTerminate | SigKill | SigStop | SigContinue | SigUser1 | SigUser2 | SigAlarm | SigChild
  | SigSegmentationFault | SigIllegalInstruction | SigFloatingPointException.

#[export] Instance SignalType_eq_dec : EqDecision SignalType.
Proof. solve_decision. Defined.

Inductive IPCMessage :=
  | Text (data : String.string)
  | Binary (addr : VirtAddr) (size : N)
  | PassFd (fd : N)
  | SharedMemory (shmid : N)
  | Signal (signal : SignalType)
  | Control (cmd : String.string) (args : list String.string) (path : option String.string).
