(* ===== verification/Timer.v ===== *)
(** * The timer (src/src/hardware/timer.rs)

    [start] spawns a thread that, until it sees the timer not running, sleeps,
    sends a timer interrupt over the bus and counts it.  The threads run one
    locked access or one send at a time, between the calls of others; a sleep
    ends at any time.  [sent] is how many interrupts the bus got. *)
From S2P Require Import Prelude.

Inductive TimerStateInternal := Stopped | Running | Paused.
#[export] Instance TimerStateInternal_eq_dec : EqDecision TimerStateInternal.
Proof. solve_decision. Defined.

(** where a thread is: before the first check, before the second check (asleep),
    before the send, before the count, or at its end *)
Inductive Phase := AtTop | Asleep | Sending | Counting | Exited.
#[export] Instance Phase_eq_dec : EqDecision Phase.
Proof. solve_decision. Defined.

Record Timer := {
  state : TimerStateInternal; tick_interval_ms : N; threads : list Phase; counter : N; sent : N }.
Record TimerConfig := { cfg_interval_ms : N; auto_start : bool }.
Definition TimerConfig_default : TimerConfig := {| cfg_interval_ms := 10; auto_start := false |}.

Definition set_state st (t : Timer) : Timer :=
  {| state := st; tick_interval_ms := tick_interval_ms t; threads := threads t; counter := counter t; sent := sent t |}.
Definition set_threads ts (t : Timer) : Timer :=
  {| state := state t; tick_interval_ms := tick_interval_ms t; threads := ts; counter := counter t; sent := sent t |}.
Definition set_counter c (t : Timer) : Timer :=
  {| state := state t; tick_interval_ms := tick_interval_ms t; threads := threads t; counter := c; sent := sent t |}.
Definition set_sent n (t : Timer) : Timer :=
  {| state := state t; tick_interval_ms := tick_interval_ms t; threads := threads t; counter := counter t; sent := n |}.

(** ** The calls *)

Definition is_running (t : Timer) : bool := match state t with Running => true | _ => false end.
Definition start (t : Timer) : Timer :=
  if is_running t then t
  else set_threads (threads t ++ [AtTop]) (set_state Running t).
Definition stop (t : Timer) : Timer := set_state Stopped t.
Definition pause (t : Timer) : Timer := if is_running t then set_state Paused t else t.
Definition resume (t : Timer) : Timer := if bool_decide (state t = Paused) then set_state Running t else t.
Definition tick_count (t : Timer) : N := counter t.
Definition reset_counter (t : Timer) : Timer := set_counter 0 t.

Record TimerSnapshot := { running : bool; snap_interval_ms : N; snap_ticks : N }.
Definition dump_state (t : Timer) : TimerSnapshot :=
  {| running := is_running t; snap_interval_ms := tick_interval_ms t; snap_ticks := counter t |}.

Definition new (c : TimerConfig) : Timer :=
  let t := {| state := Stopped; tick_interval_ms := cfg_interval_ms c; threads := []; counter := 0; sent := 0 |} in
  if auto_start c then start t else t.

(** ** The threads *)

(** what the thread does next, and where it is then *)
Definition thread_next (p : Phase) (t : Timer) : Phase * Timer :=
  match p with
  | AtTop => (if is_running t then Asleep else Exited, t)
  | Asleep => (if is_running t then Sending else Exited, t)
  | Sending => (Counting, set_sent (sent t + 1) t)
  | Counting => (AtTop, set_counter (wadd64 (counter t) 1) t)
  | Exited => (Exited, t)
  end.

Inductive Event := Start | Stop | Pause | Resume | ResetCounter | Thread (i : nat).
#[export] Instance Event_eq_dec : EqDecision Event.
Proof. solve_decision. Defined.

Definition event (e : Event) (t : Timer) : Timer :=
  match e with
  | Start => start t
  | Stop => stop t
  | Pause => pause t
  | Resume => resume t
  | ResetCounter => reset_counter t
  | Thread i =>
      match threads t !! i with
      | Some p => let '(p', t') := thread_next p t in set_threads (<[i := p']> (threads t)) t'
      | None => t
      end
  end.
Definition events (es : list Event) (t : Timer) : Timer := foldl (fun t e => event e t) t es.

(** ** The timer as a step relation *)

Inductive step : Timer -> Timer -> Prop :=
  | step_call e t : (forall i, e <> Thread i) -> step t (event e t)
  | step_thread i p t : threads t !! i = Some p -> p <> Exited -> step t (event (Thread i) t).
Inductive reachable (c : TimerConfig) : Timer -> Prop :=
  | reach_new : reachable c (new c)
  | reach_step t t' : reachable c t -> step t t' -> reachable c t'.

Lemma event_reachable c e t : reachable c t -> reachable c (event e t).
Proof.
  intros Hr. destruct e as [| | | | |i]; try (eapply reach_step; [exact Hr|by apply step_call]).
  destruct (threads t !! i) as [p|] eqn:Hp; [|cbn; by rewrite Hp].
  destruct (decide (p = Exited)) as [->|Hne]; [|by eapply reach_step; [|eapply step_thread]].
  cbn. rewrite Hp. cbn. rewrite list_insert_id by done. by destruct t.
Qed.
Lemma events_reachable c es : forall t, reachable c t -> reachable c (events es t).
Proof. induction es as [|e es IH]; intros t Hr; [done|]. by apply IH, event_reachable. Qed.

(** ** How many interrupts are sent *)

Lemma is_running_spec t : is_running t = true <-> state t = Running.
Proof. unfold is_running. by destruct (state t). Qed.
Lemma not_running t : state t <> Running -> is_running t = false.
Proof. unfold is_running. by destruct (state t). Qed.

Definition live (p : Phase) : bool := match p with Exited => false | _ => true end.
Definition count_phase (f : Phase -> bool) (ts : list Phase) : N := len (filter (fun p => f p = true) ts).

Lemma count_insert f ts i p p' : ts !! i = Some p ->
  count_phase f (<[i := p']> ts) + N.b2n (f p) = count_phase f ts + N.b2n (f p').
Proof.
  revert i. induction ts as [|q ts IH]; intros [|i] Hp; try done; unfold count_phase in *.
  - injection Hp as ->. change (<[0%nat := p']> (p :: ts)) with (p' :: ts). rewrite !list.filter_cons.
    destruct (f p) eqn:E1, (f p') eqn:E2; repeat case_decide; try congruence; cbn [length N.b2n]; lia.
  - specialize (IH i Hp). change (<[S i := p']> (q :: ts)) with (q :: <[i := p']> ts). rewrite !list.filter_cons.
    repeat case_decide; cbn [length]; lia.
Qed.

Definition counting (p : Phase) : bool := match p with Counting => true | _ => false end.
Definition sending (p : Phase) : bool := match p with Sending => true | _ => false end.

(** every thread step moves at most one interrupt to the bus, and one to the counter *)
Lemma thread_event t i p : threads t !! i = Some p ->
  let t' := event (Thread i) t in
  state t' = state t /\
  sent t' = sent t + N.b2n (sending p) /\
  counter t' = (if counting p then wadd64 (counter t) 1 else counter t) /\
  threads t' = <[i := fst (thread_next p t)]> (threads t).
Proof. intros Hp. cbn. rewrite Hp. destruct p; cbn; rewrite ?N.add_0_r; split_and!; done. Qed.

(** the timer as it is when the counter is reset for the last time *)
Fixpoint last_reset (es : list Event) (t : Timer) : option Timer :=
  match es with
  | [] => None
  | e :: es =>
      match last_reset es (event e t) with
      | Some r => Some r
      | None => match e with ResetCounter => Some t | _ => None end
      end
  end.
(** the threads that have sent an interrupt and not counted it *)
Definition pending (t : Timer) : N := count_phase counting (threads t).

(** without a reset, what is sent is pending or counted *)
Lemma event_ticks e t x y : e <> ResetCounter ->
  (counter t + pending t + x) mod 2 ^ 64 = (sent t + y) mod 2 ^ 64 ->
  (counter (event e t) + pending (event e t) + x) mod 2 ^ 64 = (sent (event e t) + y) mod 2 ^ 64.
Proof.
  intros He Ht. unfold pending in *. destruct e as [| | | | |i]; try done.
  - unfold event, start. destruct (is_running t); [done|]. cbn. unfold count_phase in *. rewrite list.filter_app. cbn.
    by rewrite app_nil_r.
  - unfold event, pause. by destruct (is_running t).
  - unfold event, resume. by case_bool_decide.
  - destruct (threads t !! i) as [p|] eqn:Hp; [|cbn; by rewrite Hp].
    destruct (thread_event t i p Hp) as (_ & -> & -> & ->).
    pose proof (count_insert counting _ i p (fst (thread_next p t)) Hp) as Hc. revert Hc Ht.
    generalize (count_phase counting (<[i:=fst (thread_next p t)]> (threads t))) (count_phase counting (threads t)).
    intros a b. unfold wadd64. destruct p; cbn; try destruct (is_running t); cbn; rewrite ?N.add_0_r; intros Hc Ht; try (subst; exact Ht).
    all: first [subst a; replace (counter t + (b + 1) + x) with (counter t + b + x + 1) by lia;
                replace (sent t + 1 + y) with (sent t + y + 1) by lia; by rewrite <- N.Div0.add_mod_idemp_l, Ht, N.Div0.add_mod_idemp_l
              |subst b; rewrite <- Ht, <- N.add_assoc, N.Div0.add_mod_idemp_l; f_equal; lia].
Qed.

Lemma event_sent e t : sent t <= sent (event e t).
Proof.
  destruct e as [| | | | |i]; cbn; try done.
  - unfold start. by destruct (is_running t).
  - unfold pause. by destruct (is_running t).
  - unfold resume. by case_bool_decide.
  - destruct (threads t !! i) as [p|] eqn:Hp; [|done]. destruct p; cbn; lia || done.
Qed.
Lemma events_sent es : forall t, sent t <= sent (events es t).
Proof. induction es as [|e es IH]; intros t; [done|]. cbn [events foldl]. etrans; [apply event_sent|apply IH]. Qed.

Lemma events_ticks es : forall t x y, (counter t + pending t + x) mod 2 ^ 64 = (sent t + y) mod 2 ^ 64 ->
  let '(x, y) := match last_reset es t with Some r => (sent r, pending r) | None => (x, y) end in
  (counter (events es t) + pending (events es t) + x) mod 2 ^ 64 = (sent (events es t) + y) mod 2 ^ 64.
Proof.
  induction es as [|e es IH]; intros t x y Ht; [done|]. cbn [last_reset events foldl].
  destruct (decide (e = ResetCounter)) as [->|He].
  - specialize (IH (event ResetCounter t) (sent t) (pending t)). destruct (last_reset es (event ResetCounter t)) as [r|]; apply IH; cbn;
      f_equal; unfold pending; cbn; lia.
  - specialize (IH (event e t) x y (event_ticks e t x y He Ht)).
    destruct (last_reset es (event e t)) as [r|]; [exact IH|]. by destruct e.
Qed.
Lemma last_reset_sent es : forall t r, last_reset es t = Some r -> sent r <= sent (events es t).
Proof.
  induction es as [|e es IH]; intros t r; [done|]. cbn [last_reset events foldl].
  destruct (last_reset es (event e t)) as [r'|] eqn:E; [intros [= <-]; by apply IH|].
  destruct e; try done. intros [= <-]. exact (events_sent es (event ResetCounter t)).
Qed.

Lemma mod_cancel M a b x : 0 < M -> (a + x) mod M = (b + x) mod M -> a mod M = b mod M.
Proof.
  intros HM H. pose proof (N.mod_lt x M ltac:(lia)) as Hx. pose proof (N.div_mod x M ltac:(lia)) as Ex.
  assert (Hadd : forall c, c mod M = ((c + x) mod M + (M - x mod M)) mod M).
  { intros c. rewrite N.Div0.add_mod_idemp_l. replace (c + x + (M - x mod M)) with (c + (x / M + 1) * M) by nia.
    by rewrite N.Div0.mod_add. }
  by rewrite (Hadd a), H, <- (Hadd b).
Qed.

(** C33: of the interrupts on the bus, each is in the counter or about to be
    counted by the thread that sent it, and nothing else is, whatever calls and
    threads do in any order.  Since the last reset of the counter, those count that
    were sent since then or were pending then.  The counter wraps at 2^64. *)
Theorem ticks_accounted c es :
  let t := events es (new c) in
  wadd64 (counter t) (pending t) =
    to_u64 (match last_reset es (new c) with Some r => sent t - sent r + pending r | None => sent t end).
Proof.
  cbn zeta. pose proof (events_ticks es (new c) 0 0) as H. unfold wadd64, to_u64.
  assert (H0 : (counter (new c) + pending (new c) + 0) mod 2 ^ 64 = (sent (new c) + 0) mod 2 ^ 64).
  { unfold new. by destruct (auto_start c). }
  specialize (H H0). destruct (last_reset es (new c)) as [r|] eqn:Er; [|by rewrite !N.add_0_r in H].
  pose proof (last_reset_sent _ _ _ Er) as Hle. apply (mod_cancel _ _ _ (sent r)); [done|]. rewrite H. f_equal. lia.
Qed.

Definition demo_events : list Event := [Start; Thread 0; Thread 0; Thread 0; Stop; Thread 0; Thread 0; Start].
(** one interrupt is pending when the counter is reset, and one is sent afterwards *)
Definition reset_events : list Event :=
  [Start; Thread 0; Thread 0; Thread 0; ResetCounter; Thread 0; Thread 0; Thread 0; Thread 0; Thread 0].
Lemma ticks_accounted_witness :
  counter (events reset_events (new TimerConfig_default)) = 2 /\ sent (events reset_events (new TimerConfig_default)) = 2 /\
  wadd64 (counter (events reset_events (new TimerConfig_default))) (pending (events reset_events (new TimerConfig_default))) = to_u64 (2 - 1 + 1).
Proof. split; [reflexivity|]. split; [reflexivity|]. exact (ticks_accounted TimerConfig_default reset_events). Defined.

Lemma events_app es es' t : events (es ++ es') t = events es' (events es t).
Proof. unfold events. apply foldl_app. Qed.

(** Property: a timer that was stopped or paused, and is not started or resumed
    again, sends no interrupt but those that its threads were about to send
    when it was stopped: at most one per thread. *)
Theorem stop_silences t es :
  state t <> Running -> (forall e, e ∈ es -> e <> Start /\ e <> Resume) ->
  state (events es t) <> Running /\
  sent (events es t) + count_phase sending (threads (events es t)) <= sent t + count_phase sending (threads t).
Proof.
  revert t. induction es as [|e es IH]; intros t Hs Hes; [done|]. cbn [events foldl].
  assert (H : state (event e t) <> Running /\
    sent (event e t) + count_phase sending (threads (event e t)) <= sent t + count_phase sending (threads t)).
  { destruct (Hes e) as [H1 H2]; [by left|]. destruct e as [| | | | |i]; try done.
    - unfold event, pause. by rewrite not_running.
    - destruct (threads t !! i) as [p|] eqn:Hp; [|cbn; by rewrite Hp].
      destruct (thread_event t i p Hp) as (-> & -> & _ & ->). split; [done|].
      pose proof (count_insert sending _ i p (fst (thread_next p t)) Hp) as Hc. revert Hc.
      destruct p; cbn; rewrite ?not_running by done; cbn; lia. }
  destruct (IH (event e t) (proj1 H)) as [H1 H2]; [intros e' He'; apply Hes; by right|]. split; [exact H1|]. unfold events in *. lia.
Qed.

Lemma stop_silences_witness :
  let t := stop (events [Start; Thread 0; Thread 0] (new TimerConfig_default)) in
  sent (events [Thread 0; Thread 0; Thread 0; Pause] t) <= 1.
Proof.
  cbn zeta. set (t := stop _).
  destruct (stop_silences t [Thread 0; Thread 0; Thread 0; Pause]) as [_ H]; [by vm_compute|..|].
  - intros e He. by repeat (apply elem_of_cons in He as [->|He]; [by split|]); apply not_elem_of_nil in He.
  - assert (E : sent t + count_phase sending (threads t) = 1) by (vm_compute; reflexivity). lia.
Defined.

(** Property: a timer that stays paused until its thread has noticed it is dead
    when it is resumed: it says it is running, starting it does nothing, and no
    interrupt is ever sent until somebody stops or pauses it again. *)
Theorem resumed_timer_is_dead t es :
  state t = Paused -> Forall (fun p => p = Exited) (threads t) ->
  (forall e, e ∈ es -> e <> Stop /\ e <> Pause) ->
  is_running (events es (resume t)) = true /\ sent (events es (resume t)) = sent t.
Proof.
  intros Hs Ht Hes. assert (H : is_running (resume t) = true /\ sent (resume t) = sent t /\ threads (resume t) = threads t).
  { unfold resume. rewrite bool_decide_true by done. by split_and!. }
  destruct H as (Hr & Hsent & Hth). rewrite <- Hth in Ht. rewrite <- Hsent. clear Hs Hsent Hth. revert Hr Ht Hes. generalize (resume t).
  clear t. induction es as [|e es IH]; intros t Hr Ht Hes; [done|]. cbn [events foldl].
  assert (H : is_running (event e t) = true /\ Forall (fun p => p = Exited) (threads (event e t)) /\ sent (event e t) = sent t).
  { destruct (Hes e) as [H1 H2]; [by left|]. pose proof (proj1 (is_running_spec t) Hr) as Hrun.
    destruct e as [| | | | |i]; try done.
    - unfold event, start. by rewrite Hr.
    - unfold event, resume. by rewrite (bool_decide_false (state t = Paused)) by congruence.
    - destruct (threads t !! i) as [p|] eqn:Hp; [|cbn; by rewrite Hp].
      pose proof (list.Forall_lookup_1 _ _ _ _ Ht Hp) as ->. destruct (thread_event t i _ Hp) as (E1 & -> & _ & ->).
      split; [by apply is_running_spec; rewrite E1|]. split; [by apply Forall_insert|cbn; lia]. }
  destruct H as (H1 & H2 & H3). destruct (IH (event e t) H1 H2) as [H4 H5]; [intros e' He'; apply Hes; by right|].
  split; [exact H4|]. unfold events in *. congruence.
Qed.

Lemma resumed_timer_is_dead_witness :
  let t := events [Start; Thread 0; Pause; Thread 0] (new TimerConfig_default) in
  is_running (events [Start; Thread 0; Start] (resume t)) = true /\ sent (events [Start; Thread 0; Start] (resume t)) = 0.
Proof.
  cbn zeta. set (t := events [Start; Thread 0; Pause; Thread 0] _).
  assert (E : sent t = 0) by reflexivity. pose proof (resumed_timer_is_dead t [Start; Thread 0; Start]) as H. rewrite E in H. apply H.
  - reflexivity.
  - by repeat constructor.
  - intros e He. by repeat (apply elem_of_cons in He as [->|He]; [by split|]); apply not_elem_of_nil in He.
Defined.

(** Property: whatever calls and threads do, in any order, the counter is never
    ahead of the interrupts on the bus, and a thread that is about to send or to
    count is alive: no interrupt is counted that was not sent. *)
Theorem counter_never_ahead c t :
  reachable c t -> sent t < 2 ^ 64 -> counter t + count_phase counting (threads t) <= sent t.
Proof.
  intros Hr. induction Hr as [|t t' Hr IH Hst]; [unfold new; by destruct (auto_start c)|].
  destruct Hst as [e t Hcall|i p t Hp Hne].
  - destruct e as [| | | | |i]; try done.
    + unfold event, start. destruct (is_running t); [done|]. cbn. unfold count_phase in *. rewrite list.filter_app. cbn.
      by rewrite app_nil_r.
    + unfold event, pause. by destruct (is_running t).
    + unfold event, resume. by case_bool_decide.
    + cbn. intros Hb. specialize (IH Hb). lia.
    + by destruct (Hcall i).
  - destruct (thread_event t i p Hp) as (_ & -> & -> & ->). intros Hb. specialize (IH ltac:(lia)).
    pose proof (count_insert counting _ i p (fst (thread_next p t)) Hp) as Hc. revert Hc.
    destruct p; cbn; try destruct (is_running t); cbn; intros Hc; rewrite ?wadd64_small by lia; lia.
Qed.

Lemma counter_never_ahead_witness :
  let t := events demo_events (new TimerConfig_default) in counter t + count_phase counting (threads t) <= 1.
Proof.
  cbn zeta. set (t := events _ _). assert (E : sent t = 1) by reflexivity. rewrite <- E.
  apply (counter_never_ahead TimerConfig_default t); [by apply events_reachable, reach_new|by rewrite E].
Defined.

(** stopping and starting before the thread wakes up adds a thread each time *)
Lemma restarts_add_threads n : forall t,
  threads (events (mjoin (replicate n [Stop; Start])) t) = threads t ++ replicate n AtTop.
Proof.
  induction n as [|n IH]; intros t; [by rewrite app_nil_r|]. cbn [replicate mjoin list_join]. rewrite events_app, IH.
  change (threads (events [Stop; Start] t)) with (threads t ++ [AtTop]). by rewrite <- app_assoc.
Qed.

(** one turn of every thread *)
Definition turn (i : nat) : list Event := [Thread i; Thread i; Thread i; Thread i].
Lemma turn_sends t i : is_running t = true -> threads t !! i = Some AtTop ->
  sent (events (turn i) t) = sent t + 1 /\ is_running (events (turn i) t) = true /\ threads (events (turn i) t) = threads t.
Proof.
  intros Hr Hp. assert (Hlt : (i < length (threads t))%nat) by by eapply lookup_lt_Some.
  destruct t as [st ti ts c n]. apply is_running_spec in Hr. cbn in *. subst st.
  rewrite Hp. cbn. rewrite list_lookup_insert_eq by done. cbn. rewrite list_lookup_insert_eq by (by rewrite length_insert). cbn.
  rewrite list_lookup_insert_eq by (by rewrite !length_insert). cbn. rewrite !list_insert_insert_eq. split_and!; [done|done|].
  by apply list_insert_id.
Qed.

(** Property: a timer that is stopped and started [n] times before its thread wakes
    up keeps the old threads: a turn of each then sends [n + 1] interrupts per
    interval instead of one. *)
Theorem restarts_multiply_ticks n :
  let t := events (Start :: mjoin (replicate n [Stop; Start])) (new TimerConfig_default) in
  is_running t = true /\ sent (events (mjoin (turn <$> seq 0 (S n))) t) = N.of_nat (S n).
Proof.
  cbn zeta. set (t := events _ _).
  assert (Hth : threads t = replicate (S n) AtTop).
  { unfold t. change (Start :: ?l) with ([Start] ++ l). rewrite events_app, restarts_add_threads. reflexivity. }
  assert (Hr : is_running t = true /\ sent t = 0).
  { unfold t. change (Start :: ?l) with ([Start] ++ l). rewrite events_app. generalize (eq_refl : is_running (events [Start] (new TimerConfig_default)) = true).
    generalize (eq_refl : sent (events [Start] (new TimerConfig_default)) = 0). generalize (events [Start] (new TimerConfig_default)).
    clear. induction n as [|n IH]; intros t0 Hs Hr; [done|]. cbn [replicate mjoin list_join]. rewrite events_app. by apply IH. }
  destruct Hr as [Hr Hs]. split; [exact Hr|].
  assert (H : forall l t0, is_running t0 = true -> (forall i, i ∈ l -> threads t0 !! i = Some AtTop) ->
            sent (events (mjoin (turn <$> l)) t0) = sent t0 + len l).
  { induction l as [|i l IH]; intros t0 Hr0 Hl; [cbn; lia|]. rewrite fmap_cons. cbn [mjoin list_join]. rewrite events_app.
    destruct (turn_sends t0 i Hr0) as (E1 & E2 & E3); [apply Hl; by left|]. rewrite IH; [cbn [length]; lia|done|].
    intros j Hj. rewrite E3. apply Hl. by right. }
  rewrite H; [rewrite Hs, length_seq; lia|done|]. intros i Hi. apply elem_of_seq in Hi. rewrite Hth. apply lookup_replicate_2. lia.
Qed.
