(* ===== verification/PhysMem.v ===== *)
(** * Physical memory (src/src/hardware/memory.rs)

    [PhysicalMemory] is a byte vector behind a mutex together with its size.
    The mutex serialises the accesses, so each method is one atomic step on the
    record; no thread panics while holding it, so the [Locked] error of a
    poisoned mutex does not arise.  Every index into [data] follows a bounds
    check; [range_in_data] is the fact that makes the total lookup [!!!] the
    same as Rust's panicking index. *)
From S2P Require Import Prelude.

Record PhysicalMemory := { data : list N; size : N }.

Inductive MemoryError :=
  | OutOfBounds (addr sz max_size : N)
  | Misaligned (addr required_alignment : N)
  | Locked
  | AllocationFailed (sz : N).

#[export] Instance MemoryError_eq_dec : EqDecision MemoryError.
Proof. solve_decision. Defined.

(** [PhysicalMemory::new]: a zero size panics. *)
Definition new (sz : N) : outcome PhysicalMemory :=
  if sz =? 0 then Panicked
  else Done {| data := replicate (N.to_nat sz) 0; size := sz |}.

(** [addr.checked_add(size)] is [None] on a [usize] overflow. *)
Definition check_bounds (m : PhysicalMemory) (addr sz : N) : result MemoryError unit :=
  if (2 ^ 64 <=? addr + sz) || (size m <? addr + sz)
  then Err (OutOfBounds addr sz (size m)) else Ok tt.

Definition check_alignment (addr sz : N) : result MemoryError unit :=
  if negb (addr mod sz =? 0) then Err (Misaligned addr sz) else Ok tt.

(** [data[addr]] *)
Definition byte_at (m : PhysicalMemory) (addr : N) : N := data m !!! N.to_nat addr.

(** [data[addr] = value] *)
Definition set_byte (m : PhysicalMemory) (addr value : N) : PhysicalMemory :=
  {| data := <[N.to_nat addr := value]> (data m); size := size m |}.

(** [uN::from_le_bytes] *)
Fixpoint from_le_bytes (bs : list N) : N :=
  match bs with
  | [] => 0
  | b :: bs => b + 2 ^ 8 * from_le_bytes bs
  end.

(** [value.to_le_bytes()] for a value of [n] bytes *)
Fixpoint to_le_bytes (n : nat) (value : N) : list N :=
  match n with
  | O => []
  | S n => value mod 2 ^ 8 :: to_le_bytes n (value / 2 ^ 8)
  end.

(** The bytes [data[addr]], [data[addr + 1]], ..., [n] of them. *)
Definition bytes_at (m : PhysicalMemory) (addr : N) (n : nat) : list N :=
  (fun i => byte_at m (addr + N.of_nat i)) <$> seq 0 n.

(** [data[addr + i] = bytes[i]] for each [i] in order. *)
Fixpoint set_bytes (m : PhysicalMemory) (addr : N) (bs : list N) : PhysicalMemory :=
  match bs with
  | [] => m
  | b :: bs => set_bytes (set_byte m addr b) (addr + 1) bs
  end.

Definition read_u8 (m : PhysicalMemory) (addr : N) : result MemoryError N :=
  _ ← check_bounds m addr 1;
  Ok (byte_at m addr).

Definition read_u16 (m : PhysicalMemory) (addr : N) : result MemoryError N :=
  _ ← check_alignment addr 2;
  _ ← check_bounds m addr 2;
  Ok (from_le_bytes (bytes_at m addr 2)).

Definition read_u32 (m : PhysicalMemory) (addr : N) : result MemoryError N :=
  _ ← check_alignment addr 4;
  _ ← check_bounds m addr 4;
  Ok (from_le_bytes (bytes_at m addr 4)).

Definition read_u64 (m : PhysicalMemory) (addr : N) : result MemoryError N :=
  _ ← check_alignment addr 8;
  _ ← check_bounds m addr 8;
  Ok (from_le_bytes (bytes_at m addr 8)).

Definition write_u8 (m : PhysicalMemory) (addr value : N) : result MemoryError PhysicalMemory :=
  _ ← check_bounds m addr 1;
  Ok (set_byte m addr value).

Definition write_u16 (m : PhysicalMemory) (addr value : N) : result MemoryError PhysicalMemory :=
  _ ← check_alignment addr 2;
  _ ← check_bounds m addr 2;
  Ok (set_bytes m addr (to_le_bytes 2 value)).

Definition write_u32 (m : PhysicalMemory) (addr value : N) : result MemoryError PhysicalMemory :=
  _ ← check_alignment addr 4;
  _ ← check_bounds m addr 4;
  Ok (set_bytes m addr (to_le_bytes 4 value)).

Definition write_u64 (m : PhysicalMemory) (addr value : N) : result MemoryError PhysicalMemory :=
  _ ← check_alignment addr 8;
  _ ← check_bounds m addr 8;
  Ok (set_bytes m addr (to_le_bytes 8 value)).

(** [read_slice] fills a buffer of [n] bytes. *)
Definition read_slice (m : PhysicalMemory) (addr n : N) : result MemoryError (list N) :=
  _ ← check_bounds m addr n;
  Ok (bytes_at m addr (N.to_nat n)).

Definition write_slice (m : PhysicalMemory) (addr : N) (buf : list N)
  : result MemoryError PhysicalMemory :=
  _ ← check_bounds m addr (len buf);
  Ok (set_bytes m addr buf).

Definition clear (m : PhysicalMemory) : PhysicalMemory :=
  {| data := (fun _ => 0) <$> data m; size := size m |}.

(** [dump_state().preview] *)
Definition dump_preview (m : PhysicalMemory) : list N := take 256 (data m).

(** ** Well-formedness: the stored size is the vector's, every cell a byte. *)
Definition wf (m : PhysicalMemory) : Prop :=
  len (data m) = size m /\ size m < 2 ^ 64 /\ Forall (fun b => b < 2 ^ 8) (data m).

(** ** Lemmas *)

Create HintDb physmem.
Create Rewrite HintDb physmem.

Lemma phys_new_wf sz m : sz < 2 ^ 64 -> new sz = Done m -> wf m.
Proof.
  unfold new. intros Hs H. inv_matches H. unfold wf; simpl.
  rewrite length_replicate. split; [lia|]. split; [done|].
  by apply Forall_replicate.
Qed.

Lemma check_bounds_ok m addr sz u :
  check_bounds m addr sz = Ok u <-> addr + sz <= size m /\ addr + sz < 2 ^ 64.
Proof. destruct u. unfold check_bounds. bdestruct_all; split; intros; simplify_eq; try done; lia. Qed.

Lemma check_alignment_ok addr sz u :
  check_alignment addr sz = Ok u <-> addr mod sz = 0.
Proof. destruct u. unfold check_alignment. bdestruct_all; split; intros; simplify_eq; done. Qed.

(** Indexes covered by a successful bounds check are in the vector. *)
Lemma range_in_data m addr sz i u :
  wf m -> check_bounds m addr sz = Ok u -> i < sz ->
  (N.to_nat (addr + i) < length (data m))%nat.
Proof. intros (Hl & _) [H ?]%check_bounds_ok Hi. lia. Qed.

Lemma byte_at_bound m addr : wf m -> byte_at m addr < 2 ^ 8.
Proof.
  intros (_ & _ & Hb). unfold byte_at.
  destruct (decide (N.to_nat addr < length (data m))%nat).
  - eapply (Forall_lookup_1 (fun b => b < 2 ^ 8)); [exact Hb|]. by apply lookup_total_lookup_N.
  - rewrite list_lookup_total_alt, lookup_ge_None_2 by lia. done.
Qed.

Lemma set_byte_wf m addr v : wf m -> v < 2 ^ 8 -> wf (set_byte m addr v).
Proof.
  intros (Hl & Hs & Hb) Hv. unfold wf, set_byte; simpl.
  rewrite length_insert. split_and!; [done..|].
  by apply Forall_insert.
Qed.

Lemma set_bytes_wf bs : forall m addr,
  wf m -> Forall (fun b => b < 2 ^ 8) bs -> wf (set_bytes m addr bs).
Proof.
  induction bs as [|b bs IH]; cbn; intros m addr Hm Hbs; [done|].
  apply Forall_cons_1 in Hbs as [Hb Hbs]. apply IH; [by apply set_byte_wf|done].
Qed.

Lemma size_set_bytes bs : forall m addr, size (set_bytes m addr bs) = size m.
Proof. induction bs as [|b bs IH]; cbn; intros m addr; [done|]. by rewrite IH. Qed.

Lemma check_bounds_set_bytes bs m addr : check_bounds (set_bytes m addr bs) = check_bounds m.
Proof. unfold check_bounds. by rewrite size_set_bytes. Qed.

Lemma byte_at_set_byte m addr v a :
  (N.to_nat addr < length (data m))%nat ->
  byte_at (set_byte m addr v) a = if a =? addr then v else byte_at m a.
Proof.
  intros Hi. unfold byte_at, set_byte; simpl. bdestruct_all.
  - subst. by rewrite list_lookup_total_insert_eq.
  - rewrite list_lookup_total_insert_ne; [done|lia].
Qed.

Lemma byte_at_set_bytes bs : forall m addr a,
  (N.to_nat (addr + len bs) <= length (data m))%nat ->
  byte_at (set_bytes m addr bs) a =
    if (addr <=? a) && (a <? addr + len bs) then bs !!! N.to_nat (a - addr)
    else byte_at m a.
Proof.
  induction bs as [|b bs IH]; intros m addr a Hi; cbn [length set_bytes] in *.
  { bdestruct_all; try done; lia. }
  rewrite IH by (simpl; rewrite length_insert; lia).
  rewrite byte_at_set_byte by lia. bdestruct_all; try done; try lia; subst.
  - replace (N.to_nat (a - addr)) with (S (N.to_nat (a - (addr + 1)))) by lia. done.
  - by rewrite N.sub_diag.
Qed.

Lemma to_le_bytes_length n : forall v, length (to_le_bytes n v) = n.
Proof. induction n; cbn; intros; [done|]. by rewrite IHn. Qed.

Lemma to_le_bytes_bound n : forall v, Forall (fun b => b < 2 ^ 8) (to_le_bytes n v).
Proof. induction n; cbn; intros v; constructor; [by apply N.mod_lt|apply IHn]. Qed.

Lemma from_to_le_bytes n : forall v,
  v < 2 ^ (8 * N.of_nat n) -> from_le_bytes (to_le_bytes n v) = v.
Proof.
  induction n as [|n IH]; intros v Hv; cbn [to_le_bytes from_le_bytes].
  { change (2 ^ (8 * N.of_nat 0)) with 1 in Hv. lia. }
  rewrite IH.
  - pose proof (N.div_mod v (2 ^ 8)). lia.
  - replace (8 * N.of_nat (S n)) with (8 + 8 * N.of_nat n) in Hv by lia.
    rewrite N.pow_add_r in Hv. by apply N.Div0.div_lt_upper_bound.
Qed.

Lemma from_le_bytes_bound bs :
  Forall (fun b => b < 2 ^ 8) bs -> from_le_bytes bs < 2 ^ (8 * len bs).
Proof.
  induction 1 as [|b bs Hb _ IH]; cbn [from_le_bytes length]; [done|].
  replace (8 * N.of_nat (S (length bs))) with (8 + 8 * len bs) by lia.
  rewrite N.pow_add_r. change (2 ^ 8) with 256 in *. nia.
Qed.

Lemma to_from_le_bytes bs :
  Forall (fun b => b < 2 ^ 8) bs -> to_le_bytes (length bs) (from_le_bytes bs) = bs.
Proof.
  induction 1 as [|b bs Hb _ IH]; cbn [from_le_bytes to_le_bytes length]; [done|].
  assert (b + 2 ^ 8 * from_le_bytes bs = from_le_bytes bs * 2 ^ 8 + b) as -> by lia.
  f_equal.
  - rewrite N.add_comm, N.Div0.mod_add. by apply N.mod_small.
  - rewrite N.div_add_l, N.div_small, N.add_0_r; [exact IH|done|done].
Qed.

Lemma bytes_at_set_bytes bs m addr :
  (N.to_nat (addr + len bs) <= length (data m))%nat ->
  bytes_at (set_bytes m addr bs) addr (length bs) = bs.
Proof.
  intros Hi. apply list_eq. intros i. unfold bytes_at.
  destruct (decide (i < length bs)%nat) as [Hb|Hb].
  - rewrite list_lookup_fmap, lookup_seq_lt by done. simpl.
    rewrite byte_at_set_bytes by done. bdestruct_all; try lia.
    rewrite (lookup_total_lookup_N bs i Hb). do 2 f_equal. lia.
  - rewrite list_lookup_fmap, lookup_seq_ge by lia.
    symmetry. apply lookup_ge_None. lia.
Qed.

Lemma bytes_at_ext m m' addr n :
  (forall i, (i < n)%nat -> byte_at m' (addr + N.of_nat i) = byte_at m (addr + N.of_nat i)) ->
  bytes_at m' addr n = bytes_at m addr n.
Proof.
  intros H. apply list_fmap_ext. intros i x Hx.
  apply lookup_seq in Hx as [-> Hi]. apply H. lia.
Qed.

Arguments to_le_bytes : simpl never.
Arguments set_bytes : simpl never.
Arguments bytes_at : simpl never.

#[export] Hint Resolve set_byte_wf set_bytes_wf to_le_bytes_bound byte_at_bound phys_new_wf : physmem.
#[export] Hint Rewrite size_set_bytes to_le_bytes_length : physmem.

(** ** Properties *)

(** Property: a 32-bit store that succeeds is read back exactly, in little-endian
    order, and every 32-bit word that does not overlap it is unchanged; the
    memory keeps its size and stays well formed. *)
Theorem write_u32_read_u32 m addr v m' :
  wf m -> v < 2 ^ 32 -> write_u32 m addr v = Ok m' ->
  wf m' /\ size m' = size m /\ read_u32 m' addr = Ok v /\
  (forall a, a + 4 <= addr \/ addr + 4 <= a -> read_u32 m' a = read_u32 m a).
Proof.
  intros Hm Hv H. unfold write_u32 in H. inv_binds.
  destruct x, x0. rename H0 into Ha, H1 into Hb. injection H as <-.
  pose proof (range_in_data m addr 4 3 tt Hm Hb ltac:(lia)) as Hr.
  assert (Hl : (N.to_nat (addr + len (to_le_bytes 4 v)) <= length (data m))%nat)
    by (rewrite to_le_bytes_length; lia).
  split_and!.
  - apply set_bytes_wf; [done|apply to_le_bytes_bound].
  - apply size_set_bytes.
  - unfold read_u32. rewrite Ha, check_bounds_set_bytes, Hb. cbn [mbind result_bind].
    pose proof (bytes_at_set_bytes (to_le_bytes 4 v) m addr Hl) as E.
    rewrite to_le_bytes_length in E. rewrite E.
    by rewrite from_to_le_bytes.
  - intros a Hd. unfold read_u32. rewrite check_bounds_set_bytes.
    rewrite (bytes_at_ext m); [done|].
    intros i Hi. rewrite byte_at_set_bytes by done.
    rewrite to_le_bytes_length. bdestruct_all; try done; lia.
Qed.

Lemma write_u32_read_u32_witness :
  exists m m', new 16 = Done m /\ write_u32 m 4 0x12345678 = Ok m' /\ read_u32 m' 4 = Ok 0x12345678
    /\ read_u8 m' 4 = Ok 0x78.
Proof.
  eexists. eexists. split; [vm_compute; reflexivity|].
  assert (H : write_u32 {| data := replicate 16 0; size := 16 |} 4 0x12345678
    = Ok {| data := [0;0;0;0;0x78;0x56;0x34;0x12;0;0;0;0;0;0;0;0]; size := 16 |})
    by (vm_compute; reflexivity).
  split; [exact H|].
  split; [|vm_compute; reflexivity].
  eapply (write_u32_read_u32 _ 4 0x12345678); [|lia|exact H].
  apply (phys_new_wf 16); vm_compute; reflexivity.
Defined.

(** Property: the outcome of a 32-bit access is decided by alignment first and bounds
    second, and these are the only two errors. *)
Theorem read_u32_outcome m addr :
  wf m ->
  (addr mod 4 <> 0 -> read_u32 m addr = Err (Misaligned addr 4)) /\
  (addr mod 4 = 0 -> size m < addr + 4 -> read_u32 m addr = Err (OutOfBounds addr 4 (size m))) /\
  (addr mod 4 = 0 -> addr + 4 <= size m ->
     exists b0 b1 b2 b3,
       read_u8 m addr = Ok b0 /\ read_u8 m (addr + 1) = Ok b1 /\
       read_u8 m (addr + 2) = Ok b2 /\ read_u8 m (addr + 3) = Ok b3 /\
       read_u32 m addr = Ok (b0 + 2 ^ 8 * b1 + 2 ^ 16 * b2 + 2 ^ 24 * b3)).
Proof.
  intros (Hl & Hs & Hb). unfold read_u32, read_u8, check_alignment, check_bounds.
  split_and!.
  - intros Ha. apply N.eqb_neq in Ha. by rewrite Ha.
  - intros Ha Hlt. rewrite Ha. simpl.
    replace (size m <? addr + 4) with true by (symmetry; apply N.ltb_lt; lia).
    by rewrite orb_true_r.
  - intros Ha Hle. rewrite Ha. simpl.
    exists (byte_at m addr), (byte_at m (addr + 1)), (byte_at m (addr + 2)), (byte_at m (addr + 3)).
    repeat match goal with |- context [?a <=? ?b] =>
      replace (a <=? b) with false by (symmetry; apply N.leb_gt; lia) end.
    repeat match goal with |- context [?a <? ?b] =>
      replace (a <? b) with false by (symmetry; apply N.ltb_ge; lia) end.
    split_and!; try done. unfold bytes_at; simpl. f_equal.
    rewrite N.add_0_r. change (N.of_nat 1) with 1. change (N.of_nat 2) with 2.
    change (N.of_nat 3) with 3. lia.
Qed.

Lemma read_u32_outcome_witness :
  exists m, new 16 = Done m /\ read_u32 m 6 = Err (Misaligned 6 4)
    /\ read_u32 m 16 = Err (OutOfBounds 16 4 16).
Proof.
  eexists. split; [vm_compute; reflexivity|].
  assert (W : wf {| data := replicate 16 0; size := 16 |}) by (apply (phys_new_wf 16); vm_compute; reflexivity).
  split.
  - apply (read_u32_outcome _ 6 W). vm_compute. discriminate.
  - apply (read_u32_outcome _ 16 W); vm_compute; reflexivity.
Defined.
