(* ===== verification/Mmu.v ===== *)
(** * Memory management unit (src/src/hardware/mmu.rs)

    The MMU owns one page table per process (a map from page-aligned virtual
    address to entry) and a handle on the physical memory.  The page-table mutex
    is taken and released inside each method, so a method is one atomic step.
    The physical memory is part of the MMU state: the [PhysicalMemory] handles
    of the services are clones of the same [Arc]. *)
From S2P Require Import Prelude Types PhysMem.

Record PageFlags := { present : bool; writable : bool; user_accessible : bool }.

Definition PageFlags_new : PageFlags :=
  {| present := false; writable := false; user_accessible := false |}.
Definition present_writable : PageFlags :=
  {| present := true; writable := true; user_accessible := true |}.
Definition present_readonly : PageFlags :=
  {| present := true; writable := false; user_accessible := true |}.

(** [impl From<MemProt> for PageFlags] *)
Definition PageFlags_from_prot (prot : MemProt) : PageFlags :=
  {| present := true; writable := prot_writable prot; user_accessible := true |}.

Record PageTableEntry := { frame : PhysAddr; flags : PageFlags }.

Definition PageTableEntry_invalid : PageTableEntry :=
  {| frame := 0; flags := PageFlags_new |}.
Definition is_present (e : PageTableEntry) : bool := present (flags e).
Definition is_writable (e : PageTableEntry) : bool := writable (flags e).

Inductive MMUError :=
  | PageNotPresent (pid : Pid) (vaddr : VirtAddr)
  | PermissionDenied (pid : Pid) (vaddr : VirtAddr) (access : AccessType) (required : PageFlags)
  | InvalidPhysicalAddress (paddr : PhysAddr)
  | PageTableNotFound (pid : Pid)
  | InvalidPageTableEntry (pid : Pid) (vaddr : VirtAddr).

Record MMU := {
  page_tables : gmap Pid (gmap VirtAddr PageTableEntry);
  memory : PhysicalMemory;
  page_size : N }.

Definition set_page_tables (m : MMU) t : MMU :=
  {| page_tables := t; memory := memory m; page_size := page_size m |}.
Definition set_memory (m : MMU) mem : MMU :=
  {| page_tables := page_tables m; memory := mem; page_size := page_size m |}.

(** [MMU::new] asserts that the page size is a power of two. *)
Definition new (mem : PhysicalMemory) (ps : N) : outcome MMU :=
  if ps =? 2 ^ N.log2 ps
  then Done {| page_tables := ∅; memory := mem; page_size := ps |}
  else Panicked.

Definition create_page_table (m : MMU) (pid : Pid) : MMU :=
  match page_tables m !! pid with
  | Some _ => m
  | None => set_page_tables m (<[pid := ∅]> (page_tables m))
  end.

Definition remove_page_table (m : MMU) (pid : Pid) : MMU :=
  set_page_tables m (delete pid (page_tables m)).

(** [HashMap] iteration order is unspecified; [map_to_list] fixes one order. *)
Definition get_page_entries (m : MMU) (pid : Pid) : list (VirtAddr * PhysAddr * PageFlags) :=
  match page_tables m !! pid with
  | Some table => (fun '(v, e) => (v, frame e, flags e)) <$> map_to_list table
  | None => []
  end.

Definition all_present_pages (m : MMU) : list (Pid * VirtAddr * PhysAddr) :=
  '(pid, table) ← map_to_list (page_tables m);
  '(v, e) ← map_to_list table;
  if present (flags e) then [(pid, v, frame e)] else [].

(** [addr & !(self.page_size as u64 - 1)] *)
Definition align_down (m : MMU) (addr : N) : N :=
  N.land addr (N.lnot (page_size m - 1) 64).

(** [map_page] always returns [Ok(())] and replaces an existing entry. *)
Definition map_page (m : MMU) (pid : Pid) (vaddr : VirtAddr) (paddr : PhysAddr)
    (fl : PageFlags) : MMU :=
  let page_vaddr := align_down m vaddr in
  let page_paddr := align_down m paddr in
  let table := default ∅ (page_tables m !! pid) in
  set_page_tables m
    (<[pid := <[page_vaddr := {| frame := page_paddr; flags := fl |}]> table]> (page_tables m)).

Definition unmap_page (m : MMU) (pid : Pid) (vaddr : VirtAddr) : result MMUError MMU :=
  let page_vaddr := align_down m vaddr in
  table ← ok_or (PageTableNotFound pid) (page_tables m !! pid);
  Ok (set_page_tables m (<[pid := delete page_vaddr table]> (page_tables m))).

(** The permission check of [translate]; both denied accesses report the same
    [required] flags. *)
Definition check_permission (pid : Pid) (vaddr : VirtAddr) (access : AccessType)
    (entry : PageTableEntry) : result MMUError unit :=
  let required := {| present := true; writable := true;
                     user_accessible := user_accessible (flags entry) |} in
  match access with
  | Read => Ok tt
  | Write => if negb (is_writable entry) then Err (PermissionDenied pid vaddr Write required) else Ok tt
  | Execute => if negb (is_writable entry) then Err (PermissionDenied pid vaddr Execute required) else Ok tt
  end.

Definition translate (m : MMU) (pid : Pid) (vaddr : VirtAddr) (access : AccessType)
  : result MMUError PhysAddr :=
  let page_vaddr := align_down m vaddr in
  let offset := wsub64 vaddr page_vaddr in
  table ← ok_or (PageTableNotFound pid) (page_tables m !! pid);
  entry ← ok_or (PageNotPresent pid vaddr) (table !! page_vaddr);
  if negb (is_present entry) then Err (PageNotPresent pid vaddr) else
  _ ← check_permission pid vaddr access entry;
  Ok (wadd64 (frame entry) offset).

Definition read_u8 (m : MMU) (pid : Pid) (vaddr : VirtAddr) : result MMUError N :=
  paddr ← translate m pid vaddr Read;
  map_err (fun _ => InvalidPhysicalAddress paddr) (PhysMem.read_u8 (memory m) paddr).

Definition read_u32 (m : MMU) (pid : Pid) (vaddr : VirtAddr) : result MMUError N :=
  paddr ← translate m pid vaddr Read;
  map_err (fun _ => InvalidPhysicalAddress paddr) (PhysMem.read_u32 (memory m) paddr).

Definition write_u8 (m : MMU) (pid : Pid) (vaddr : VirtAddr) (value : N) : result MMUError MMU :=
  paddr ← translate m pid vaddr Write;
  mem ← map_err (fun _ => InvalidPhysicalAddress paddr) (PhysMem.write_u8 (memory m) paddr value);
  Ok (set_memory m mem).

Definition write_u32 (m : MMU) (pid : Pid) (vaddr : VirtAddr) (value : N) : result MMUError MMU :=
  paddr ← translate m pid vaddr Write;
  mem ← map_err (fun _ => InvalidPhysicalAddress paddr) (PhysMem.write_u32 (memory m) paddr value);
  Ok (set_memory m mem).

(** ** Well-formedness *)

Definition entry_wf (ps : N) (e : PageTableEntry) : Prop :=
  frame e mod ps = 0 /\ frame e < 2 ^ 64.

Definition wf (m : MMU) : Prop :=
  (exists k, k <= 63 /\ page_size m = 2 ^ k) /\
  PhysMem.wf (memory m) /\
  (forall pid table v e, page_tables m !! pid = Some table -> table !! v = Some e ->
     entry_wf (page_size m) e).

(** ** Lemmas *)

Lemma page_size_pos m : wf m -> 0 < page_size m.
Proof. intros ((k & _ & ->) & _). apply N.neq_0_lt_0. by apply N.pow_nonzero. Qed.

Lemma log2_lt_64 a : a < 2 ^ 64 -> N.log2 a < 64.
Proof.
  intros Ha. destruct (N.eq_dec a 0) as [->|Hn]; [done|].
  apply N.log2_lt_pow2; lia.
Qed.

(** The mask computation rounds down to a multiple of the page size. *)
Lemma align_down_spec m a :
  wf m -> a < 2 ^ 64 -> align_down m a = a - a mod page_size m.
Proof.
  intros ((k & Hk & Hps) & _) Ha. unfold align_down. rewrite Hps.
  replace (2 ^ k - 1) with (N.ones k) by (rewrite N.ones_equiv; lia).
  rewrite <- N.ldiff_land_low by (by apply log2_lt_64).
  rewrite N.ldiff_ones_r, N.shiftl_mul_pow2, N.shiftr_div_pow2.
  pose proof (N.div_mod a (2 ^ k) ltac:(by apply N.pow_nonzero)) as E.
  generalize dependent (a / 2 ^ k). generalize dependent (a mod 2 ^ k). intros; nia.
Qed.

Lemma align_down_page m a :
  wf m -> a < 2 ^ 64 ->
  align_down m a mod page_size m = 0 /\ align_down m a <= a /\ a - align_down m a < page_size m
  /\ align_down m a < 2 ^ 64.
Proof.
  intros Hm Ha. pose proof (page_size_pos m Hm) as Hp.
  rewrite align_down_spec by done.
  pose proof (N.mod_lt a (page_size m) ltac:(lia)).
  pose proof (N.Div0.mod_le a (page_size m)).
  assert ((a - a mod page_size m) mod page_size m = 0) as ->.
  { pose proof (N.div_mod a (page_size m) ltac:(lia)) as E.
    replace (a - a mod page_size m) with (a / page_size m * page_size m) by nia.
    apply N.Div0.mod_mul. }
  generalize dependent (a mod page_size m). intros r ? ?. lia.
Qed.

(** Addresses of one page share their page address. *)
Lemma align_down_offset m v o :
  wf m -> v + o < 2 ^ 64 -> v mod page_size m = 0 -> o < page_size m ->
  align_down m (v + o) = v.
Proof.
  intros Hm Hv Hmod Ho. pose proof (page_size_pos m Hm).
  rewrite align_down_spec by done.
  rewrite N.Div0.add_mod, Hmod, N.add_0_l, N.Div0.mod_mod, N.mod_small by done. lia.
Qed.

Lemma align_down_aligned m v :
  wf m -> v < 2 ^ 64 -> v mod page_size m = 0 -> align_down m v = v.
Proof. intros Hm Hv Hmod. rewrite align_down_spec by done. lia. Qed.

Lemma page_divides m : wf m -> exists q, 2 ^ 64 = page_size m * q.
Proof.
  intros ((k & Hk & ->) & _). exists (2 ^ (64 - k)).
  rewrite <- N.pow_add_r. f_equal. lia.
Qed.

(** A frame address plus an offset inside the page does not overflow [u64]. *)
Lemma frame_offset_no_overflow m e o :
  wf m -> entry_wf (page_size m) e -> o < page_size m -> frame e + o < 2 ^ 64.
Proof.
  intros Hm [Hf Hb] Ho. destruct (page_divides m Hm) as [q Hq].
  pose proof (page_size_pos m Hm).
  apply N.Div0.mod_divides in Hf as [c Hc].
  assert (c < q) by nia. nia.
Qed.

Lemma page_addr_bound m v o :
  wf m -> v < 2 ^ 64 -> o < page_size m -> align_down m v + o < 2 ^ 64.
Proof.
  intros Hm Hv Ho. pose proof (align_down_page m v Hm Hv) as (Ha & _ & _ & Hb).
  apply (frame_offset_no_overflow m {| frame := align_down m v; flags := PageFlags_new |});
    [done|by split|done].
Qed.

Lemma mmu_new_wf mem ps m :
  PhysMem.wf mem -> ps < 2 ^ 64 -> new mem ps = Done m -> wf m.
Proof.
  intros Hm Hps H. unfold new in H. destruct (N.eqb_spec ps (2 ^ N.log2 ps)); [|done].
  injection H as <-. split_and!; simpl.
  - exists (N.log2 ps). split; [|done].
    destruct (N.eq_dec ps 0) as [->|]; [done|].
    assert (N.log2 ps < 64) by (apply N.log2_lt_pow2; lia). lia.
  - done.
  - intros ? ? ? ? Ht. by rewrite lookup_empty in Ht.
Qed.

Lemma map_page_wf m pid v p fl :
  wf m -> p < 2 ^ 64 -> wf (map_page m pid v p fl).
Proof.
  intros Hm Hp. pose proof (align_down_page m p Hm Hp) as (Ha & _ & _ & Hb).
  destruct Hm as (Hk & Hmem & Ht). split_and!; [exact Hk|exact Hmem|].
  intros pid' table v' e. simpl. rewrite lookup_insert. case_decide as Hpid; intros Htab He.
  - injection Htab as <-. rewrite lookup_insert in He. case_decide; simplify_eq/=.
    + split; done.
    + destruct (page_tables m !! pid') as [t|] eqn:E; simpl in He.
      * by eapply Ht.
      * by rewrite lookup_empty in He.
  - by eapply Ht.
Qed.

Lemma unmap_page_wf m pid v m' : wf m -> unmap_page m pid v = Ok m' -> wf m'.
Proof.
  intros (Hk & Hmem & Ht) H. unfold unmap_page in H. inv_binds.
  injection H as <-. split_and!; [exact Hk|exact Hmem|].
  intros pid' table v' e. simpl. rewrite lookup_insert. case_decide as Hpid; intros Htab He.
  - injection Htab as <-. apply lookup_delete_Some in He as [_ He].
    by eapply Ht.
  - by eapply Ht.
Qed.

Lemma remove_page_table_wf m pid : wf m -> wf (remove_page_table m pid).
Proof.
  intros (Hk & Hmem & Ht). split_and!; [exact Hk|exact Hmem|].
  intros pid' table v' e Htab. simpl in Htab. apply lookup_delete_Some in Htab as [_ Htab]. by eapply Ht.
Qed.

Lemma create_page_table_wf m pid : wf m -> wf (create_page_table m pid).
Proof.
  intros Hm. unfold create_page_table. destruct (page_tables m !! pid) eqn:E; [done|].
  destruct Hm as (Hk & Hmem & Ht). split_and!; [exact Hk|exact Hmem|].
  intros pid' table v' e. simpl. rewrite lookup_insert. case_decide; intros Htab He.
  - injection Htab as <-. by rewrite lookup_empty in He.
  - by eapply Ht.
Qed.

Lemma set_memory_wf m mem : wf m -> PhysMem.wf mem -> wf (set_memory m mem).
Proof. intros (Hk & _ & Ht) Hmem. split_and!; done. Qed.

Lemma translate_set_memory m mem pid v acc :
  translate (set_memory m mem) pid v acc = translate m pid v acc.
Proof. done. Qed.

Lemma check_permission_ok pid v acc e u :
  check_permission pid v acc e = Ok u -> acc <> Read -> is_writable e = true.
Proof.
  unfold check_permission. destruct acc, (is_writable e); simpl; intros; simplify_eq; congruence.
Qed.

(** What a successful translation means. *)
Lemma translate_ok m pid v acc p :
  wf m -> v < 2 ^ 64 ->
  translate m pid v acc = Ok p ->
  exists table e, page_tables m !! pid = Some table /\ table !! align_down m v = Some e /\
    is_present e = true /\ (acc <> Read -> is_writable e = true) /\
    p = frame e + (v - align_down m v) /\ p < 2 ^ 64.
Proof.
  intros Hm Hv H. unfold translate in H. inv_binds.
  destruct (is_present x0) eqn:Ep; simplify_eq/=. inv_binds. injection H as <-.
  pose proof (align_down_page m v Hm Hv) as (_ & Hle & Ho & _).
  assert (entry_wf (page_size m) x0) as He by (destruct Hm as (_ & _ & Ht); by eapply Ht).
  pose proof (frame_offset_no_overflow m x0 _ Hm He Ho).
  rewrite wsub64_ge, wadd64_small by lia.
  exists x, x0. split_and!; try done.
  by eapply check_permission_ok.
Qed.

Lemma translate_write_read m pid v p :
  translate m pid v Write = Ok p -> translate m pid v Read = Ok p.
Proof.
  unfold translate. intros H. inv_binds.
  match goal with H : page_tables m !! _ = _ |- _ => rewrite H end. rstep.
  match goal with H : _ !! align_down m v = _ |- _ => rewrite H end. rstep.
  destruct (is_present _); [|done]. cbn [negb] in *. inv_binds. done.
Qed.

Lemma write_u8_inv m pid v x m' :
  write_u8 m pid v x = Ok m' ->
  exists p, translate m pid v Write = Ok p /\
    PhysMem.check_bounds (memory m) p 1 = Ok tt /\
    m' = set_memory m (PhysMem.set_byte (memory m) p x).
Proof.
  intros H. unfold write_u8 in H. inv_binds. exists x0. split; [done|].
  unfold PhysMem.write_u8 in H1.
  destruct (check_bounds (memory m) x0 1) as [[]|] eqn:Eb; simplify_eq/=. done.
Qed.

Lemma write_u8_wf m pid v x m' : wf m -> x < 2 ^ 8 -> write_u8 m pid v x = Ok m' -> wf m'.
Proof.
  intros Hm Hx (p & _ & _ & ->)%write_u8_inv. apply set_memory_wf; [done|].
  apply PhysMem.set_byte_wf; [|done]. by destruct Hm as (_ & ? & _).
Qed.

#[export] Hint Resolve map_page_wf unmap_page_wf remove_page_table_wf create_page_table_wf
  write_u8_wf set_memory_wf : physmem.

(** ** Properties *)

Lemma map_page_spec m pid v p fl acc :
  wf m -> v < 2 ^ 64 -> p < 2 ^ 64 ->
  let m' := map_page m pid v p fl in
  (forall o, o < page_size m -> present fl = true -> (acc = Read \/ writable fl = true) ->
     translate m' pid (align_down m v + o) acc = Ok (align_down m p + o) /\
     align_down m p + o < 2 ^ 64) /\
  (forall o, o < page_size m -> present fl = true -> acc <> Read -> writable fl = false ->
     exists required, translate m' pid (align_down m v + o) acc =
       Err (PermissionDenied pid (align_down m v + o) acc required)) /\
  (forall pid' v', pid' <> pid \/ align_down m v' <> align_down m v ->
     page_tables m !! pid' <> None ->
     translate m' pid' v' acc = translate m pid' v' acc).
Proof.
  intros Hm Hv Hp m'.
  pose proof (align_down_page m v Hm Hv) as (Hva & Hvl & _ & Hvb).
  assert (Hvo : forall o, o < page_size m -> align_down m v + o < 2 ^ 64)
    by (intros; by apply page_addr_bound).
  assert (Hov : forall o, o < page_size m -> align_down m p + o < 2 ^ 64)
    by (intros; by apply page_addr_bound).
  assert (Htr : forall o, o < page_size m -> align_down m (align_down m v + o) = align_down m v)
    by (intros; apply align_down_offset; auto).
  assert (Hlook : forall o, o < page_size m ->
    translate m' pid (align_down m v + o) acc =
      (if negb (present fl) then Err (PageNotPresent pid (align_down m v + o)) else
       _ ← check_permission pid (align_down m v + o) acc {| frame := align_down m p; flags := fl |};
       Ok (align_down m p + o))).
  { intros o Ho. unfold translate. change (align_down m') with (align_down m).
    rewrite Htr by done. unfold m', map_page. simpl.
    rewrite lookup_insert_eq. rstep. rewrite lookup_insert_eq.
    rstep.
    unfold is_present; simpl. destruct (present fl); [simpl|done].
    pose proof (Hvo o Ho). pose proof (Hov o Ho).
    rewrite wsub64_ge, wadd64_small by lia.
    by replace (align_down m v + o - align_down m v) with o by lia. }
  split_and!.
  - intros o Ho Hpr Hw. rewrite Hlook, Hpr by done. split; [|by apply Hov].
    unfold check_permission, is_writable; simpl.
    destruct acc; [done|..]; destruct Hw as [?| ->]; done.
  - intros o Ho Hpr Hacc Hw. rewrite Hlook, Hpr by done.
    unfold check_permission, is_writable; simpl. rewrite Hw.
    destruct acc; [done|eexists; reflexivity..].
  - intros pid' v' Hd Hsome. unfold translate. change (align_down m') with (align_down m).
    unfold m', map_page; simpl. rewrite lookup_insert. case_decide as Hpid; [|done].
    subst pid'. destruct Hd as [Hd|Hd]; [done|].
    destruct (page_tables m !! pid) as [t|] eqn:E; [|done]. simpl.
    rstep. by rewrite lookup_insert_ne by done.
Qed.

(** Property: after [map_page], every address of the page translates to the frame
    plus the same offset, without overflow: for reading always when the flags
    are present, for writing exactly when they are writable (and [Execute]
    behaves as [Write]); an address on another page, or of another process,
    translates as before. *)
Theorem map_page_translate m pid v p fl acc :
  wf m -> v < 2 ^ 64 -> p < 2 ^ 64 ->
  let m' := map_page m pid v p fl in
  (forall o, o < page_size m -> present fl = true -> (acc = Read \/ writable fl = true) ->
     translate m' pid (align_down m v + o) acc = Ok (align_down m p + o) /\
     align_down m p + o < 2 ^ 64) /\
  (forall o, o < page_size m -> present fl = true -> acc <> Read -> writable fl = false ->
     exists required, translate m' pid (align_down m v + o) acc =
       Err (PermissionDenied pid (align_down m v + o) acc required)) /\
  (forall pid' v', pid' <> pid \/ align_down m v' <> align_down m v ->
     page_tables m !! pid' <> None ->
     translate m' pid' v' acc = translate m pid' v' acc).
Proof. apply map_page_spec. Qed.

(** A one-page machine used by the witnesses: page size 16, 64 bytes of RAM,
    virtual page 0x20 of process 7 on frame 0x10. *)
Definition demo_mem : PhysicalMemory := {| data := replicate 64 0; size := 64 |}.
Definition demo_mmu : MMU :=
  map_page {| page_tables := ∅; memory := demo_mem; page_size := 16 |} 7 0x25 0x13 present_writable.

Lemma demo_mem_wf : PhysMem.wf demo_mem.
Proof. apply (PhysMem.phys_new_wf 64); vm_compute; reflexivity. Qed.

Lemma demo_mmu_wf : wf demo_mmu.
Proof.
  apply map_page_wf; [|vm_compute; reflexivity].
  apply (mmu_new_wf demo_mem 16); [apply demo_mem_wf| |]; vm_compute; reflexivity.
Qed.

Lemma map_page_translate_witness :
  translate (map_page demo_mmu 7 0x38 0x2f present_readonly) 7 (align_down demo_mmu 0x38 + 5) Read = Ok 0x25.
Proof.
  apply (map_page_translate demo_mmu 7 0x38 0x2f present_readonly Read demo_mmu_wf);
    [vm_compute; reflexivity..|by left].
Defined.

Lemma unmap_page_spec m pid v acc :
  wf m -> v < 2 ^ 64 ->
  match unmap_page m pid v with
  | Err e => e = PageTableNotFound pid /\ page_tables m !! pid = None
  | Ok m' =>
      (forall v', align_down m v' = align_down m v ->
         translate m' pid v' acc = Err (PageNotPresent pid v')) /\
      (forall pid' v', pid' <> pid \/ align_down m v' <> align_down m v ->
         translate m' pid' v' acc = translate m pid' v' acc)
  end.
Proof.
  intros Hm Hv. unfold unmap_page.
  destruct (page_tables m !! pid) as [t|] eqn:E; rstep; [|done].
  set (m' := set_page_tables _ _). change (align_down m') with (align_down m).
  split.
  - intros v' Hv'. unfold translate. change (align_down m') with (align_down m).
    simpl. rewrite lookup_insert_eq. rstep.
    by rewrite Hv', lookup_delete_eq.
  - intros pid' v' Hd. unfold translate. change (align_down m') with (align_down m).
    simpl. rewrite lookup_insert. case_decide as Hpid; [|done]. subst pid'.
    destruct Hd as [Hd|Hd]; [done|]. rewrite E. rstep.
    by rewrite lookup_delete_ne by done.
Qed.

(** Property: [unmap_page] removes exactly one page: its addresses fault with
    [PageNotPresent], every other page of every process translates as before,
    and the call fails only for a process without page table. *)
Theorem unmap_page_translate m pid v acc :
  wf m -> v < 2 ^ 64 ->
  match unmap_page m pid v with
  | Err e => e = PageTableNotFound pid /\ page_tables m !! pid = None
  | Ok m' =>
      (forall v', align_down m v' = align_down m v ->
         translate m' pid v' acc = Err (PageNotPresent pid v')) /\
      (forall pid' v', pid' <> pid \/ align_down m v' <> align_down m v ->
         translate m' pid' v' acc = translate m pid' v' acc)
  end.
Proof. apply unmap_page_spec. Qed.

Lemma unmap_page_translate_witness :
  match unmap_page demo_mmu 7 0x2f with
  | Ok m' => translate m' 7 0x21 Read = Err (PageNotPresent 7 0x21)
  | Err _ => False
  end.
Proof.
  pose proof (unmap_page_translate demo_mmu 7 0x2f Read demo_mmu_wf eq_refl) as H.
  destruct (unmap_page demo_mmu 7 0x2f) eqn:E; [|vm_compute in E; discriminate].
  apply H. vm_compute. reflexivity.
Defined.

(** Property: memory isolation and coherence through the MMU.  A byte store by one
    process is seen by every process at exactly the virtual addresses that
    translate to the stored physical address, and changes nothing that any
    process reads elsewhere; the store keeps the MMU well formed and alters no
    translation. *)
Theorem write_u8_read_u8 m pid v x m' :
  wf m -> x < 2 ^ 8 -> write_u8 m pid v x = Ok m' ->
  exists p, translate m pid v Write = Ok p /\ wf m' /\
    read_u8 m' pid v = Ok x /\
    (forall pid' v' acc, translate m' pid' v' acc = translate m pid' v' acc) /\
    (forall pid' v' p', translate m pid' v' Read = Ok p' ->
       read_u8 m' pid' v' = if p' =? p then Ok x else read_u8 m pid' v').
Proof.
  intros Hm Hx H. pose proof (write_u8_wf _ _ _ _ _ Hm Hx H) as Hm'.
  apply write_u8_inv in H as (p & Htr & Hb & ->). exists p.
  assert (Hread : forall pid' v' p', translate m pid' v' Read = Ok p' ->
     read_u8 (set_memory m (set_byte (memory m) p x)) pid' v'
     = if p' =? p then Ok x else read_u8 m pid' v').
  { intros pid' v' p' Htr'. unfold read_u8. rewrite translate_set_memory, Htr'.
    rstep. unfold PhysMem.read_u8. simpl.
    change (check_bounds (set_byte (memory m) p x) p' 1) with (check_bounds (memory m) p' 1).
    assert (PhysMem.wf (memory m)) as Hmem by (by destruct Hm as (_ & ? & _)).
    pose proof (range_in_data _ _ _ 0 _ Hmem Hb ltac:(lia)) as Hr.
    rewrite N.add_0_r in Hr. rewrite byte_at_set_byte by done.
    destruct (N.eqb_spec p' p) as [->|]; [by rewrite Hb|done]. }
  split_and!; try done.
  rewrite (Hread pid v p (translate_write_read _ _ _ _ Htr)). by rewrite N.eqb_refl.
Qed.

Lemma write_u8_read_u8_witness :
  exists m', write_u8 demo_mmu 7 0x2a 0xAB = Ok m' /\ read_u8 m' 7 0x2a = Ok 0xAB.
Proof.
  assert (H : is_ok (write_u8 demo_mmu 7 0x2a 0xAB) = true) by (vm_compute; reflexivity).
  destruct (write_u8 demo_mmu 7 0x2a 0xAB) as [m'|] eqn:E; [|discriminate].
  exists m'. split; [reflexivity|].
  destruct (write_u8_read_u8 demo_mmu 7 0x2a 0xAB m' demo_mmu_wf ltac:(lia) E) as (p & _ & _ & R & _).
  exact R.
Defined.
