(* ===== verification/Ivt.v ===== *)
(** * Interrupt vector table (src/src/hardware/ivt.rs) *)
From S2P Require Import Prelude.

Inductive InterruptVector := DivideByZero | PageFault | Timer | Syscall.

Definition as_u8 (v : InterruptVector) : N :=
  match v with
  | DivideByZero => 0x00
  | PageFault => 0x0E
  | Timer => 0x20
  | Syscall => 0x80
  end.

Definition from_u8 (val : N) : option InterruptVector :=
  if val =? 0x00 then Some DivideByZero
  else if val =? 0x0E then Some PageFault
  else if val =? 0x20 then Some Timer
  else if val =? 0x80 then Some Syscall
  else None.

Inductive InterruptType := Exception | Interrupt | Trap.

Definition for_vector (v : InterruptVector) : InterruptType :=
  match v with
  | DivideByZero => Exception
  | PageFault => Exception
  | Timer => Interrupt
  | Syscall => Trap
  end.

Definition get_vector (vector : N) : option (InterruptVector * InterruptType) :=
  (fun v => (v, for_vector v)) <$> from_u8 vector.

(** [IVT::all_vectors], the static table [VECTORS] *)
Definition all_vectors : list (InterruptVector * InterruptType) :=
  [(DivideByZero, Exception); (PageFault, Exception); (Timer, Interrupt); (Syscall, Trap)].

(** Property: the static table lists exactly the vectors that the lookup by number
    finds, each with the type the lookup gives, and numbers decode to the
    vector they encode. *)
Theorem get_vector_all_vectors n v ty :
  get_vector n = Some (v, ty) <-> as_u8 v = n /\ (v, ty) ∈ all_vectors.
Proof.
  unfold get_vector, from_u8, all_vectors. split.
  - intros H.
    destruct (N.eqb_spec n 0x00), (N.eqb_spec n 0x0E), (N.eqb_spec n 0x20), (N.eqb_spec n 0x80);
      try lia; simplify_eq/=; (split; [done|repeat constructor]).
  - intros [<- H]. repeat (apply elem_of_cons in H as [H|H]; [injection H as -> ->; reflexivity|]).
    by apply elem_of_nil in H.
Qed.
