(* ===== verification/Cpu.v ===== *)
(** * Virtual CPU (src/src/hardware/cpu.rs)

    Registers, flags and the fetch-decode-execute cycle of the mock ISA.  The
    CPU reaches memory through the shared MMU and reports exceptions on the
    message bus; both are part of [Machine], the state the cycle runs on, the
    bus as the list of messages sent so far (a failed [send] is ignored by the
    source). *)
From Stdlib Require String.
From S2P Require Import Prelude Types PhysMem Mmu Ivt.

Inductive Register := R0 | R1 | R2 | R3.

#[export] Instance Register_eq_dec : EqDecision Register.
Proof. solve_decision. Defined.

(** [Register::index] *)
Definition reg_index (r : Register) : nat :=
  match r with R0 => 0%nat | R1 => 1%nat | R2 => 2%nat | R3 => 3%nat end.

Definition from_index (idx : N) : option Register :=
  if idx =? 0 then Some R0
  else if idx =? 1 then Some R1
  else if idx =? 2 then Some R2
  else if idx =? 3 then Some R3
  else None.

Record CPUFlags := { zero : bool; sign : bool; overflow : bool; carry : bool }.

Definition CPUFlags_new : CPUFlags :=
  {| zero := false; sign := false; overflow := false; carry := false |}.

(** [CPUFlags::from_result]: the same formulas for every operation. *)
Definition from_result (result a b : N) : CPUFlags :=
  {| zero := result =? 0;
     sign := neg64 result;
     overflow := (negb (neg64 a) && negb (neg64 b) && neg64 result)
                 || (neg64 a && neg64 b && negb (neg64 result));
     carry := result <? a |}.

Inductive Operand := Reg (r : Register) | Imm (v : N).

Inductive Instruction :=
  | Mov (dst : Register) (src : Operand)
  | Add (dst : Register) (src : Operand)
  | Sub (dst : Register) (src : Operand)
  | Mul (dst : Register) (src : Operand)
  | Div (dst : Register) (src : Operand)
  | Jmp (addr : VirtAddr)
  | Int (vector : N)
  | Load (dst : Register) (addr : Operand)
  | Store (src : Register) (addr : Operand)
  | Cmp (dst : Register) (src : Operand)
  | Jz (addr : VirtAddr)
  | Jnz (addr : VirtAddr)
  | Halt.

#[export] Instance Operand_eq_dec : EqDecision Operand.
Proof. solve_decision. Defined.
#[export] Instance Instruction_eq_dec : EqDecision Instruction.
Proof. solve_decision. Defined.

Module CPUError.
Inductive t :=
  | InvalidInstruction (pc opcode : N)
  | DivideByZero (pc : N)
  | PageFault (vaddr : VirtAddr) (access_type : AccessType)
  | InvalidRegister (index : N)
  | Halted
  | InvalidMode (current requested : String.string).
End CPUError.

(** [mmu], [bus] are the [Arc] fields of the source's struct; they are shared
    and so live in [Machine]. *)
Record VirtualCPU := {
  registers : list N;
  pc : N;
  sp : N;
  flags : CPUFlags;
  current_pid : Pid;
  halted : bool;
  syscall_pending : bool;
  syscall_regs : list N;
  instruction_count : N;
  pagefault_pending : bool }.

Record Machine := { cpu : VirtualCPU; mmu : MMU; bus : list Types.Interrupt }.

(** [VirtualCPU::new] *)
Definition new (pid : Pid) : VirtualCPU :=
  {| registers := [0; 0; 0; 0]; pc := 0; sp := 0xFFFFFFFFFFFFF000;
     flags := CPUFlags_new; current_pid := pid; halted := false;
     syscall_pending := false; syscall_regs := [0; 0; 0; 0];
     instruction_count := 0; pagefault_pending := false |}.

(** Field updates *)
Definition set_registers (r : list N) (c : VirtualCPU) : VirtualCPU :=
  {| registers := r; pc := pc c; sp := sp c; flags := flags c; current_pid := current_pid c;
     halted := halted c; syscall_pending := syscall_pending c; syscall_regs := syscall_regs c;
     instruction_count := instruction_count c; pagefault_pending := pagefault_pending c |}.
Definition set_pc (p : N) (c : VirtualCPU) : VirtualCPU :=
  {| registers := registers c; pc := p; sp := sp c; flags := flags c; current_pid := current_pid c;
     halted := halted c; syscall_pending := syscall_pending c; syscall_regs := syscall_regs c;
     instruction_count := instruction_count c; pagefault_pending := pagefault_pending c |}.
Definition set_flags (f : CPUFlags) (c : VirtualCPU) : VirtualCPU :=
  {| registers := registers c; pc := pc c; sp := sp c; flags := f; current_pid := current_pid c;
     halted := halted c; syscall_pending := syscall_pending c; syscall_regs := syscall_regs c;
     instruction_count := instruction_count c; pagefault_pending := pagefault_pending c |}.
Definition set_halted (h : bool) (c : VirtualCPU) : VirtualCPU :=
  {| registers := registers c; pc := pc c; sp := sp c; flags := flags c; current_pid := current_pid c;
     halted := h; syscall_pending := syscall_pending c; syscall_regs := syscall_regs c;
     instruction_count := instruction_count c; pagefault_pending := pagefault_pending c |}.
Definition set_syscall (p : bool) (r : list N) (c : VirtualCPU) : VirtualCPU :=
  {| registers := registers c; pc := pc c; sp := sp c; flags := flags c; current_pid := current_pid c;
     halted := halted c; syscall_pending := p; syscall_regs := r;
     instruction_count := instruction_count c; pagefault_pending := pagefault_pending c |}.
Definition count_instruction (c : VirtualCPU) : VirtualCPU :=
  {| registers := registers c; pc := pc c; sp := sp c; flags := flags c; current_pid := current_pid c;
     halted := halted c; syscall_pending := syscall_pending c; syscall_regs := syscall_regs c;
     instruction_count := wadd64 (instruction_count c) 1; pagefault_pending := pagefault_pending c |}.
Definition set_pagefault (b : bool) (c : VirtualCPU) : VirtualCPU :=
  {| registers := registers c; pc := pc c; sp := sp c; flags := flags c; current_pid := current_pid c;
     halted := halted c; syscall_pending := syscall_pending c; syscall_regs := syscall_regs c;
     instruction_count := instruction_count c; pagefault_pending := b |}.
Definition upd_cpu (f : VirtualCPU -> VirtualCPU) (m : Machine) : Machine :=
  {| cpu := f (cpu m); mmu := mmu m; bus := bus m |}.
(** [self.bus.send(KernelMsg::Interrupt(i))] *)
Definition send_interrupt (i : Types.Interrupt) (m : Machine) : Machine :=
  {| cpu := cpu m; mmu := mmu m; bus := bus m ++ [i] |}.
Definition set_mmu (u : MMU) (m : Machine) : Machine :=
  {| cpu := cpu m; mmu := u; bus := bus m |}.

Definition read_register (c : VirtualCPU) (r : Register) : N := registers c !!! reg_index r.
Definition write_register (r : Register) (v : N) (c : VirtualCPU) : VirtualCPU :=
  set_registers (<[reg_index r := v]> (registers c)) c.
Definition halt (c : VirtualCPU) : VirtualCPU := set_halted true c.

(** [VirtualCPU::reset] *)
Definition reset (c : VirtualCPU) : VirtualCPU :=
  {| registers := [0; 0; 0; 0]; pc := 0; sp := 0xFFFFFFFFFFFFF000;
     flags := CPUFlags_new; current_pid := current_pid c; halted := false;
     syscall_pending := syscall_pending c; syscall_regs := syscall_regs c;
     instruction_count := 0; pagefault_pending := false |}.

Definition read_operand (c : VirtualCPU) (o : Operand) : N :=
  match o with Reg r => read_register c r | Imm v => v end.

Abbreviation CM := (SE Machine CPUError.t).

Definition fetch_byte : CM N :=
  m ← se_get;
  value ← se_lift (map_err (fun _ => CPUError.PageFault (pc (cpu m)) Read)
                     (Mmu.read_u8 (mmu m) (current_pid (cpu m)) (pc (cpu m))));
  _ ← se_modify (upd_cpu (fun c => set_pc (wadd64 (pc c) 1) c));
  mret value.

(** Despite its name it reads the 32-bit value field. *)
Definition fetch_qword : CM N :=
  m ← se_get;
  value ← se_lift (map_err (fun _ => CPUError.PageFault (pc (cpu m)) Read)
                     (Mmu.read_u32 (mmu m) (current_pid (cpu m)) (pc (cpu m))));
  _ ← se_modify (upd_cpu (fun c => set_pc (wadd64 (pc c) 4) c));
  mret value.

Definition decode_register (idx : N) : result CPUError.t Register :=
  ok_or (CPUError.InvalidRegister idx) (from_index idx).

Definition decode_operand (src_type src_value : N) : result CPUError.t Operand :=
  if src_type =? 0 then r ← decode_register src_value; Ok (Reg r)
  else Ok (Imm src_value).

(** The opcode match of [fetch_instruction]; [p] is the program counter after
    the eight bytes have been fetched. *)
Definition decode (p opcode dst_reg src_type src_value : N) : result CPUError.t Instruction :=
  let two (mk : Register -> Operand -> Instruction) :=
    dst ← decode_register dst_reg;
    src ← decode_operand src_type src_value;
    Ok (mk dst src) in
  if opcode =? 0x01 then two Mov
  else if opcode =? 0x02 then two Add
  else if opcode =? 0x03 then two Sub
  else if opcode =? 0x04 then two Mul
  else if opcode =? 0x05 then two Div
  else if opcode =? 0x06 then two Load
  else if opcode =? 0x07 then two Store
  else if opcode =? 0x10 then Ok (Jmp src_value)
  else if opcode =? 0x11 then two Cmp
  else if opcode =? 0x12 then Ok (Jz src_value)
  else if opcode =? 0x13 then Ok (Jnz src_value)
  else if opcode =? 0x80 then Ok (Int (to_u8 src_value))
  else if opcode =? 0xFF then Ok Halt
  else Err (CPUError.InvalidInstruction (p - 11) opcode).

Definition fetch_instruction : CM Instruction :=
  opcode ← fetch_byte;
  dst_reg ← fetch_byte;
  src_type ← fetch_byte;
  _ ← fetch_byte;
  src_value ← fetch_qword;
  m ← se_get;
  se_lift (decode (pc (cpu m)) opcode dst_reg src_type src_value).

(** [dst op= src] with the flags of [from_result] *)
Definition arith (op : N -> N -> N) (dst : Register) (src : Operand) : CM unit :=
  m ← se_get;
  let dst_val := read_register (cpu m) dst in
  let src_val := read_operand (cpu m) src in
  let res := op dst_val src_val in
  se_modify (upd_cpu (fun c => write_register dst res (set_flags (from_result res dst_val src_val) c))).

Definition handle_software_interrupt (vector : N) : CM unit :=
  if vector =? Ivt.as_u8 Ivt.Syscall then
    _ ← se_modify (upd_cpu (fun c => set_syscall true (registers c) c));
    se_modify (send_interrupt SyscallTrap)
  else
    se_modify (send_interrupt (HardwareFailure (UnknownInterruptVector vector))).

Definition execute_instruction (i : Instruction) : CM unit :=
  m ← se_get;
  let c := cpu m in
  match i with
  | Mov dst src => se_modify (upd_cpu (write_register dst (read_operand c src)))
  | Add dst src => arith wadd64 dst src
  | Sub dst src => arith wsub64 dst src
  | Mul dst src => arith wmul64 dst src
  | Div dst src =>
      if read_operand c src =? 0 then
        _ ← se_modify (send_interrupt (HardwareFailure (DivideByZeroIn (current_pid c) (pc c))));
        se_throw (CPUError.DivideByZero (pc c))
      else arith N.div dst src
  | Load dst addr =>
      let address := read_operand c addr in
      value ← se_lift (map_err (fun _ => CPUError.PageFault address Read)
                         (Mmu.read_u8 (mmu m) (current_pid c) address));
      se_modify (upd_cpu (write_register dst value))
  | Store src addr =>
      let address := read_operand c addr in
      u ← se_lift (map_err (fun _ => CPUError.PageFault address Write)
                     (Mmu.write_u8 (mmu m) (current_pid c) address (to_u8 (read_register c src))));
      se_modify (set_mmu u)
  | Jmp addr => se_modify (upd_cpu (set_pc addr))
  | Cmp dst src =>
      let dst_val := read_register c dst in
      let src_val := read_operand c src in
      se_modify (upd_cpu (set_flags (from_result (wsub64 dst_val src_val) dst_val src_val)))
  | Jz addr => if zero (flags c) then se_modify (upd_cpu (set_pc addr)) else mret tt
  | Jnz addr => if negb (zero (flags c)) then se_modify (upd_cpu (set_pc addr)) else mret tt
  | Int vector => handle_software_interrupt vector
  | Halt => se_modify (upd_cpu halt)
  end.

(** The recovery of [step] from a page fault: the program counter goes back to
    the faulting instruction, the fault is reported (always as a read) and the
    CPU waits. *)
Definition report_page_fault (saved_pc vaddr : N) (m : Machine) : Machine :=
  upd_cpu (set_pagefault true)
    (send_interrupt (Types.PageFault vaddr Read) (upd_cpu (set_pc saved_pc) m)).

Definition step (m : Machine) : Machine * result CPUError.t unit :=
  if halted (cpu m) then (m, Err CPUError.Halted)
  else if pagefault_pending (cpu m) then (m, Ok tt)
  else
    let saved_pc := pc (cpu m) in
    match fetch_instruction m with
    | (m1, Ok instr) =>
        match execute_instruction instr m1 with
        | (m2, Ok _) => (upd_cpu count_instruction m2, Ok tt)
        | (m2, Err (CPUError.PageFault vaddr _)) => (report_page_fault saved_pc vaddr m2, Ok tt)
        | (m2, Err e) => (m2, Err e)
        end
    | (m1, Err (CPUError.PageFault vaddr _)) => (report_page_fault saved_pc vaddr m1, Ok tt)
    | (m1, Err e) => (m1, Err e)
    end.

(** [CPUState], [save_state], [restore_state]: the syscall latch is not saved. *)
Record CPUState := {
  s_registers : list N; s_pc : N; s_sp : N; s_flags : CPUFlags; s_halted : bool;
  s_current_pid : Pid; s_instruction_count : N; s_pagefault_pending : bool }.

Definition save_state (c : VirtualCPU) : CPUState :=
  {| s_registers := registers c; s_pc := pc c; s_sp := sp c; s_flags := flags c;
     s_halted := halted c; s_current_pid := current_pid c;
     s_instruction_count := instruction_count c; s_pagefault_pending := pagefault_pending c |}.

Definition restore_state (s : CPUState) (c : VirtualCPU) : VirtualCPU :=
  {| registers := s_registers s; pc := s_pc s; sp := s_sp s; flags := s_flags s;
     current_pid := s_current_pid s; halted := s_halted s;
     syscall_pending := syscall_pending c; syscall_regs := syscall_regs c;
     instruction_count := s_instruction_count s; pagefault_pending := s_pagefault_pending s |}.

(** ** Lemmas *)

Definition wf (m : Machine) : Prop :=
  length (registers (cpu m)) = 4%nat /\
  Forall (fun r => r < 2 ^ 64) (registers (cpu m)) /\
  pc (cpu m) < 2 ^ 64 /\ Mmu.wf (mmu m).

(** Fetching only moves the program counter. *)
Lemma fetch_byte_frame m m' r :
  fetch_byte m = (m', r) -> exists p, m' = upd_cpu (set_pc p) m /\ (wf m -> p < 2 ^ 64).
Proof.
  unfold fetch_byte. se_step. destruct (Mmu.read_u8 _ _ _); intros H; simplify_eq/=.
  - eexists. split; [done|]. intros _. apply wadd64_bound.
  - exists (pc (cpu m')). split; [by destruct m' as [[] ? ?]|]. by intros (_ & _ & ? & _).
Qed.

Lemma fetch_qword_frame m m' r :
  fetch_qword m = (m', r) -> exists p, m' = upd_cpu (set_pc p) m /\ (wf m -> p < 2 ^ 64).
Proof.
  unfold fetch_qword. se_step. destruct (Mmu.read_u32 _ _ _); intros H; simplify_eq/=.
  - eexists. split; [done|]. intros _. apply wadd64_bound.
  - exists (pc (cpu m')). split; [by destruct m' as [[] ? ?]|]. by intros (_ & _ & ? & _).
Qed.

Lemma upd_set_pc_twice p q m : upd_cpu (set_pc p) (upd_cpu (set_pc q) m) = upd_cpu (set_pc p) m.
Proof. done. Qed.

Lemma upd_set_pc_wf p m : wf m -> p < 2 ^ 64 -> wf (upd_cpu (set_pc p) m).
Proof. intros (? & ? & _ & ?) Hp. by split_and!. Qed.

Lemma bind_fetch_frame {A B} (f : CM A) (k : A -> CM B) m m' r :
  (forall m m' r, f m = (m', r) -> exists p, m' = upd_cpu (set_pc p) m /\ (wf m -> p < 2 ^ 64)) ->
  (forall a m m' r, k a m = (m', r) -> exists p, m' = upd_cpu (set_pc p) m /\ (wf m -> p < 2 ^ 64)) ->
  (f ≫= k) m = (m', r) -> exists p, m' = upd_cpu (set_pc p) m /\ (wf m -> p < 2 ^ 64).
Proof.
  intros Hf Hk. se_step. destruct (f m) as [m1 [a|e]] eqn:E.
  - intros H. apply Hf in E as (p & -> & Hp). apply Hk in H as (q & -> & Hq).
    exists q. split; [done|]. intros Hm. apply Hq. auto using upd_set_pc_wf.
  - intros H. simplify_eq. by eapply Hf.
Qed.

Lemma fetch_instruction_frame m m' r :
  fetch_instruction m = (m', r) -> exists p, m' = upd_cpu (set_pc p) m /\ (wf m -> p < 2 ^ 64).
Proof.
  unfold fetch_instruction. revert m m' r. intros m m' r.
  apply bind_fetch_frame; [exact fetch_byte_frame|]. intros op m1 m1' r1.
  apply bind_fetch_frame; [exact fetch_byte_frame|]. intros dst m2 m2' r2.
  apply bind_fetch_frame; [exact fetch_byte_frame|]. intros st m3 m3' r3.
  apply bind_fetch_frame; [exact fetch_byte_frame|]. intros pad m4 m4' r4.
  apply bind_fetch_frame; [exact fetch_qword_frame|]. intros v m5 m5' r5.
  se_step. intros H. simplify_eq. exists (pc (cpu m5')).
  split; [by destruct m5' as [[] ? ?]|]. by intros (_ & _ & ? & _).
Qed.

(** Executing either faults without any effect, or leaves the fault flag, the
    pid and the stack pointer alone; memory only changes by a store. *)
Lemma execute_frame i m m' r :
  execute_instruction i m = (m', r) ->
  pagefault_pending (cpu m') = pagefault_pending (cpu m) /\
  current_pid (cpu m') = current_pid (cpu m) /\ sp (cpu m') = sp (cpu m) /\
  instruction_count (cpu m') = instruction_count (cpu m) /\
  (forall v a, r = Err (CPUError.PageFault v a) -> m' = m) /\
  (mmu m' = mmu m \/ exists v x, x < 2 ^ 8 /\ Mmu.write_u8 (mmu m) (current_pid (cpu m)) v x = Ok (mmu m')).
Proof.
  destruct i; unfold execute_instruction, arith, handle_software_interrupt; se_step; intros H.
  9: { destruct (Mmu.write_u8 _ _ _ _) eqn:E; simplify_eq/=; split_and!; try done; [|by left].
       right. do 2 eexists. split; [|exact E]. apply to_u8_bound. }
  all: repeat case_match; simplify_eq/=; split_and!; try done; by left.
Qed.

(** A step never changes the process a CPU belongs to. *)
Lemma step_pid m m' r : step m = (m', r) -> current_pid (cpu m') = current_pid (cpu m).
Proof.
  unfold step. intros H.
  destruct (halted (cpu m)); [by simplify_eq|]. destruct (pagefault_pending (cpu m)); [by simplify_eq|].
  destruct (fetch_instruction m) as [m1 [i|e]] eqn:Ef; apply fetch_instruction_frame in Ef as (p & -> & _).
  - destruct (execute_instruction i _) as [m2 [[]|e]] eqn:Ee; apply execute_frame in Ee as (_ & Hp & _);
      [|destruct e]; by simplify_eq/=.
  - destruct e; by simplify_eq/=.
Qed.

Lemma read_register_bound m r : wf m -> read_register (cpu m) r < 2 ^ 64.
Proof.
  intros (Hl & Hb & _). unfold read_register.
  apply (Forall_lookup_1 (fun r => r < 2 ^ 64) _ (reg_index r) _ Hb).
  apply lookup_total_lookup_N. rewrite Hl. destruct r; simpl; lia.
Qed.

Definition operand_wf (o : Operand) : Prop :=
  match o with Reg _ => True | Imm v => v < 2 ^ 64 end.

(** The operands the decoder can produce are 64-bit values. *)
Definition instruction_wf (i : Instruction) : Prop :=
  match i with
  | Mov _ s | Add _ s | Sub _ s | Mul _ s | Div _ s | Load _ s | Store _ s | Cmp _ s => operand_wf s
  | Jmp a | Jz a | Jnz a => a < 2 ^ 64
  | Int v => v < 2 ^ 8
  | Halt => True
  end.

Lemma read_operand_bound m o : wf m -> operand_wf o -> read_operand (cpu m) o < 2 ^ 64.
Proof. intros Hm Ho. destruct o; simpl; [by apply read_register_bound|done]. Qed.

Lemma write_register_wf m r v : wf m -> v < 2 ^ 64 -> wf (upd_cpu (write_register r v) m).
Proof.
  intros (Hl & Hb & Hp & Hmm) Hv. unfold wf; simpl. rewrite length_insert.
  split_and!; try done. by apply Forall_insert.
Qed.

Lemma upd_flags_wf m f : wf m -> wf (upd_cpu (set_flags f) m).
Proof. done. Qed.

Lemma set_mmu_wf m u : wf m -> Mmu.wf u -> wf (set_mmu u m).
Proof. intros (? & ? & ? & _) ?. by split_and!. Qed.

Lemma div_bound a b : a < 2 ^ 64 -> a / b < 2 ^ 64.
Proof.
  intros Ha. destruct (N.eq_dec b 0) as [->|Hb]; [by rewrite N.div_0_r|].
  pose proof (N.Div0.div_le_upper_bound a b a ltac:(nia)). lia.
Qed.

Lemma read_u8_bound m pid v x : Mmu.wf m -> Mmu.read_u8 m pid v = Ok x -> x < 2 ^ 8.
Proof.
  intros (_ & Hm & _) H. unfold Mmu.read_u8 in H. inv_binds.
  unfold PhysMem.read_u8 in H. inv_binds. injection H as <-. by apply byte_at_bound.
Qed.

Lemma read_u32_bound m pid v x : Mmu.wf m -> Mmu.read_u32 m pid v = Ok x -> x < 2 ^ 32.
Proof.
  intros (_ & Hm & _) H. unfold Mmu.read_u32 in H. inv_binds.
  unfold PhysMem.read_u32 in H. inv_binds. injection H as <-.
  apply (from_le_bytes_bound (bytes_at (memory m) x0 4)).
  apply Forall_fmap, Forall_forall. intros. by apply byte_at_bound.
Qed.

Lemma arith_wf op dst src m m' r :
  wf m -> operand_wf src ->
  (forall a b, a < 2 ^ 64 -> b < 2 ^ 64 -> op a b < 2 ^ 64) ->
  arith op dst src m = (m', r) -> wf m'.
Proof.
  intros Hm Hs Hop. unfold arith. se_step. intros H. simplify_eq.
  apply (write_register_wf (upd_cpu (set_flags _) m) dst); [done|].
  apply Hop; [by apply read_register_bound|by apply read_operand_bound].
Qed.

Lemma execute_wf i m m' r :
  wf m -> instruction_wf i -> execute_instruction i m = (m', r) -> wf m'.
Proof.
  intros Hm Hi. destruct i; unfold execute_instruction; se_step; simpl in Hi.
  - intros H. simplify_eq. apply write_register_wf; [done|by apply read_operand_bound].
  - apply arith_wf; [done..|]. intros; apply wadd64_bound.
  - apply arith_wf; [done..|]. intros; apply wsub64_bound.
  - apply arith_wf; [done..|]. intros; apply wmul64_bound.
  - destruct (_ =? 0); [by intros; simplify_eq|].
    apply arith_wf; [done..|]. intros; by apply div_bound.
  - intros H. simplify_eq. by apply upd_set_pc_wf.
  - unfold handle_software_interrupt. se_step. case_match; intros; by simplify_eq.
  - destruct (Mmu.read_u8 _ _ _) eqn:E; intros H; simplify_eq/=; [|done].
    apply write_register_wf; [done|]. destruct Hm as (_ & _ & _ & Hmm).
    pose proof (read_u8_bound _ _ _ _ Hmm E). lia.
  - destruct (Mmu.write_u8 _ _ _ _) eqn:E; intros H; simplify_eq/=; [|done].
    apply set_mmu_wf; [done|]. destruct Hm as (_ & _ & _ & Hmm).
    eapply write_u8_wf; [exact Hmm| |exact E]. apply to_u8_bound.
  - intros H. by simplify_eq.
  - case_match; intros; simplify_eq; [by apply upd_set_pc_wf|done].
  - case_match; intros; simplify_eq; [by apply upd_set_pc_wf|done].
  - intros H. by simplify_eq.
Qed.

Lemma decode_wf p op dst st v i :
  v < 2 ^ 32 -> decode p op dst st v = Ok i -> instruction_wf i.
Proof.
  intros Hv. unfold decode, decode_operand.
  repeat case_match; intros; simplify_eq; inv_binds; simplify_eq/=; inv_binds; simplify_eq/=;
    try done; try lia. apply to_u8_bound.
Qed.

Lemma fetch_instruction_wf m m' i :
  wf m -> fetch_instruction m = (m', Ok i) -> instruction_wf i.
Proof.
  intros Hm. unfold fetch_instruction. se_step.
  destruct (fetch_byte m) as [m1 [op|]] eqn:E1; [|by intros].
  destruct (fetch_byte m1) as [m2 [dst|]] eqn:E2; [|by intros].
  destruct (fetch_byte m2) as [m3 [st|]] eqn:E3; [|by intros].
  destruct (fetch_byte m3) as [m4 [pad|]] eqn:E4; [|by intros].
  destruct (fetch_qword m4) as [m5 [v|]] eqn:E5; [|by intros].
  intros H. injection H as <- H. eapply decode_wf; [|exact H].
  apply fetch_byte_frame in E1 as (? & -> & _), E2 as (? & -> & _), E3 as (? & -> & _), E4 as (? & -> & _).
  unfold fetch_qword in E5. revert E5. se_step. destruct (Mmu.read_u32 _ _ _) eqn:E; intros; simplify_eq/=.
  eapply read_u32_bound; [|exact E]. by destruct Hm as (_ & _ & _ & ?).
Qed.

(** *** The syscall latch does not influence execution *)

Definition latch (p : bool) (q : list N) : Machine -> Machine := upd_cpu (set_syscall p q).

Definition latch_stable {A} (f : CM A) : Prop :=
  forall p q m, f (latch p q m) = (latch p q (f m).1, (f m).2).

Lemma latch_bind {A B} (f : CM A) (k : A -> CM B) :
  latch_stable f -> (forall a, latch_stable (k a)) -> latch_stable (f ≫= k).
Proof.
  intros Hf Hk p q m. se_step. rewrite Hf. destruct (f m) as [m1 [a|e]]; simpl; [|done].
  apply Hk.
Qed.

Lemma fetch_byte_latch : latch_stable fetch_byte.
Proof. intros p q m. unfold fetch_byte. se_step. simpl. by destruct (Mmu.read_u8 _ _ _). Qed.

Lemma fetch_qword_latch : latch_stable fetch_qword.
Proof. intros p q m. unfold fetch_qword. se_step. simpl. by destruct (Mmu.read_u32 _ _ _). Qed.

Lemma fetch_instruction_latch : latch_stable fetch_instruction.
Proof.
  unfold fetch_instruction.
  repeat (apply latch_bind; [apply fetch_byte_latch || apply fetch_qword_latch|intros ?]).
  by intros p q m.
Qed.

(** Two machines agree on everything a context switch saves, on memory and on
    the messages sent. *)
Definition same_arch (m1 m2 : Machine) : Prop :=
  save_state (cpu m1) = save_state (cpu m2) /\ mmu m1 = mmu m2 /\ bus m1 = bus m2.

Lemma same_arch_latch m1 m2 :
  same_arch m1 m2 -> m2 = latch (syscall_pending (cpu m2)) (syscall_regs (cpu m2)) m1.
Proof.
  destruct m1 as [[] ? ?], m2 as [[] ? ?]. intros (H1 & H2 & H3). simpl in *.
  injection H1 as -> -> -> -> -> -> -> ->. by rewrite H2, H3.
Qed.

Lemma latch_same_arch p q m : same_arch m (latch p q m).
Proof. done. Qed.

Lemma execute_same_arch i p q m :
  same_arch (execute_instruction i m).1 (execute_instruction i (latch p q m)).1 /\
  (execute_instruction i m).2 = (execute_instruction i (latch p q m)).2.
Proof.
  assert (Ho : read_operand (set_syscall p q (cpu m)) = read_operand (cpu m)) by reflexivity.
  assert (Hr : read_register (set_syscall p q (cpu m)) = read_register (cpu m)) by reflexivity.
  destruct i; unfold execute_instruction, arith, handle_software_interrupt, latch; se_step;
    cbn [upd_cpu cpu mmu]; rewrite ?Ho, ?Hr; simpl; repeat case_match; simplify_eq/=; done.
Qed.

Lemma step_same_arch_latch p q m :
  same_arch (step m).1 (step (latch p q m)).1 /\ (step m).2 = (step (latch p q m)).2.
Proof.
  unfold step. simpl. destruct (halted (cpu m)); [done|].
  destruct (pagefault_pending (cpu m)); [done|].
  rewrite fetch_instruction_latch. destruct (fetch_instruction m) as [m1 [i|e]]; simpl.
  - pose proof (execute_same_arch i p q m1) as [Ha Hr].
    destruct (execute_instruction i m1) as [m2 r2], (execute_instruction i (latch p q m1)) as [m2' r2'].
    simpl in *. subst r2'. apply same_arch_latch in Ha as ->. destruct r2 as [|[]]; done.
  - destruct e; done.
Qed.

(** *** Instruction memory *)

(** The bytes [bs] are readable by process [pid] from virtual address [v] on. *)
Definition code_at (u : MMU) (pid : Pid) (v : N) (bs : list N) : Prop :=
  forall i b, bs !! i = Some b -> Mmu.read_u8 u pid (v + N.of_nat i) = Ok b.

Lemma read_u8_inv u pid v b :
  Mmu.read_u8 u pid v = Ok b ->
  exists p, translate u pid v Read = Ok p /\ p + 1 <= PhysMem.size (memory u) /\
    b = byte_at (memory u) p.
Proof.
  intros H. unfold Mmu.read_u8 in H. inv_binds.
  unfold PhysMem.read_u8 in H. inv_binds. injection H as <-.
  match goal with H : check_bounds _ _ _ = Ok _ |- _ => apply check_bounds_ok in H as [] end.
  eauto.
Qed.

(** Consecutive addresses inside one page translate to consecutive ones. *)
Lemma translate_offset u pid v p o :
  Mmu.wf u -> v + o < 2 ^ 64 -> v mod page_size u + o < page_size u ->
  translate u pid v Read = Ok p -> translate u pid (v + o) Read = Ok (p + o).
Proof.
  intros Hu Hv Ho H. pose proof H as H'.
  apply translate_ok in H' as (t & e & Ht & He & Hpr & _ & Hp & Hpb); [|done|lia].
  pose proof (align_down_page u v Hu ltac:(lia)) as (Ha & Hle & _ & Hab).
  pose proof (align_down_spec u v Hu ltac:(lia)) as Hs.
  pose proof (N.Div0.mod_le v (page_size u)) as Hml.
  assert (Hal : align_down u (v + o) = align_down u v).
  { replace (v + o) with (align_down u v + (v mod page_size u + o)) by lia.
    apply align_down_offset; try done; lia. }
  assert (entry_wf (page_size u) e) as Hew by (destruct Hu as (_ & _ & Hu); by eapply Hu).
  pose proof (frame_offset_no_overflow u e (v + o - align_down u v) Hu Hew ltac:(lia)).
  unfold translate. rewrite Hal, Ht. rstep. rewrite He. rstep. rewrite Hpr. simpl.
  rewrite wsub64_ge, wadd64_small by lia. f_equal. lia.
Qed.

(** An aligned 32-bit read is the four bytes in little-endian order. *)
Lemma read_u32_bytes u pid v b0 b1 b2 b3 :
  Mmu.wf u -> page_size u mod 4 = 0 -> v mod 4 = 0 -> v + 4 <= 2 ^ 64 ->
  Mmu.read_u8 u pid v = Ok b0 -> Mmu.read_u8 u pid (v + 1) = Ok b1 ->
  Mmu.read_u8 u pid (v + 2) = Ok b2 -> Mmu.read_u8 u pid (v + 3) = Ok b3 ->
  Mmu.read_u32 u pid v = Ok (from_le_bytes [b0; b1; b2; b3]).
Proof.
  intros Hu Hps Hv Hlt H0 H1 H2 H3.
  apply read_u8_inv in H0 as (p & Ht0 & _ & ->), H1 as (p1 & Ht1 & _ & ->),
    H2 as (p2 & Ht2 & _ & ->), H3 as (p3 & Ht3 & Hb3 & ->).
  pose proof (page_size_pos u Hu) as Hpos.
  apply N.Div0.mod_divides in Hps as [k Hk]. apply N.Div0.mod_divides in Hv as [c Hc].
  assert (Hin : v mod page_size u + 3 < page_size u).
  { pose proof (N.mod_lt v (page_size u) ltac:(lia)).
    pose proof (N.div_mod v (page_size u) ltac:(lia)) as E.
    rewrite Hk in *. generalize dependent (v / (4 * k)). generalize dependent (v mod (4 * k)).
    intros r Hr q E. assert (r = 4 * (c - k * q)) by nia. lia. }
  pose proof (translate_offset u pid v p 1 Hu ltac:(lia) ltac:(lia) Ht0) as E1.
  pose proof (translate_offset u pid v p 2 Hu ltac:(lia) ltac:(lia) Ht0) as E2.
  pose proof (translate_offset u pid v p 3 Hu ltac:(lia) ltac:(lia) Ht0) as E3.
  rewrite Ht1 in E1. rewrite Ht2 in E2. rewrite Ht3 in E3.
  injection E1 as ->. injection E2 as ->. injection E3 as ->.
  apply translate_ok in Ht0 as Ht0'; [|done|lia].
  destruct Ht0' as (t & e & Htab & He & _ & _ & Hp & Hpb).
  assert (entry_wf (page_size u) e) as [Hf Hfb] by (destruct Hu as (_ & _ & Hu); by eapply Hu).
  pose proof (align_down_page u v Hu ltac:(lia)) as (Ha & Hle & _ & _).
  assert (Hp4 : p mod 4 = 0).
  { apply N.Div0.mod_divides in Hf as [f Hf]. apply N.Div0.mod_divides in Ha as [a Ha].
    apply N.Div0.mod_divides. exists (k * f + c - k * a). nia. }
  unfold Mmu.read_u32. rewrite Ht0. rstep. unfold PhysMem.read_u32, check_alignment.
  rewrite Hp4. simpl. unfold check_bounds. destruct Hu as (_ & (_ & Hsz & _) & _).
  replace (2 ^ 64 <=? p + 4) with false by (symmetry; apply N.leb_gt; lia).
  replace (PhysMem.size (memory u) <? p + 4) with false by (symmetry; apply N.ltb_ge; lia).
  unfold bytes_at. simpl. by rewrite N.add_0_r.
Qed.

Lemma fetch_byte_code m b :
  Mmu.read_u8 (mmu m) (current_pid (cpu m)) (pc (cpu m)) = Ok b -> pc (cpu m) + 1 < 2 ^ 64 ->
  fetch_byte m = (upd_cpu (set_pc (pc (cpu m) + 1)) m, Ok b).
Proof.
  intros H Hp. unfold fetch_byte. se_step. rewrite H. simpl.
  by rewrite <- (wadd64_small (pc (cpu m)) 1).
Qed.

Lemma fetch_qword_code m v :
  Mmu.read_u32 (mmu m) (current_pid (cpu m)) (pc (cpu m)) = Ok v -> pc (cpu m) + 4 < 2 ^ 64 ->
  fetch_qword m = (upd_cpu (set_pc (pc (cpu m) + 4)) m, Ok v).
Proof.
  intros H Hp. unfold fetch_qword. se_step. rewrite H. simpl.
  by rewrite <- (wadd64_small (pc (cpu m)) 4).
Qed.

(** Fetching from instruction memory decodes the eight bytes. *)
Lemma fetch_instruction_code m op dst st pad b0 b1 b2 b3 :
  Mmu.wf (mmu m) -> page_size (mmu m) mod 4 = 0 -> pc (cpu m) mod 4 = 0 ->
  pc (cpu m) + 8 < 2 ^ 64 ->
  code_at (mmu m) (current_pid (cpu m)) (pc (cpu m)) [op; dst; st; pad; b0; b1; b2; b3] ->
  fetch_instruction m =
    (upd_cpu (set_pc (pc (cpu m) + 8)) m,
     decode (pc (cpu m) + 8) op dst st (from_le_bytes [b0; b1; b2; b3])).
Proof.
  intros Hu Hps Hpc Hlt Hc.
  pose proof (Hc 0%nat _ eq_refl) as C0. pose proof (Hc 1%nat _ eq_refl) as C1.
  pose proof (Hc 2%nat _ eq_refl) as C2. pose proof (Hc 3%nat _ eq_refl) as C3.
  pose proof (Hc 4%nat _ eq_refl) as C4. pose proof (Hc 5%nat _ eq_refl) as C5.
  pose proof (Hc 6%nat _ eq_refl) as C6. pose proof (Hc 7%nat _ eq_refl) as C7.
  set (P := pc (cpu m)) in *. rewrite N.add_0_r in C0.
  change (N.of_nat 1) with 1 in C1. change (N.of_nat 2) with 2 in C2. change (N.of_nat 3) with 3 in C3.
  assert (R : Mmu.read_u32 (mmu m) (current_pid (cpu m)) (P + 4) = Ok (from_le_bytes [b0; b1; b2; b3])).
  { apply read_u32_bytes; try done; try lia.
    - apply N.Div0.mod_divides in Hpc as [c Hpc]. apply N.Div0.mod_divides. exists (c + 1). lia.
    - by replace (P + 4 + 1) with (P + N.of_nat 5) by lia.
    - by replace (P + 4 + 2) with (P + N.of_nat 6) by lia.
    - by replace (P + 4 + 3) with (P + N.of_nat 7) by lia. }
  unfold fetch_instruction. se_step.
  rewrite (fetch_byte_code m op) by (done || lia).
  rewrite (fetch_byte_code _ dst) by (simpl; done || lia).
  replace (P + 2) with (P + 1 + 1) in C2 by lia.
  replace (P + 3) with (P + 1 + 1 + 1) in C3 by lia.
  rewrite (fetch_byte_code _ st) by (simpl; done || lia).
  rewrite (fetch_byte_code _ pad) by (simpl; done || lia).
  assert (HP : P + 1 + 1 + 1 + 1 = P + 4) by lia. rewrite <- HP in R.
  rewrite (fetch_qword_code _ (from_le_bytes [b0; b1; b2; b3])) by (simpl; done || lia).
  cbn [upd_cpu set_pc cpu pc]. fold P. by replace (P + 1 + 1 + 1 + 1 + 4) with (P + 8) by lia.
Qed.

(** ** Properties *)

(** C10: page faults are precise and restartable.  A step that leaves the CPU
    waiting on a fault has returned [Ok], changed no register, flag, counter or
    memory, put the program counter back on the faulting instruction and sent
    exactly one page-fault interrupt, which the source always tags as a read. *)
Theorem step_page_fault_precise m m' r :
  step m = (m', r) ->
  pagefault_pending (cpu m) = false -> pagefault_pending (cpu m') = true ->
  r = Ok tt /\ cpu m' = set_pagefault true (cpu m) /\ mmu m' = mmu m /\
  exists vaddr, bus m' = bus m ++ [Types.PageFault vaddr Read].
Proof.
  unfold step. intros H Hpf Hpf'.
  destruct (halted (cpu m)); [simplify_eq; congruence|]. rewrite Hpf in H.
  destruct (fetch_instruction m) as [m1 [i|e]] eqn:Ef;
    apply fetch_instruction_frame in Ef as (p & -> & _).
  - destruct (execute_instruction i _) as [m2 [[]|e]] eqn:Ee;
      apply execute_frame in Ee as (Hp & _ & _ & _ & Hm & _).
    + simplify_eq/=. congruence.
    + destruct e; simplify_eq/=; try congruence.
      rewrite (Hm vaddr access_type eq_refl).
      split_and!; [done|by destruct m as [[] ? ?]|done|by eexists].
  - destruct e; simplify_eq/=; try congruence.
    split_and!; [done|by destruct m as [[] ? ?]|done|by eexists].
Qed.

(** A machine whose page 0x20 of process 7 holds [MOV R1, #0x2A; STORE [#0x28], R1]
    followed by [LOAD R2, [#0x90]], an address that is not mapped. *)
Definition demo_code : list N :=
  [0x01; 1; 1; 0; 0x2A; 0; 0; 0;  0x07; 1; 1; 0; 0x28; 0; 0; 0;  0x06; 2; 1; 0; 0x90; 0; 0; 0].
Definition demo_machine (start : N) : Machine :=
  {| cpu := set_pc start (new 7);
     mmu := map_page (map_page
              {| page_tables := ∅;
                 memory := set_bytes {| data := replicate 64 0; size := 64 |} 0x10 demo_code;
                 page_size := 16 |} 7 0x20 0x10 present_writable) 7 0x30 0x20 present_writable;
     bus := [] |}.

Lemma demo_machine_wf s : s < 2 ^ 64 -> wf (demo_machine s).
Proof.
  intros Hs. split; [done|]. split; [by repeat constructor|]. split; [done|].
  apply map_page_wf; [apply map_page_wf; [|done]|done].
  eapply (Mmu.mmu_new_wf (set_bytes {| data := replicate 64 0; size := 64 |} 0x10 demo_code) 16);
    [|done|reflexivity].
  apply set_bytes_wf; [|by repeat constructor].
  apply (PhysMem.phys_new_wf 64); [done|reflexivity].
Qed.

Lemma step_page_fault_precise_witness :
  exists m', step (demo_machine 0x30) = (m', Ok tt) /\ pc (cpu m') = 0x30 /\
    exists vaddr, bus m' = [Types.PageFault vaddr Read].
Proof.
  pose (m' := (step (demo_machine 0x30)).1).
  assert (H : step (demo_machine 0x30) = (m', Ok tt)) by (vm_compute; reflexivity).
  exists m'. split; [exact H|].
  destruct (step_page_fault_precise _ _ _ H ltac:(vm_compute; reflexivity) ltac:(vm_compute; reflexivity))
    as (_ & Hc & _ & Hb).
  split; [rewrite Hc; reflexivity|exact Hb].
Defined.

(** C35: one step keeps the machine well formed: four 64-bit registers, a 64-bit
    program counter, page-table entries aligned and the memory a byte vector of
    its declared size. *)
Theorem step_wf m m' r : wf m -> step m = (m', r) -> wf m'.
Proof.
  intros Hm H. unfold step in H.
  destruct (halted (cpu m)); [by simplify_eq|].
  destruct (pagefault_pending (cpu m)); [by simplify_eq|].
  destruct (fetch_instruction m) as [m1 [i|e]] eqn:Ef.
  - pose proof (fetch_instruction_wf _ _ _ Hm Ef) as Hi.
    apply fetch_instruction_frame in Ef as (p & -> & Hp).
    assert (wf (upd_cpu (set_pc p) m)) as Hm1 by auto using upd_set_pc_wf.
    destruct (execute_instruction i _) as [m2 [[]|e]] eqn:Ee;
      apply execute_wf in Ee; try done; simplify_eq; [done|].
    destruct e; simplify_eq; try done.
    destruct Hm as (_ & _ & Hpc & _). by apply (upd_set_pc_wf (pc (cpu m)) m2).
  - apply fetch_instruction_frame in Ef as (p & -> & Hp).
    assert (wf (upd_cpu (set_pc p) m)) as Hm1 by auto using upd_set_pc_wf.
    destruct e; simplify_eq; try done.
Qed.

Lemma step_wf_witness :
  exists m', step (demo_machine 0x20) = (m', Ok tt) /\ wf m' /\ registers (cpu m') = [0; 0x2A; 0; 0].
Proof.
  pose (m' := (step (demo_machine 0x20)).1).
  assert (H : step (demo_machine 0x20) = (m', Ok tt)) by (vm_compute; reflexivity).
  exists m'. split; [exact H|]. split; [|vm_compute; reflexivity].
  exact (step_wf _ _ _ (demo_machine_wf 0x20 ltac:(lia)) H).
Defined.

(** All that a step does to the MMU is one store of a byte by the current process, if
    that. *)
Lemma step_mmu m m' r : step m = (m', r) ->
  mmu m' = mmu m \/ exists v x, x < 2 ^ 8 /\ Mmu.write_u8 (mmu m) (current_pid (cpu m)) v x = Ok (mmu m').
Proof.
  intros H. unfold step in H.
  destruct (halted (cpu m)); [simplify_eq; by left|].
  destruct (pagefault_pending (cpu m)); [simplify_eq; by left|].
  destruct (fetch_instruction m) as [m1 [i|e]] eqn:Ef;
    apply fetch_instruction_frame in Ef as (p & -> & _).
  - destruct (execute_instruction i _) as [m2 [[]|e]] eqn:Ee;
      apply execute_frame in Ee as (_ & _ & _ & _ & _ & Hu); simpl in Hu;
      [|destruct e]; simplify_eq; exact Hu.
  - left. destruct e; by simplify_eq.
Qed.

(** C1: memory isolation of the running process.  A step leaves every page
    table alone, and the only physical bytes it can change are those that the
    current process may write through its own page table. *)
Theorem step_memory_isolation m m' r :
  wf m -> step m = (m', r) ->
  page_tables (mmu m') = page_tables (mmu m) /\
  forall a, byte_at (memory (mmu m')) a <> byte_at (memory (mmu m)) a ->
    exists v, translate (mmu m) (current_pid (cpu m)) v Write = Ok a.
Proof.
  intros Hm H. destruct (step_mmu _ _ _ H) as [-> | (v & x & _ & Hw)]; [by split|].
  apply write_u8_inv in Hw as (p & Ht & Hb & Heq). rewrite Heq. split; [done|].
  simpl. intros a Ha. exists v. rewrite Ht. f_equal.
  destruct (N.eq_dec a p) as [->|Hn]; [done|]. exfalso. apply Ha.
  unfold byte_at, set_byte; simpl. apply list_lookup_total_insert_ne. lia.
Qed.

Lemma step_memory_isolation_witness :
  exists m', step (demo_machine 0x28) = (m', Ok tt) /\
    page_tables (mmu m') = page_tables (mmu (demo_machine 0x28)).
Proof.
  pose (m' := (step (demo_machine 0x28)).1).
  assert (H : step (demo_machine 0x28) = (m', Ok tt)) by (vm_compute; reflexivity).
  exists m'. split; [exact H|].
  exact (proj1 (step_memory_isolation _ _ _ (demo_machine_wf 0x28 ltac:(lia)) H)).
Defined.

(** Property: context-switch transparency.  A process saved on one CPU and restored
    on any other behaves identically: the step gives the same result, the same
    saved state, memory and messages, whatever was in the other CPU. *)
Theorem context_switch_transparent m c' :
  let m2 := {| cpu := restore_state (save_state (cpu m)) c'; mmu := mmu m; bus := bus m |} in
  (step m).2 = (step m2).2 /\
  save_state (cpu (step m).1) = save_state (cpu (step m2).1) /\
  mmu (step m).1 = mmu (step m2).1 /\ bus (step m).1 = bus (step m2).1.
Proof.
  intros m2.
  assert (E : m2 = latch (syscall_pending c') (syscall_regs c') m) by (by destruct m as [[] ? ?]).
  rewrite E. destruct (step_same_arch_latch (syscall_pending c') (syscall_regs c') m) as [(H1 & H2 & H3) H4].
  by split_and!.
Qed.

(** Property: the flags of an addition are the arithmetic ones: zero when the sum
    vanishes modulo 2^64, carry exactly on unsigned overflow, sign the sign of
    the wrapped result, overflow exactly when the signed sum is out of range. *)
Theorem add_flags a b :
  a < 2 ^ 64 -> b < 2 ^ 64 ->
  let f := from_result (wadd64 a b) a b in
  (zero f = true <-> (a + b) mod 2 ^ 64 = 0) /\
  (carry f = true <-> 2 ^ 64 <= a + b) /\
  (sign f = true <-> (to_i64 (wadd64 a b) < 0)%Z) /\
  (overflow f = true <-> ~ (- 2 ^ 63 <= to_i64 a + to_i64 b < 2 ^ 63)%Z).
Proof.
  intros Ha Hb f. subst f. unfold from_result, to_i64, neg64; cbn [zero carry sign overflow].
  assert (Hw : wadd64 a b = if 2 ^ 64 <=? a + b then a + b - 2 ^ 64 else a + b).
  { unfold wadd64. destruct (N.leb_spec (2 ^ 64) (a + b)).
    - replace (a + b) with ((a + b - 2 ^ 64) + 1 * 2 ^ 64) by lia.
      rewrite N.Div0.mod_add, N.mod_small; lia.
    - by apply N.mod_small. }
  change ((a + b) mod 2 ^ 64) with (wadd64 a b). rewrite Hw.
  split_and!.
  - by rewrite N.eqb_eq.
  - rewrite N.ltb_lt. destruct (N.leb_spec (2 ^ 64) (a + b)); lia.
  - destruct (N.leb_spec (2 ^ 64) (a + b)); bdestruct_all; split; intros; try done; lia.
  - destruct (N.leb_spec (2 ^ 64) (a + b)); bdestruct_all; split; intros; try done; try lia.
Qed.

Lemma add_flags_witness :
  overflow (from_result (wadd64 (2 ^ 63 - 1) 1) (2 ^ 63 - 1) 1) = true.
Proof.
  apply (add_flags (2 ^ 63 - 1) 1); [lia|lia|]. vm_compute. intros [_ H]. discriminate H.
Defined.

(** Property: after [CMP] or [SUB] the zero flag decides equality, so [JZ]/[JNZ]
    branch correctly; but the carry flag, which [from_result] computes with the
    formula of an addition, is set when [0 < b <= a], that is exactly when a
    non-zero subtraction does not borrow. *)
Theorem compare_flags a b :
  a < 2 ^ 64 -> b < 2 ^ 64 ->
  let f := from_result (wsub64 a b) a b in
  (zero f = true <-> a = b) /\ (carry f = true <-> 0 < b /\ b <= a).
Proof.
  intros Ha Hb f. subst f. unfold from_result; cbn [zero carry].
  destruct (N.le_gt_cases b a).
  - rewrite wsub64_ge by done. rewrite N.eqb_eq, N.ltb_lt. lia.
  - rewrite wsub64_lt by done. rewrite N.eqb_eq, N.ltb_lt. lia.
Qed.

Lemma compare_flags_witness : carry (from_result (wsub64 5 3) 5 3) = true /\ zero (from_result (wsub64 7 7) 7 7) = true.
Proof.
  split.
  - apply (compare_flags 5 3); lia.
  - apply (compare_flags 7 7); lia.
Defined.
