(* ===== verification/FrameAlloc.v ===== *)
(** * Physical frame allocation (src/src/services/memory/alloc.rs)

    [FrameAllocator] keeps a vector of frames and a FIFO queue of free frame
    numbers; [PhysicalMemoryManager] adds the per-process lists of frame numbers.
    Indexing the frame vector can panic in Rust, so the operations return an
    [outcome]; the invariant [wf] shows the panic is unreachable. *)
From S2P Require Import Prelude Types.

Record Frame := {
  number : N; address : PhysAddr; frame_bytes : N; allocated : bool; owner : option Pid }.

Definition Frame_new (num addr sz : N) : Frame :=
  {| number := num; address := addr; frame_bytes := sz; allocated := false; owner := None |}.
Definition Frame_allocate (pid : Pid) (f : Frame) : Frame :=
  {| number := number f; address := address f; frame_bytes := frame_bytes f;
     allocated := true; owner := Some pid |}.
Definition Frame_free (f : Frame) : Frame :=
  {| number := number f; address := address f; frame_bytes := frame_bytes f;
     allocated := false; owner := None |}.
Definition is_free (f : Frame) : bool := negb (allocated f).
Definition end_address (f : Frame) : PhysAddr := wadd64 (address f) (frame_bytes f).

Record FrameAllocator := {
  frames : list Frame;
  free_queue : list N;
  total_frames : N;
  frame_size : N;
  free_count : N;
  allocated_count : N }.

(** The free queue and the counters after [fs] replaces the frames. *)
Definition with_frames (a : FrameAllocator) fs q fc ac : FrameAllocator :=
  {| frames := fs; free_queue := q; total_frames := total_frames a;
     frame_size := frame_size a; free_count := fc; allocated_count := ac |}.

(** [FrameAllocator::new]: a zero frame size divides by zero. *)
Definition new (memory_size fsz : N) : outcome FrameAllocator :=
  if fsz =? 0 then Panicked else
  let total := memory_size / fsz in
  let nums := N.of_nat <$> seq 0 (N.to_nat total) in
  Done {| frames := (fun i => Frame_new i (wmul64 i fsz) fsz) <$> nums;
          free_queue := nums; total_frames := total; frame_size := fsz;
          free_count := total; allocated_count := 0 |}.

Definition allocate (a : FrameAllocator) (pid : Pid) : outcome (FrameAllocator * option Frame) :=
  match free_queue a with
  | [] => Done (a, None)
  | frame_num :: q =>
      f ← index (frames a) frame_num;
      let f' := Frame_allocate pid f in
      Done (with_frames a (<[N.to_nat frame_num := f']> (frames a)) q
              (wsub64 (free_count a) 1) (wadd64 (allocated_count a) 1), Some f')
  end.

Definition free (a : FrameAllocator) (frame_num : N) : outcome (FrameAllocator * bool) :=
  if total_frames a <=? frame_num then Done (a, false) else
  f ← index (frames a) frame_num;
  if negb (allocated f) then Done (a, false) else
  Done (with_frames a (<[N.to_nat frame_num := Frame_free f]> (frames a))
          (free_queue a ++ [frame_num])
          (wadd64 (free_count a) 1) (wsub64 (allocated_count a) 1), true).

Definition get_frame (a : FrameAllocator) (frame_num : N) : outcome (option Frame) :=
  if frame_num <? total_frames a then f ← index (frames a) frame_num; Done (Some f)
  else Done None.

Record MemoryUsage := {
  u_total_frames : N; u_free_frames : N; u_allocated_frames : N;
  u_total_memory : N; u_free_memory : N; u_used_memory : N }.

Definition usage (a : FrameAllocator) : MemoryUsage :=
  {| u_total_frames := total_frames a;
     u_free_frames := free_count a;
     u_allocated_frames := allocated_count a;
     u_total_memory := wmul64 (total_frames a) (frame_size a);
     u_free_memory := wmul64 (free_count a) (frame_size a);
     u_used_memory := wmul64 (allocated_count a) (frame_size a) |}.

Definition owned_by (pid : Pid) (f : Frame) : bool := bool_decide (owner f = Some pid).

Definition frames_by_owner (a : FrameAllocator) (pid : Pid) : list Frame :=
  List.filter (owned_by pid) (frames a).

(** The loop of [free_by_owner] over the frame vector: the new vector, and the
    queue, the two counters and the number of freed frames after it. *)
Fixpoint free_by_owner_loop (pid : Pid) (fs : list Frame) (q : list N) (fc ac freed : N)
  : list Frame * list N * N * N * N :=
  match fs with
  | [] => ([], q, fc, ac, freed)
  | f :: fs =>
      if owned_by pid f then
        let '(fs', q', fc', ac', freed') :=
          free_by_owner_loop pid fs (q ++ [number f]) (wadd64 fc 1) (wsub64 ac 1) (wadd64 freed 1) in
        (Frame_free f :: fs', q', fc', ac', freed')
      else
        let '(fs', q', fc', ac', freed') := free_by_owner_loop pid fs q fc ac freed in
        (f :: fs', q', fc', ac', freed')
  end.

Definition free_by_owner (a : FrameAllocator) (pid : Pid) : FrameAllocator * N :=
  let '(fs, q, fc, ac, freed) :=
    free_by_owner_loop pid (frames a) (free_queue a) (free_count a) (allocated_count a) 0 in
  (with_frames a fs q fc ac, freed).

Definition frame_owners (a : FrameAllocator) : list (N * N) :=
  (fun f => (number f, default 0 (owner f))) <$> frames a.

(** ** Physical memory manager *)

Record PhysicalMemoryManager := {
  allocator : FrameAllocator;
  process_frames : gmap Pid (list N) }.

Definition pmm_new (memory_size fsz : N) : outcome PhysicalMemoryManager :=
  a ← new memory_size fsz;
  Done {| allocator := a; process_frames := ∅ |}.

(** [v.remove(pos)] at the first position of [x] *)
Fixpoint remove_first (x : N) (l : list N) : list N :=
  match l with
  | [] => []
  | y :: l => if y =? x then l else y :: remove_first x l
  end.

Definition free_frame (m : PhysicalMemoryManager) (pid : Pid) (frame_num : N)
  : outcome (PhysicalMemoryManager * bool) :=
  let pf := match process_frames m !! pid with
            | Some l => <[pid := remove_first frame_num l]> (process_frames m)
            | None => process_frames m
            end in
  '(a, b) ← free (allocator m) frame_num;
  Done ({| allocator := a; process_frames := pf |}, b).

(** [for frame in &frames { self.free_frame(pid, frame.number); }] *)
Fixpoint free_frames (m : PhysicalMemoryManager) (pid : Pid) (fs : list Frame)
  : outcome PhysicalMemoryManager :=
  match fs with
  | [] => Done m
  | f :: fs => '(m', _) ← free_frame m pid (number f); free_frames m' pid fs
  end.

(** [count] iterations of the loop of [allocate_frames]; [acc] is the vector
    [frames] built so far. *)
Fixpoint allocate_frames_loop (m : PhysicalMemoryManager) (pid : Pid) (count : nat) (acc : list Frame)
  : outcome (PhysicalMemoryManager * list Frame) :=
  match count with
  | O => Done (m, acc)
  | S count =>
      '(a, r) ← allocate (allocator m) pid;
      match r with
      | Some f =>
          let pf := <[pid := default [] (process_frames m !! pid) ++ [number f]]> (process_frames m) in
          allocate_frames_loop {| allocator := a; process_frames := pf |} pid count (acc ++ [f])
      | None =>
          m' ← free_frames {| allocator := a; process_frames := process_frames m |} pid acc;
          Done (m', [])
      end
  end.

Definition allocate_frames (m : PhysicalMemoryManager) (pid : Pid) (count : N)
  : outcome (PhysicalMemoryManager * list Frame) :=
  allocate_frames_loop m pid (N.to_nat count) [].

Definition free_process_frames (m : PhysicalMemoryManager) (pid : Pid) : PhysicalMemoryManager * N :=
  let '(a, n) := free_by_owner (allocator m) pid in
  ({| allocator := a; process_frames := delete pid (process_frames m) |}, n).

Fixpoint lookup_frames (a : FrameAllocator) (nums : list N) : outcome (list Frame) :=
  match nums with
  | [] => Done []
  | n :: nums =>
      f ← get_frame a n;
      fs ← lookup_frames a nums;
      Done (match f with Some f => f :: fs | None => fs end)
  end.

Definition get_process_frames (m : PhysicalMemoryManager) (pid : Pid) : outcome (list Frame) :=
  match process_frames m !! pid with
  | Some nums => lookup_frames (allocator m) nums
  | None => Done []
  end.

(** ** Invariant *)

Definition frame_wf (fsz : N) (i : nat) (f : Frame) : Prop :=
  number f = N.of_nat i /\ address f = N.of_nat i * fsz /\ frame_bytes f = fsz /\
  allocated f = bool_decide (is_Some (owner f)).

(** The queue is, up to order, the numbers of the free frames; the counters
    count. *)
Definition wf (a : FrameAllocator) : Prop :=
  total_frames a = len (frames a) /\ total_frames a < 2 ^ 64 /\
  (forall i f, frames a !! i = Some f -> frame_wf (frame_size a) i f) /\
  free_queue a ≡ₚ number <$> List.filter is_free (frames a) /\
  free_count a = len (List.filter is_free (frames a)) /\
  allocated_count a = len (List.filter allocated (frames a)).

(** ** Lemmas *)

Lemma list_filter_app {A} (P : A -> bool) l1 l2 :
  List.filter P (l1 ++ l2) = List.filter P l1 ++ List.filter P l2.
Proof. apply List.filter_app. Qed.

Lemma split_at {A} (l : list A) i x :
  l !! i = Some x -> exists l1 l2, l = l1 ++ x :: l2 /\ i = length l1 /\
    forall y, <[i := y]> l = l1 ++ y :: l2.
Proof.
  intros H. pose proof (lookup_lt_Some _ _ _ H).
  exists (take i l), (drop (S i) l). split_and!.
  - symmetry. by apply take_drop_middle.
  - rewrite length_take. lia.
  - intros y. rewrite insert_take_drop by done. done.
Qed.

Lemma filter_split_length {A} (P : A -> bool) (l : list A) :
  (length (List.filter P l) + length (List.filter (fun x => negb (P x)) l) = length l)%nat.
Proof. induction l as [|x l IH]; simpl; [done|]. destruct (P x); simpl; lia. Qed.

Lemma counts_total a : wf a -> free_count a + allocated_count a = total_frames a.
Proof.
  intros (Ht & _ & _ & _ & Hf & Ha). pose proof (filter_split_length allocated (frames a)) as E.
  unfold is_free in Hf. lia.
Qed.

Lemma frame_new_wf fsz i : N.of_nat i * fsz < 2 ^ 64 ->
  frame_wf fsz i (Frame_new (N.of_nat i) (wmul64 (N.of_nat i) fsz) fsz).
Proof. intros H. unfold frame_wf, wmul64; simpl. by rewrite N.mod_small. Qed.

Lemma filter_all {A} (P : A -> bool) l : Forall (fun x => P x = true) l -> List.filter P l = l.
Proof. induction 1 as [|x l Hx _ IH]; simpl; [done|]. by rewrite Hx, IH. Qed.

Lemma filter_none {A} (P : A -> bool) l : Forall (fun x => P x = false) l -> List.filter P l = [].
Proof. induction 1 as [|x l Hx _ IH]; simpl; [done|]. by rewrite Hx. Qed.

Lemma alloc_new_wf msz fsz a : msz < 2 ^ 64 -> new msz fsz = Done a -> wf a.
Proof.
  intros Hm H. unfold new in H. destruct (N.eqb_spec fsz 0); [done|]. injection H as <-.
  pose proof (N.Div0.mul_div_le msz fsz) as Hle.
  assert (msz / fsz <= msz) by (apply N.Div0.div_le_upper_bound; nia).
  unfold wf; simpl. rewrite !length_fmap, length_seq. split_and!; [lia|lia|..].
  - intros i f Hf. rewrite !list_lookup_fmap in Hf.
    destruct (seq 0 _ !! i) eqn:E; simplify_eq/=. apply lookup_seq in E as [-> Hi].
    apply frame_new_wf. nia.
  - rewrite filter_all by (by apply Forall_fmap, Forall_true).
    rewrite <- list_fmap_compose. rewrite list_fmap_id. done.
  - rewrite filter_all by (by apply Forall_fmap, Forall_true).
    rewrite !length_fmap, length_seq. lia.
  - rewrite filter_none by (by apply Forall_fmap, Forall_true). done.
Qed.

(** Every queued number is the index of a free frame. *)
Lemma queue_frame a n :
  wf a -> n ∈ free_queue a -> exists f, frames a !! N.to_nat n = Some f /\ allocated f = false /\ owner f = None.
Proof.
  intros (Ht & _ & Hf & Hq & _) Hn. rewrite Hq in Hn.
  apply list_elem_of_fmap in Hn as (f & -> & Hin).
  apply list_elem_of_In, filter_In in Hin as [Hin Hfree].
  apply list_elem_of_In, list_elem_of_lookup in Hin as [i Hi].
  pose proof (Hf i f Hi) as (Hnum & _ & _ & Hal). exists f.
  rewrite Hnum, Nat2N.id. unfold is_free in Hfree. apply negb_true_iff in Hfree.
  split_and!; [done..|]. rewrite Hfree in Hal. symmetry in Hal.
  apply bool_decide_eq_false in Hal. by destruct (owner f) eqn:E; [destruct Hal; eauto|].
Qed.

Lemma shape_insert a i f f' :
  (forall i f, frames a !! i = Some f -> frame_wf (frame_size a) i f) ->
  frames a !! i = Some f -> frame_wf (frame_size a) i f' ->
  forall j g, <[i := f']> (frames a) !! j = Some g -> frame_wf (frame_size a) j g.
Proof.
  intros Hs Hi Hf' j g Hg. apply list_lookup_insert_Some in Hg as [(-> & -> & _)|(Hn & Hg)]; [done|].
  by apply Hs.
Qed.

Lemma allocate_shape fsz i f pid : frame_wf fsz i f -> frame_wf fsz i (Frame_allocate pid f).
Proof. intros (?&?&?&?). by split_and!. Qed.

Lemma free_shape fsz i f : frame_wf fsz i f -> frame_wf fsz i (Frame_free f).
Proof. intros (?&?&?&?). by split_and!. Qed.

(** One allocation: the head of the queue, or nothing when the queue is empty. *)
Lemma allocate_cons a pid n q :
  wf a -> free_queue a = n :: q ->
  exists f a', frames a !! N.to_nat n = Some f /\ allocated f = false /\ owner f = None /\
    allocate a pid = Done (a', Some (Frame_allocate pid f)) /\ wf a' /\
    frames a' = <[N.to_nat n := Frame_allocate pid f]> (frames a) /\ free_queue a' = q /\
    frame_size a' = frame_size a /\ number f = n /\ free_count a = free_count a' + 1.
Proof.
  intros Hw Hq. destruct (queue_frame a n Hw) as (f & Hf & Hal & How); [rewrite Hq; by left|].
  destruct Hw as (Ht & Hb & Hs & Hp & Hfc & Hac).
  pose proof (Hs _ _ Hf) as Hshape. pose proof Hshape as (Hnum & _).
  rewrite N2Nat.id in Hnum.
  destruct (split_at _ _ _ Hf) as (l1 & l2 & Hl & _ & Hins).
  assert (Hfree : is_free f = true) by (unfold is_free; by rewrite Hal).
  assert (Hlen : length (frames a) = (length l1 + S (length l2))%nat) by (rewrite Hl, length_app; done).
  rewrite Hl, list_filter_app in Hfc, Hac, Hp. simpl in Hfc, Hac, Hp.
  rewrite Hfree in Hfc, Hp. rewrite Hal in Hac. rewrite length_app in Hfc. simpl in Hfc.
  pose proof (filter_split_length allocated l1). pose proof (filter_split_length allocated l2).
  pose proof (filter_split_length is_free l1). pose proof (filter_split_length is_free l2).
  exists f, (with_frames a (<[N.to_nat n := Frame_allocate pid f]> (frames a)) q
              (wsub64 (free_count a) 1) (wadd64 (allocated_count a) 1)). split_and!; try done.
  - unfold allocate. rewrite Hq, (index_done _ _ _ Hf). reflexivity.
  - unfold wf; simpl. rewrite length_insert. split_and!; try done.
    + eapply shape_insert; [exact Hs|exact Hf|by apply allocate_shape].
    + rewrite Hins, list_filter_app. simpl. rewrite fmap_app in Hp |- *. simpl in Hp.
      rewrite Hq, Hnum in Hp. by apply Permutation_cons_app_inv in Hp.
    + rewrite Hins, list_filter_app, length_app. simpl. rewrite wsub64_ge by lia. lia.
    + rewrite Hins, list_filter_app, length_app. simpl. rewrite length_app in Hac. rewrite wadd64_small by lia. lia.
  - simpl. rewrite wsub64_ge by lia. lia.
Qed.

Lemma allocate_nil a pid : free_queue a = [] -> allocate a pid = Done (a, None).
Proof. intros Hq. unfold allocate. by rewrite Hq. Qed.

Lemma free_queue_length a : wf a -> len (free_queue a) = free_count a.
Proof. intros (_ & _ & _ & Hp & Hf & _). by rewrite Hf, Hp, length_fmap. Qed.

(** Freeing an allocated frame. *)
Lemma free_allocated a n f :
  wf a -> n < total_frames a -> frames a !! N.to_nat n = Some f -> allocated f = true ->
  exists a', free a n = Done (a', true) /\ wf a' /\
    frames a' = <[N.to_nat n := Frame_free f]> (frames a) /\
    free_queue a' = free_queue a ++ [n] /\ frame_size a' = frame_size a /\
    free_count a' = free_count a + 1 /\ total_frames a' = total_frames a.
Proof.
  intros Hw Hn Hf Hal. pose proof (counts_total a Hw) as Hct.
  destruct Hw as (Ht & Hb & Hs & Hp & Hfc & Hac).
  pose proof (Hs _ _ Hf) as Hshape. pose proof Hshape as (Hnum & _). rewrite N2Nat.id in Hnum.
  destruct (split_at _ _ _ Hf) as (l1 & l2 & Hl & _ & Hins).
  assert (Hfree : is_free f = false) by (unfold is_free; by rewrite Hal).
  rewrite Hl, list_filter_app in Hfc, Hac, Hp. simpl in Hfc, Hac, Hp.
  rewrite Hfree in Hfc, Hp. rewrite Hal in Hac. rewrite length_app in Hfc, Hac. simpl in Hac.
  eexists. split_and!.
  - unfold free. destruct (N.leb_spec (total_frames a) n); [lia|].
    rewrite (index_done _ _ _ Hf). simpl. rewrite Hal. done.
  - unfold wf; simpl. rewrite length_insert. split_and!; try done.
    + eapply shape_insert; [exact Hs|exact Hf|by apply free_shape].
    + rewrite Hins, list_filter_app. simpl. rewrite !fmap_app in *. simpl.
      rewrite Hp, Hnum. etrans; [apply Permutation_app_comm|].
      exact (Permutation_middle (number <$> List.filter is_free l1) (number <$> List.filter is_free l2) n).
    + rewrite Hins, list_filter_app, length_app. simpl. rewrite wadd64_small by lia. lia.
    + rewrite Hins, list_filter_app, length_app. simpl. rewrite wsub64_ge by lia. lia.
  - done.
  - done.
  - done.
  - simpl. rewrite wadd64_small by lia. done.
  - done.
Qed.

(** The loop of [free_by_owner]: every owned frame is freed and queued. *)
Lemma free_by_owner_loop_spec pid fs : forall q fc ac freed,
  let k := len (List.filter (owned_by pid) fs) in
  fc + k < 2 ^ 64 -> k <= ac -> ac < 2 ^ 64 -> freed + k < 2 ^ 64 ->
  free_by_owner_loop pid fs q fc ac freed =
    ((fun f => if owned_by pid f then Frame_free f else f) <$> fs,
     q ++ (number <$> List.filter (owned_by pid) fs), fc + k, ac - k, freed + k).
Proof.
  induction fs as [|f fs IH]; intros q fc ac freed k Hfc Hac Hac' Hfr; subst k; simpl in *.
  - by rewrite app_nil_r, !N.add_0_r, N.sub_0_r.
  - destruct (owned_by pid f); simpl in *.
    + rewrite wadd64_small, wsub64_ge, wadd64_small by lia. rewrite IH by lia.
      rewrite <- app_assoc. simpl. set (k := length (List.filter (owned_by pid) fs)).
      replace (fc + N.of_nat (S k)) with (fc + 1 + N.of_nat k) by lia.
      replace (ac - N.of_nat (S k)) with (ac - 1 - N.of_nat k) by lia.
      by replace (freed + N.of_nat (S k)) with (freed + 1 + N.of_nat k) by lia.
    + by rewrite IH by lia.
Qed.

Lemma owned_allocated fsz i f pid : frame_wf fsz i f -> owned_by pid f = true -> allocated f = true.
Proof.
  intros (_ & _ & _ & ->) Ho. apply bool_decide_eq_true in Ho. rewrite Ho. done.
Qed.

Lemma free_owned_filters pid fs :
  Forall (fun f => owned_by pid f = true -> allocated f = true) fs ->
  let fs' := (fun f => if owned_by pid f then Frame_free f else f) <$> fs in
  number <$> List.filter is_free fs' ≡ₚ
    (number <$> List.filter is_free fs) ++ (number <$> List.filter (owned_by pid) fs) /\
  (length (List.filter is_free fs') =
     length (List.filter is_free fs) + length (List.filter (owned_by pid) fs))%nat /\
  (length (List.filter allocated fs') + length (List.filter (owned_by pid) fs) =
     length (List.filter allocated fs))%nat /\
  List.filter (owned_by pid) fs' = [].
Proof.
  induction 1 as [|f fs Hf _ (IH1 & IH2 & IH3 & IH4)]; csimpl; [done|]. unfold is_free in *.
  destruct (owned_by pid f) eqn:Ho; csimpl.
  - rewrite (Hf eq_refl). csimpl. split_and!; [|lia|lia|done].
    rewrite IH1. by rewrite Permutation_middle.
  - rewrite Ho. destruct (allocated f); csimpl; split_and!; try done; try lia. by rewrite IH1.
Qed.

Lemma filter_length_le {A} (P : A -> bool) l : (length (List.filter P l) <= length l)%nat.
Proof. pose proof (filter_split_length P l). lia. Qed.

Lemma shape_owned a pid : wf a -> Forall (fun f => owned_by pid f = true -> allocated f = true) (frames a).
Proof.
  intros (_ & _ & Hs & _). apply Forall_lookup. intros i f Hf. by eapply owned_allocated, Hs.
Qed.

Lemma free_by_owner_wf a pid a' n :
  wf a -> free_by_owner a pid = (a', n) ->
  wf a' /\ n = len (frames_by_owner a pid) /\
  frames a' = (fun f => if owned_by pid f then Frame_free f else f) <$> frames a /\
  frames_by_owner a' pid = [] /\ free_count a' = free_count a + n /\ frame_size a' = frame_size a.
Proof.
  intros Hw H. pose proof (counts_total a Hw) as Hct. pose proof (shape_owned a pid Hw) as Ho.
  destruct (free_owned_filters pid (frames a) Ho) as (H1 & H2 & H3 & H4).
  destruct Hw as (Ht & Hb & Hs & Hp & Hfc & Hac).
  unfold free_by_owner in H. rewrite free_by_owner_loop_spec in H by lia.
  injection H as <- <-. split_and!; try done; simpl; try lia.
  unfold wf; simpl. rewrite length_fmap. split_and!; try done; try lia.
  - intros i f Hf. apply list_lookup_fmap_Some in Hf as (g & -> & Hg).
    destruct (owned_by pid g); [apply free_shape|]; by apply Hs.
  - by rewrite H1, Hp.
Qed.

(** *** The memory manager's lists agree with the owners of the frames *)

Definition pmm_wf (m : PhysicalMemoryManager) : Prop :=
  wf (allocator m) /\
  forall pid, default [] (process_frames m !! pid) ≡ₚ number <$> frames_by_owner (allocator m) pid.

Lemma remove_first_perm n l : n ∈ l -> l ≡ₚ n :: remove_first n l.
Proof.
  induction l as [|y l IH]; intros Hn; [by apply elem_of_nil in Hn|]. simpl.
  destruct (N.eqb_spec y n) as [->|Hne]; [done|].
  apply elem_of_cons in Hn as [->|Hn]; [done|].
  rewrite (IH Hn) at 1. by apply Permutation_swap.
Qed.

Lemma frames_by_owner_insert a i f f' pid l1 l2 :
  frames a = l1 ++ f :: l2 -> <[i := f']> (frames a) = l1 ++ f' :: l2 ->
  List.filter (owned_by pid) (<[i := f']> (frames a)) =
    List.filter (owned_by pid) l1 ++ (if owned_by pid f' then [f'] else []) ++ List.filter (owned_by pid) l2 /\
  frames_by_owner a pid =
    List.filter (owned_by pid) l1 ++ (if owned_by pid f then [f] else []) ++ List.filter (owned_by pid) l2.
Proof.
  intros H1 H2. unfold frames_by_owner. rewrite H2, H1, !list_filter_app. simpl.
  by destruct (owned_by pid f), (owned_by pid f').
Qed.

Lemma owned_by_allocate pid pid' f : owned_by pid (Frame_allocate pid' f) = bool_decide (pid' = pid).
Proof. unfold owned_by; simpl. by apply bool_decide_ext; split; intros; simplify_eq. Qed.

Lemma owned_by_none pid f : owner f = None -> owned_by pid f = false.
Proof. unfold owned_by. intros ->. done. Qed.

(** One successful iteration of [allocate_frames]. *)
Lemma allocate_push_wf m pid n q :
  pmm_wf m -> free_queue (allocator m) = n :: q ->
  exists f a', allocate (allocator m) pid = Done (a', Some (Frame_allocate pid f)) /\
    frames (allocator m) !! N.to_nat n = Some f /\ owner f = None /\ allocated f = false /\ number f = n /\
    frames a' = <[N.to_nat n := Frame_allocate pid f]> (frames (allocator m)) /\
    free_count (allocator m) = free_count a' + 1 /\
    pmm_wf {| allocator := a';
              process_frames := <[pid := default [] (process_frames m !! pid) ++ [n]]> (process_frames m) |}.
Proof.
  intros [Hw Hpf] Hq.
  destruct (allocate_cons _ pid n q Hw Hq) as (f & a' & Hf & Hal & How & Hall & Hw' & Hfr & _ & _ & Hnum & Hfc).
  exists f, a'. split_and!; try done. split; [done|]. intros pid'. simpl.
  destruct (split_at _ _ _ Hf) as (l1 & l2 & Hl & _ & Hins).
  destruct (frames_by_owner_insert (allocator m) _ f (Frame_allocate pid f) pid' l1 l2 Hl (Hins _)) as [E1 E2].
  unfold frames_by_owner at 1. rewrite Hfr, E1, owned_by_allocate.
  specialize (Hpf pid'). rewrite E2, owned_by_none in Hpf by done. simpl in Hpf.
  rewrite lookup_insert. destruct (decide (pid = pid')) as [->|Hne].
  - rewrite bool_decide_true by done. simpl. rewrite Hpf, !fmap_app. simpl. rewrite Hnum.
    rewrite <- app_assoc. f_equiv. apply Permutation_app_comm.
  - rewrite bool_decide_false by done. done.
Qed.

(** One [free_frame] by the real owner. *)
Lemma free_frame_wf m pid n f :
  pmm_wf m -> frames (allocator m) !! N.to_nat n = Some f -> owner f = Some pid ->
  exists m', free_frame m pid n = Done (m', true) /\ pmm_wf m' /\
    frames (allocator m') = <[N.to_nat n := Frame_free f]> (frames (allocator m)) /\
    free_count (allocator m') = free_count (allocator m) + 1.
Proof.
  intros [Hw Hpf] Hf How. pose proof Hw as (Ht & _ & Hs & _).
  pose proof (Hs _ _ Hf) as (Hnum & _ & _ & Hal). rewrite N2Nat.id in Hnum.
  rewrite How in Hal. change (allocated f = true) in Hal.
  assert (Hn : n < total_frames (allocator m)).
  { apply lookup_lt_Some in Hf. lia. }
  destruct (free_allocated _ n f Hw Hn Hf Hal) as (a' & Hfree & Hw' & Hfr & _ & _ & Hfc & _).
  destruct (split_at _ _ _ Hf) as (l1 & l2 & Hl & _ & Hins).
  assert (Hown : owned_by pid f = true) by (by apply bool_decide_eq_true).
  unfold free_frame. rewrite Hfree. eexists. split; [reflexivity|]. split_and!; [split|done|done]; simpl; [done|].
  intros pid'.
  destruct (frames_by_owner_insert (allocator m) _ f (Frame_free f) pid' l1 l2 Hl (Hins _)) as [E1 E2].
  unfold frames_by_owner at 1. rewrite Hfr, E1. rewrite (owned_by_none pid' (Frame_free f)) by done. simpl.
  pose proof (Hpf pid) as Hpid. specialize (Hpf pid'). rewrite E2 in Hpf.
  destruct (process_frames m !! pid) as [l|] eqn:El; simpl in *.
  - rewrite lookup_insert. destruct (decide (pid = pid')) as [<-|Hne].
    + rewrite El, Hown in Hpf. simpl in *. rewrite !fmap_app in *. simpl in Hpf.
      apply (Permutation_cons_inv (a := n)). rewrite <- remove_first_perm.
      * rewrite Hpf, Hnum. symmetry. apply Permutation_middle.
      * rewrite Hpf, Hnum. set_solver.
    + replace (owned_by pid' f) with false in Hpf; [done|]. symmetry.
      apply bool_decide_eq_false. rewrite How. congruence.
  - exfalso. assert (n ∈ number <$> frames_by_owner (allocator m) pid) as Hin.
    { apply list_elem_of_fmap. exists f. split; [done|]. apply list_elem_of_In, filter_In.
      split; [|done]. apply list_elem_of_In. by eapply list_elem_of_lookup_2. }
    rewrite <- Hpid in Hin. by apply elem_of_nil in Hin.
Qed.

(** The cleanup loop of [allocate_frames] frees what it is given. *)
Lemma free_frames_spec pid fs : forall m,
  pmm_wf m -> NoDup (number <$> fs) ->
  Forall (fun g => exists f, frames (allocator m) !! N.to_nat (number g) = Some f /\ owner f = Some pid) fs ->
  exists m', free_frames m pid fs = Done m' /\ pmm_wf m' /\
    forall i, frames (allocator m') !! i =
      (fun f => if bool_decide (N.of_nat i ∈ number <$> fs) then Frame_free f else f)
        <$> frames (allocator m) !! i.
Proof.
  induction fs as [|g fs IH]; intros m Hm Hnd Hall; csimpl in *.
  - exists m. split_and!; [done|done|]. intros i. by destruct (frames _ !! i).
  - apply Forall_cons_1 in Hall as [(f & Hf & How) Hall]. apply list.NoDup_cons in Hnd as [Hni Hnd].
    destruct (free_frame_wf m pid _ f Hm Hf How) as (m1 & E1 & Hm1 & Hfr1 & _).
    rewrite E1. destruct (IH m1 Hm1 Hnd) as (m' & E' & Hm' & Hfr').
    { apply list.Forall_forall. intros h Hh. eapply list.Forall_forall in Hall as (f' & Hf' & How'); [|exact Hh].
      exists f'. split; [|done]. rewrite Hfr1, list_lookup_insert_ne; [done|].
      intros E. apply Hni. apply list_elem_of_fmap. exists h. split; [lia|done]. }
    exists m'. split_and!; [exact E'|done|]. intros i. rewrite Hfr', Hfr1.
    destruct (decide (i = N.to_nat (number g))) as [->|Hne].
    + rewrite list_lookup_insert_eq by (by eapply lookup_lt_Some). rewrite Hf. simpl.
      rewrite N2Nat.id. rewrite bool_decide_false by done. rewrite bool_decide_true by set_solver. done.
    + rewrite list_lookup_insert_ne by done. destruct (frames (allocator m) !! i); [simpl|done].
      f_equal. rewrite (bool_decide_ext (N.of_nat i ∈ _ :: _) (N.of_nat i ∈ number <$> fs)); [done|].
      rewrite elem_of_cons. split; [intros [?|?]; [lia|done]|by right].
Qed.

(** How the state [m] of the loop relates to the state [m0] it started from. *)
Definition alloc_rel (pid : Pid) (m0 m : PhysicalMemoryManager) (acc : list Frame) : Prop :=
  pmm_wf m /\ NoDup (number <$> acc) /\
  free_count (allocator m0) = free_count (allocator m) + len acc /\
  (forall i, frames (allocator m) !! i =
     (fun f => if bool_decide (N.of_nat i ∈ number <$> acc) then Frame_allocate pid f else f)
       <$> frames (allocator m0) !! i) /\
  Forall (fun g => exists f, frames (allocator m0) !! N.to_nat (number g) = Some f /\
    owner f = None /\ allocated f = false /\ g = Frame_allocate pid f) acc.

Lemma alloc_rel_refl pid m : pmm_wf m -> alloc_rel pid m m [].
Proof.
  intros Hm. split_and!; csimpl; [done|constructor|lia| |constructor].
  intros i. by destruct (frames _ !! i).
Qed.

Lemma free_allocate_id pid f : owner f = None -> allocated f = false -> Frame_free (Frame_allocate pid f) = f.
Proof. destruct f; simpl. by intros -> ->. Qed.

Lemma alloc_rel_undo pid m0 m acc :
  alloc_rel pid m0 m acc ->
  exists m', free_frames m pid acc = Done m' /\ pmm_wf m' /\ frames (allocator m') = frames (allocator m0).
Proof.
  intros (Hm & Hnd & _ & Hfr & Hall).
  destruct (free_frames_spec pid acc m Hm Hnd) as (m' & E & Hm' & Hfr').
  { apply list.Forall_forall. intros g Hg. eapply list.Forall_forall in Hall as (f & Hf & _ & _ & Eg); [|exact Hg]. subst g.
    exists (Frame_allocate pid f). split; [|done]. simpl in *. rewrite Hfr, Hf. simpl.
    rewrite bool_decide_true; [done|]. rewrite N2Nat.id. apply list_elem_of_fmap.
    by exists (Frame_allocate pid f). }
  exists m'. split_and!; [done|done|]. apply list_eq. intros i. rewrite Hfr', Hfr.
  destruct (frames (allocator m0) !! i) as [f|] eqn:Ef; simpl; [|done]. f_equal.
  case_bool_decide as Hin; [|done].
  apply list_elem_of_fmap in Hin as (g & Hn & Hg).
  eapply list.Forall_forall in Hall as (f' & Hf' & How & Hal & Eg); [|exact Hg]. subst g. simpl in *.
  rewrite <- Hn, Nat2N.id, Ef in Hf'. simplify_eq. by apply free_allocate_id.
Qed.

Lemma alloc_rel_step pid m0 m acc n q :
  alloc_rel pid m0 m acc -> free_queue (allocator m) = n :: q ->
  exists f a', allocate (allocator m) pid = Done (a', Some (Frame_allocate pid f)) /\
    alloc_rel pid m0
      {| allocator := a';
         process_frames := <[pid := default [] (process_frames m !! pid) ++ [number (Frame_allocate pid f)]]>
                             (process_frames m) |} (acc ++ [Frame_allocate pid f]).
Proof.
  intros (Hm & Hnd & Hc & Hfr & Hall) Hq.
  destruct (allocate_push_wf m pid n q Hm Hq) as (f & a' & E & Hf & How & Hal & Hn & Hfr' & Hc' & Hm').
  exists f, a'. split; [done|]. simpl. rewrite Hn.
  assert ((n ∉ number <$> acc) /\ frames (allocator m0) !! N.to_nat n = Some f) as [Hni Hf0].
  { rewrite Hfr in Hf. destruct (frames (allocator m0) !! N.to_nat n) as [f0|] eqn:E0; [|done].
    simpl in Hf. rewrite N2Nat.id in Hf. case_bool_decide; simplify_eq/=; done. }
  split_and!; [done|..].
  - rewrite fmap_app. apply list.NoDup_app. csimpl. rewrite Hn. split_and!; [done| |apply NoDup_singleton].
    intros x Hx. rewrite list_elem_of_singleton. by intros ->.
  - rewrite length_app. simpl. lia.
  - intros i. simpl. rewrite Hfr', fmap_app. csimpl. rewrite Hn.
    destruct (decide (i = N.to_nat n)) as [->|Hne].
    + rewrite list_lookup_insert_eq by (by eapply lookup_lt_Some). rewrite Hf0. simpl.
      rewrite N2Nat.id, bool_decide_true by set_solver. done.
    + rewrite list_lookup_insert_ne, Hfr by done. destruct (frames (allocator m0) !! i); [simpl|done].
      f_equal. rewrite (bool_decide_ext (N.of_nat i ∈ _ ++ _) (N.of_nat i ∈ number <$> acc)); [done|].
      rewrite elem_of_app, list_elem_of_singleton. split; [intros [?|?]; [done|lia]|by left].
  - apply Forall_app. split; [done|]. constructor; [|constructor]. exists f. simpl. rewrite Hn. done.
Qed.

Lemma allocate_frames_loop_spec pid m0 count : forall m acc,
  alloc_rel pid m0 m acc ->
  if bool_decide (N.of_nat count <= free_count (allocator m)) then
    exists m' fs, allocate_frames_loop m pid count acc = Done (m', acc ++ fs) /\
      length fs = count /\ alloc_rel pid m0 m' (acc ++ fs)
  else
    exists m', allocate_frames_loop m pid count acc = Done (m', []) /\ pmm_wf m' /\
      frames (allocator m') = frames (allocator m0).
Proof.
  induction count as [|count IH]; intros m acc Hr; cbn [allocate_frames_loop].
  - rewrite bool_decide_true by lia. exists m, []. by rewrite app_nil_r.
  - pose proof Hr as ([Hw _] & _). pose proof (free_queue_length _ Hw) as Hlen.
    destruct (free_queue (allocator m)) as [|n q] eqn:Hq; simpl in Hlen.
    + rewrite bool_decide_false by lia. rewrite allocate_nil by done.
      destruct (alloc_rel_undo _ _ _ _ Hr) as (m' & E & Hm' & Hfr).
      exists m'. split; [|done]. cbn. destruct m. cbn in *. by rewrite E.
    + destruct (alloc_rel_step _ _ _ _ n q Hr Hq) as (f & a' & E & Hr'). rewrite E.
      pose proof Hr as (_ & _ & Hc & _). pose proof Hr' as (_ & _ & Hc' & _).
      rewrite length_app in Hc'. simpl in Hc'.
      specialize (IH _ _ Hr'). cbn [allocator] in IH, Hc'.
      destruct (decide (N.of_nat (S count) <= free_count (allocator m))) as [Hle|Hle].
      * rewrite bool_decide_true in IH |- * by lia.
        destruct IH as (m' & fs & E' & Hl & Hr''). exists m', (Frame_allocate pid f :: fs).
        rewrite <- app_assoc in E', Hr''. split_and!; [exact E'|simpl; lia|done].
      * rewrite bool_decide_false in IH |- * by lia.
        destruct IH as (m' & E' & Hm' & Hfr). exists m'. by split_and!.
Qed.

(** *** Runs of the memory manager *)

(** A history: allocations, frames given back, by whatever process, and processes
    torn down. *)
Inductive PmmOp := Allocate (pid : Pid) (count : N) | Free (pid : Pid) (n : N) | FreeProcess (pid : Pid).
Definition pmm_op (m : PhysicalMemoryManager) (o : PmmOp) : outcome PhysicalMemoryManager :=
  match o with
  | Allocate pid count => '(m, _) ← allocate_frames m pid count; Done m
  | Free pid n => '(m, _) ← free_frame m pid n; Done m
  | FreeProcess pid => Done (fst (free_process_frames m pid))
  end.
Fixpoint pmm_run (m : PhysicalMemoryManager) (os : list PmmOp) : outcome PhysicalMemoryManager :=
  match os with [] => Done m | o :: os => m ← pmm_op m o; pmm_run m os end.

(** every frame that is given back is one of the process that gives it back *)
Definition frees_own (m : PhysicalMemoryManager) (o : PmmOp) : bool :=
  match o with
  | Free pid n => match frames (allocator m) !! N.to_nat n with Some f => owned_by pid f | None => false end
  | _ => true
  end.
Fixpoint all_free_own (m : PhysicalMemoryManager) (os : list PmmOp) : bool :=
  match os with
  | [] => true
  | o :: os => frees_own m o && match pmm_op m o with Done m => all_free_own m os | _ => false end
  end.

Lemma pmm_new_wf msz fsz m : msz < 2 ^ 64 -> pmm_new msz fsz = Done m -> pmm_wf m.
Proof.
  intros Hm H. unfold pmm_new in H. destruct (new msz fsz) as [a| |] eqn:E; simplify_eq/=.
  split; [by eapply alloc_new_wf|]. intros pid. simpl. rewrite lookup_empty. simpl.
  unfold frames_by_owner. unfold new in E. destruct (fsz =? 0); [done|]. injection E as <-. simpl.
  rewrite filter_none; [done|]. by apply Forall_fmap, Forall_true.
Qed.

Lemma filter_owned_other pid pid' fs :
  pid <> pid' ->
  List.filter (owned_by pid') ((fun f => if owned_by pid f then Frame_free f else f) <$> fs) =
  List.filter (owned_by pid') fs.
Proof.
  intros Hne. induction fs as [|f fs IH]; [done|]. rewrite fmap_cons. cbn [List.filter].
  rewrite IH. destruct (owned_by pid f) eqn:Ho; [|done].
  rewrite (owned_by_none pid' (Frame_free f)) by done.
  replace (owned_by pid' f) with false; [done|]. symmetry.
  apply bool_decide_eq_true in Ho. apply bool_decide_eq_false. rewrite Ho. congruence.
Qed.

Lemma free_process_frames_wf m pid m' n :
  pmm_wf m -> free_process_frames m pid = (m', n) -> pmm_wf m'.
Proof.
  intros [Hw Hpf] H. unfold free_process_frames in H.
  destruct (free_by_owner (allocator m) pid) as [a k] eqn:E. injection H as <- <-.
  pose proof (free_by_owner_wf _ _ _ _ Hw E) as (Hw' & _ & Hfr & Hnone & _).
  split; [done|]. intros pid'. simpl. rewrite lookup_delete. case_decide as Hd.
  - subst pid'. by rewrite Hnone.
  - rewrite Hpf. unfold frames_by_owner. rewrite Hfr.
    by rewrite filter_owned_other.
Qed.

Lemma allocate_frames_wf m pid count m' fs :
  pmm_wf m -> allocate_frames m pid count = Done (m', fs) -> pmm_wf m'.
Proof.
  intros Hm H. unfold allocate_frames in H.
  pose proof (allocate_frames_loop_spec pid m (N.to_nat count) m [] (alloc_rel_refl pid m Hm)) as S.
  rewrite N2Nat.id in S. case_bool_decide.
  - destruct S as (m1 & fs1 & E & _ & (Hw & _)). rewrite E in H. by simplify_eq.
  - destruct S as (m1 & E & Hw & _). rewrite E in H. by simplify_eq.
Qed.

Lemma lookup_frames_wf a nums :
  wf a -> Forall (fun n => n < total_frames a) nums ->
  exists fs, lookup_frames a nums = Done fs /\ number <$> fs = nums /\
    Forall (fun f => frames a !! N.to_nat (number f) = Some f) fs.
Proof.
  intros Hw. induction 1 as [|n nums Hn _ (fs & E & Hnums & Hall)]; [by exists []|].
  destruct (lookup_lt_is_Some_2 (frames a) (N.to_nat n)) as [f Hf]; [destruct Hw; lia|].
  exists (f :: fs). cbn [lookup_frames]. unfold get_frame.
  destruct (N.ltb_spec n (total_frames a)); [|lia]. rewrite (index_done _ _ _ Hf), E.
  destruct Hw as (_ & _ & Hs & _). pose proof (Hs _ _ Hf) as (Hnum & _). rewrite N2Nat.id in Hnum.
  split_and!; [done|csimpl; by rewrite Hnum, Hnums|]. constructor; [by rewrite Hnum|done].
Qed.

(** ** Properties *)

(** [allocate_frames] in terms of the frames before and after. *)
Lemma allocate_frames_spec m pid count :
  pmm_wf m ->
  exists m' fs, allocate_frames m pid count = Done (m', fs) /\ pmm_wf m' /\
    if bool_decide (count <= free_count (allocator m)) then
      len fs = count /\ NoDup (number <$> fs) /\
      Forall (fun g => owner g = Some pid /\ exists f, frames (allocator m) !! N.to_nat (number g) = Some f /\
                       allocated f = false /\ owner f = None) fs /\
      free_count (allocator m) = free_count (allocator m') + count /\
      (forall i, N.of_nat i ∉ number <$> fs -> frames (allocator m') !! i = frames (allocator m) !! i)
    else fs = [] /\ frames (allocator m') = frames (allocator m).
Proof.
  intros Hm. pose proof (allocate_frames_loop_spec pid m (N.to_nat count) m [] (alloc_rel_refl pid m Hm)) as S.
  rewrite N2Nat.id in S. unfold allocate_frames. case_bool_decide.
  - destruct S as (m' & fs & E & Hl & (Hw & Hnd & Hc & Hfr & Hall)). exists m', fs.
    assert (Hlen : len fs = count) by lia. rewrite app_nil_l in *.
    split_and!; try done; [| lia |].
    + apply list.Forall_forall. intros g Hg. eapply list.Forall_forall in Hall as (f & Hf & How & Hal & Eg); [|exact Hg].
      subst g. split; [done|]. by exists f.
    + intros i Hi. rewrite Hfr. destruct (frames (allocator m) !! i); [|done]. simpl.
      by rewrite bool_decide_false.
  - destruct S as (m' & E & Hw & Hfr). exists m', []. by split_and!.
Qed.

Lemma allocate_frame_size a pid a' r : allocate a pid = Done (a', r) -> frame_size a' = frame_size a.
Proof. unfold allocate, index. intros H. cbn [mbind outcome_bind] in H. by inv_matches H. Qed.

Lemma free_frame_size m pid n m' b :
  free_frame m pid n = Done (m', b) -> frame_size (allocator m') = frame_size (allocator m).
Proof.
  unfold free_frame, free, index. intros H. cbn [mbind outcome_bind] in H. by inv_matches H.
Qed.

(** a single frame: the head of the free queue *)
Lemma allocate_one m pid :
  pmm_wf m -> 0 < free_count (allocator m) ->
  exists n f m', frames (allocator m) !! N.to_nat n = Some f /\ allocated f = false /\ number f = n /\
    allocate_frames m pid 1 = Done (m', [Frame_allocate pid f]) /\ pmm_wf m' /\
    frames (allocator m') = <[N.to_nat n := Frame_allocate pid f]> (frames (allocator m)) /\
    frame_size (allocator m') = frame_size (allocator m).
Proof.
  intros Hm Hc. pose proof (free_queue_length _ (proj1 Hm)) as Hl.
  destruct (free_queue (allocator m)) as [|n q] eqn:Hq; [cbn [length] in Hl; lia|].
  destruct (allocate_push_wf m pid n q Hm Hq) as (f & a' & E & Hf & _ & Hal & Hn & Hfr & _ & Hw).
  eexists n, f, _. split_and!; [done|done|done| |exact Hw|done|by eapply allocate_frame_size].
  unfold allocate_frames. change (N.to_nat 1) with 1%nat. cbn [allocate_frames_loop].
  rewrite E. cbn [mbind outcome_bind app]. change (number (Frame_allocate pid f)) with (number f). by rewrite Hn.
Qed.

Lemma allocate_none m pid :
  pmm_wf m -> free_count (allocator m) = 0 -> allocate_frames m pid 1 = Done (m, []).
Proof.
  intros Hm Hc. pose proof (free_queue_length _ (proj1 Hm)) as Hl.
  destruct (free_queue (allocator m)) as [|n q] eqn:Hq; [|cbn [length] in Hl; lia].
  unfold allocate_frames. change (N.to_nat 1) with 1%nat. cbn [allocate_frames_loop].
  rewrite allocate_nil by done. cbn [mbind outcome_bind free_frames]. by destruct m.
Qed.

(** no frame is free when the counter says so *)
Lemma none_free a i f : wf a -> free_count a = 0 -> frames a !! i = Some f -> allocated f = true.
Proof.
  intros (_ & _ & _ & _ & Hc & _) H0 Hf. destruct (allocated f) eqn:Hal; [done|].
  apply list_elem_of_lookup_2 in Hf. assert (Hin : f ∈ List.filter is_free (frames a)).
  { apply list_elem_of_In, filter_In. split; [by apply list_elem_of_In|]. unfold is_free. by rewrite Hal. }
  destruct (List.filter is_free (frames a)); [by apply elem_of_nil in Hin|]. cbn [length] in Hc. lia.
Qed.

(** without the per-process lists: an operation on any owner's frames *)
Lemma free_total a n : wf a -> exists a' b, free a n = Done (a', b) /\ wf a'.
Proof.
  intros Hw. pose proof Hw as (Ht & _). unfold free.
  destruct (N.leb_spec (total_frames a) n) as [Hge|Hlt]; [by exists a, false|].
  destruct (lookup_lt_is_Some_2 (frames a) (N.to_nat n)) as [f Hf]; [lia|].
  destruct (allocated f) eqn:Hal.
  - destruct (free_allocated a n f Hw Hlt Hf Hal) as (a' & E & Hw' & _). exists a', true. split; [|done].
    unfold free in E. destruct (N.leb_spec (total_frames a) n); [lia|done].
  - exists a, false. rewrite (index_done _ _ _ Hf). cbn [mbind outcome_bind]. by rewrite Hal.
Qed.

Lemma free_frame_total m pid n :
  wf (allocator m) -> exists m' b, free_frame m pid n = Done (m', b) /\ wf (allocator m').
Proof.
  intros Hw. unfold free_frame. destruct (free_total (allocator m) n Hw) as (a' & b & -> & Hw').
  by eexists _, b.
Qed.

Lemma free_frames_total pid fs : forall m,
  wf (allocator m) -> exists m', free_frames m pid fs = Done m' /\ wf (allocator m').
Proof.
  induction fs as [|f fs IH]; intros m Hw; [by exists m|]. cbn [free_frames].
  destruct (free_frame_total m pid (number f) Hw) as (m1 & b & -> & Hw1). by apply IH.
Qed.

Lemma allocate_frames_loop_total pid count : forall m acc,
  wf (allocator m) ->
  exists m' fs, allocate_frames_loop m pid count acc = Done (m', fs) /\ wf (allocator m') /\
    (fs = [] \/ length fs = (length acc + count)%nat).
Proof.
  induction count as [|count IH]; intros m acc Hw; cbn [allocate_frames_loop].
  - eexists m, acc. split_and!; [done|done|right; lia].
  - destruct (free_queue (allocator m)) as [|n q] eqn:Hq.
    + rewrite allocate_nil by done. cbn [mbind outcome_bind].
      destruct (free_frames_total pid acc {| allocator := allocator m; process_frames := process_frames m |} Hw)
        as (m' & -> & Hw'). exists m', []. split_and!; [done|done|by left].
    + destruct (allocate_cons (allocator m) pid n q Hw Hq) as (f & a' & _ & _ & _ & -> & Hw' & _).
      cbn [mbind outcome_bind].
      match goal with |- context [allocate_frames_loop ?x _ _ ?y] => destruct (IH x y Hw') as (m' & fs & -> & H & Hl) end.
      exists m', fs. split_and!; [done|done|]. rewrite length_app in Hl. cbn [length] in Hl.
      destruct Hl; [by left|right; lia].
Qed.

Lemma allocate_frames_total m pid count :
  wf (allocator m) ->
  exists m' fs, allocate_frames m pid count = Done (m', fs) /\ wf (allocator m') /\ (fs = [] \/ len fs = count).
Proof.
  intros Hw. destruct (allocate_frames_loop_total pid (N.to_nat count) m [] Hw) as (m' & fs & E & H & Hl).
  exists m', fs. split_and!; [done|done|]. cbn [length] in Hl. destruct Hl; [by left|right; lia].
Qed.

(** Property: allocation is exclusive.  On a well-formed allocator it never panics;
    it fails only when no frame is free and then changes nothing; otherwise the
    frame it returns was free, is now owned by the caller, is the only one
    touched, and one frame fewer is free. *)
Theorem allocate_exclusive a pid :
  wf a ->
  exists a' r, allocate a pid = Done (a', r) /\ wf a' /\
    match r with
    | None => free_count a = 0 /\ a' = a
    | Some f =>
        owner f = Some pid /\ allocated f = true /\ address f = number f * frame_size a /\
        free_count a = free_count a' + 1 /\
        frames a' = <[N.to_nat (number f) := f]> (frames a) /\
        exists f0, frames a !! N.to_nat (number f) = Some f0 /\ allocated f0 = false /\ owner f0 = None
    end.
Proof.
  intros Hw. destruct (free_queue a) as [|n q] eqn:Hq.
  - exists a, None. rewrite allocate_nil by done. split_and!; try done.
    rewrite <- free_queue_length, Hq by done. done.
  - destruct (allocate_cons a pid n q Hw Hq) as (f & a' & Hf & Hal & How & E & Hw' & Hfr & _ & _ & Hn & Hc).
    exists a', (Some (Frame_allocate pid f)). simpl. rewrite Hn. split_and!; try done.
    + destruct Hw as (_ & _ & Hs & _). pose proof (Hs _ _ Hf) as (_ & -> & _). lia.
    + by exists f.
Qed.

Lemma allocate_exclusive_witness :
  exists a a' r, new 8192 4096 = Done a /\ allocate a 5 = Done (a', r) /\ wf a'.
Proof.
  eexists. destruct (allocate_exclusive _ 5 (alloc_new_wf 8192 4096 _ eq_refl eq_refl)) as (a' & r & E & Hw & _).
  exists a', r. split; [reflexivity|]. split; [exact E|exact Hw].
Defined.

(** Property: freeing by number.  It reports [false] and changes nothing for a number
    out of range or a frame already free; otherwise that frame becomes free and
    goes to the back of the queue.  It never panics and keeps the invariant, so
    a double free cannot put a frame twice in the queue. *)
Theorem free_outcome a n :
  wf a ->
  exists a' b, free a n = Done (a', b) /\ wf a' /\
    (b = true <-> exists f, frames a !! N.to_nat n = Some f /\ allocated f = true) /\
    (b = false -> a' = a) /\
    (b = true -> free_queue a' = free_queue a ++ [n] /\ free_count a' = free_count a + 1 /\
       exists f, frames a !! N.to_nat n = Some f /\ frames a' = <[N.to_nat n := Frame_free f]> (frames a)).
Proof.
  intros Hw. pose proof Hw as (Ht & _). unfold free at 1.
  destruct (N.leb_spec (total_frames a) n) as [Hge|Hlt].
  - exists a, false. split_and!; try done. split; [done|]. intros (f & Hf & _).
    apply lookup_lt_Some in Hf. lia.
  - destruct (lookup_lt_is_Some_2 (frames a) (N.to_nat n)) as [f Hf]; [lia|].
    destruct (allocated f) eqn:Hal.
    + destruct (free_allocated a n f Hw Hlt Hf Hal) as (a' & E & Hw' & Hfr & Hq & _ & Hc & _).
      exists a', true. rewrite (index_done _ _ _ Hf). simpl. rewrite Hal. simpl.
      unfold free in E. destruct (N.leb_spec (total_frames a) n); [lia|].
      rewrite (index_done _ _ _ Hf) in E. simpl in E. rewrite Hal in E. simpl in E.
      split_and!; try done; [split; [by eauto|done]|]. eauto.
    + exists a, false. rewrite (index_done _ _ _ Hf). simpl. rewrite Hal. split_and!; try done.
      split; [done|]. intros (f' & Hf' & Hal'). congruence.
Qed.

Lemma free_outcome_witness :
  exists a a' b, new 8192 4096 = Done a /\ free a 1 = Done (a', b) /\ b = false.
Proof.
  eexists. destruct (free_outcome _ 1 (alloc_new_wf 8192 4096 _ eq_refl eq_refl)) as (a' & b & E & _ & Hb & _).
  exists a', b. split; [reflexivity|]. split; [exact E|].
  destruct b; [|reflexivity]. destruct (proj1 Hb eq_refl) as (f & Hf & Hal). simpl in Hf. injection Hf as <-.
  discriminate Hal.
Defined.

(** Property: process teardown.  [free_by_owner] frees exactly the frames of that
    process, returns how many, leaves it none and leaves every other frame as it
    was. *)
Theorem free_by_owner_spec a pid a' n :
  wf a -> free_by_owner a pid = (a', n) ->
  wf a' /\ n = len (frames_by_owner a pid) /\ free_count a' = free_count a + n /\
  frames_by_owner a' pid = [] /\
  (forall i f, frames a !! i = Some f -> owner f <> Some pid -> frames a' !! i = Some f) /\
  (forall i f, frames a !! i = Some f -> owner f = Some pid ->
     exists f', frames a' !! i = Some f' /\ allocated f' = false /\ owner f' = None).
Proof.
  intros Hw H. destruct (free_by_owner_wf _ _ _ _ Hw H) as (Hw' & Hn & Hfr & Hnone & Hc & _).
  split_and!; try done; intros i f Hf Ho; rewrite Hfr, list_lookup_fmap, Hf; simpl; unfold owned_by.
  - by rewrite bool_decide_false.
  - rewrite bool_decide_true by done. by eexists.
Qed.

Definition demo_allocator : outcome FrameAllocator :=
  a ← new 16384 4096; '(a, _) ← allocate a 5; '(a, _) ← allocate a 6; '(a, _) ← allocate a 5; Done a.

Lemma demo_allocator_wf a : demo_allocator = Done a -> wf a.
Proof.
  unfold demo_allocator. intros H.
  destruct (new 16384 4096) as [a0| |] eqn:E0; [|done..]. apply alloc_new_wf in E0; [|done].
  change (('(a, _) ← allocate a0 5; '(a, _) ← allocate a 6; '(a, _) ← allocate a 5; Done a) = Done a) in H.
  destruct (allocate_exclusive a0 5 E0) as (a1 & r1 & E1 & W1 & _). rewrite E1 in H.
  destruct (allocate_exclusive a1 6 W1) as (a2 & r2 & E2 & W2 & _). cbn in H. rewrite E2 in H.
  destruct (allocate_exclusive a2 5 W2) as (a3 & r3 & E3 & W3 & _). cbn in H. rewrite E3 in H.
  cbn in H. by injection H as <-.
Qed.

Lemma free_by_owner_spec_witness :
  exists a a' n, demo_allocator = Done a /\ free_by_owner a 5 = (a', n) /\ n = 2 /\ frames_by_owner a' 5 = [].
Proof.
  destruct demo_allocator as [a| |] eqn:E; [|vm_compute in E; discriminate..].
  destruct (free_by_owner a 5) as [a' n] eqn:F.
  destruct (free_by_owner_spec a 5 a' n (demo_allocator_wf a E) F) as (_ & Hn & _ & Hnone & _).
  exists a, a', n. split_and!; [reflexivity|exact F| |exact Hnone].
  rewrite Hn. vm_compute in E. injection E as <-. vm_compute. reflexivity.
Defined.

(** Property: multi-frame allocation is all or nothing.  When enough frames are free
    the caller gets exactly [count] distinct frames, free before and owned by it
    now, and nothing else changes; otherwise it gets the empty vector and every
    frame is back in the state it had before the call.  It never panics. *)
Theorem allocate_frames_all_or_nothing m pid count :
  pmm_wf m ->
  exists m' fs, allocate_frames m pid count = Done (m', fs) /\ pmm_wf m' /\
    if bool_decide (count <= free_count (allocator m)) then
      len fs = count /\ NoDup (number <$> fs) /\
      Forall (fun g => owner g = Some pid /\ exists f, frames (allocator m) !! N.to_nat (number g) = Some f /\
                       allocated f = false /\ owner f = None) fs /\
      free_count (allocator m) = free_count (allocator m') + count /\
      (forall i, N.of_nat i ∉ number <$> fs -> frames (allocator m') !! i = frames (allocator m) !! i)
    else fs = [] /\ frames (allocator m') = frames (allocator m).
Proof. apply allocate_frames_spec. Qed.

Lemma allocate_frames_all_or_nothing_witness :
  exists m m' fs, pmm_new 8192 4096 = Done m /\ allocate_frames m 5 3 = Done (m', fs) /\ fs = [] /\
    frames (allocator m') = frames (allocator m).
Proof.
  destruct (pmm_new 8192 4096) as [m| |] eqn:E; [|vm_compute in E; discriminate..].
  destruct (allocate_frames_all_or_nothing m 5 3 (pmm_new_wf 8192 4096 m eq_refl E)) as (m' & fs & Ea & _ & H).
  exists m, m', fs. split; [reflexivity|]. split; [exact Ea|].
  rewrite bool_decide_false in H; [exact H|]. vm_compute in E. injection E as <-. vm_compute. intros X. by apply X.
Defined.

(** *** Whoever frees *)

(** what stays true of the lists when a frame is given back by another process
    than its owner: they name every frame of their process *)
Definition pmm_covers (m : PhysicalMemoryManager) : Prop :=
  wf (allocator m) /\
  forall pid, number <$> frames_by_owner (allocator m) pid ⊆+ default [] (process_frames m !! pid) /\
    Forall (fun n => n < total_frames (allocator m)) (default [] (process_frames m !! pid)).

Lemma owned_frame a pid n : wf a -> n ∈ number <$> frames_by_owner a pid ->
  exists f, frames a !! N.to_nat n = Some f /\ owner f = Some pid /\ n < total_frames a.
Proof.
  intros (Ht & _ & Hs & _) Hn. apply list_elem_of_fmap in Hn as (f & -> & Hf).
  apply list_elem_of_In, filter_In in Hf as [Hf Ho]. apply list_elem_of_In, list_elem_of_lookup in Hf as [i Hi].
  destruct (Hs i f Hi) as [-> _]. rewrite Nat2N.id. exists f. split; [done|]. split; [by apply bool_decide_eq_true in Ho|].
  apply lookup_lt_Some in Hi. lia.
Qed.

Lemma pmm_wf_covers m : pmm_wf m -> pmm_covers m.
Proof.
  intros [Hw Hpf]. split; [done|]. intros pid. split; [by rewrite Hpf|].
  apply list.Forall_forall. intros n Hn. rewrite Hpf in Hn. by destruct (owned_frame _ _ _ Hw Hn) as (_ & _ & _ & ?).
Qed.

(** a frame that changes its owner, in the lists of owners *)
Lemma owners_insert a a' i f f' pid : frames a !! i = Some f -> number f' = number f ->
  frames a' = <[i := f']> (frames a) -> 
  (if owned_by pid f then [number f] else []) ++ (number <$> frames_by_owner a' pid) ≡ₚ
  (if owned_by pid f' then [number f] else []) ++ (number <$> frames_by_owner a pid).
Proof.
  intros Hf Hnum Hfr. destruct (split_at _ _ _ Hf) as (l1 & l2 & Hl & _ & Hins).
  destruct (frames_by_owner_insert a i f f' pid l1 l2 Hl (Hins _)) as [E1 E2].
  unfold frames_by_owner at 1. rewrite Hfr, E1, E2, !fmap_app.
  set (x := number <$> List.filter (owned_by pid) l1). set (y := number <$> List.filter (owned_by pid) l2). clearbody x y.
  destruct (owned_by pid f), (owned_by pid f'); cbn [fmap list_fmap app]; rewrite ?Hnum, <- ?Permutation_middle; done.
Qed.

Lemma remove_first_forall (P : N -> Prop) n l : Forall P l -> Forall P (remove_first n l).
Proof. induction 1 as [|y l Hy Hl IH]; simpl; [constructor|]. case_match; [done|by constructor]. Qed.
Lemma remove_first_submseteq n l1 l2 : l1 ⊆+ l2 -> n ∉ l1 -> l1 ⊆+ remove_first n l2.
Proof.
  intros Hsub Hn. destruct (decide (n ∈ l2)) as [Hin|Hni].
  - rewrite (remove_first_perm n l2 Hin) in Hsub. apply submseteq_cons_r in Hsub as [H|(l' & Hp & _)]; [done|].
    destruct Hn. rewrite Hp. by left.
  - replace (remove_first n l2) with l2; [done|]. clear - Hni. induction l2 as [|y l2 IH]; [done|].
    apply not_elem_of_cons in Hni as [Hn Hl]. simpl. rewrite (proj2 (N.eqb_neq y n)) by done. by rewrite <- IH.
Qed.

Lemma free_covers a n : wf a ->
  exists a' b, free a n = Done (a', b) /\ wf a' /\ total_frames a' = total_frames a /\
    forall pid, number <$> frames_by_owner a' pid ⊆+ number <$> frames_by_owner a pid /\
      n ∉ number <$> frames_by_owner a' pid.
Proof.
  intros Hw. pose proof Hw as (Ht & _ & Hs & _).
  assert (Hd : (exists f, frames a !! N.to_nat n = Some f /\ allocated f = true) \/
    ~ exists f, frames a !! N.to_nat n = Some f /\ allocated f = true).
  { destruct (frames a !! N.to_nat n) as [f|]; [|right; by intros (? & ? & _)].
    destruct (allocated f) eqn:Hal; [left; by exists f|right; intros (g & [= <-] & Hg); congruence]. }
  destruct Hd as [(f & Hf & Hal)|Hno].
  - pose proof (lookup_lt_Some _ _ _ Hf) as Hlt.
    destruct (free_allocated a n f Hw ltac:(lia) Hf Hal) as (a' & E & Hw' & Hfr & _ & _ & _ & Htot).
    exists a', true. split_and!; [done..|]. intros pid. split.
    + pose proof (owners_insert a a' _ f (Frame_free f) pid Hf eq_refl Hfr) as Hp.
      rewrite (owned_by_none pid (Frame_free f)) in Hp by done. simpl in Hp. rewrite <- Hp. by apply submseteq_inserts_l.
    + intros Hn. destruct (owned_frame _ _ _ Hw' Hn) as (g & Hg & Ho & _).
      rewrite Hfr, list_lookup_insert_eq in Hg by done. by injection Hg as <-.
  - exists a, false. split; [|split_and!; [done..|]].
    + unfold free. destruct (N.leb_spec (total_frames a) n) as [|Hlt]; [done|].
      destruct (lookup_lt_is_Some_2 (frames a) (N.to_nat n)) as [f Hf]; [lia|].
      rewrite (index_done _ _ _ Hf). cbn [mbind outcome_bind]. destruct (allocated f) eqn:Hal; [|done].
      destruct Hno. by exists f.
    + intros pid. split; [done|]. intros Hn. destruct (owned_frame _ _ _ Hw Hn) as (g & Hg & Ho & _). apply Hno.
      exists g. split; [done|]. destruct (Hs _ _ Hg) as (_ & _ & _ & ->). by rewrite Ho.
Qed.

Lemma free_frame_covers m pid n : pmm_covers m -> exists m' b, free_frame m pid n = Done (m', b) /\ pmm_covers m'.
Proof.
  intros [Hw Hc]. destruct (free_covers (allocator m) n Hw) as (a & b & E & Hw' & Htot & Hown).
  unfold free_frame. rewrite E. eexists _, b. split; [reflexivity|]. split; [done|]. intros pid'. cbn [allocator process_frames].
  destruct (Hown pid') as [Hsub Hn]. destruct (Hc pid') as [Hl Hb]. rewrite Htot.
  destruct (process_frames m !! pid) as [l|] eqn:El; [|split; [by etrans|done]].
  rewrite lookup_insert. case_decide as Hp; [subst pid'; rewrite El in *|by split; [etrans|]]. cbn [default] in *.
  split; [apply remove_first_submseteq; [by etrans|done]|by apply remove_first_forall].
Qed.

Lemma free_frames_covers pid fs : forall m, pmm_covers m -> exists m', free_frames m pid fs = Done m' /\ pmm_covers m'.
Proof.
  induction fs as [|f fs IH]; intros m Hm; [by exists m|]. cbn [free_frames].
  destruct (free_frame_covers m pid (number f) Hm) as (m1 & b & -> & Hm1). by apply IH.
Qed.

Lemma allocate_frames_loop_covers pid count : forall m acc, pmm_covers m ->
  exists m' fs, allocate_frames_loop m pid count acc = Done (m', fs) /\ pmm_covers m'.
Proof.
  induction count as [|count IH]; intros m acc Hm; cbn [allocate_frames_loop]; [by exists m, acc|].
  destruct (free_queue (allocator m)) as [|n q] eqn:Hq.
  - rewrite allocate_nil by done. cbn [mbind outcome_bind]. destruct m as [a pf].
    destruct (free_frames_covers pid acc {| allocator := a; process_frames := pf |} Hm) as (m' & E & Hm').
    cbn [allocator process_frames] in *. rewrite E. by exists m', [].
  - destruct Hm as [Hw Hc]. destruct (allocate_cons (allocator m) pid n q Hw Hq) as (f & a & Hf & _ & Ho & -> & Hw' & Hfr & _ & _ & Hnum & _).
    cbn [mbind outcome_bind]. apply IH. split; [done|]. intros pid'. cbn [allocator process_frames].
    assert (Htot : total_frames a = total_frames (allocator m)).
    { destruct Hw as (-> & _), Hw' as (-> & _). by rewrite Hfr, length_insert. }
    pose proof (owners_insert _ a _ f (Frame_allocate pid f) pid' Hf eq_refl Hfr) as Hp.
    rewrite owned_by_none, owned_by_allocate in Hp by done. cbn [app] in Hp. destruct (Hc pid') as [Hl Hb]. rewrite Htot, Hp.
    rewrite lookup_insert. destruct (decide (pid = pid')) as [<-|Hne]; [|by rewrite bool_decide_false].
    rewrite bool_decide_true by done. cbn [default from_option id]. rewrite (Permutation_app_comm [_]). split.
    + by apply submseteq_skips_r.
    + apply Forall_app. split; [done|]. constructor; [|constructor].
      change (number (Frame_allocate pid f)) with (number f). rewrite Hnum. apply lookup_lt_Some in Hf. destruct Hw as (-> & _). lia.
Qed.

Lemma pmm_op_covers m o : pmm_covers m -> exists m', pmm_op m o = Done m' /\ pmm_covers m'.
Proof.
  intros Hm. destruct o as [pid count|pid n|pid]; cbn [pmm_op].
  - destruct (allocate_frames_loop_covers pid (N.to_nat count) m [] Hm) as (m' & fs & E & Hm'). unfold allocate_frames.
    rewrite E. by exists m'.
  - destruct (free_frame_covers m pid n Hm) as (m' & b & -> & Hm'). by exists m'.
  - eexists. split; [reflexivity|]. destruct Hm as [Hw Hc]. unfold free_process_frames.
    destruct (free_by_owner (allocator m) pid) as [a k] eqn:E. cbn [fst].
    destruct (free_by_owner_wf _ _ _ _ Hw E) as (Hw' & _ & Hfr & Hnone & _). split; [done|]. intros pid'. cbn [allocator process_frames].
    assert (Htot : total_frames a = total_frames (allocator m)).
    { destruct Hw as (-> & _), Hw' as (-> & _). by rewrite Hfr, length_fmap. }
    rewrite lookup_delete. case_decide as Hd; [subst pid'; rewrite Hnone; by split|]. rewrite Htot. destruct (Hc pid') as [Hl Hb].
    split; [|done]. unfold frames_by_owner at 1. by rewrite Hfr, filter_owned_other.
Qed.

Lemma pmm_op_wf m o m' : pmm_wf m -> frees_own m o = true -> pmm_op m o = Done m' -> pmm_wf m'.
Proof.
  intros Hm. destruct o as [pid count|pid n|pid]; cbn [pmm_op frees_own]; intros Ho H.
  - destruct (allocate_frames m pid count) as [[m1 fs]| |] eqn:E; try done. injection H as <-. by eapply allocate_frames_wf.
  - destruct (frames (allocator m) !! N.to_nat n) as [f|] eqn:Hf; [|done]. apply bool_decide_eq_true in Ho.
    destruct (free_frame_wf m pid n f Hm Hf Ho) as (m1 & E & Hw & _). rewrite E in H. by injection H as <-.
  - injection H as <-. destruct (free_process_frames m pid) as [m1 k] eqn:E. by eapply free_process_frames_wf.
Qed.

Lemma pmm_run_covers os : forall m, pmm_covers m ->
  exists m', pmm_run m os = Done m' /\ pmm_covers m' /\ (pmm_wf m -> all_free_own m os = true -> pmm_wf m').
Proof.
  induction os as [|o os IH]; intros m Hm; [by exists m|]. cbn [pmm_run all_free_own].
  destruct (pmm_op_covers m o Hm) as (m1 & E & Hm1). rewrite E. cbn [mbind outcome_bind].
  destruct (IH m1 Hm1) as (m2 & E2 & Hm2 & Hwf). exists m2. split; [done|]. split; [done|].
  intros Hw [Ho Hos]%andb_true_iff. apply Hwf; [|done]. by eapply pmm_op_wf.
Qed.

(** the frames that a list names *)
Definition frame_of (a : FrameAllocator) (n : N) : Frame := default (Frame_new 0 0 0) (frames a !! N.to_nat n).
Lemma lookup_frames_fmap a nums pid : wf a -> Forall (fun n => n < total_frames a) nums ->
  lookup_frames a nums = Done (frame_of a <$> nums) /\ frames_by_owner a pid = frame_of a <$> (number <$> frames_by_owner a pid).
Proof.
  intros Hw Hb. split.
  - destruct (lookup_frames_wf a nums Hw Hb) as (fs & E & <- & Hall). rewrite E. f_equal. rewrite <- list_fmap_compose.
    rewrite <- (list_fmap_id fs) at 1. apply list_fmap_ext. intros i f Hf. unfold frame_of; simpl.
    eapply Forall_lookup_1 in Hall; [|exact Hf]. simpl in Hall. by rewrite Hall.
  - rewrite <- list_fmap_compose. rewrite <- (list_fmap_id (frames_by_owner _ _)) at 1.
    apply list_fmap_ext. intros i f Hf. unfold frame_of; simpl. apply list_elem_of_lookup_2 in Hf.
    apply list_elem_of_In, filter_In in Hf as [Hf _]. apply list_elem_of_In, list_elem_of_lookup in Hf as [j Hj].
    destruct Hw as (_ & _ & Hs & _). destruct (Hs j f Hj) as [-> _]. by rewrite Nat2N.id, Hj.
Qed.

(** C19: after any history of allocations, frames given back and processes torn
    down, none of which panics, the queue and the counters of the allocator agree
    with its frames, and [get_process_frames] returns every frame that the process
    owns.  It returns no other, and each once, if every frame was given back by
    its owner; the memory service gives frames back as process 0, whoever owns
    them, and then the list of the owner keeps them. *)
Theorem process_frames_agree msz fsz m0 os :
  msz < 2 ^ 64 -> pmm_new msz fsz = Done m0 ->
  exists m, pmm_run m0 os = Done m /\ wf (allocator m) /\
    forall pid, exists fs, get_process_frames m pid = Done fs /\ frames_by_owner (allocator m) pid ⊆+ fs /\
      (all_free_own m0 os = true -> fs ≡ₚ frames_by_owner (allocator m) pid).
Proof.
  intros Hsz H0. pose proof (pmm_new_wf _ _ _ Hsz H0) as Hwf.
  destruct (pmm_run_covers os m0 (pmm_wf_covers _ Hwf)) as (m & E & [Hw Hc] & Hown). exists m. split; [done|]. split; [done|].
  intros pid. destruct (Hc pid) as [Hsub Hb]. destruct (lookup_frames_fmap _ _ pid Hw Hb) as [El Eo].
  exists (frame_of (allocator m) <$> default [] (process_frames m !! pid)).
  split; [unfold get_process_frames; by destruct (process_frames m !! pid)|]. split.
  - rewrite Eo. by apply fmap_submseteq.
  - intros Hos. destruct (Hown Hwf Hos) as [_ Hpf]. by rewrite (Hpf pid), <- Eo.
Qed.

(** frame 0 of process 5 is given back as process 0 and goes to process 7 *)
Definition demo_history : list PmmOp := [Allocate 5 2; Allocate 6 1; Free 0 0; Allocate 6 1; Allocate 7 1].
Lemma process_frames_agree_witness :
  exists m fs, (m0 ← pmm_new 16384 4096; pmm_run m0 demo_history) = Done m /\ get_process_frames m 5 = Done fs /\
    frames_by_owner (allocator m) 5 ⊆+ fs /\ number <$> fs = [0; 1] /\ number <$> frames_by_owner (allocator m) 5 = [1] /\
    number <$> frames_by_owner (allocator m) 7 = [0].
Proof.
  destruct (pmm_new 16384 4096) as [m0| |] eqn:E; [|vm_compute in E; discriminate..].
  destruct (process_frames_agree 16384 4096 m0 demo_history eq_refl E) as (m & Em & _ & H).
  destruct (H 5) as (fs & Ef & Hs & _). exists m, fs. split; [exact Em|]. split; [exact Ef|]. split; [exact Hs|].
  vm_compute in E. injection E as <-. vm_compute in Em. injection Em as <-. vm_compute in Ef. injection Ef as <-. by split_and!.
Defined.
