(* ===== verification/Paging.v ===== *)
(** * Service-side page tables (src/src/services/memory/paging.rs)

    The page tables the memory service keeps next to the hardware ones of
    [Mmu].  Tables are shared through [Arc<Mutex<_>>], always reached by pid and
    used within one call, so the manager maps pids to table values.  Page sizes
    are non-zero (4096 wherever the program builds a table). *)
From S2P Require Import Prelude Types.

Record PageFlags := {
  present : bool; writable : bool; user : bool; accessed : bool; dirty : bool;
  executable : bool; global : bool }.

Definition PageFlags_new : PageFlags :=
  {| present := false; writable := false; user := false; accessed := false; dirty := false;
     executable := false; global := false |}.

Definition from_prot (prot : MemProt) : PageFlags :=
  {| present := true; writable := prot_writable prot; user := true; accessed := false;
     dirty := false; executable := prot_executable prot; global := false |}.

Definition to_prot (f : PageFlags) : option MemProt :=
  if negb (present f) then None
  else Some {| readable := true; prot_writable := writable f; prot_executable := executable f |}.

Definition flags_check_access (f : PageFlags) (access : AccessType) : bool :=
  if negb (present f) then false
  else match access with
       | Read => true
       | Write => writable f
       | Execute => executable f
       end.

Definition mark_accessed (f : PageFlags) : PageFlags :=
  {| present := present f; writable := writable f; user := user f; accessed := true;
     dirty := dirty f; executable := executable f; global := global f |}.
Definition mark_dirty (f : PageFlags) : PageFlags :=
  {| present := present f; writable := writable f; user := user f; accessed := accessed f;
     dirty := true; executable := executable f; global := global f |}.
Definition clear_dirty (f : PageFlags) : PageFlags :=
  {| present := present f; writable := writable f; user := user f; accessed := accessed f;
     dirty := false; executable := executable f; global := global f |}.

Record PageTableEntry := {
  vpn : N; pfn : N; flags : PageFlags; virt_addr : VirtAddr; phys_addr : PhysAddr; entry_size : N }.

Definition PageTableEntry_new (v p : N) (va : VirtAddr) (pa : PhysAddr) (sz : N) (fl : PageFlags) : PageTableEntry :=
  {| vpn := v; pfn := p; flags := fl; virt_addr := va; phys_addr := pa; entry_size := sz |}.
Definition entry_unmapped (v : N) (va : VirtAddr) (sz : N) : PageTableEntry :=
  {| vpn := v; pfn := 0; flags := PageFlags_new; virt_addr := va; phys_addr := 0; entry_size := sz |}.
Definition entry_is_present (e : PageTableEntry) : bool := present (flags e).
Definition entry_check_access (e : PageTableEntry) (access : AccessType) : bool :=
  flags_check_access (flags e) access.
Definition phys_address_for_offset (e : PageTableEntry) (offset : N) : option PhysAddr :=
  if negb (entry_is_present e) || (entry_size e <=? offset) then None
  else Some (wadd64 (phys_addr e) offset).
Definition set_flags (fl : PageFlags) (e : PageTableEntry) : PageTableEntry :=
  {| vpn := vpn e; pfn := pfn e; flags := fl; virt_addr := virt_addr e;
     phys_addr := phys_addr e; entry_size := entry_size e |}.

Definition entry_mark_accessed (e : PageTableEntry) : PageTableEntry := set_flags (mark_accessed (flags e)) e.
Definition entry_mark_dirty (e : PageTableEntry) : PageTableEntry := set_flags (mark_dirty (flags e)) e.

Inductive PageError :=
  | AlreadyMapped (v : N)
  | NotMapped (v : N)
  | PermissionDenied (va : VirtAddr) (access : AccessType)
  | InvalidOffset (va : VirtAddr) (offset : N)
  | PageFault (va : VirtAddr) (access : AccessType).

Record PageTable := {
  pt_pid : Pid; page_size : N; entries : gmap N PageTableEntry;
  mapped_count : N; total_pages : N }.

Definition with_entries (t : PageTable) es n : PageTable :=
  {| pt_pid := pt_pid t; page_size := page_size t; entries := es;
     mapped_count := n; total_pages := total_pages t |}.

Definition PageTable_new (pid : Pid) (ps total : N) : PageTable :=
  {| pt_pid := pid; page_size := ps; entries := ∅; mapped_count := 0; total_pages := total |}.

(** [PageTable::map]; [total_pages] is never consulted. *)
Definition map (t : PageTable) (va : VirtAddr) (pa : PhysAddr) (prot : MemProt)
  : result PageError PageTable :=
  let v := va / page_size t in
  let entry := {| vpn := v; pfn := pa / page_size t; flags := from_prot prot;
                  virt_addr := va; phys_addr := pa; entry_size := page_size t |} in
  match entries t !! v with
  | Some _ => Err (AlreadyMapped v)
  | None => Ok (with_entries t (<[v := entry]> (entries t)) (wadd64 (mapped_count t) 1))
  end.

Definition unmap (t : PageTable) (va : VirtAddr) : result PageError (PageTable * PageTableEntry) :=
  let v := va / page_size t in
  match entries t !! v with
  | Some e => Ok (with_entries t (delete v (entries t)) (wsub64 (mapped_count t) 1), e)
  | None => Err (NotMapped v)
  end.

Definition lookup (t : PageTable) (va : VirtAddr) : option PageTableEntry :=
  entries t !! (va / page_size t).

Definition translate (t : PageTable) (va : VirtAddr) (access : AccessType) : result PageError PhysAddr :=
  entry ← ok_or (NotMapped (va / page_size t)) (lookup t va);
  if negb (entry_check_access entry access) then Err (PermissionDenied va access) else
  let offset := va mod page_size t in
  ok_or (InvalidOffset va offset) (phys_address_for_offset entry offset).

Definition clear (t : PageTable) : PageTable := with_entries t ∅ 0.

Definition update_flags (t : PageTable) (va : VirtAddr) (fl : PageFlags) : result PageError PageTable :=
  let v := va / page_size t in
  match entries t !! v with
  | Some e => Ok (with_entries t (<[v := set_flags fl e]> (entries t)) (mapped_count t))
  | None => Err (NotMapped v)
  end.

(** the pages in no particular order *)
Definition mapped_pages (t : PageTable) : list PageTableEntry := snd <$> map_to_list (entries t).

(** without the percentage *)
Record PageTableStats := { st_pid : Pid; st_page_size : N; st_total_pages : N; st_mapped_pages : N }.
Definition stats (t : PageTable) : PageTableStats :=
  {| st_pid := pt_pid t; st_page_size := page_size t; st_total_pages := total_pages t; st_mapped_pages := mapped_count t |}.

(** ** The manager *)

Record PageTableManager := { tables : gmap Pid PageTable; m_page_size : N; pages_per_process : N }.

Definition manager_new (ps ppp : N) : PageTableManager :=
  {| tables := ∅; m_page_size := ps; pages_per_process := ppp |}.
Definition manager_default : PageTableManager := manager_new 4096 1024.

Definition with_tables (m : PageTableManager) ts : PageTableManager :=
  {| tables := ts; m_page_size := m_page_size m; pages_per_process := pages_per_process m |}.

Definition create_table (m : PageTableManager) (pid : Pid) : PageTableManager * PageTable :=
  let t := PageTable_new pid (m_page_size m) (pages_per_process m) in
  (with_tables m (<[pid := t]> (tables m)), t).
Definition get_table (m : PageTableManager) (pid : Pid) : option PageTable := tables m !! pid.
Definition remove_table (m : PageTableManager) (pid : Pid) : PageTableManager * option PageTable :=
  (with_tables m (delete pid (tables m)), tables m !! pid).
Definition all_tables (m : PageTableManager) : list (Pid * PageTableStats) :=
  (fun '(pid, t) => (pid, stats t)) <$> map_to_list (tables m).
(** [cleanup] drops the tables without mapped pages and returns how many. *)
Definition cleanup (m : PageTableManager) : PageTableManager * N :=
  let kept := filter (fun '(_, t) => mapped_count t <> 0) (tables m) in
  (with_tables m kept, N.of_nat (size (tables m)) - N.of_nat (size kept)).

(** ** Invariant and lemmas *)

(** The count is the number of entries, every entry has the table's page size
    and sits under its page number. *)
Definition wf (t : PageTable) : Prop :=
  0 < page_size t /\ mapped_count t = N.of_nat (size (entries t)) /\
  N.of_nat (size (entries t)) < 2 ^ 64 /\
  forall v e, entries t !! v = Some e -> vpn e = v /\ entry_size e = page_size t /\
    virt_addr e / page_size t = v.

Inductive PageTableOp :=
  | OpMap (va : VirtAddr) (pa : PhysAddr) (prot : MemProt)
  | OpUnmap (va : VirtAddr)
  | OpUpdate (va : VirtAddr) (fl : PageFlags)
  | OpClear.

(** One call on the table; a failing call leaves it as it was. *)
Definition apply_op (t : PageTable) (op : PageTableOp) : PageTable :=
  match op with
  | OpMap va pa prot => match map t va pa prot with Ok t' => t' | Err _ => t end
  | OpUnmap va => match unmap t va with Ok (t', _) => t' | Err _ => t end
  | OpUpdate va fl => match update_flags t va fl with Ok t' => t' | Err _ => t end
  | OpClear => clear t
  end.

Lemma apply_op_wf t op :
  wf t -> N.of_nat (size (entries t)) + 1 < 2 ^ 64 -> wf (apply_op t op).
Proof.
  intros (Hp & Hc & Hb & He) Hb1. destruct op; simpl.
  - unfold map. destruct (entries t !! (va / page_size t)) as [e|] eqn:E; [done|].
    split_and!; simpl; [done| | |].
    + rewrite map_size_insert_None, Hc, wadd64_small by done. lia.
    + rewrite map_size_insert_None by done. lia.
    + intros v e. rewrite lookup_insert. case_decide as Hv; intros H; simplify_eq/=; [done|by apply He].
  - unfold unmap. destruct (entries t !! (va / page_size t)) as [e|] eqn:E; [|done].
    assert (Hs : size (entries t) = S (size (delete (va / page_size t) (entries t)))).
    { rewrite map_size_delete_Some by eauto. destruct (size (entries t)) eqn:Hz; [|done].
      apply map_size_empty_inv in Hz. rewrite Hz in E. by rewrite lookup_empty in E. }
    split_and!; simpl; [done| |lia|].
    + rewrite Hc, wsub64_ge by lia. lia.
    + intros v e' [_ H]%lookup_delete_Some. by apply He.
  - unfold update_flags. destruct (entries t !! (va / page_size t)) as [e|] eqn:E; [|done].
    split_and!; simpl; [done| | |].
    + by rewrite map_size_insert_Some by eauto.
    + by rewrite map_size_insert_Some by eauto.
    + intros v e'. rewrite lookup_insert. case_decide as Hv; intros H; simplify_eq/=; [|by apply He].
      by destruct (He _ _ E) as (? & ? & ?).
  - split_and!; simpl; [done..|]. intros v e H. by rewrite lookup_empty in H.
Qed.

Lemma size_entries_op t op : wf t -> (size (entries (apply_op t op)) <= S (size (entries t)))%nat.
Proof.
  intros _. destruct op; simpl.
  - unfold map. destruct (_ !! _) eqn:E; simpl; [lia|]. rewrite map_size_insert_None by done. lia.
  - unfold unmap. destruct (_ !! _) eqn:E; simpl; [|lia]. rewrite map_size_delete. rewrite E. lia.
  - unfold update_flags. destruct (_ !! _) eqn:E; simpl; [|lia]. rewrite map_size_insert_Some by eauto. lia.
  - rewrite map_size_empty. lia.
Qed.

Lemma PageTable_new_wf pid ps total : 0 < ps -> wf (PageTable_new pid ps total).
Proof. intros Hp. split_and!; simpl; [done..|]. intros v e H. by rewrite lookup_empty in H. Qed.

Lemma same_page_div ps va o : 0 < ps -> va mod ps = 0 -> o < ps -> (va + o) / ps = va / ps.
Proof.
  intros Hp Hm Ho. apply N.Div0.mod_divides in Hm as [c ->].
  rewrite (N.mul_comm ps c), N.div_add_l, N.div_mul, N.div_small by lia. lia.
Qed.

(** ** Properties *)

(** Property: over any sequence of calls on a new table, successful or failing, the
    stored counter is the number of mapped pages, so [mapped_count] never
    underflows and [cleanup] drops exactly the empty tables. *)
Theorem mapped_count_invariant pid ps total ops :
  0 < ps -> len ops < 2 ^ 63 ->
  let t := foldl apply_op (PageTable_new pid ps total) ops in
  wf t /\ mapped_count t = N.of_nat (size (entries t)) /\
  (mapped_count t = 0 <-> entries t = ∅).
Proof.
  intros Hp Hl t.
  assert (H : forall ops t0, wf t0 -> N.of_nat (size (entries t0)) + len ops < 2 ^ 63 ->
    wf (foldl apply_op t0 ops)).
  { clear. induction ops as [|op ops IH]; intros t0 Hw Hb; [done|]. simpl in *.
    pose proof (size_entries_op t0 op Hw). apply IH; [|lia].
    apply apply_op_wf; [done|]. lia. }
  assert (Hw : wf t).
  { apply H; [by apply PageTable_new_wf|]. simpl. rewrite map_size_empty. lia. }
  split; [done|]. destruct Hw as (_ & Hc & _). split; [done|]. rewrite Hc.
  split; [intros E; apply map_size_empty_iff; lia|intros ->; by rewrite map_size_empty].
Qed.

Definition demo_ops : list PageTableOp :=
  [OpMap 0x1000 0x8000 MemProt_read_write; OpMap 0x1234 0x9000 MemProt_read_only; OpUnmap 0x5000;
   OpMap 0x2000 0xA000 MemProt_execute; OpUnmap 0x1fff].

Lemma mapped_count_invariant_witness :
  wf (foldl apply_op (PageTable_new 3 4096 256) demo_ops) /\
  mapped_count (foldl apply_op (PageTable_new 3 4096 256) demo_ops) = 1.
Proof.
  pose proof (mapped_count_invariant 3 4096 256 demo_ops eq_refl eq_refl) as (H & Hc & _).
  split; [exact H|vm_compute; reflexivity].
Defined.

(** Property: mapping and translating.  A page can be mapped only once.  After
    [map va pa prot] on a free page every address [v'] of that page translates,
    for the accesses the protection allows, to [pa] plus the offset of [v'] in
    the page (so [va] itself goes to [pa] only when [va] is page aligned); a
    refused access is [PermissionDenied]; other pages are unaffected; and
    [unmap] hands the entry back and restores the table. *)
Theorem map_translate_unmap t va pa prot :
  wf t -> mapped_count t + 1 < 2 ^ 64 ->
  match map t va pa prot with
  | Err e => e = AlreadyMapped (va / page_size t) /\ lookup t va <> None
  | Ok t' =>
      lookup t va = None /\
      (forall v' acc, v' / page_size t = va / page_size t ->
         translate t' v' acc =
           if flags_check_access (from_prot prot) acc then Ok (wadd64 pa (v' mod page_size t))
           else Err (PermissionDenied v' acc)) /\
      (forall v' acc, v' / page_size t <> va / page_size t -> translate t' v' acc = translate t v' acc) /\
      exists e, unmap t' va = Ok (t, e) /\ phys_addr e = pa /\ virt_addr e = va
  end.
Proof.
  intros (Hp & Hc & Hb & He) Hlt. unfold map. unfold lookup at 1 2.
  destruct (entries t !! (va / page_size t)) as [e|] eqn:E; [done|]. split; [done|].
  set (e := {| vpn := _ |}). split_and!.
  - intros v' acc Hv. unfold translate, lookup; simpl. rewrite Hv, lookup_insert_eq. rstep.
    unfold entry_check_access. simpl. destruct (flags_check_access _ _); simpl; [|done].
    unfold phys_address_for_offset; simpl. pose proof (N.mod_lt v' (page_size t) ltac:(lia)).
    destruct (N.leb_spec (page_size t) (v' mod page_size t)); [lia|done].
  - intros v' acc Hv. unfold translate, lookup; simpl. by rewrite lookup_insert_ne by done.
  - exists e. unfold unmap; simpl. rewrite lookup_insert_eq. split_and!; [|done..].
    repeat f_equal. unfold with_entries; simpl. rewrite delete_insert_id by done.
    rewrite wadd64_small, wsub64_ge by lia. destruct t; simpl. do 2 f_equal. lia.
Qed.

Lemma map_translate_unmap_witness :
  match map (PageTable_new 3 4096 256) 0x1010 0x8000 MemProt_read_only with
  | Ok t' => translate t' 0x1010 Read = Ok 0x8010 /\ translate t' 0x1010 Write = Err (PermissionDenied 0x1010 Write)
  | Err _ => False
  end.
Proof.
  pose proof (map_translate_unmap (PageTable_new 3 4096 256) 0x1010 0x8000 MemProt_read_only
    (PageTable_new_wf 3 4096 256 eq_refl) eq_refl) as H.
  destruct (map _ _ _ _) as [t'|e] eqn:E; [|vm_compute in E; discriminate].
  destruct H as (_ & H & _). split.
  - rewrite (H 0x1010 Read eq_refl). reflexivity.
  - rewrite (H 0x1010 Write eq_refl). reflexivity.
Defined.
