(* ===== verification/Sync.v ===== *)
(** * Semaphores and mutex locks (src/src/services/process/sync.rs)

    [Semaphore] and [MutexLock] hold atomics.  Each operation is given twice:
    as a function from the object to the object and the result, which is what
    a caller that is alone on the object sees, and as a machine ([sem_step],
    [mutex_step]) that makes one atomic access per step, so that calls of
    several threads can be interleaved.  [compare_exchange_weak] may fail for
    no reason; the machine takes that choice as a flag of the step.

    [SyncManager] maps identifiers to shared objects ([Arc]); the objects live
    in a store and the maps hold references, so that a handle obtained before
    a destroy still denotes the destroyed object. *)
From S2P Require Import Prelude Types.

Definition u32_MAX : N := 2 ^ 32 - 1.
Definition u64_MAX : N := 2 ^ 64 - 1.

(** ** Semaphores *)

Record Semaphore := {
  sem_id : N; value : N; initial_value : N; max_value : N;
  owner_pid : Pid; sem_wait_count : N; sem_valid : bool }.

Definition with_value (s : Semaphore) v : Semaphore :=
  {| sem_id := sem_id s; value := v; initial_value := initial_value s; max_value := max_value s;
     owner_pid := owner_pid s; sem_wait_count := sem_wait_count s; sem_valid := sem_valid s |}.
Definition with_waits (s : Semaphore) w : Semaphore :=
  {| sem_id := sem_id s; value := value s; initial_value := initial_value s; max_value := max_value s;
     owner_pid := owner_pid s; sem_wait_count := w; sem_valid := sem_valid s |}.

Definition Semaphore_new (id : N) (owner : Pid) (initial : N) : Semaphore :=
  {| sem_id := id; value := initial; initial_value := initial; max_value := u32_MAX;
     owner_pid := owner; sem_wait_count := 0; sem_valid := true |}.
Definition with_max (id : N) (owner : Pid) (initial maxv : N) : Semaphore :=
  {| sem_id := id; value := N.min initial maxv; initial_value := initial; max_value := maxv;
     owner_pid := owner; sem_wait_count := 0; sem_valid := true |}.

Inductive SemaphoreResult :=
  | SAcquired | SReleased | SWouldBlock | SInvalid | SOverflow | SReset.

#[export] Instance SemaphoreResult_eq_dec : EqDecision SemaphoreResult.
Proof. solve_decision. Defined.

(** [u32::saturating_add(1)] *)
Definition saturating_succ (v : N) : N := N.min (v + 1) u32_MAX.

Definition wait (s : Semaphore) : Semaphore * SemaphoreResult :=
  if negb (sem_valid s) then (s, SInvalid)
  else if value s =? 0 then (with_waits s (wadd32 (sem_wait_count s) 1), SWouldBlock)
  else (with_value s (value s - 1), SAcquired).

Definition try_wait (s : Semaphore) : Semaphore * SemaphoreResult :=
  if negb (sem_valid s) then (s, SInvalid)
  else if value s =? 0 then (s, SWouldBlock)
  else (with_value s (value s - 1), SAcquired).

Definition signal (s : Semaphore) : Semaphore * SemaphoreResult :=
  if negb (sem_valid s) then (s, SInvalid)
  else
    let new_value := saturating_succ (value s) in
    if max_value s <? new_value then (s, SOverflow)
    else (with_waits (with_value s new_value) (wsub32 (sem_wait_count s) 1), SReleased).

Definition reset (s : Semaphore) : Semaphore * SemaphoreResult :=
  if negb (sem_valid s) then (s, SInvalid) else (with_value s (initial_value s), SReset).

Definition sem_invalidate (s : Semaphore) : Semaphore :=
  {| sem_id := sem_id s; value := value s; initial_value := initial_value s; max_value := max_value s;
     owner_pid := owner_pid s; sem_wait_count := sem_wait_count s; sem_valid := false |}.

(** *** One atomic access at a time

    A call of [wait] ([blocking = true]), [try_wait] ([blocking = false]) or
    [signal] stands at one of these points. *)
Inductive SemCall :=
  | WCheck (blocking : bool)             (* [is_valid] *)
  | WLoad (blocking : bool)              (* the first [load] *)
  | WLoop (blocking : bool) (current : N)  (* head of the loop, then the CAS *)
  | WBlock                               (* [wait_count.fetch_add] *)
  | SCheck
  | SLoad
  | SLoop (current : N)
  | SDecr                                (* [wait_count.fetch_sub] *)
  | SReturn (r : SemaphoreResult).

(** [compare_exchange_weak(current, new)]: the new cell and whether it succeeded *)
Definition cas_weak (spurious : bool) (cell current new : N) : N * bool :=
  if negb spurious && (cell =? current) then (new, true) else (cell, false).

Definition sem_step (spurious : bool) (s : Semaphore) (c : SemCall) : Semaphore * SemCall :=
  match c with
  | WCheck b => (s, if sem_valid s then WLoad b else SReturn SInvalid)
  | WLoad b => (s, WLoop b (value s))
  | WLoop b current =>
      if current =? 0 then (s, if b then WBlock else SReturn SWouldBlock)
      else
        let '(v, ok) := cas_weak spurious (value s) current (current - 1) in
        if ok then (with_value s v, SReturn SAcquired) else (s, WLoop b (value s))
  | WBlock => (with_waits s (wadd32 (sem_wait_count s) 1), SReturn SWouldBlock)
  | SCheck => (s, if sem_valid s then SLoad else SReturn SInvalid)
  | SLoad => (s, SLoop (value s))
  | SLoop current =>
      let new_value := saturating_succ current in
      if max_value s <? new_value then (s, SReturn SOverflow)
      else
        let '(v, ok) := cas_weak spurious (value s) current new_value in
        if ok then (with_value s v, SDecr) else (s, SLoop (value s))
  | SDecr => (with_waits s (wsub32 (sem_wait_count s) 1), SReturn SReleased)
  | SReturn r => (s, SReturn r)
  end.

(** A call that runs alone: one step per flag. *)
Fixpoint sem_run (flags : list bool) (s : Semaphore) (c : SemCall) : Semaphore * SemCall :=
  match flags with
  | [] => (s, c)
  | b :: flags => let '(s', c') := sem_step b s c in sem_run flags s' c'
  end.

(** Calls in flight on one semaphore: a pool of calls, started at any moment,
    that take their steps in any order; somebody may destroy the semaphore. *)
Inductive sem_pool_step : Semaphore * list SemCall -> Semaphore * list SemCall -> Prop :=
  | pool_start s pool c :
      c = WCheck true \/ c = WCheck false \/ c = SCheck ->
      sem_pool_step (s, pool) (s, pool ++ [c])
  | pool_advance s pool i c spurious s' c' :
      pool !! i = Some c ->
      sem_step spurious s c = (s', c') ->
      sem_pool_step (s, pool) (s', <[i := c']> pool)
  | pool_destroy s pool :
      sem_pool_step (s, pool) (sem_invalidate s, pool).

Definition sem_reachable (s0 : Semaphore) : Semaphore * list SemCall -> Prop :=
  rtc sem_pool_step (s0, []).

Definition is_acquired (c : SemCall) : bool := match c with SReturn SAcquired => true | _ => false end.
Definition is_incremented (c : SemCall) : bool :=
  match c with SDecr | SReturn SReleased => true | _ => false end.
Definition is_released (c : SemCall) : bool := match c with SReturn SReleased => true | _ => false end.
Definition is_blocked (c : SemCall) : bool := match c with SReturn SWouldBlock => true | _ => false end.

Definition count (P : SemCall -> bool) (pool : list SemCall) : N :=
  len (filter (fun c => P c = true) pool).

(** ** Mutex locks *)

Record MutexLock := {
  lock_id : N; lock_owner : N; lock_count : N; creator_pid : Pid;
  recursive : bool; lock_wait_count : N; lock_valid : bool }.

Definition with_lock (m : MutexLock) owner count waits : MutexLock :=
  {| lock_id := lock_id m; lock_owner := owner; lock_count := count; creator_pid := creator_pid m;
     recursive := recursive m; lock_wait_count := waits; lock_valid := lock_valid m |}.

(** [u64::MAX] in [owner] represents unlocked. *)
Definition UNLOCKED : N := u64_MAX.

Definition MutexLock_new (id : N) (creator : Pid) (rec : bool) : MutexLock :=
  {| lock_id := id; lock_owner := UNLOCKED; lock_count := 0; creator_pid := creator;
     recursive := rec; lock_wait_count := 0; lock_valid := true |}.

Definition owner (m : MutexLock) : option Pid :=
  if lock_owner m =? UNLOCKED then None else Some (lock_owner m).
Definition set_owner (pid : Pid) (m : MutexLock) : MutexLock :=
  with_lock m pid (lock_count m) (lock_wait_count m).
Definition is_locked (m : MutexLock) : bool := negb (lock_owner m =? UNLOCKED).

Inductive MutexResult :=
  | MAcquired | MReleased | MWouldBlock | MNotOwner | MDeadlock | MInvalid.

#[export] Instance MutexResult_eq_dec : EqDecision MutexResult.
Proof. solve_decision. Defined.

Definition try_acquire (pid : Pid) (m : MutexLock) : MutexLock * MutexResult :=
  if negb (lock_valid m) then (m, MInvalid)
  else if lock_owner m =? UNLOCKED then (with_lock m pid 1 (lock_wait_count m), MAcquired)
  else if lock_owner m =? pid then
    if recursive m
    then (with_lock m (lock_owner m) (wadd32 (lock_count m) 1) (lock_wait_count m), MAcquired)
    else (m, MDeadlock)
  else (m, MWouldBlock).

Definition acquire (pid : Pid) (m : MutexLock) : MutexLock * MutexResult :=
  if negb (lock_valid m) then (m, MInvalid)
  else
    match try_acquire pid m with
    | (m', MWouldBlock) =>
        (with_lock m' (lock_owner m') (lock_count m') (wadd32 (lock_wait_count m') 1), MWouldBlock)
    | other => other
    end.

Definition release (pid : Pid) (m : MutexLock) : MutexLock * MutexResult :=
  if negb (lock_valid m) then (m, MInvalid)
  else if negb (lock_owner m =? pid) then (m, MNotOwner)
  else
    let count := wsub32 (lock_count m) 1 in
    if lock_count m =? 1 then
      let waits := if 0 <? lock_wait_count m then lock_wait_count m - 1 else lock_wait_count m in
      (with_lock m UNLOCKED count waits, MReleased)
    else (with_lock m (lock_owner m) count (lock_wait_count m), MReleased).

Definition lock_invalidate (m : MutexLock) : MutexLock :=
  {| lock_id := lock_id m; lock_owner := lock_owner m; lock_count := lock_count m;
     creator_pid := creator_pid m; recursive := recursive m;
     lock_wait_count := lock_wait_count m; lock_valid := false |}.

(** *** One atomic access at a time: [try_acquire] *)
Inductive AcquireCall :=
  | ACheck (pid : Pid)
  | ALoad (pid : Pid)
  | ACas (pid : Pid)          (* [owner.compare_exchange]; its result is ignored *)
  | ASetCount                 (* [count.store(1)] *)
  | AAddCount                 (* [count.fetch_add(1)] *)
  | AReturn (r : MutexResult).

Definition mutex_step (m : MutexLock) (c : AcquireCall) : MutexLock * AcquireCall :=
  match c with
  | ACheck pid => (m, if lock_valid m then ALoad pid else AReturn MInvalid)
  | ALoad pid =>
      let current_owner := lock_owner m in
      (m, if current_owner =? UNLOCKED then ACas pid
          else if current_owner =? pid then (if recursive m then AAddCount else AReturn MDeadlock)
          else AReturn MWouldBlock)
  | ACas pid =>
      (if lock_owner m =? UNLOCKED
       then with_lock m pid (lock_count m) (lock_wait_count m) else m, ASetCount)
  | ASetCount => (with_lock m (lock_owner m) 1 (lock_wait_count m), AReturn MAcquired)
  | AAddCount =>
      (with_lock m (lock_owner m) (wadd32 (lock_count m) 1) (lock_wait_count m), AReturn MAcquired)
  | AReturn r => (m, AReturn r)
  end.

(** Several [try_acquire] calls that take their steps in the order of a
    schedule (the index of the call that moves). *)
Fixpoint mutex_schedule (sched : list nat) (m : MutexLock) (calls : list AcquireCall)
    : MutexLock * list AcquireCall :=
  match sched with
  | [] => (m, calls)
  | i :: sched =>
      match calls !! i with
      | Some c => let '(m', c') := mutex_step m c in mutex_schedule sched m' (<[i := c']> calls)
      | None => mutex_schedule sched m calls
      end
  end.

(** Calls that do not overlap, as under the lock of the manager. *)
Inductive MutexOp := OpTryAcquire (pid : Pid) | OpAcquire (pid : Pid) | OpRelease (pid : Pid).

Definition op_pid (o : MutexOp) : Pid :=
  match o with OpTryAcquire p | OpAcquire p | OpRelease p => p end.

Definition mutex_op (m : MutexLock) (o : MutexOp) : MutexLock * MutexResult :=
  match o with
  | OpTryAcquire p => try_acquire p m
  | OpAcquire p => acquire p m
  | OpRelease p => release p m
  end.

Fixpoint mutex_history (ops : list MutexOp) (m : MutexLock) : MutexLock * list (MutexOp * MutexResult) :=
  match ops with
  | [] => (m, [])
  | o :: ops =>
      let '(m1, r) := mutex_op m o in
      let '(m2, h) := mutex_history ops m1 in (m2, (o, r) :: h)
  end.

(** ** The manager *)

Record SyncManager := {
  sem_store : list Semaphore;          (* the shared objects, in creation order *)
  mutex_store : list MutexLock;
  semaphores : gmap N nat;             (* identifier to reference *)
  mutexes : gmap N nat;
  next_sem_id : N; next_mutex_id : N }.

Definition with_sems (m : SyncManager) st sm nx : SyncManager :=
  {| sem_store := st; mutex_store := mutex_store m; semaphores := sm; mutexes := mutexes m;
     next_sem_id := nx; next_mutex_id := next_mutex_id m |}.
Definition with_mutexes (m : SyncManager) st mm nx : SyncManager :=
  {| sem_store := sem_store m; mutex_store := st; semaphores := semaphores m; mutexes := mm;
     next_sem_id := next_sem_id m; next_mutex_id := nx |}.

Definition insert_semaphore (m : SyncManager) (s : Semaphore) : SyncManager :=
  with_sems m (sem_store m ++ [s]) (<[next_sem_id m := length (sem_store m)]> (semaphores m))
    (wadd64 (next_sem_id m) 1).

Definition create_semaphore (m : SyncManager) (pid : Pid) (initial : N) : SyncManager * N :=
  (insert_semaphore m (Semaphore_new (next_sem_id m) pid initial), next_sem_id m).
Definition create_bounded_semaphore (m : SyncManager) (pid : Pid) (initial maxv : N) : SyncManager * N :=
  (insert_semaphore m (with_max (next_sem_id m) pid initial maxv), next_sem_id m).

(** The answer is a reference to the shared object. *)
Definition get_semaphore (m : SyncManager) (id : N) : option nat := semaphores m !! id.
Definition deref_sem (m : SyncManager) (r : nat) : option Semaphore := sem_store m !! r.

Definition destroy_semaphore (m : SyncManager) (id : N) : SyncManager * bool :=
  match semaphores m !! id with
  | Some r => (with_sems m (alter sem_invalidate r (sem_store m)) (delete id (semaphores m)) (next_sem_id m), true)
  | None => (m, false)
  end.

(** An operation of the object behind a reference. *)
Definition on_semaphore {A} (m : SyncManager) (r : nat) (f : Semaphore -> Semaphore * A)
    : option (SyncManager * A) :=
  s ← sem_store m !! r;
  let '(s', a) := f s in
  Some (with_sems m (<[r := s']> (sem_store m)) (semaphores m) (next_sem_id m), a).

Definition create_mutex (m : SyncManager) (pid : Pid) (rec : bool) : SyncManager * N :=
  let id := next_mutex_id m in
  (with_mutexes m (mutex_store m ++ [MutexLock_new id pid rec])
     (<[id := length (mutex_store m)]> (mutexes m)) (wadd64 id 1), id).
Definition get_mutex (m : SyncManager) (id : N) : option nat := mutexes m !! id.
Definition destroy_mutex (m : SyncManager) (id : N) : SyncManager * bool :=
  match mutexes m !! id with
  | Some r => (with_mutexes m (alter lock_invalidate r (mutex_store m)) (delete id (mutexes m)) (next_mutex_id m), true)
  | None => (m, false)
  end.
Definition on_mutex {A} (m : SyncManager) (r : nat) (f : MutexLock -> MutexLock * A)
    : option (SyncManager * A) :=
  l ← mutex_store m !! r;
  let '(l', a) := f l in
  Some (with_mutexes m (<[r := l']> (mutex_store m)) (mutexes m) (next_mutex_id m), a).

Definition sem_entry_valid (m : SyncManager) (e : N * nat) : bool :=
  match sem_store m !! snd e with Some s => sem_valid s | None => false end.
Definition mutex_entry_valid (m : SyncManager) (e : N * nat) : bool :=
  match mutex_store m !! snd e with Some l => lock_valid l | None => false end.

(** [cleanup]: drop the entries whose object is invalid, and how many they were *)
Definition cleanup (m : SyncManager) : SyncManager * (N * N) :=
  let ss := filter (fun e => sem_entry_valid m e = true) (semaphores m) in
  let ms := filter (fun e => mutex_entry_valid m e = true) (mutexes m) in
  (with_mutexes (with_sems m (sem_store m) ss (next_sem_id m)) (mutex_store m) ms (next_mutex_id m),
   (N.of_nat (size (semaphores m)) - N.of_nat (size ss),
    N.of_nat (size (mutexes m)) - N.of_nat (size ms))).

Definition SyncManager_new : SyncManager :=
  let sm := {| sem_store := []; mutex_store := []; semaphores := ∅; mutexes := ∅;
               next_sem_id := 0; next_mutex_id := 0 |} in
  let '(sm, _) := create_semaphore sm 0 1 in
  let '(sm, _) := create_mutex sm 0 false in
  sm.

(** ** A call that runs alone *)

(** What a call at a given point will have done once it returns, if nobody
    interferes. *)
Definition after_load (b : bool) (s : Semaphore) : Semaphore * SemaphoreResult :=
  if value s =? 0
  then ((if b then with_waits s (wadd32 (sem_wait_count s) 1) else s), SWouldBlock)
  else (with_value s (value s - 1), SAcquired).
Definition after_signal_load (s : Semaphore) : Semaphore * SemaphoreResult :=
  if max_value s <? saturating_succ (value s) then (s, SOverflow)
  else (with_waits (with_value s (saturating_succ (value s))) (wsub32 (sem_wait_count s) 1), SReleased).

Definition sem_outcome (s : Semaphore) (c : SemCall) : Semaphore * SemaphoreResult :=
  match c with
  | WCheck true => wait s
  | WCheck false => try_wait s
  | WLoad b | WLoop b _ => after_load b s
  | WBlock => (with_waits s (wadd32 (sem_wait_count s) 1), SWouldBlock)
  | SCheck => signal s
  | SLoad | SLoop _ => after_signal_load s
  | SDecr => (with_waits s (wsub32 (sem_wait_count s) 1), SReleased)
  | SReturn r => (s, r)
  end.

Definition loop_fresh (s : Semaphore) (c : SemCall) : Prop :=
  match c with WLoop _ v | SLoop v => v = value s | _ => True end.

Lemma cas_weak_ok sp cell current new v :
  cas_weak sp cell current new = (v, true) -> v = new /\ cell = current /\ sp = false.
Proof. unfold cas_weak. destruct sp; cbn; [done|]. bdestruct_all; intros; simplify_eq; done. Qed.

Lemma cas_weak_alone sp cell new :
  cas_weak sp cell cell new = if sp then (cell, false) else (new, true).
Proof. unfold cas_weak. rewrite N.eqb_refl. by destruct sp. Qed.

Lemma sem_step_outcome sp s c :
  loop_fresh s c ->
  let '(s', c') := sem_step sp s c in sem_outcome s' c' = sem_outcome s c /\ loop_fresh s' c'.
Proof.
  destruct c as [b|b|b v| | | |v| |r]; cbn [loop_fresh]; intros Hf; try subst v;
    cbn [sem_step]; rewrite ?cas_weak_alone.
  - destruct (sem_valid s) eqn:Hv, b; cbn [sem_outcome]; unfold wait, try_wait, after_load;
      rewrite Hv; by destruct (value s =? 0).
  - done.
  - cbn [sem_outcome]. unfold after_load.
    destruct (value s =? 0) eqn:E0; [by destruct b|destruct sp; cbn [sem_outcome loop_fresh]; auto].
    unfold after_load. by rewrite E0.
  - done.
  - destruct (sem_valid s) eqn:Hv; cbn [sem_outcome]; unfold signal; by rewrite Hv.
  - done.
  - cbn [sem_outcome]. unfold after_signal_load.
    destruct (max_value s <? _) eqn:E0; [done|destruct sp; cbn [sem_outcome loop_fresh]; auto].
    unfold after_signal_load. by rewrite E0.
  - done.
  - done.
Qed.

Lemma sem_run_outcome flags s c :
  loop_fresh s c ->
  let '(s', c') := sem_run flags s c in sem_outcome s' c' = sem_outcome s c /\ loop_fresh s' c'.
Proof.
  revert s c. induction flags as [|b flags IH]; intros s c Hf; cbn [sem_run]; [done|].
  pose proof (sem_step_outcome b s c Hf) as Hs.
  destruct (sem_step b s c) as [s1 c1]. destruct Hs as [He Hf1].
  specialize (IH s1 c1 Hf1). destruct (sem_run flags s1 c1) as [s2 c2].
  destruct IH as [He2 Hf2]. by rewrite He2.
Qed.

Lemma sem_run_app f1 f2 s c :
  sem_run (f1 ++ f2) s c = let '(s', c') := sem_run f1 s c in sem_run f2 s' c'.
Proof.
  revert s c. induction f1 as [|b f1 IH]; intros s c; [done|]. cbn [sem_run app].
  destruct (sem_step b s c). apply IH.
Qed.

(** points from which the call comes to the CAS or to its end *)
Definition near_end (s : Semaphore) (c : SemCall) : Prop :=
  match c with WLoop _ v | SLoop v => v = value s | WBlock | SDecr | SReturn _ => True | _ => False end.

Lemma near_end_spurious s c : near_end s c ->
  let '(s', c') := sem_step true s c in near_end s' c'.
Proof.
  destruct c as [b|b|b v| | | |v| |r]; cbn [near_end]; try done; intros ->; cbn [sem_step];
    rewrite ?cas_weak_alone.
  - destruct (value s =? 0); [by destruct b|done].
  - by destruct (max_value s <? _).
Qed.

Lemma near_end_run s c k : near_end s c ->
  let '(s', c') := sem_run (repeat true k) s c in near_end s' c'.
Proof.
  revert s c. induction k as [|k IH]; intros s c H; [done|]. cbn [repeat sem_run].
  pose proof (near_end_spurious s c H) as H1. destruct (sem_step true s c) as [s1 c1].
  by apply IH.
Qed.

Lemma near_end_finish s c : near_end s c -> exists s' r, sem_run [false; false] s c = (s', SReturn r).
Proof.
  destruct c as [b|b|b v| | | |v| |r]; cbn [near_end]; try done; try (intros ->);
    cbn [sem_run sem_step]; rewrite ?cas_weak_alone; try (intros _; by eexists _, _).
  - destruct (value s =? 0); [destruct b|]; cbn [sem_step]; by eexists _, _.
  - destruct (max_value s <? _); cbn [sem_step]; by eexists _, _.
Qed.

Lemma start_near_end s c : c = WCheck true \/ c = WCheck false \/ c = SCheck ->
  let '(s', c') := sem_run [false; false] s c in near_end s' c'.
Proof. intros [->|[->| ->]]; cbn [sem_run sem_step]; by destruct (sem_valid s). Qed.

(** C21: A call of [wait], [try_wait] or [signal] that runs alone, step by atomic
    step, returns after finitely many spurious failures of the weak
    compare-exchange, and whatever those failures were its effect and result
    are those of the function of that name. *)
Theorem sem_call_sequential c s :
  c = WCheck true \/ c = WCheck false \/ c = SCheck ->
  (forall k, exists s' r, sem_run ([false; false] ++ repeat true k ++ [false; false]) s c = (s', SReturn r)) /\
  (forall flags s' r, sem_run flags s c = (s', SReturn r) ->
     (s', r) = match c with WCheck true => wait s | WCheck false => try_wait s | _ => signal s end).
Proof.
  intros Hc. split.
  - intros k. rewrite sem_run_app. pose proof (start_near_end s c Hc) as H1.
    destruct (sem_run [false; false] s c) as [s1 c1]. rewrite sem_run_app.
    pose proof (near_end_run s1 c1 k H1) as H2. destruct (sem_run (repeat true k) s1 c1) as [s2 c2].
    by apply near_end_finish.
  - intros flags s' r Hr. assert (Hf : loop_fresh s c) by (by destruct Hc as [->|[->| ->]]).
    pose proof (sem_run_outcome flags s c Hf) as Ho. rewrite Hr in Ho.
    destruct Ho as [Ho _]. cbn [sem_outcome] in Ho. rewrite Ho.
    by destruct Hc as [->|[->| ->]].
Qed.

Lemma sem_call_sequential_witness :
  exists s', sem_run [false; false; true; true; false] (Semaphore_new 1 7 3) (WCheck true) = (s', SReturn SAcquired)
    /\ (s', SAcquired) = wait (Semaphore_new 1 7 3).
Proof.
  eexists. split; [vm_compute; reflexivity|].
  apply (proj2 (sem_call_sequential (WCheck true) (Semaphore_new 1 7 3) (or_introl eq_refl))
           [false; false; true; true; false]).
  vm_compute; reflexivity.
Defined.

(** ** Interleaved calls on one semaphore *)

Lemma rtc_preserved {A} (R : A -> A -> Prop) (P : A -> Prop) x y :
  (forall a b, P a -> R a b -> P b) -> rtc R x y -> P x -> P y.
Proof. intros HP. induction 1 as [|a b c HR _ IH]; [done|]. intros Hx. by apply IH, (HP a). Qed.

Definition b2N (b : bool) : N := if b then 1 else 0.

Lemma count_cons P c pool : count P (c :: pool) = b2N (P c) + count P pool.
Proof. unfold count. rewrite filter_cons. case_decide; destruct (P c); cbn [length b2N]; try done; lia. Qed.

Lemma count_snoc P c pool : count P (pool ++ [c]) = count P pool + b2N (P c).
Proof. induction pool as [|d pool IH]; cbn [app]; rewrite !count_cons; [|rewrite IH]; unfold count; cbn; lia. Qed.

Lemma count_update P pool i c c' : pool !! i = Some c ->
  count P (<[i := c']> pool) + b2N (P c) = count P pool + b2N (P c').
Proof.
  revert i. induction pool as [|d pool IH]; intros [|i] Hi; try done; cbn in Hi.
  - simplify_eq. cbn [insert list_insert]. rewrite !count_cons. lia.
  - change (<[S i := c']> (d :: pool)) with (d :: <[i := c']> pool).
    rewrite !count_cons. specialize (IH i Hi). lia.
Qed.

Definition pool_inv (total bound : N) (st : Semaphore * list SemCall) : Prop :=
  let '(s, pool) := st in
  value s + count is_acquired pool = total + count is_incremented pool /\
  value s <= bound /\ max_value s = bound.

Ltac bal := cbn [b2N is_acquired is_incremented value max_value with_value with_waits]; lia.

Lemma saturating_succ_small v bound :
  saturating_succ v <= bound -> bound < u32_MAX -> saturating_succ v = v + 1.
Proof. unfold saturating_succ. generalize u32_MAX. lia. Qed.

(** What one atomic access does to the balance of value and calls. *)
Lemma sem_step_balance sp s c s' c' bound :
  sem_step sp s c = (s', c') -> max_value s = bound -> bound < u32_MAX -> value s <= bound ->
  max_value s' = bound /\ value s' <= bound /\
  value s' + b2N (is_acquired c') + b2N (is_incremented c) =
  value s + b2N (is_acquired c) + b2N (is_incremented c').
Proof.
  intros Hs Hm Hb Hv. destruct c as [b|b|b v| | | |v| |r]; cbn [sem_step] in Hs; simplify_eq.
  - destruct (sem_valid s'); bal.
  - bal.
  - destruct (v =? 0) eqn:E0; simplify_eq; [destruct b; bal|].
    destruct (cas_weak _ _ _ _) as [w ok] eqn:Ec. destruct ok; simplify_eq; [|bal].
    apply cas_weak_ok in Ec as (-> & Hc & _). apply N.eqb_neq in E0; bal.
  - bal.
  - destruct (sem_valid s'); bal.
  - bal.
  - destruct (max_value s <? _) eqn:E0; simplify_eq; [bal|].
    destruct (cas_weak _ _ _ _) as [w ok] eqn:Ec. destruct ok; simplify_eq; [|bal].
    apply cas_weak_ok in Ec as (-> & Hc & _). apply N.ltb_ge in E0.
    rewrite (saturating_succ_small v (max_value s)) in * by done. bal.
  - bal.
  - bal.
Qed.

Lemma pool_inv_step total bound st st' : bound < u32_MAX ->
  pool_inv total bound st -> sem_pool_step st st' -> pool_inv total bound st'.
Proof.
  intros Hb Hi Hs. destruct Hs as [s pool c Hc|s pool i c sp s' c' Hl Hs|s pool];
    destruct Hi as (H1 & H2 & H3).
  - split; [|done]. rewrite !count_snoc. destruct Hc as [->|[->| ->]]; bal.
  - destruct (sem_step_balance _ _ _ _ _ _ Hs H3 Hb H2) as (Hm & Hv & He).
    split; [|done].
    pose proof (count_update is_acquired pool i c c' Hl).
    pose proof (count_update is_incremented pool i c c' Hl). lia.
  - done.
Qed.

(** C20: Whatever the interleaving of [wait], [try_wait] and [signal] calls on a
    bounded semaphore, and also when it is destroyed in between, the value plus
    the acquisitions granted equals the initial value plus the increments made,
    and the value stays within its maximum: no token is lost or forged. *)
Theorem sem_interleaved_conservation id pid initial maxv s pool :
  maxv < u32_MAX ->
  sem_reachable (with_max id pid initial maxv) (s, pool) ->
  value s + count is_acquired pool = N.min initial maxv + count is_incremented pool /\
  value s <= maxv.
Proof.
  intros Hm Hr.
  assert (Hi : pool_inv (N.min initial maxv) maxv (s, pool)).
  { refine (rtc_preserved sem_pool_step _ _ _ _ Hr _);
      [intros; by eapply pool_inv_step|]. cbv [pool_inv with_max value max_value count filter list_filter length].
    split_and!; lia. }
  destruct Hi as (H1 & H2 & _). done.
Qed.

Definition demo_sem : Semaphore := with_max 1 7 1 3.

(** Schedules, to compute an interleaving. *)
Inductive PoolEvent := Start (c : SemCall) | Advance (i : nat) (spurious : bool) | Destroy.

Definition pool_event (st : Semaphore * list SemCall) (e : PoolEvent) : Semaphore * list SemCall :=
  let '(s, pool) := st in
  match e with
  | Start (WCheck b) => (s, pool ++ [WCheck b])
  | Start SCheck => (s, pool ++ [SCheck])
  | Start _ => st
  | Advance i sp =>
      match pool !! i with
      | Some c => let '(s', c') := sem_step sp s c in (s', <[i := c']> pool)
      | None => st
      end
  | Destroy => (sem_invalidate s, pool)
  end.

Lemma pool_event_steps st e : rtc sem_pool_step st (pool_event st e).
Proof.
  destruct st as [s pool], e as [c|i sp|]; cbn [pool_event].
  - destruct c as [[]| | | | | | | |]; try apply rtc_refl; apply rtc_once, pool_start; auto.
  - destruct (pool !! i) as [c|] eqn:El; [|apply rtc_refl].
    destruct (sem_step sp s c) as [s' c'] eqn:Es. apply rtc_once. by eapply pool_advance.
  - apply rtc_once, pool_destroy.
Qed.

Lemma pool_events_steps es st : rtc sem_pool_step st (foldl pool_event st es).
Proof.
  revert st. induction es as [|e es IH]; intros st; [apply rtc_refl|].
  etrans; [apply (pool_event_steps st e)|apply IH].
Qed.

(** two threads call [wait] on a semaphore of value 1; the second one loaded the
    value before the first one's compare-exchange, retries and blocks *)
Lemma demo_pool_reachable :
  sem_reachable demo_sem
    (with_waits (with_value demo_sem 0) 1, [SReturn SAcquired; SReturn SWouldBlock]).
Proof.
  exact (pool_events_steps
    [Start (WCheck true); Start (WCheck true); Advance 0 false; Advance 1 false; Advance 0 false;
     Advance 1 false; Advance 0 false; Advance 1 false; Advance 1 false; Advance 1 false] (demo_sem, [])).
Qed.

Lemma sem_interleaved_conservation_witness :
  exists s pool, sem_reachable demo_sem (s, pool) /\ count is_acquired pool = 1 /\
    value s + 1 = 1 + 0 /\ value s <= 3.
Proof.
  eexists _, _. split; [exact demo_pool_reachable|]. split; [reflexivity|].
  exact (sem_interleaved_conservation 1 7 1 3 _ _ eq_refl demo_pool_reachable).
Defined.

(** Property: The branches of [signal] on a live semaphore: below the maximum it adds
    one; at a maximum below [u32::MAX] it answers [Overflow] and changes
    nothing; at the default maximum [u32::MAX] it answers [Released] although
    the value does not move; and whenever it answers [Released] the count of
    waiting processes goes down by one, from zero to [u32::MAX]. *)
Theorem signal_outcome s :
  sem_valid s = true -> value s <= max_value s -> max_value s <= u32_MAX ->
  sem_wait_count s < 2 ^ 32 ->
  let '(s', r) := signal s in
  (value s < max_value s -> r = SReleased /\ value s' = value s + 1) /\
  (value s = max_value s -> max_value s < u32_MAX -> r = SOverflow /\ s' = s) /\
  (value s = u32_MAX -> r = SReleased /\ value s' = value s) /\
  (r = SReleased ->
   sem_wait_count s' = if sem_wait_count s =? 0 then u32_MAX else sem_wait_count s - 1).
Proof.
  intros Hv Hle Hm Hw. unfold signal, saturating_succ. rewrite Hv. cbn [negb].
  assert (Hd : wsub32 (sem_wait_count s) 1 =
               if sem_wait_count s =? 0 then u32_MAX else sem_wait_count s - 1).
  { destruct (N.eqb_spec (sem_wait_count s) 0) as [E|E]; [rewrite E; reflexivity|].
    apply wsub32_ge; lia. }
  destruct (N.ltb_spec (max_value s) (N.min (value s + 1) u32_MAX)) as [Hlt|Hge].
  - split_and!; intros; try done; lia.
  - cbn [value with_waits with_value sem_wait_count]. rewrite Hd.
    split_and!; intros; try split; try done; lia.
Qed.

Lemma signal_outcome_witness :
  exists s', signal (Semaphore_new 1 7 0) = (s', SReleased) /\ sem_wait_count s' = u32_MAX.
Proof.
  eexists. split; [vm_compute; reflexivity|].
  apply (signal_outcome (Semaphore_new 1 7 0)); try reflexivity; discriminate.
Defined.

(** ** Mutex locks *)

(** Property: The compare-exchange result that [try_acquire] ignores: two threads
    that both see the lock free both answer [Acquired], whoever the owner
    field then names, so overlapping calls do not exclude one another. *)
Theorem try_acquire_race m p q :
  lock_valid m = true -> lock_owner m = UNLOCKED -> p <> UNLOCKED ->
  mutex_schedule [0; 0; 1; 1; 0; 0; 1; 1]%nat m [ACheck p; ACheck q] =
  (with_lock m p 1 (lock_wait_count m), [AReturn MAcquired; AReturn MAcquired]).
Proof.
  intros Hv Ho Hp. destruct m as [i o c cr rc w v]; cbn in Hv, Ho; subst v o.
  apply N.eqb_neq in Hp.
  cbn -[UNLOCKED N.eqb]. rewrite N.eqb_refl. cbn -[UNLOCKED N.eqb].
  rewrite ?N.eqb_refl. cbn -[UNLOCKED N.eqb]. rewrite ?N.eqb_refl, ?Hp. 
  cbn -[UNLOCKED N.eqb]. rewrite ?N.eqb_refl, ?Hp. done.
Qed.

Lemma try_acquire_race_witness :
  exists m, mutex_schedule [0; 0; 1; 1; 0; 0; 1; 1]%nat (MutexLock_new 1 5 false) [ACheck 5; ACheck 6]
    = (m, [AReturn MAcquired; AReturn MAcquired]).
Proof.
  eexists. apply (try_acquire_race (MutexLock_new 1 5 false) 5 6); try reflexivity; discriminate.
Defined.

Definition granted (p : Pid) (e : MutexOp * MutexResult) : bool :=
  match e with (o, MAcquired) => op_pid o =? p | _ => false end.
Definition returned (p : Pid) (e : MutexOp * MutexResult) : bool :=
  match e with (o, MReleased) => op_pid o =? p | _ => false end.

Definition hcount (P : MutexOp * MutexResult -> bool) (h : list (MutexOp * MutexResult)) : N :=
  len (filter (fun e => P e = true) h).

(** how often a process holds the lock *)
Definition holds (m : MutexLock) (p : Pid) : N := if lock_owner m =? p then lock_count m else 0.

Definition lock_ok (bound : N) (m : MutexLock) : Prop :=
  (lock_owner m = UNLOCKED <-> lock_count m = 0) /\ lock_count m <= bound /\
  (recursive m = false -> lock_count m <= 1).

Lemma hcount_cons P e h : hcount P (e :: h) = b2N (P e) + hcount P h.
Proof. unfold hcount. rewrite filter_cons. case_decide; destruct (P e); cbn [length b2N]; try done; lia. Qed.

(** One call: the balance for every process and the well-formedness of the lock. *)
Definition op_spec (bound : N) (p : Pid) (o : MutexOp) (m m' : MutexLock) (r : MutexResult) : Prop :=
  lock_ok (bound + 1) m' /\ recursive m' = recursive m /\
  holds m' p + b2N (returned p (o, r)) = holds m p + b2N (granted p (o, r)).

Lemma op_spec_same bound p o m r :
  lock_ok bound m -> r <> MAcquired -> r <> MReleased -> op_spec bound p o m m r.
Proof.
  intros (Hu & Hb & Hn) H1 H2. unfold op_spec, lock_ok, granted, returned.
  destruct r; try done; split_and!; try done; lia.
Qed.

Lemma try_acquire_balance m q bound p o :
  q <> UNLOCKED -> p <> UNLOCKED -> lock_ok bound m -> bound + 1 < 2 ^ 32 -> op_pid o = q ->
  let '(m', r) := try_acquire q m in op_spec bound p o m m' r.
Proof.
  intros Hq Hp Hok Hbb Ho. pose proof Hok as (Hu & Hb & Hn). unfold try_acquire.
  destruct (lock_valid m); cbn [negb]; [|by apply op_spec_same].
  destruct (N.eqb_spec (lock_owner m) UNLOCKED) as [Hun|Hun].
  - unfold op_spec, lock_ok, holds; cbn [lock_owner lock_count recursive with_lock granted returned].
    rewrite Ho, Hun. destruct (N.eqb_spec q p), (N.eqb_spec UNLOCKED p); cbn [b2N];
      split_and!; try done; try lia.
  - destruct (N.eqb_spec (lock_owner m) q) as [Hmine|]; [|by apply op_spec_same].
    destruct (recursive m) eqn:Hrec; [|by apply op_spec_same].
    unfold op_spec, lock_ok, holds; cbn [lock_owner lock_count recursive with_lock granted returned].
    rewrite Ho, Hmine, wadd32_small by lia.
    destruct (N.eqb_spec q p); cbn [b2N]; split_and!; try done; try lia; intros; congruence.
Qed.

Lemma release_balance m q bound p :
  q <> UNLOCKED -> p <> UNLOCKED -> lock_ok bound m -> bound + 1 < 2 ^ 32 ->
  let '(m', r) := release q m in op_spec bound p (OpRelease q) m m' r.
Proof.
  intros Hq Hp Hok Hbb. pose proof Hok as (Hu & Hb & Hn). unfold release.
  destruct (lock_valid m); cbn [negb]; [|by apply op_spec_same].
  destruct (N.eqb_spec (lock_owner m) q) as [Hmine|]; cbn [negb]; [|by apply op_spec_same].
  assert (Hpos : lock_count m <> 0) by (intros E; apply Hu in E; congruence).
  rewrite wsub32_ge by lia.
  destruct (N.eqb_spec (lock_count m) 1) as [H1|H1];
    unfold op_spec, lock_ok, holds; cbn [lock_owner lock_count recursive with_lock granted returned op_pid];
    rewrite Hmine, ?H1.
  - destruct (N.eqb_spec UNLOCKED p), (N.eqb_spec q p); cbn [b2N]; split_and!; try done; try lia;
      intros Hr; specialize (Hn Hr); lia.
  - destruct (N.eqb_spec q p); cbn [b2N]; split_and!; try done; try lia;
      intros Hr; specialize (Hn Hr); lia.
Qed.

Lemma mutex_op_balance m o bound p :
  op_pid o <> UNLOCKED -> p <> UNLOCKED -> lock_ok bound m -> bound + 1 < 2 ^ 32 ->
  let '(m', r) := mutex_op m o in op_spec bound p o m m' r.
Proof.
  intros Hq Hp Hok Hbb. destruct o as [q|q|q]; cbn [mutex_op op_pid] in *.
  - by apply try_acquire_balance.
  - pose proof (try_acquire_balance m q bound p (OpAcquire q) Hq Hp Hok Hbb eq_refl) as Ht.
    unfold acquire. destruct (lock_valid m) eqn:Hv; cbn [negb]; [|by apply op_spec_same].
    destruct (try_acquire q m) as [m' []]; exact Ht.
  - by apply release_balance.
Qed.

Lemma mutex_history_balance ops m bound p :
  Forall (fun o => op_pid o <> UNLOCKED) ops -> p <> UNLOCKED ->
  lock_ok bound m -> bound + len ops < 2 ^ 32 ->
  let '(m', h) := mutex_history ops m in
  lock_ok (bound + len ops) m' /\ recursive m' = recursive m /\
  holds m' p + hcount (returned p) h = holds m p + hcount (granted p) h.
Proof.
  intros Hall Hp. revert m bound. induction Hall as [|o ops Ho Hall IH]; intros m bound Hok Hb.
  - cbn [mutex_history length]. rewrite N.add_0_r. done.
  - cbn [mutex_history length] in *.
    pose proof (mutex_op_balance m o bound p Ho Hp Hok ltac:(lia)) as H1.
    destruct (mutex_op m o) as [m1 r]. destruct H1 as (Hok1 & Hr1 & He1).
    specialize (IH m1 (bound + 1) Hok1 ltac:(lia)).
    destruct (mutex_history ops m1) as [m2 h]. destruct IH as (Hok2 & Hr2 & He2).
    replace (bound + N.of_nat (S (length ops))) with (bound + 1 + len ops) by lia.
    rewrite !hcount_cons. split_and!; [done|congruence|lia].
Qed.

(** C37: Calls that do not overlap: after any history of [try_acquire],
    [acquire] and [release] calls by real processes, the times a process was
    granted the lock minus its releases is the count if it is the owner and
    zero otherwise, so at most one process holds the lock; it is free exactly
    when the count is zero, and a non-recursive lock is never held twice. *)
Theorem mutex_history_exclusive id creator rec ops p :
  Forall (fun o => op_pid o <> UNLOCKED) ops -> p <> UNLOCKED -> len ops < 2 ^ 32 ->
  let '(m, h) := mutex_history ops (MutexLock_new id creator rec) in
  hcount (granted p) h =
    hcount (returned p) h + (if lock_owner m =? p then lock_count m else 0) /\
  (lock_owner m = UNLOCKED <-> lock_count m = 0) /\
  (rec = false -> lock_count m <= 1).
Proof.
  intros Hall Hp Hlen.
  pose proof (mutex_history_balance ops (MutexLock_new id creator rec) 0 p Hall Hp) as H.
  destruct (mutex_history ops _) as [m h].
  destruct H as ((Hu & _ & Hn) & Hr & He); [|lia|].
  - split_and!; cbn [lock_owner lock_count MutexLock_new]; done.
  - cbn [recursive MutexLock_new] in Hr. rewrite Hr in Hn.
    split; [|by split].
    unfold holds in He. cbn [lock_owner lock_count MutexLock_new] in He.
    destruct (UNLOCKED =? p); lia.
Qed.

Lemma mutex_history_exclusive_witness :
  let ops := [OpTryAcquire 5; OpAcquire 6; OpTryAcquire 5; OpRelease 5; OpRelease 6; OpRelease 5] in
  let '(m, h) := mutex_history ops (MutexLock_new 1 5 true) in
  hcount (granted 5) h = hcount (returned 5) h + (if lock_owner m =? 5 then lock_count m else 0) /\
  (lock_owner m = UNLOCKED <-> lock_count m = 0) /\ (true = false -> lock_count m <= 1).
Proof.
  apply mutex_history_exclusive; [|discriminate|reflexivity].
  repeat (constructor; [discriminate|]). constructor.
Defined.

(** Property: [set_owner] hands a lock over without setting the count: once its holder
    has released it, the process it is handed to can release it, is told so,
    and the lock stays taken by it with a wrapped count. *)
Theorem set_owner_never_unlocks m p q :
  lock_valid m = true -> lock_owner m = p -> lock_count m = 1 ->
  let handed := set_owner q (fst (release p m)) in
  snd (release q handed) = MReleased /\
  lock_owner (fst (release q handed)) = q /\ lock_count (fst (release q handed)) = u32_MAX.
Proof.
  intros Hv Ho Hc. destruct m as [i o c cr rc w v]; cbn in Hv, Ho, Hc; subst.
  assert (Hr : forall k cnt wts, release k (Build_MutexLock i k cnt cr rc wts true) =
    if cnt =? 1 then (Build_MutexLock i UNLOCKED (wsub32 cnt 1) cr rc (if 0 <? wts then wts - 1 else wts) true, MReleased)
    else (Build_MutexLock i k (wsub32 cnt 1) cr rc wts true, MReleased)).
  { intros. unfold release, with_lock. cbn [lock_valid negb lock_owner]. by rewrite N.eqb_refl. }
  cbv zeta. rewrite Hr. change (1 =? 1) with true. unfold set_owner, with_lock.
  cbn [fst lock_owner lock_count lock_wait_count lock_id creator_pid recursive lock_valid].
  rewrite Hr. done.
Qed.

Lemma set_owner_never_unlocks_witness :
  let m := fst (try_acquire 5 (MutexLock_new 1 5 false)) in
  lock_owner (fst (release 6 (set_owner 6 (fst (release 5 m))))) = 6.
Proof. apply (set_owner_never_unlocks (fst (try_acquire 5 (MutexLock_new 1 5 false))) 5 6); reflexivity. Defined.

(** ** The manager *)

Inductive SemObjOp := ObjWait | ObjTryWait | ObjSignal | ObjReset.

Definition sem_obj_op (o : SemObjOp) (s : Semaphore) : Semaphore * SemaphoreResult :=
  match o with ObjWait => wait s | ObjTryWait => try_wait s | ObjSignal => signal s | ObjReset => reset s end.

Inductive SyncOp :=
  | CreateSem (pid : Pid) (initial : N)
  | CreateBounded (pid : Pid) (initial maxv : N)
  | DestroySem (id : N)
  | CallSem (r : nat) (o : SemObjOp)          (* through a reference, however old *)
  | CreateMutex (pid : Pid) (rec : bool)
  | DestroyMutex (id : N)
  | CallMutex (r : nat) (o : MutexOp)
  | Cleanup.

Definition sync_apply (m : SyncManager) (o : SyncOp) : SyncManager :=
  match o with
  | CreateSem pid i => fst (create_semaphore m pid i)
  | CreateBounded pid i mx => fst (create_bounded_semaphore m pid i mx)
  | DestroySem id => fst (destroy_semaphore m id)
  | CallSem r o => match on_semaphore m r (sem_obj_op o) with Some (m', _) => m' | None => m end
  | CreateMutex pid rec => fst (create_mutex m pid rec)
  | DestroyMutex id => fst (destroy_mutex m id)
  | CallMutex r o => match on_mutex m r (fun l => mutex_op l o) with Some (m', _) => m' | None => m end
  | Cleanup => fst (cleanup m)
  end.

(** The invariant that semaphores and locks share: an entry refers to a live
    object that carries the entry's identifier, below the next one. *)
Section Entries.
Context {T : Type} (ident : T -> N) (live : T -> bool).

Definition entries_ok (next : N) (store : list T) (entries : gmap N nat) : Prop :=
  forall id r, entries !! id = Some r ->
    id < next /\ exists t, store !! r = Some t /\ live t = true /\ ident t = id.

Lemma entries_ok_create next store entries t :
  entries_ok next store entries -> live t = true -> ident t = next ->
  entries_ok (next + 1) (store ++ [t]) (<[next := length store]> entries).
Proof.
  intros Hok Hl Hi id r Hr. destruct (decide (id = next)) as [->|Hne].
  - rewrite lookup_insert_eq in Hr. injection Hr as <-. split; [lia|].
    exists t. by rewrite list_lookup_middle.
  - rewrite lookup_insert_ne in Hr by done. destruct (Hok id r Hr) as (Hlt & t' & Ht & ?).
    split; [lia|]. exists t'. split; [|done]. by apply lookup_app_l_Some.
Qed.

Lemma entries_ok_update next store entries r t t' :
  entries_ok next store entries -> store !! r = Some t ->
  live t' = live t -> ident t' = ident t -> entries_ok next (<[r := t']> store) entries.
Proof.
  intros Hok Ht Hl Hi id r' Hr. destruct (Hok id r' Hr) as (Hlt & u & Hu & Hlu & Hiu).
  split; [done|]. destruct (decide (r' = r)) as [->|Hne].
  - simplify_eq. exists t'. rewrite list_lookup_insert_eq by by eapply lookup_lt_Some.
    split_and!; congruence.
  - exists u. by rewrite list_lookup_insert_ne.
Qed.

Lemma entries_ok_inj next store entries id1 id2 r :
  entries_ok next store entries -> entries !! id1 = Some r -> entries !! id2 = Some r -> id1 = id2.
Proof.
  intros Hok H1 H2. destruct (Hok _ _ H1) as (_ & t1 & ? & _ & ?), (Hok _ _ H2) as (_ & t2 & ? & _ & ?).
  congruence.
Qed.

Lemma entries_ok_destroy next store entries id r f :
  entries_ok next store entries -> entries !! id = Some r ->
  entries_ok next (alter f r store) (delete id entries).
Proof.
  intros Hok Hr id' r' Hr'. rewrite lookup_delete_Some in Hr'. destruct Hr' as [Hne Hr'].
  destruct (Hok _ _ Hr') as (Hlt & t & Ht & ?). split; [done|]. exists t. split; [|done].
  rewrite list_lookup_alter_ne; [done|]. intros ->. apply Hne. by eapply entries_ok_inj.
Qed.

Lemma entries_ok_filter_live next store entries :
  entries_ok next store entries ->
  filter (fun e : N * nat =>
    match store !! snd e with Some t => live t | None => false end = true) entries = entries.
Proof.
  intros Hok. apply map_filter_id. intros id r Hr.
  destruct (Hok _ _ Hr) as (_ & t & Ht & Hl & _). cbn [snd]. by rewrite Ht.
Qed.
End Entries.

Definition sync_wf (m : SyncManager) : Prop :=
  entries_ok sem_id sem_valid (next_sem_id m) (sem_store m) (semaphores m) /\
  entries_ok lock_id lock_valid (next_mutex_id m) (mutex_store m) (mutexes m).

Lemma sem_obj_op_same o s s' r : sem_obj_op o s = (s', r) -> sem_valid s' = sem_valid s /\ sem_id s' = sem_id s.
Proof.
  destruct o; cbn [sem_obj_op]; unfold wait, try_wait, signal, reset; intros H;
    repeat case_match; simplify_eq; done.
Qed.

Lemma mutex_op_same o l l' r : mutex_op l o = (l', r) -> lock_valid l' = lock_valid l /\ lock_id l' = lock_id l.
Proof.
  destruct o; cbn [mutex_op]; unfold acquire, try_acquire, release; intros H;
    repeat case_match; simplify_eq; done.
Qed.

Lemma sync_cleanup_noop m : sync_wf m -> cleanup m = (m, (0, 0)).
Proof.
  intros [Hs Hm]. unfold cleanup, sem_entry_valid, mutex_entry_valid.
  rewrite (entries_ok_filter_live _ _ _ _ _ Hs), (entries_ok_filter_live _ _ _ _ _ Hm), !N.sub_diag.
  by destruct m.
Qed.

Lemma sync_new_wf : sync_wf SyncManager_new.
Proof.
  split.
  - apply (entries_ok_create sem_id sem_valid 0 [] ∅); [|done|done].
    intros id r Hr. by rewrite lookup_empty in Hr.
  - apply (entries_ok_create lock_id lock_valid 0 [] ∅); [|done|done].
    intros id r Hr. by rewrite lookup_empty in Hr.
Qed.

Lemma insert_semaphore_wf m s : sync_wf m -> next_sem_id m + 1 < 2 ^ 64 ->
  sem_valid s = true -> sem_id s = next_sem_id m -> sync_wf (insert_semaphore m s).
Proof.
  intros [Hs Hm] Hn Hv Hi. split; [|done].
  cbn [insert_semaphore with_sems next_sem_id sem_store semaphores].
  rewrite wadd64_small by done. by apply entries_ok_create.
Qed.

Lemma sync_apply_wf m o :
  sync_wf m -> next_sem_id m + 1 < 2 ^ 64 -> next_mutex_id m + 1 < 2 ^ 64 ->
  sync_wf (sync_apply m o) /\
  next_sem_id (sync_apply m o) <= next_sem_id m + 1 /\
  next_mutex_id (sync_apply m o) <= next_mutex_id m + 1.
Proof.
  intros Hwf Hsn Hmn. pose proof Hwf as [Hs Hm].
  destruct o as [pid i|pid i mx|id|r o|pid rec|id|r o|]; cbn [sync_apply].
  - split; [by apply insert_semaphore_wf|]. cbn. rewrite wadd64_small by done. lia.
  - split; [by apply insert_semaphore_wf|]. cbn. rewrite wadd64_small by done. lia.
  - unfold destroy_semaphore. destruct (semaphores m !! id) as [r|] eqn:Er; [|cbn [fst]; split; [done|lia]].
    split; [|cbn; lia]. split; [|done]. by apply entries_ok_destroy.
  - unfold on_semaphore. destruct (sem_store m !! r) as [s|] eqn:Es; cbn [mbind option_bind]; [|split; [done|lia]].
    destruct (sem_obj_op o s) as [s' res] eqn:Eo. apply sem_obj_op_same in Eo as [??].
    split; [|cbn; lia]. split; [|done]. by eapply entries_ok_update.
  - split; [|cbn; rewrite wadd64_small by done; lia]. split; [done|].
    cbn [create_mutex fst with_mutexes next_mutex_id mutex_store mutexes].
    rewrite wadd64_small by done. by apply entries_ok_create.
  - unfold destroy_mutex. destruct (mutexes m !! id) as [r|] eqn:Er; [|cbn [fst]; split; [done|lia]].
    split; [|cbn; lia]. split; [done|]. by apply entries_ok_destroy.
  - unfold on_mutex. destruct (mutex_store m !! r) as [l|] eqn:Es; cbn [mbind option_bind]; [|split; [done|lia]].
    destruct (mutex_op l o) as [l' res] eqn:Eo. apply mutex_op_same in Eo as [??].
    split; [|cbn; lia]. split; [done|]. by eapply entries_ok_update.
  - rewrite sync_cleanup_noop by done. cbn [fst]. split; [done|lia].
Qed.

Lemma sync_applies_wf ops m :
  sync_wf m -> next_sem_id m + len ops + 1 < 2 ^ 64 -> next_mutex_id m + len ops + 1 < 2 ^ 64 ->
  sync_wf (foldl sync_apply m ops) /\
  next_sem_id (foldl sync_apply m ops) <= next_sem_id m + len ops.
Proof.
  revert m. induction ops as [|o ops IH]; intros m Hwf Hs Hm; cbn [foldl length] in *.
  - split; [done|lia].
  - destruct (sync_apply_wf m o Hwf) as (Hwf1 & Hs1 & Hm1); [lia..|].
    destruct (IH (sync_apply m o) Hwf1) as [? ?]; [lia..|]. split; [done|lia].
Qed.

(** the manager after a history of calls *)
Definition sync_after (ops : list SyncOp) : SyncManager := foldl sync_apply SyncManager_new ops.

Lemma sync_after_wf ops : len ops < 2 ^ 64 - 2 -> sync_wf (sync_after ops).
Proof.
  intros H. apply sync_applies_wf; [apply sync_new_wf|..].
  - change (next_sem_id SyncManager_new) with 1. lia.
  - change (next_mutex_id SyncManager_new) with 1. lia.
Qed.

(** Property: After any history of manager calls and calls on the objects, a new
    semaphore gets an identifier that denotes nothing, and afterwards it denotes
    an object with the given value while every other identifier and every old
    reference is unaffected; and [cleanup] finds nothing to remove. *)
Theorem create_semaphore_fresh ops pid initial :
  len ops < 2 ^ 64 - 2 ->
  let m := sync_after ops in
  let '(m', id) := create_semaphore m pid initial in
  get_semaphore m id = None /\
  (exists r, get_semaphore m' id = Some r /\ deref_sem m r = None /\
             deref_sem m' r = Some (Semaphore_new id pid initial)) /\
  (forall id', id' <> id -> get_semaphore m' id' = get_semaphore m id') /\
  (forall r s, deref_sem m r = Some s -> deref_sem m' r = Some s) /\
  cleanup m = (m, (0, 0)).
Proof.
  intros Hlen. cbv zeta. pose proof (sync_after_wf ops Hlen) as Hwf.
  set (m := sync_after ops) in *. unfold create_semaphore, insert_semaphore, get_semaphore, deref_sem.
  cbn [with_sems semaphores sem_store].
  split_and!.
  - destruct (semaphores m !! next_sem_id m) as [r|] eqn:E; [|done].
    destruct (proj1 Hwf _ _ E) as [Hlt _]. lia.
  - exists (length (sem_store m)). rewrite lookup_insert_eq.
    split_and!; [done|by apply lookup_ge_None|by rewrite list_lookup_middle].
  - intros id' Hne. by rewrite lookup_insert_ne.
  - intros r s Hr. by apply lookup_app_l_Some.
  - by apply sync_cleanup_noop.
Qed.

Definition demo_sync_ops : list SyncOp :=
  [CreateSem 7 2; CallSem 1 ObjWait; CreateMutex 7 true; CallMutex 1 (OpTryAcquire 7); DestroySem 0; CallSem 0 ObjSignal].

Lemma create_semaphore_fresh_witness :
  let m := sync_after demo_sync_ops in
  get_semaphore m 2 = None /\ cleanup m = (m, (0, 0)).
Proof.
  pose proof (create_semaphore_fresh demo_sync_ops 9 4 eq_refl) as H.
  split; [exact (proj1 H)|]. apply H.
Defined.

(** Property: Destroying a semaphore that exists answers true, forgets its identifier
    and no other, and kills the shared object: through any reference obtained
    before, every operation answers [Invalid] and changes nothing.  Destroying
    an unknown identifier answers false and changes nothing. *)
Theorem destroy_semaphore_invalidates ops id :
  len ops < 2 ^ 64 - 2 ->
  let m := sync_after ops in
  let '(m', ok) := destroy_semaphore m id in
  match get_semaphore m id with
  | None => ok = false /\ m' = m
  | Some r =>
      ok = true /\ get_semaphore m' id = None /\
      (forall o, on_semaphore m' r (sem_obj_op o) = Some (m', SInvalid)) /\
      (forall id', id' <> id -> get_semaphore m' id' = get_semaphore m id') /\
      (forall r', r' <> r -> deref_sem m' r' = deref_sem m r')
  end.
Proof.
  intros Hlen. cbv zeta. pose proof (sync_after_wf ops Hlen) as Hwf.
  set (m := sync_after ops) in *. unfold destroy_semaphore, get_semaphore, deref_sem.
  destruct (semaphores m !! id) as [r|] eqn:Er; [|done].
  destruct (proj1 Hwf _ _ Er) as (_ & s & Hs & _ & _).
  assert (Hst : alter sem_invalidate r (sem_store m) !! r = Some (sem_invalidate s))
    by (by rewrite list_lookup_alter_eq, Hs).
  cbn [with_sems semaphores sem_store].
  split_and!; [done|..].
  - by rewrite lookup_delete_eq.
  - intros o. unfold on_semaphore. cbn [sem_store with_sems semaphores next_sem_id]. rewrite Hst.
    cbn [mbind option_bind].
    replace (sem_obj_op o (sem_invalidate s)) with (sem_invalidate s, SInvalid) by (by destruct o).
    by rewrite (list_insert_id _ _ _ Hst).
  - intros id' Hne. by rewrite lookup_delete_ne.
  - intros r' Hne. by rewrite list_lookup_alter_ne.
Qed.

Lemma destroy_semaphore_invalidates_witness :
  let m' := fst (destroy_semaphore (sync_after demo_sync_ops) 1) in
  get_semaphore (sync_after demo_sync_ops) 1 = Some 1%nat /\
  on_semaphore m' 1 wait = Some (m', SInvalid).
Proof.
  pose proof (destroy_semaphore_invalidates demo_sync_ops 1 eq_refl) as H.
  split; [vm_compute; reflexivity|]. exact (proj1 (proj2 (proj2 H)) ObjWait).
Defined.
