(* ===== verification/Disk.v ===== *)
(** * The file-backed virtual disk (src/src/hardware/disk.rs)

    [VirtualDisk] is a host file and the allocation bitmap, both behind
    mutexes; a method here is one step on the two together.  The host file is
    its list of bytes with the documented behaviour of [std::fs::File]: a read
    past the end fails, a write past the end extends the file with zeros.  Host
    I/O errors other than a short read, and poisoned mutexes, do not arise in
    the model. *)
From S2P Require Import Prelude PhysMem.

Definition SECTOR_SIZE : N := 512.

Inductive IoOperation := OpReadSectors | OpWriteSector | OpWriteBlock.

Inductive DiskError :=
  | InvalidSector (sector max_sector : N)
  | IoFailed (operation : IoOperation) (sector : N)
  | Busy
  | NotReady
  | OutOfSpace.

Record VirtualDisk := { file : list N; total_sectors : N; bitmap : list N }.

Definition with_file (d : VirtualDisk) f : VirtualDisk :=
  {| file := f; total_sectors := total_sectors d; bitmap := bitmap d |}.
Definition with_bitmap (d : VirtualDisk) b : VirtualDisk :=
  {| file := file d; total_sectors := total_sectors d; bitmap := b |}.

(** ** The host file *)

Definition file_read (img : list N) (off n : N) : option (list N) :=
  if off + n <=? len img then Some (take (N.to_nat n) (drop (N.to_nat off) img)) else None.

Definition file_write (img : list N) (off : N) (bs : list N) : list N :=
  let img' := img ++ replicate (N.to_nat off - length img) 0 in
  take (N.to_nat off) img' ++ bs ++ drop (N.to_nat off + length bs) img'.

Definition file_set_len (img : list N) (n : N) : list N :=
  take (N.to_nat n) img ++ replicate (N.to_nat n - length img) 0.

(** ** The bitmap *)

Definition mark_used (bm : list N) (sector : N) : list N :=
  let word := sector / 64 in
  let bit := sector mod 64 in
  if word <? len bm
  then <[N.to_nat word := N.lor (bm !!! N.to_nat word) (N.shiftl 1 bit)]> bm else bm.

Definition mark_free (bm : list N) (sector : N) : list N :=
  let word := sector / 64 in
  let bit := sector mod 64 in
  if word <? len bm
  then <[N.to_nat word := N.ldiff (bm !!! N.to_nat word) (N.shiftl 1 bit)]> bm else bm.

Definition is_free (bm : list N) (sector : N) : bool :=
  let word := sector / 64 in
  let bit := sector mod 64 in
  (len bm <=? word) || (N.land (bm !!! N.to_nat word) (N.shiftl 1 bit) =? 0).

(** [a..b] *)
Fixpoint count_up (a : N) (n : nat) : list N := match n with O => [] | S n => a :: count_up (a + 1) n end.
Definition range (a b : N) : list N := count_up a (N.to_nat (b - a)).

Definition mark_used_range (bm : list N) (start count : N) : list N :=
  foldl mark_used bm (range start (wadd32 start count)).

Definition bitmap_words (total : N) : N := (total + 63) / 64.

(** The bitmap read back from sector 0: word [i] from the [i]-th chunk of eight
    bytes, zero for the words the sector has no chunk for. *)
Definition load_bitmap (words : N) (img : list N) : list N :=
  (fun i => if (i <? 64)%nat then from_le_bytes (take 8 (drop (8 * i) img)) else 0)
    <$> seq 0 (N.to_nat words).

Definition new (total : N) (img : list N) : outcome VirtualDisk :=
  if total <? 8 then Panicked
  else
    let words := bitmap_words total in
    if SECTOR_SIZE <=? len img
    then Done {| file := img; total_sectors := total; bitmap := load_bitmap words (take 512 img) |}
    else Done {| file := file_set_len img (total * SECTOR_SIZE); total_sectors := total;
                 bitmap := mark_used_range (replicate (N.to_nat words) 0) 0 3 |}.

(** ** Sectors *)

Definition check_sector (d : VirtualDisk) (sector : N) : result DiskError unit :=
  if total_sectors d <=? sector
  then Err (InvalidSector sector (wsub32 (total_sectors d) 1)) else Ok tt.

Definition size_bytes (d : VirtualDisk) : N := wmul64 (total_sectors d) SECTOR_SIZE.

Definition read_sector (d : VirtualDisk) (sector : N) : result DiskError (list N) :=
  _ ← check_sector d sector;
  ok_or (IoFailed OpReadSectors sector) (file_read (file d) (sector * SECTOR_SIZE) SECTOR_SIZE).

Definition read_sectors (d : VirtualDisk) (start_sector count : N) : result DiskError (list N) :=
  if count =? 0 then Ok []
  else
    let end_sector := wsub32 (wadd32 start_sector count) 1 in
    _ ← check_sector d end_sector;
    ok_or (IoFailed OpReadSectors start_sector)
      (file_read (file d) (start_sector * SECTOR_SIZE) (count * SECTOR_SIZE)).

Definition write_sector (d : VirtualDisk) (sector : N) (buf : list N) : result DiskError VirtualDisk :=
  _ ← check_sector d sector;
  if negb (len buf =? SECTOR_SIZE) then Err (IoFailed OpWriteSector sector)
  else Ok (with_file d (file_write (file d) (sector * SECTOR_SIZE) buf)).

Definition write_sectors (d : VirtualDisk) (start_sector : N) (buf : list N)
    : result DiskError VirtualDisk :=
  let count := (len buf + SECTOR_SIZE - 1) / SECTOR_SIZE in
  if count =? 0 then Ok d
  else
    _ ← check_sector d (wsub32 (wadd32 start_sector (to_u32 count)) 1);
    Ok (with_file d (file_write (file d) (start_sector * SECTOR_SIZE) buf)).

(** Sector 0: the words that fit, eight bytes each, and zeros. *)
Definition bitmap_sector (bm : list N) : list N :=
  flat_map (to_le_bytes 8) (take 64 bm) ++ replicate (512 - 8 * length (take 64 bm)) 0.

Definition flush_bitmap (d : VirtualDisk) : result DiskError VirtualDisk :=
  write_sector d 0 (bitmap_sector (bitmap d)).

(** [self.flush_bitmap().ok()] *)
Definition flush_ok (d : VirtualDisk) : VirtualDisk :=
  match flush_bitmap d with Ok d' => d' | Err _ => d end.

(** ** Allocation *)

Definition first_free (bm : list N) (ss : list N) : option N :=
  snd <$> list_find (fun s => is_free bm s = true) ss.

Definition alloc_sector (d : VirtualDisk) : VirtualDisk * option N :=
  match first_free (bitmap d) (range 4 (total_sectors d)) with
  | Some s => (flush_ok (with_bitmap d (mark_used (bitmap d) s)), Some s)
  | None => (d, None)
  end.

Definition free_sector (d : VirtualDisk) (sector : N) : VirtualDisk * result DiskError unit :=
  if sector <? 4 then (d, Ok tt)
  else
    let d1 := with_bitmap d (mark_free (bitmap d) sector) in
    match flush_bitmap d1 with Ok d2 => (d2, Ok tt) | Err e => (d1, Err e) end.

(** The scan of [allocate_sectors]: the start of the first run of [count]. *)
Fixpoint find_run (bm : list N) (count : N) (ss : list N) (run_start run_len : N) : option N :=
  match ss with
  | [] => None
  | s :: ss =>
      if is_free bm s then
        let run_start := if run_len =? 0 then s else run_start in
        let run_len := wadd32 run_len 1 in
        if count <=? run_len then Some run_start else find_run bm count ss run_start run_len
      else find_run bm count ss run_start 0
  end.

Definition allocate_sectors (d : VirtualDisk) (count : N) : VirtualDisk * result DiskError N :=
  match find_run (bitmap d) count (range 4 (total_sectors d)) 4 0 with
  | Some start => (flush_ok (with_bitmap d (mark_used_range (bitmap d) start count)), Ok start)
  | None => (d, Err OutOfSpace)
  end.

Definition free_sectors (d : VirtualDisk) (start count : N) : VirtualDisk * result DiskError unit :=
  let bm := foldl (fun bm s => if 4 <=? s then mark_free bm s else bm) (bitmap d)
              (range start (wadd32 start count)) in
  let d1 := with_bitmap d bm in
  match flush_bitmap d1 with Ok d2 => (d2, Ok tt) | Err e => (d1, Err e) end.

Definition count_ones (w : N) : N := len (filter (fun b => N.testbit w b = true) (range 0 64)).
Definition used_sectors_count (d : VirtualDisk) : N :=
  foldr N.add 0 (count_ones <$> bitmap d).

(** ** Invariant *)

Definition disk_wf (d : VirtualDisk) : Prop :=
  8 <= total_sectors d /\ total_sectors d < 2 ^ 32 /\
  len (bitmap d) = bitmap_words (total_sectors d) /\
  Forall (fun w => w < 2 ^ 64) (bitmap d) /\ SECTOR_SIZE <= len (file d).

(** ** Lemmas: ranges and bits *)

Lemma range_map a b : range a b = (fun i => a + N.of_nat i) <$> seq 0 (N.to_nat (b - a)).
Proof.
  unfold range. generalize (N.to_nat (b - a)) as n. intros n. revert a. induction n as [|n IH]; intros a; [done|].
  cbn [count_up seq fmap list_fmap]. f_equal; [lia|]. rewrite IH, <- fmap_S_seq, <- list_fmap_compose.
  apply list_fmap_ext. intros j k _. cbn. lia.
Qed.

Lemma elem_of_range a b x : x ∈ range a b <-> a <= x < b.
Proof.
  rewrite range_map, list_elem_of_fmap. split.
  - intros (i & -> & Hi). apply elem_of_seq in Hi. lia.
  - intros [Ha Hb]. exists (N.to_nat (x - a)). split; [lia|]. apply elem_of_seq. lia.
Qed.

Lemma range_cons a b : a < b -> range a b = a :: range (a + 1) b.
Proof.
  intros H. rewrite !range_map. replace (N.to_nat (b - a)) with (S (N.to_nat (b - (a + 1)))) by lia.
  cbn [seq fmap list_fmap]. rewrite N.add_0_r. f_equal. rewrite <- fmap_S_seq, <- list_fmap_compose.
  apply list_fmap_ext. intros i x _. unfold compose. lia.
Qed.

Lemma range_nil a b : b <= a -> range a b = [].
Proof. intros H. rewrite range_map. by replace (N.to_nat (b - a)) with 0%nat by lia. Qed.

Definition bit_set (bm : list N) (s : N) : bool := N.testbit (bm !!! N.to_nat (s / 64)) (s mod 64).

Lemma land_bit w b : (N.land w (N.shiftl 1 b) =? 0) = negb (N.testbit w b).
Proof.
  rewrite N.shiftl_1_l. destruct (N.testbit w b) eqn:E; cbn [negb].
  - apply N.eqb_neq. intros H. assert (Hb : N.testbit (N.land w (2 ^ b)) b = false) by (by rewrite H).
    rewrite N.land_spec, E, N.pow2_bits_true in Hb. done.
  - apply N.eqb_eq, N.bits_inj. intros i. rewrite N.land_spec, N.bits_0.
    destruct (decide (i = b)) as [->|Hne]; [by rewrite E|].
    rewrite N.pow2_bits_false by done. apply andb_false_r.
Qed.

Lemma is_free_bit bm s : s / 64 < len bm -> is_free bm s = negb (bit_set bm s).
Proof.
  intros H. unfold is_free, bit_set. rewrite land_bit.
  destruct (N.leb_spec (len bm) (s / 64)); [lia|done].
Qed.

Lemma is_free_out bm s : len bm <= s / 64 -> is_free bm s = true.
Proof. intros H. unfold is_free. by destruct (N.leb_spec (len bm) (s / 64)); [|lia]. Qed.

Lemma sector_split s t : s / 64 = t / 64 -> s mod 64 = t mod 64 -> s = t.
Proof. intros H1 H2. rewrite (N.div_mod' s 64), (N.div_mod' t 64). congruence. Qed.

Lemma testbit_one b i : N.testbit (N.shiftl 1 b) i = (i =? b).
Proof. rewrite N.shiftl_1_l. destruct (N.eqb_spec i b) as [->|Hne]; [by rewrite N.pow2_bits_true|].
  apply N.pow2_bits_false; congruence. Qed.

(** A sector's bit after the word of another was updated by [f], which acts on
    one bit. *)
Lemma word_update bm s t (f : N -> N) (g : bool -> bool) :
  s / 64 < len bm ->
  (forall w i, N.testbit (f w) i = if i =? s mod 64 then g (N.testbit w i) else N.testbit w i) ->
  bit_set (<[N.to_nat (s / 64) := f (bm !!! N.to_nat (s / 64))]> bm) t =
  if t =? s then g (bit_set bm t) else bit_set bm t.
Proof.
  intros Hs Hf. unfold bit_set. destruct (decide (t / 64 = s / 64)) as [Hw|Hw].
  - rewrite Hw, list_lookup_total_insert_eq by lia. rewrite Hf.
    destruct (N.eqb_spec t s) as [->|Hne]; [by rewrite N.eqb_refl|].
    destruct (N.eqb_spec (t mod 64) (s mod 64)); [|done]. by destruct Hne; apply sector_split.
  - rewrite list_lookup_total_insert_ne by lia.
    destruct (N.eqb_spec t s) as [->|]; [done|done].
Qed.

Lemma length_mark_used bm s : length (mark_used bm s) = length bm.
Proof. unfold mark_used. destruct (_ <? _); [apply length_insert|done]. Qed.
Lemma length_mark_free bm s : length (mark_free bm s) = length bm.
Proof. unfold mark_free. destruct (_ <? _); [apply length_insert|done]. Qed.

Lemma is_free_mark_used bm s t : s / 64 < len bm ->
  is_free (mark_used bm s) t = is_free bm t && negb (t =? s).
Proof.
  intros Hs. destruct (N.lt_ge_cases (t / 64) (len bm)) as [Ht|Ht].
  - rewrite !is_free_bit by (rewrite ?length_mark_used; done).
    unfold mark_used. destruct (N.ltb_spec (s / 64) (len bm)) as [_|]; [|lia].
    rewrite (word_update bm s t (fun w => N.lor w (N.shiftl 1 (s mod 64))) (fun _ => true)); [|done|].
    + destruct (t =? s), (bit_set bm t); done.
    + intros w i. rewrite N.lor_spec, testbit_one. by destruct (i =? _), (N.testbit w i).
  - rewrite !is_free_out by (rewrite ?length_mark_used; done).
    destruct (N.eqb_spec t s) as [->|]; [lia|done].
Qed.

Lemma is_free_mark_free bm s t : s / 64 < len bm ->
  is_free (mark_free bm s) t = is_free bm t || (t =? s).
Proof.
  intros Hs. destruct (N.lt_ge_cases (t / 64) (len bm)) as [Ht|Ht].
  - rewrite !is_free_bit by (rewrite ?length_mark_free; done).
    unfold mark_free. destruct (N.ltb_spec (s / 64) (len bm)) as [_|]; [|lia].
    rewrite (word_update bm s t (fun w => N.ldiff w (N.shiftl 1 (s mod 64))) (fun _ => false)); [|done|].
    + destruct (t =? s), (bit_set bm t); done.
    + intros w i. rewrite N.ldiff_spec, testbit_one. by destruct (i =? _), (N.testbit w i).
  - by rewrite !is_free_out by (rewrite ?length_mark_free; done).
Qed.

Lemma is_free_mark_range ss bm t : Forall (fun s => s / 64 < len bm) ss ->
  is_free (foldl mark_used bm ss) t = is_free bm t && negb (bool_decide (t ∈ ss)).
Proof.
  revert bm. induction ss as [|s ss IH]; intros bm Hall; cbn [foldl].
  - rewrite bool_decide_false by (by intros ?%not_elem_of_nil). by rewrite andb_true_r.
  - apply Forall_cons_1 in Hall as [Hs Hall]. rewrite IH by (by rewrite length_mark_used).
    rewrite is_free_mark_used by done. rewrite <- andb_assoc. f_equal.
    rewrite <- negb_orb. f_equal. destruct (N.eqb_spec t s) as [->|Hne].
    + symmetry. apply bool_decide_eq_true. by left.
    + apply bool_decide_ext. rewrite elem_of_cons. naive_solver.
Qed.

Lemma bits_bound w k : (forall i, k <= i -> N.testbit w i = false) <-> w < 2 ^ k.
Proof.
  split.
  - intros H. replace w with (w mod 2 ^ k); [by apply N.mod_lt, N.pow_nonzero|].
    apply N.bits_inj. intros i. destruct (N.lt_ge_cases i k) as [Hi|Hi].
    + by apply N.mod_pow2_bits_low.
    + rewrite N.mod_pow2_bits_high by done. symmetry. by apply H.
  - intros H i Hi. destruct (N.eq_dec w 0) as [->|]; [apply N.bits_0|].
    apply N.bits_above_log2. apply N.log2_lt_pow2 in H; lia.
Qed.

Lemma lor_bound w b : w < 2 ^ 64 -> b < 64 -> N.lor w (N.shiftl 1 b) < 2 ^ 64.
Proof.
  rewrite <- !bits_bound. intros Hw Hb i Hi. rewrite N.lor_spec, Hw, testbit_one by done.
  destruct (N.eqb_spec i b); [lia|done].
Qed.

Lemma ldiff_bound w m : w < 2 ^ 64 -> N.ldiff w m < 2 ^ 64.
Proof. rewrite <- !bits_bound. intros Hw i Hi. by rewrite N.ldiff_spec, Hw. Qed.

Lemma word_bound bm i : Forall (fun w => w < 2 ^ 64) bm -> (i < length bm)%nat -> bm !!! i < 2 ^ 64.
Proof.
  intros H Hi. apply (Forall_lookup_1 (fun w => w < 2 ^ 64) bm i (bm !!! i) H).
  by apply list_lookup_lookup_total_lt.
Qed.

Lemma mark_used_words bm s :
  Forall (fun w => w < 2 ^ 64) bm -> Forall (fun w => w < 2 ^ 64) (mark_used bm s).
Proof.
  intros H. unfold mark_used. destruct (N.ltb_spec (s / 64) (len bm)); [|done].
  apply Forall_insert; [done|]. apply lor_bound; [|by apply N.mod_lt].
  apply word_bound; [done|lia].
Qed.

Lemma mark_free_words bm s :
  Forall (fun w => w < 2 ^ 64) bm -> Forall (fun w => w < 2 ^ 64) (mark_free bm s).
Proof.
  intros H. unfold mark_free. destruct (N.ltb_spec (s / 64) (len bm)); [|done].
  apply Forall_insert; [done|]. apply ldiff_bound.
  apply word_bound; [done|lia].
Qed.

(** ** Lemmas: the host file *)

Lemma file_write_length img off bs :
  length (file_write img off bs) = Nat.max (length img) (N.to_nat off + length bs).
Proof.
  unfold file_write. rewrite !length_app, length_take, length_drop, length_app, length_replicate. lia.
Qed.

Lemma file_read_written img off bs : file_read (file_write img off bs) off (len bs) = Some bs.
Proof.
  unfold file_read. rewrite file_write_length.
  destruct (N.leb_spec (off + len bs) (N.of_nat (Nat.max (length img) (N.to_nat off + length bs)))); [|lia].
  f_equal. unfold file_write. rewrite drop_app_length'.
  - rewrite Nat2N.id. by rewrite take_app_length.
  - rewrite length_take, length_app, length_replicate. lia.
Qed.

Lemma file_write_lookup img off bs j : (j < length img)%nat ->
  (j < N.to_nat off \/ N.to_nat off + length bs <= j)%nat ->
  file_write img off bs !! j = img !! j.
Proof.
  intros Hj Hd. unfold file_write. set (img' := img ++ _).
  assert (Hi : img' !! j = img !! j) by (by apply lookup_app_l).
  assert (Hl : (N.to_nat off <= length img')%nat) by (unfold img'; rewrite length_app, length_replicate; lia).
  destruct Hd as [Hd|Hd].
  - rewrite lookup_app_l by (rewrite length_take; lia). by rewrite lookup_take_lt.
  - rewrite lookup_app_r by (rewrite length_take; lia). rewrite length_take, Nat.min_l by done.
    rewrite lookup_app_r by lia. rewrite lookup_drop, <- Hi. f_equal. lia.
Qed.

Lemma file_read_other img off bs off2 n x :
  off2 + n <= off \/ off + len bs <= off2 ->
  file_read img off2 n = Some x -> file_read (file_write img off bs) off2 n = Some x.
Proof.
  unfold file_read. intros Hd. destruct (N.leb_spec (off2 + n) (len img)) as [Hle|]; [|done].
  intros [= <-]. rewrite file_write_length.
  destruct (N.leb_spec (off2 + n) (N.of_nat (Nat.max (length img) (N.to_nat off + length bs)))); [|lia].
  f_equal. apply list_eq. intros i. destruct (decide (i < N.to_nat n)%nat) as [Hi|Hi].
  - rewrite !lookup_take_lt, !lookup_drop by done. apply file_write_lookup; lia.
  - by rewrite !lookup_take_ge by lia.
Qed.

Lemma write_sector_ok d s buf d' :
  write_sector d s buf = Ok d' <->
  s < total_sectors d /\ len buf = SECTOR_SIZE /\
  d' = with_file d (file_write (file d) (s * SECTOR_SIZE) buf).
Proof.
  unfold write_sector, check_sector. destruct (N.leb_spec (total_sectors d) s); rstep.
  - split; [done|lia].
  - destruct (N.eqb_spec (len buf) SECTOR_SIZE); cbn [negb]; split; intros; simplify_eq; intuition congruence.
Qed.

Lemma read_sector_ok d s x :
  read_sector d s = Ok x <->
  s < total_sectors d /\ file_read (file d) (s * SECTOR_SIZE) SECTOR_SIZE = Some x.
Proof.
  unfold read_sector, check_sector. destruct (N.leb_spec (total_sectors d) s); rstep.
  - split; [done|lia].
  - rewrite ok_or_ok. intuition.
Qed.

Lemma write_sector_read d s buf d' :
  write_sector d s buf = Ok d' ->
  read_sector d' s = Ok buf /\
  (forall t x, t <> s -> read_sector d t = Ok x -> read_sector d' t = Ok x) /\
  bitmap d' = bitmap d /\ total_sectors d' = total_sectors d.
Proof.
  intros (Hs & Hb & ->)%write_sector_ok. split_and!; [| |done|done].
  - apply read_sector_ok. split; [done|]. cbn [file with_file].
    pose proof (file_read_written (file d) (s * SECTOR_SIZE) buf) as H. by rewrite Hb in H.
  - intros t x Ht (Hlt & Hr)%read_sector_ok. apply read_sector_ok. split; [done|].
    apply file_read_other; [|done]. rewrite Hb. unfold SECTOR_SIZE. lia.
Qed.

(** Property: A sector write of 512 bytes inside the disk is read back, and every
    other sector that could be read still reads the same. *)
Theorem write_sector_read_sector d s buf :
  s < total_sectors d -> len buf = SECTOR_SIZE ->
  exists d', write_sector d s buf = Ok d' /\ read_sector d' s = Ok buf /\
    forall t x, t <> s -> read_sector d t = Ok x -> read_sector d' t = Ok x.
Proof.
  intros Hs Hb. eexists. assert (Hw := proj2 (write_sector_ok d s buf _) (conj Hs (conj Hb eq_refl))).
  split; [exact Hw|]. destruct (write_sector_read _ _ _ _ Hw) as (? & ? & _). done.
Qed.

Definition demo_disk : outcome VirtualDisk := new 12 [].

Lemma write_sector_read_sector_witness :
  exists d d', demo_disk = Done d /\ write_sector d 5 (replicate 512 7) = Ok d' /\
    read_sector d' 5 = Ok (replicate 512 7) /\ read_sector d' 6 = Ok (replicate 512 0).
Proof.
  eexists. 
  destruct (write_sector_read_sector 
    {| file := file_set_len [] (12 * SECTOR_SIZE); total_sectors := 12;
       bitmap := mark_used_range (replicate 1 0) 0 3 |}
              5 (replicate 512 7)) as (d' & Hw & Hr & Ho); [reflexivity|reflexivity|].
  exists d'. split; [reflexivity|]. split; [exact Hw|]. split; [exact Hr|].
  apply Ho; [discriminate|vm_compute; reflexivity].
Defined.

Lemma bitmap_sector_length bm : len (bitmap_sector bm) = SECTOR_SIZE.
Proof.
  unfold bitmap_sector. rewrite length_app, length_replicate.
  assert (H : length (flat_map (to_le_bytes 8) (take 64 bm)) = (8 * length (take 64 bm))%nat).
  { induction (take 64 bm) as [|w l IH]; [done|].
    cbn [flat_map]. rewrite length_app, IH, to_le_bytes_length. cbn [length]. lia. }
  rewrite H, length_take. unfold SECTOR_SIZE. lia.
Qed.

Lemma flush_bitmap_ok d : 0 < total_sectors d ->
  flush_bitmap d = Ok (with_file d (file_write (file d) (0 * SECTOR_SIZE) (bitmap_sector (bitmap d)))).
Proof. intros H. apply write_sector_ok. split; [done|]. split; [apply bitmap_sector_length|done]. Qed.

Lemma flush_bitmap_spec d : disk_wf d ->
  exists d', flush_bitmap d = Ok d' /\ flush_ok d = d' /\ disk_wf d' /\ bitmap d' = bitmap d /\
    total_sectors d' = total_sectors d /\
    forall t x, t <> 0 -> read_sector d t = Ok x -> read_sector d' t = Ok x.
Proof.
  intros Hw. pose proof Hw as (H8 & H32 & Hl & Hws & Hf). eexists.
  assert (E := flush_bitmap_ok d ltac:(lia)). split; [exact E|].
  split; [unfold flush_ok; by rewrite E|].
  destruct (write_sector_read _ _ _ _ E) as (_ & Ho & Hb & Ht).
  split; [|by rewrite ?Hb, ?Ht].
  split_and!; try done. cbn [file with_file]. rewrite file_write_length. lia.
Qed.

(** ** Allocation *)

Lemma word_in total s : s < total -> s / 64 < bitmap_words total.
Proof.
  intros H. unfold bitmap_words. apply N.Div0.div_lt_upper_bound.
  pose proof (N.div_mod' (total + 63) 64). pose proof (N.mod_lt (total + 63) 64 ltac:(done)). lia.
Qed.

Lemma with_bitmap_wf d b : disk_wf d -> length b = length (bitmap d) ->
  Forall (fun w => w < 2 ^ 64) b -> disk_wf (with_bitmap d b).
Proof. intros (?&?&?&?&?) Hl Hw. unfold disk_wf; cbn [with_bitmap total_sectors bitmap file]. rewrite Hl. done. Qed.

Lemma range_lookup a b i x : range a b !! i = Some x -> x = a + N.of_nat i /\ x < b.
Proof.
  intros H. split; [|by apply list_elem_of_lookup_2, elem_of_range in H; lia].
  rewrite range_map in H. rewrite list_lookup_fmap in H.
  destruct (seq _ _ !! i) as [j|] eqn:E; [|done]. apply lookup_seq in E as [-> _].
  cbn in H. injection H as <-. lia.
Qed.

Lemma first_free_spec bm a b :
  match first_free bm (range a b) with
  | Some s => a <= s < b /\ is_free bm s = true /\ forall t, a <= t < s -> is_free bm t = false
  | None => forall t, a <= t < b -> is_free bm t = false
  end.
Proof.
  unfold first_free. destruct (list_find _ _) as [[i s]|] eqn:E; cbn [fmap option_fmap option_map snd].
  - apply list_find_Some in E as (Hi & Hf & Hmin). pose proof (range_lookup _ _ _ _ Hi) as [Hs Hb].
    split_and!; [lia|done|done|]. intros t Ht. 
    assert (Hin : t ∈ range a b) by (apply elem_of_range; lia).
    apply list_elem_of_lookup in Hin as [j Hj]. pose proof (range_lookup _ _ _ _ Hj) as [Htj _].
    apply not_true_is_false. apply (Hmin j t Hj). lia.
  - intros t Ht. apply list_find_None in E.
    apply not_true_is_false. apply (proj1 (list.Forall_forall _ _) E), elem_of_range, Ht.
Qed.

(** Property: [alloc_sector] hands out the lowest free sector from 4 on: a sector of
    the disk that was free and is used afterwards, while the state of every
    other sector and the contents of every sector but the bitmap's stay the
    same; it answers [None], without any change, only when all are used. *)
Theorem alloc_sector_exclusive d :
  disk_wf d ->
  match alloc_sector d with
  | (d', Some s) =>
      4 <= s < total_sectors d /\ is_free (bitmap d) s = true /\
      (forall t, 4 <= t < s -> is_free (bitmap d) t = false) /\
      (forall t, is_free (bitmap d') t = is_free (bitmap d) t && negb (t =? s)) /\
      (forall t x, t <> 0 -> read_sector d t = Ok x -> read_sector d' t = Ok x) /\
      disk_wf d'
  | (d', None) => d' = d /\ forall t, 4 <= t < total_sectors d -> is_free (bitmap d) t = false
  end.
Proof.
  intros Hw. pose proof Hw as (H8 & H32 & Hl & Hws & Hf). unfold alloc_sector.
  pose proof (first_free_spec (bitmap d) 4 (total_sectors d)) as Hs.
  destruct (first_free _ _) as [s|]; [|done]. destruct Hs as (Hs & Hfree & Hmin).
  set (d1 := with_bitmap d (mark_used (bitmap d) s)).
  assert (Hw1 : disk_wf d1) by (apply with_bitmap_wf; [done|apply length_mark_used|by apply mark_used_words]).
  destruct (flush_bitmap_spec d1 Hw1) as (d' & _ & -> & Hw' & Hb & Ht & Hr).
  split_and!; try done; try lia.
  intros t. rewrite Hb. apply is_free_mark_used. rewrite Hl. apply word_in. lia.
Qed.

(** a disk of 12 sectors on which sector 4 is taken *)
Definition demo_disk2 : VirtualDisk :=
  match demo_disk with Done d => fst (alloc_sector d) | _ => {| file := []; total_sectors := 0; bitmap := [] |} end.

Lemma demo_disk2_wf : disk_wf demo_disk2.
Proof.
  split; [by vm_compute|]. split; [by vm_compute|]. split; [by vm_compute|]. split.
  - apply Forall_lookup. intros i w. assert (Hb : bitmap demo_disk2 = [23]) by (by vm_compute).
    rewrite Hb. by destruct i as [|[]]; intros [= <-].
  - by vm_compute.
Qed.

Lemma alloc_sector_exclusive_witness :
  exists d', alloc_sector demo_disk2 = (d', Some 5) /\ is_free (bitmap d') 5 = false /\ is_free (bitmap d') 6 = true.
Proof.
  pose proof (alloc_sector_exclusive demo_disk2 demo_disk2_wf) as H.
  destruct (alloc_sector demo_disk2) as [d' o] eqn:E.
  assert (Ho : o = Some 5) by (change o with (snd (d', o)); rewrite <- E; vm_compute; reflexivity).
  subst o. destruct H as (_ & _ & _ & H & _). exists d'. split; [done|].
  rewrite !H. split; vm_compute; reflexivity.
Defined.

(** [count] free sectors from [st] on *)
Definition free_run (bm : list N) (st count : N) : Prop :=
  forall t, st <= t < st + count -> is_free bm t = true.

Lemma find_run_spec bm count total n : forall s0 run_start run_len,
  N.to_nat (total - s0) = n -> s0 <= total -> total < 2 ^ 32 -> run_len < count ->
  4 + run_len <= s0 -> (run_len <> 0 -> run_start = s0 - run_len) ->
  free_run bm (s0 - run_len) run_len ->
  (forall st, 4 <= st -> free_run bm st count -> s0 - run_len <= st) ->
  match find_run bm count (range s0 total) run_start run_len with
  | Some st => 4 <= st /\ st + count <= total /\ free_run bm st count /\
      forall st', 4 <= st' -> free_run bm st' count -> st <= st'
  | None => forall st, 4 <= st -> st + count <= total -> ~ free_run bm st count
  end.
Proof.
  induction n as [|n IH]; intros s0 rs rl Hn Hle Htot Hlt H4 Hrs Hfree Hlow.
  - rewrite range_nil by lia. intros st Hst Hb Hr. specialize (Hlow st Hst Hr). lia.
  - rewrite range_cons by lia. cbn [find_run]. destruct (is_free bm s0) eqn:Hs.
    + rewrite wadd32_small by lia.
      assert (Hcur : (if rl =? 0 then s0 else rs) = s0 - rl).
      { destruct (N.eqb_spec rl 0); [lia|by apply Hrs]. }
      rewrite Hcur.
      assert (Hfree' : free_run bm (s0 - rl) (rl + 1)).
      { intros t Ht. destruct (N.eq_dec t s0) as [->|]; [done|]. apply Hfree. lia. }
      destruct (N.leb_spec count (rl + 1)).
      * replace count with (rl + 1) in * by lia. split_and!; [lia|lia|done|done].
      * apply IH; try lia; replace (s0 + 1 - (rl + 1)) with (s0 - rl) by lia; done.
    + apply IH; try lia; rewrite N.sub_0_r.
      * intros t Ht. lia.
      * intros st Hst Hr. specialize (Hlow st Hst Hr).
        destruct (N.le_gt_cases (s0 + 1) st); [done|].
        assert (Hf : is_free bm s0 = true) by (apply Hr; lia). congruence.
Qed.

Lemma allocate_sectors_spec d count :
  disk_wf d -> 0 < count ->
  match allocate_sectors d count with
  | (d', Ok st) =>
      4 <= st /\ st + count <= total_sectors d /\ free_run (bitmap d) st count /\
      (forall st', 4 <= st' -> free_run (bitmap d) st' count -> st <= st') /\
      (forall t, is_free (bitmap d') t = is_free (bitmap d) t && negb ((st <=? t) && (t <? st + count))) /\
      (forall t x, t <> 0 -> read_sector d t = Ok x -> read_sector d' t = Ok x) /\
      disk_wf d' /\ total_sectors d' = total_sectors d
  | (d', Err e) =>
      d' = d /\ e = OutOfSpace /\
      forall st, 4 <= st -> st + count <= total_sectors d -> ~ free_run (bitmap d) st count
  end.
Proof.
  intros Hw Hc. pose proof Hw as (H8 & H32 & Hl & Hws & Hf). unfold allocate_sectors.
  pose proof (find_run_spec (bitmap d) count (total_sectors d) _ 4 4 0 eq_refl) as Hr.
  rewrite N.sub_0_r in Hr.
  specialize (Hr ltac:(lia) H32 Hc ltac:(lia) ltac:(done) ltac:(intros t Ht; lia) ltac:(done)).
  destruct (find_run _ _ _ _ _) as [st|]; [|done]. destruct Hr as (H4 & Hin & Hrun & Hmin).
  unfold mark_used_range. rewrite wadd32_small by lia.
  set (d1 := with_bitmap d _).
  assert (Hall : Forall (fun s => s / 64 < len (bitmap d)) (range st (st + count))).
  { apply list.Forall_forall. intros s Hs. apply elem_of_range in Hs. rewrite Hl. apply word_in. lia. }
  assert (Hw1 : disk_wf d1).
  { assert (G : forall ss bm, length (foldl mark_used bm ss) = length bm /\
      (Forall (fun w => w < 2 ^ 64) bm -> Forall (fun w => w < 2 ^ 64) (foldl mark_used bm ss))).
    { induction ss as [|s ss IH]; intros bm; [done|]. cbn [foldl].
      destruct (IH (mark_used bm s)) as [G1 G2]. rewrite G1, length_mark_used. split; [done|].
      intros Hb. by apply G2, mark_used_words. }
    apply with_bitmap_wf; [done|apply G|by apply G]. }
  destruct (flush_bitmap_spec d1 Hw1) as (d' & _ & -> & Hw' & Hb & Ht & Hrd).
  split_and!; try done. intros t. rewrite Hb. cbn [d1 with_bitmap bitmap].
  rewrite is_free_mark_range by done. do 2 f_equal.
  apply eq_bool_prop_intro. rewrite bool_decide_spec, elem_of_range.
  destruct (N.leb_spec st t), (N.ltb_spec t (st + count)); cbn; intuition lia.
Qed.

(** Property: [allocate_sectors count] finds the lowest run of [count] consecutive free
    sectors inside the disk and marks exactly that run used, touching the
    contents of no sector but the bitmap's; it answers [OutOfSpace], without any
    change, only when the disk has no such run. *)
Theorem allocate_sectors_first_fit d count :
  disk_wf d -> 0 < count ->
  match allocate_sectors d count with
  | (d', Ok st) =>
      4 <= st /\ st + count <= total_sectors d /\ free_run (bitmap d) st count /\
      (forall st', 4 <= st' -> free_run (bitmap d) st' count -> st <= st') /\
      (forall t, is_free (bitmap d') t = is_free (bitmap d) t && negb ((st <=? t) && (t <? st + count))) /\
      (forall t x, t <> 0 -> read_sector d t = Ok x -> read_sector d' t = Ok x) /\
      disk_wf d'
  | (d', Err e) =>
      d' = d /\ e = OutOfSpace /\
      forall st, 4 <= st -> st + count <= total_sectors d -> ~ free_run (bitmap d) st count
  end.
Proof.
  intros Hw Hc. pose proof (allocate_sectors_spec d count Hw Hc) as H.
  destruct (allocate_sectors d count) as [d' [st|e]]; [|done]. naive_solver.
Qed.

(** [free_sectors] frees the sectors of the range from 4 on, and nothing else. *)
Lemma free_sectors_spec d st count :
  disk_wf d -> st + count < 2 ^ 32 ->
  exists d', free_sectors d st count = (d', Ok tt) /\ disk_wf d' /\ total_sectors d' = total_sectors d /\
    (forall t, is_free (bitmap d') t =
       is_free (bitmap d) t || ((4 <=? t) && (st <=? t) && (t <? st + count))) /\
    (forall t x, t <> 0 -> read_sector d t = Ok x -> read_sector d' t = Ok x).
Proof.
  intros Hw Hb. unfold free_sectors. rewrite wadd32_small by done.
  set (f := fun bm s => if 4 <=? s then mark_free bm s else bm).
  assert (G : forall ss bm, length (foldl f bm ss) = length bm /\
    (Forall (fun w => w < 2 ^ 64) bm -> Forall (fun w => w < 2 ^ 64) (foldl f bm ss)) /\
    forall t, is_free (foldl f bm ss) t = is_free bm t || bool_decide (4 <= t /\ t ∈ ss)).
  { induction ss as [|s ss IH]; intros bm; cbn [foldl].
    - split_and!; try done. intros t. rewrite bool_decide_false by (by intros [_ ?%not_elem_of_nil]). by rewrite orb_false_r.
    - destruct (IH (f bm s)) as (G1 & G2 & G3). split; [|split].
      + rewrite G1. unfold f. destruct (4 <=? s); [apply length_mark_free|done].
      + intros Hbm. apply G2. unfold f. destruct (4 <=? s); [by apply mark_free_words|done].
      + intros t. rewrite G3. unfold f. destruct (N.leb_spec 4 s).
        * destruct (N.lt_ge_cases (s / 64) (len bm)) as [Hin|Hout].
          { rewrite is_free_mark_free by done. apply eq_bool_prop_intro.
            rewrite !orb_True, !bool_decide_spec, elem_of_cons. destruct (N.eqb_spec t s); cbn; intuition congruence. }
          { unfold mark_free. rewrite (proj2 (N.ltb_ge _ _)) by lia. apply eq_bool_prop_intro.
            rewrite !orb_True, !bool_decide_spec, elem_of_cons. split; [intuition|].
            intros [?|[? [->|?]]]; [by left| |by right]. left. by rewrite is_free_out. }
        * apply eq_bool_prop_intro. rewrite !orb_True, !bool_decide_spec, elem_of_cons. intuition; subst; lia. }
  destruct (G (range st (st + count)) (bitmap d)) as (G1 & G2 & G3). set (d1 := with_bitmap d _).
  assert (Hw1 : disk_wf d1) by (apply with_bitmap_wf; [done|apply G1|apply G2; apply Hw]).
  destruct (flush_bitmap_spec d1 Hw1) as (d' & -> & _ & Hw' & Hbm & Ht & Hrd). exists d'. split; [done|].
  split_and!; try done. intros t. rewrite Hbm. cbn [d1 with_bitmap bitmap]. rewrite G3. f_equal.
  apply eq_bool_prop_intro. rewrite bool_decide_spec, elem_of_range.
  destruct (N.leb_spec 4 t), (N.leb_spec st t), (N.ltb_spec t (st + count)); cbn; intuition lia.
Qed.

Lemma allocate_sectors_first_fit_witness :
  snd (allocate_sectors demo_disk2 3) = Ok 5 /\ ~ free_run (bitmap demo_disk2) 4 3.
Proof.
  pose proof (allocate_sectors_first_fit demo_disk2 3 demo_disk2_wf ltac:(done)) as H.
  destruct (allocate_sectors demo_disk2 3) as [d' o] eqn:E.
  assert (Ho : o = Ok 5) by (change o with (snd (d', o)); rewrite <- E; vm_compute; reflexivity).
  subst o. split; [done|]. destruct H as (_ & _ & _ & H & _). intros Hr. specialize (H 4 ltac:(done) Hr). lia.
Defined.

(** ** Persistence *)

Lemma chunk_of_bytes l rest i : (i < length l)%nat ->
  take 8 (drop (8 * i) (flat_map (to_le_bytes 8) l ++ rest)) = to_le_bytes 8 (l !!! i).
Proof.
  revert i. induction l as [|w l IH]; intros i Hi; [cbn in Hi; lia|].
  cbn [flat_map]. rewrite <- app_assoc. destruct i as [|i].
  - change (8 * 0)%nat with 0%nat. rewrite drop_0.
    by rewrite take_app_length' by (by rewrite to_le_bytes_length).
  - replace (8 * S i)%nat with (8 + 8 * i)%nat by lia. rewrite <- drop_drop.
    rewrite drop_app_length' by (by rewrite to_le_bytes_length). apply IH. cbn in Hi. lia.
Qed.

(** The bitmap is read back from the sector it was flushed to, as long as the
    sector has room for it: 64 words, 4096 sectors. *)
Lemma load_bitmap_sector bm :
  (length bm <= 64)%nat -> Forall (fun w => w < 2 ^ 64) bm ->
  load_bitmap (len bm) (bitmap_sector bm) = bm.
Proof.
  intros Hl Hw. unfold load_bitmap, bitmap_sector. rewrite Nat2N.id, take_ge by done.
  apply list_eq. intros i. rewrite list_lookup_fmap.
  destruct (decide (i < length bm)%nat) as [Hi|Hi].
  - rewrite lookup_seq_lt by done. cbn [fmap option_fmap option_map Nat.add].
    destruct (Nat.ltb_spec i 64); [|lia]. rewrite chunk_of_bytes by done.
    rewrite (list_lookup_lookup_total_lt bm i Hi). f_equal.
    apply from_to_le_bytes. by apply word_bound.
  - rewrite lookup_seq_ge by lia. by rewrite lookup_ge_None_2 by lia.
Qed.

Lemma new_existing total img : 8 <= total -> SECTOR_SIZE <= len img ->
  new total img = Done {| file := img; total_sectors := total;
                          bitmap := load_bitmap (bitmap_words total) (take 512 img) |}.
Proof.
  intros H8 Hl. unfold new. destruct (N.ltb_spec total 8); [lia|].
  destruct (N.leb_spec SECTOR_SIZE (len img)); [done|lia].
Qed.

Lemma disk_new_done total img : 8 <= total -> exists d, new total img = Done d.
Proof. intros H. unfold new. rewrite (proj2 (N.ltb_ge _ _)) by done. cbv zeta. destruct (_ <=? _); by eexists. Qed.

Lemma flushed_length img bm : SECTOR_SIZE <= len img ->
  SECTOR_SIZE <= len (file_write img (0 * SECTOR_SIZE) (bitmap_sector bm)).
Proof. intros H. rewrite file_write_length. lia. Qed.

(** Property: Opening the image that a flush left behind gives back the disk with its
    bitmap, for a disk of at most 4096 sectors. *)
Theorem reopen_after_flush d d' :
  disk_wf d -> total_sectors d <= 4096 -> flush_bitmap d = Ok d' ->
  new (total_sectors d) (file d') = Done d'.
Proof.
  intros (H8 & H32 & Hl & Hws & Hf) Hsmall Hfl. rewrite flush_bitmap_ok in Hfl by lia.
  injection Hfl as <-. cbn [with_file file].
  rewrite new_existing by (done || by apply flushed_length).
  unfold with_file. do 2 f_equal.
  unfold file_write. change (N.to_nat (0 * SECTOR_SIZE)) with 0%nat. rewrite take_0. cbn [app].
  pose proof (bitmap_sector_length (bitmap d)) as Hb. 
  rewrite take_app_length' by (unfold SECTOR_SIZE in Hb; lia).
  rewrite <- Hl. apply load_bitmap_sector; [|done].
  assert (bitmap_words (total_sectors d) <= 64); [|lia].
  unfold bitmap_words. apply N.lt_succ_r, N.Div0.div_lt_upper_bound. lia.
Qed.

Lemma reopen_after_flush_witness :
  exists d', flush_bitmap demo_disk2 = Ok d' /\ new 12 (file d') = Done d'.
Proof.
  destruct (flush_bitmap_spec demo_disk2 demo_disk2_wf) as (d' & Hfl & _).
  exists d'. split; [exact Hfl|].
  exact (reopen_after_flush demo_disk2 d' demo_disk2_wf ltac:(vm_compute; discriminate) Hfl).
Defined.

(** Property: A disk of more than 4096 sectors loses allocations when it is reopened:
    after a flush with sector 4096 marked used, the reopened disk has it free. *)
Theorem large_bitmap_not_persisted d d1 d' d'' :
  disk_wf d -> 4096 < total_sectors d -> d1 = with_bitmap d (mark_used (bitmap d) 4096) ->
  flush_bitmap d1 = Ok d' -> new (total_sectors d) (file d') = Done d'' ->
  is_free (bitmap d1) 4096 = false /\ is_free (bitmap d'') 4096 = true.
Proof.
  intros (H8 & H32 & Hl & Hws & Hf) Hbig -> Hfl Hnew.
  pose proof (word_in (total_sectors d) 4096 Hbig) as Hw.
  split.
  - cbn [with_bitmap bitmap]. rewrite is_free_mark_used by (by rewrite Hl). by rewrite N.eqb_refl, andb_false_r.
  - rewrite flush_bitmap_ok in Hfl by (cbn; lia). injection Hfl as <-.
    cbn [with_file file with_bitmap] in Hnew.
    rewrite new_existing in Hnew by (done || by apply flushed_length).
    injection Hnew as <-. cbn [bitmap].
    unfold load_bitmap. change (4096 / 64) with 64 in Hw. unfold is_free.
    change (4096 / 64) with 64. change (4096 mod 64) with 0.
    rewrite length_fmap, length_seq, N2Nat.id.
    destruct (N.leb_spec (bitmap_words (total_sectors d)) 64); [lia|]. cbn [orb].
    rewrite (list_lookup_total_correct _ _ 0); [done|].
    rewrite list_lookup_fmap. change (N.to_nat 64) with 64%nat. by rewrite lookup_seq_lt by lia.
Qed.

Definition big_disk : VirtualDisk :=
  {| file := replicate 512 0; total_sectors := 4097; bitmap := replicate 65 0 |}.

Lemma large_bitmap_not_persisted_witness :
  exists d' d'', flush_bitmap (with_bitmap big_disk (mark_used (bitmap big_disk) 4096)) = Ok d' /\
    new 4097 (file d') = Done d'' /\ is_free (bitmap d'') 4096 = true.
Proof.
  assert (Hw : disk_wf big_disk).
  { split; [by vm_compute|]. split; [by vm_compute|]. split; [by vm_compute|]. split.
    - by apply Forall_replicate.
    - by vm_compute. }
  set (d1 := with_bitmap big_disk (mark_used (bitmap big_disk) 4096)).
  assert (Hf := flush_bitmap_ok d1 ltac:(done)).
  eexists _, _. split; [exact Hf|]. 
  assert (Hn : forall x, SECTOR_SIZE <= len x -> new 4097 x = Done {| file := x; total_sectors := 4097;
                 bitmap := load_bitmap (bitmap_words 4097) (take 512 x) |})
    by (intros; by apply new_existing).
  split; [apply Hn; by apply flushed_length|].
  eapply (large_bitmap_not_persisted big_disk d1); [exact Hw|done|reflexivity|exact Hf|].
  apply Hn. by apply flushed_length.
Defined.
