(* ===== verification/Block.v ===== *)
(** * Block devices and partitions (src/src/hardware/block.rs)

    The trait [BlockDevice] is a class of operations; what a file system may rely
    on is the class of laws [BlockDeviceOk].  The disk implements the laws, and a
    partition of any device that has them has them too, so partitions nest.  The
    device behind a handle ([Arc]) is shared: an operation of a partition gives
    the device back.  The name of a device, which is text, and [flush], which does
    nothing, are left out. *)
From S2P Require Import Prelude.
From S2P Require Disk.

Definition SECTOR_SIZE : N := 512.
Definition BLOCK_SIZE : N := 4096.

Class BlockDevice (D : Type) := {
  read_block : N -> D -> result Disk.DiskError (list N);
  write_block : N -> list N -> D -> D * result Disk.DiskError unit;
  total_blocks : D -> N;
  block_size : D -> N }.

(** ** The disk as a block device *)

(** a run of sectors, one after the other *)
Fixpoint read_run (ss : list N) (d : Disk.VirtualDisk) : result Disk.DiskError (list N) :=
  match ss with
  | [] => Ok []
  | s :: ss => x ← Disk.read_sector d s; rest ← read_run ss d; Ok (x ++ rest)
  end.
(** [data.chunks(SECTOR_SIZE)] *)
Definition chunks (l : list N) : list (list N) :=
  (fun i => take 512 (drop (i * 512) l)) <$> seq 0 ((length l + 511) / 512).
Fixpoint write_run (start i : N) (cs : list (list N)) (d : Disk.VirtualDisk)
    : Disk.VirtualDisk * result Disk.DiskError unit :=
  match cs with
  | [] => (d, Ok tt)
  | c :: cs =>
      match Disk.write_sector d (wadd32 start i) c with
      | Ok d => write_run start (i + 1) cs d
      | Err e => (d, Err e)
      end
  end.
(** [(block_id * 8) as u32] *)
Definition start_sector (b : N) : N := to_u32 (wmul64 b (BLOCK_SIZE / SECTOR_SIZE)).

Definition phys_read_block (b : N) (d : Disk.VirtualDisk) : result Disk.DiskError (list N) :=
  read_run (wadd32 (start_sector b) <$> Disk.range 0 (BLOCK_SIZE / SECTOR_SIZE)) d.
Definition phys_write_block (b : N) (bs : list N) (d : Disk.VirtualDisk) : Disk.VirtualDisk * result Disk.DiskError unit :=
  if negb (len bs =? BLOCK_SIZE) then (d, Err (Disk.IoFailed Disk.OpWriteBlock (to_u32 b)))
  else write_run (start_sector b) 0 (chunks bs) d.
Definition phys_total_blocks (d : Disk.VirtualDisk) : N := Disk.total_sectors d / (BLOCK_SIZE / SECTOR_SIZE).

#[export] Instance PhysicalBlockDevice : BlockDevice Disk.VirtualDisk := {
  read_block := phys_read_block; write_block := phys_write_block; total_blocks := phys_total_blocks;
  block_size := fun _ => BLOCK_SIZE }.

(** ** Partitions *)

Inductive PartitionType := Empty | FAT32 | EXT4 | LinuxSwap | UnknownType (code : N).
Record Partition := {
  number : N; start_block : N; partition_blocks : N; partition_type : PartitionType; bootable : bool }.

Abbreviation PartitionLayout := (list Partition).
Definition add_partition (p : Partition) (l : PartitionLayout) : PartitionLayout := l ++ [p].
Definition get_partition (n : N) (l : PartitionLayout) : option Partition :=
  snd <$> list_find (fun p => number p = n) l.

Section Partitions.
Context {D : Type} `{!BlockDevice D}.

Record PartitionDevice := { device : D; partition : Partition }.
Definition with_device (d : D) (p : PartitionDevice) : PartitionDevice := {| device := d; partition := partition p |}.

Definition out_of_range (b : N) (p : PartitionDevice) : Disk.DiskError :=
  Disk.InvalidSector (to_u32 b) (to_u32 (partition_blocks (partition p))).
Definition part_read_block (b : N) (p : PartitionDevice) : result Disk.DiskError (list N) :=
  if partition_blocks (partition p) <=? b then Err (out_of_range b p)
  else read_block (wadd64 (start_block (partition p)) b) (device p).
Definition part_write_block (b : N) (bs : list N) (p : PartitionDevice) : PartitionDevice * result Disk.DiskError unit :=
  if partition_blocks (partition p) <=? b then (p, Err (out_of_range b p))
  else let '(d, r) := write_block (wadd64 (start_block (partition p)) b) bs (device p) in (with_device d p, r).
End Partitions.
Arguments PartitionDevice D : clear implicits.

#[export] Instance PartitionBlockDevice D `{!BlockDevice D} : BlockDevice (PartitionDevice D) := {
  read_block := part_read_block; write_block := part_write_block;
  total_blocks := fun p => partition_blocks (partition p); block_size := fun p => block_size (device p) }.

(** ** The laws

    Of a device in a state the invariant admits: a block in range reads as a
    block of bytes; a block written reads back, and no other block changes. *)
Class BlockDeviceOk (D : Type) `{!BlockDevice D} := {
  device_wf : D -> Prop;
  read_in_range : forall b d, device_wf d -> b < total_blocks d -> exists x, read_block b d = Ok x /\ len x = block_size d;
  write_in_range : forall b bs d, device_wf d -> b < total_blocks d -> len bs = block_size d ->
    exists d', write_block b bs d = (d', Ok tt) /\ device_wf d' /\ total_blocks d' = total_blocks d /\
      block_size d' = block_size d /\ read_block b d' = Ok bs /\
      forall b', b' <> b -> b' < total_blocks d -> read_block b' d' = read_block b' d }.

Lemma start_sector_small b : b * 8 < 2 ^ 32 -> start_sector b = b * 8.
Proof.
  intros H. unfold start_sector, to_u32, wmul64. change (BLOCK_SIZE / SECTOR_SIZE) with 8.
  rewrite (N.mod_small (b * 8)) by lia. by apply N.mod_small.
Qed.

(** an image that holds every sector of the disk *)
Definition full_disk (d : Disk.VirtualDisk) : Prop :=
  Disk.total_sectors d < 2 ^ 32 /\ Disk.total_sectors d * 512 <= len (Disk.file d).

Lemma full_read d s : full_disk d -> s < Disk.total_sectors d -> exists x, Disk.read_sector d s = Ok x /\ len x = 512.
Proof.
  intros [H32 Hf] Hs. assert (Hr : exists x, Disk.file_read (Disk.file d) (s * Disk.SECTOR_SIZE) Disk.SECTOR_SIZE = Some x /\ len x = 512).
  { unfold Disk.file_read, Disk.SECTOR_SIZE. rewrite (proj2 (N.leb_le _ _)) by lia. eexists. split; [done|].
    rewrite length_take, length_drop. lia. }
  destruct Hr as (x & Hx & Hl). exists x. split; [by apply Disk.read_sector_ok|done].
Qed.

Lemma read_run_ok d : forall ss, full_disk d -> Forall (fun s => s < Disk.total_sectors d) ss ->
  exists x, read_run ss d = Ok x /\ len x = len ss * 512.
Proof.
  induction ss as [|s ss IH]; intros Hd Hs; [by exists []|]. apply list.Forall_cons in Hs as [Hs Hss].
  destruct (full_read d s Hd Hs) as (x & Hx & Hl). destruct (IH Hd Hss) as (y & Hy & Hly). exists (x ++ y).
  cbn [read_run]. rewrite Hx. cbn. rewrite Hy. cbn. split; [done|]. rewrite length_app. cbn [length]. lia.
Qed.
Lemma read_run_same d d' ss : (forall s, s ∈ ss -> Disk.read_sector d' s = Disk.read_sector d s) -> read_run ss d' = read_run ss d.
Proof.
  induction ss as [|s ss IH]; intros H; [done|]. cbn [read_run]. rewrite H by by left. rewrite IH; [done|].
  intros t Ht. apply H. by right.
Qed.

(** the same sector of two devices whose reads of it succeed alike *)
Lemma write_run_ok : forall cs d start i,
  full_disk d -> Forall (fun c => len c = 512) cs -> start + i + len cs <= Disk.total_sectors d ->
  exists d', write_run start i cs d = (d', Ok tt) /\ full_disk d' /\ Disk.total_sectors d' = Disk.total_sectors d /\
    (forall k c, cs !! k = Some c -> Disk.read_sector d' (start + i + N.of_nat k) = Ok c) /\
    (forall t, t < Disk.total_sectors d -> ~ start + i <= t < start + i + len cs -> Disk.read_sector d' t = Disk.read_sector d t).
Proof.
  induction cs as [|c cs IH]; intros d start i Hd Hcs Hb; [by exists d|]. apply list.Forall_cons in Hcs as [Hc Hcs].
  cbn [length] in Hb. pose proof Hd as [H32 Hf]. cbn [write_run]. rewrite wadd32_small by lia.
  destruct (Disk.write_sector d (start + i) c) as [d1|e] eqn:Ew.
  2: { exfalso. assert (Hlt : start + i < Disk.total_sectors d) by lia.
       pose proof (proj2 (Disk.write_sector_ok d (start + i) c _) (conj Hlt (conj Hc eq_refl))). congruence. }
  destruct (Disk.write_sector_read _ _ _ _ Ew) as (Hrd & Hother & _ & Ht). pose proof Ew as (_ & _ & E)%Disk.write_sector_ok.
  assert (Hd1 : full_disk d1).
  { unfold full_disk. rewrite Ht. split; [done|]. rewrite E. cbn. rewrite Disk.file_write_length. lia. }
  destruct (IH d1 start (i + 1) Hd1 Hcs ltac:(rewrite Ht; lia)) as (d2 & -> & Hd2 & Ht2 & Hin & Hout). exists d2.
  split; [done|]. split; [done|]. split; [congruence|]. split.
  - intros [|k] x Hk; cbn in Hk.
    + injection Hk as ->. replace (start + i + N.of_nat 0) with (start + i) by lia. rewrite Hout; [done|rewrite Ht; lia|lia].
    + replace (start + i + N.of_nat (S k)) with (start + (i + 1) + N.of_nat k) by lia. by apply Hin.
  - intros t Htt Hr. cbn [length] in Hr. rewrite Hout; [|rewrite Ht; lia|lia].
    destruct (full_read d t Hd Htt) as (x & Hx & _). rewrite Hx. apply Hother; [lia|done].
Qed.

Lemma chunks_join (bs : list N) n : forall a, mjoin ((fun i => take 512 (drop (i * 512) bs)) <$> seq a n : list (list N)) = take (n * 512) (drop (a * 512) bs).
Proof.
  induction n as [|n IH]; intros a; [done|]. cbn [seq]. rewrite fmap_cons. cbn [mjoin list_join]. rewrite IH.
  replace (S n * 512)%nat with (512 + n * 512)%nat by lia. replace (S a * 512)%nat with (a * 512 + 512)%nat by lia.
  rewrite <- drop_drop. generalize (drop (a * 512) bs). intros l. symmetry. rewrite <- (take_drop 512 l) at 1.
  rewrite take_app, length_take, take_take. f_equal; [f_equal; lia|].
  destruct (Nat.le_gt_cases 512 (length l)); [f_equal; lia|]. by rewrite !drop_ge, !take_nil by lia.
Qed.
Lemma chunks_block bs : len bs = BLOCK_SIZE ->
  length (chunks bs) = 8%nat /\ Forall (fun c => len c = 512) (chunks bs) /\ mjoin (chunks bs) = bs.
Proof.
  unfold BLOCK_SIZE. intros Hl. unfold chunks. replace ((length bs + 511) / 512)%nat with 8%nat.
  2: { apply (Nat.div_unique _ _ _ 511); lia. }
  split; [done|]. split.
  - apply list.Forall_forall. intros c (i & -> & Hi%elem_of_seq)%list_elem_of_fmap. rewrite length_take, length_drop. lia.
  - rewrite chunks_join, drop_0, take_ge; [done|lia].
Qed.

Lemma read_run_chunks d : forall cs s0,
  (forall k c, cs !! k = Some c -> Disk.read_sector d (s0 + N.of_nat k) = Ok c) ->
  read_run ((fun k => s0 + N.of_nat k) <$> seq 0 (length cs)) d = Ok (mjoin cs).
Proof.
  induction cs as [|c cs IH]; intros s0 H; [done|]. cbn [length seq fmap list_fmap read_run]. rewrite (H 0%nat c) by done. cbn.
  rewrite <- fmap_S_seq, <- list_fmap_compose. specialize (IH (s0 + 1)).
  assert (E : (fun k => s0 + N.of_nat k) ∘ S <$> seq 0 (length cs) = (fun k => s0 + 1 + N.of_nat k) <$> seq 0 (length cs)).
  { apply list_fmap_ext. intros _ k _. cbn [compose]. lia. }
  rewrite E, IH; [done|]. intros k x Hk. replace (s0 + 1 + N.of_nat k) with (s0 + N.of_nat (S k)) by lia. by apply H.
Qed.

(** the sectors of a block in range *)
Lemma block_sectors b d : full_disk d -> b < phys_total_blocks d ->
  b * 8 + 8 <= Disk.total_sectors d /\ start_sector b = b * 8 /\
  (wadd32 (start_sector b) <$> Disk.range 0 (BLOCK_SIZE / SECTOR_SIZE)) = (fun k => b * 8 + N.of_nat k) <$> seq 0 8.
Proof.
  intros [H32 _] Hb. unfold phys_total_blocks in Hb. change (BLOCK_SIZE / SECTOR_SIZE) with 8 in *.
  assert (Hle : b * 8 + 8 <= Disk.total_sectors d).
  { pose proof (N.Div0.mul_div_le (Disk.total_sectors d) 8). lia. }
  split; [done|]. assert (E : start_sector b = b * 8) by (apply start_sector_small; lia). split; [done|]. rewrite E.
  rewrite Disk.range_map. rewrite <- list_fmap_compose. apply list_fmap_ext. intros j k Hk.
  apply list_elem_of_lookup_2, elem_of_seq in Hk. cbn [compose]. rewrite wadd32_small; lia.
Qed.

#[export] Program Instance PhysicalBlockDevice_ok : BlockDeviceOk Disk.VirtualDisk := {| device_wf := full_disk |}.
Next Obligation.
  intros b d Hd Hb. destruct (block_sectors b d Hd Hb) as (Hle & _ & E). cbn. unfold phys_read_block. rewrite E.
  destruct (read_run_ok d ((fun k => b * 8 + N.of_nat k) <$> seq 0 8) Hd) as (x & -> & Hl); [|by exists x].
  apply list.Forall_forall. intros s (k & -> & Hk%elem_of_seq)%list_elem_of_fmap. lia.
Qed.
Next Obligation.
  intros b bs d Hd Hb Hl. cbn in *. destruct (block_sectors b d Hd Hb) as (Hle & Es & E).
  destruct (chunks_block bs Hl) as (Hn & Hc & Hj). unfold phys_write_block. rewrite (proj2 (N.eqb_eq _ _)) by done. cbn [negb].
  destruct (write_run_ok (chunks bs) d (start_sector b) 0 Hd Hc) as (d' & Hw & Hd' & Ht & Hin & Hout); [lia|].
  rewrite Es, N.add_0_r, Hn in *. exists d'. split; [done|]. split; [done|].
  split; [unfold phys_total_blocks; by rewrite Ht|]. split; [done|]. split.
  - unfold phys_read_block. rewrite Es, E, <- Hn, read_run_chunks by done. by rewrite Hj.
  - intros b' Hne Hb'. destruct (block_sectors b' d Hd Hb') as (Hle' & _ & E'). unfold phys_read_block. rewrite E'.
    apply read_run_same. intros s (k & -> & Hk%elem_of_seq)%list_elem_of_fmap. apply Hout; lia.
Qed.

Section PartitionsOk.
Context {D : Type} `{!BlockDevice D, !BlockDeviceOk D}.

(** a partition that lies on the device *)
Definition on_device (p : Partition) (d : D) : Prop :=
  start_block p + partition_blocks p <= total_blocks d /\ total_blocks d < 2 ^ 64.

Lemma part_read_in p b (d : D) : on_device p d -> b < partition_blocks p ->
  part_read_block b {| device := d; partition := p |} = read_block (start_block p + b) d.
Proof.
  intros [Hp H64] Hb. unfold part_read_block. cbn. rewrite (proj2 (N.leb_gt _ _)) by done. by rewrite wadd64_small by lia.
Qed.
Lemma part_write_in p b bs (d : D) : on_device p d -> b < partition_blocks p ->
  part_write_block b bs {| device := d; partition := p |} =
    let '(d', r) := write_block (start_block p + b) bs d in ({| device := d'; partition := p |}, r).
Proof.
  intros [Hp H64] Hb. unfold part_write_block. cbn. rewrite (proj2 (N.leb_gt _ _)) by done. by rewrite wadd64_small by lia.
Qed.

(** what a write through a partition does to the device *)
Lemma part_write_spec p b bs (d : D) : device_wf d -> on_device p d -> b < partition_blocks p -> len bs = block_size d ->
  exists d', part_write_block b bs {| device := d; partition := p |} = ({| device := d'; partition := p |}, Ok tt) /\
    device_wf d' /\ total_blocks d' = total_blocks d /\ block_size d' = block_size d /\
    read_block (start_block p + b) d' = Ok bs /\
    forall c, c <> start_block p + b -> c < total_blocks d -> read_block c d' = read_block c d.
Proof.
  intros Hd Hp Hb Hl. rewrite part_write_in by done. destruct Hp as [Hp H64].
  destruct (write_in_range (start_block p + b) bs d Hd ltac:(lia) Hl) as (d' & -> & H). by exists d'.
Qed.

#[export] Program Instance PartitionBlockDevice_ok : BlockDeviceOk (PartitionDevice D) :=
  {| device_wf := fun p => device_wf (device p) /\ on_device (partition p) (device p) |}.
Next Obligation.
  intros b [d p] [Hd Hp] Hb. cbn in *. rewrite part_read_in by done. destruct Hp as [Hp H64].
  apply read_in_range; [done|lia].
Qed.
Next Obligation.
  intros b bs [d p] [Hd Hp] Hb Hl. cbn in *. destruct (part_write_spec p b bs d Hd Hp Hb Hl) as (d' & Hw & Hd' & Ht & Hs & Hr & Ho).
  assert (Hp' : on_device p d') by (unfold on_device in *; by rewrite Ht).
  exists {| device := d'; partition := p |}. split; [exact Hw|]. split; [by split|]. split; [done|]. split; [done|].
  split; [cbn; by rewrite part_read_in|]. intros b' Hne Hb'. cbn. rewrite !part_read_in by done. destruct Hp as [Hp H64]. apply Ho; lia.
Qed.

(** Property: on any block device that keeps its laws - the disk, or a partition of
    one - two partitions that do not overlap are isolated: a block written
    through one is read back there, and every read through the other, in range
    or not, answers as before. *)
Theorem partitions_isolated (d : D) p q b bs :
  device_wf d -> on_device p d -> on_device q d ->
  start_block p + partition_blocks p <= start_block q \/ start_block q + partition_blocks q <= start_block p ->
  b < partition_blocks p -> len bs = block_size d ->
  exists d', part_write_block b bs {| device := d; partition := p |} = ({| device := d'; partition := p |}, Ok tt) /\
    part_read_block b {| device := d'; partition := p |} = Ok bs /\
    forall c, part_read_block c {| device := d'; partition := q |} = part_read_block c {| device := d; partition := q |}.
Proof.
  intros Hd Hp Hq Hdis Hb Hl. destruct (part_write_spec p b bs d Hd Hp Hb Hl) as (d' & Hw & Hd' & Ht & _ & Hr & Ho).
  exists d'. split; [exact Hw|]. assert (Hsame : forall r, on_device r d -> on_device r d') by (unfold on_device; by rewrite Ht).
  split; [by rewrite part_read_in by auto|]. intros c. destruct (N.lt_ge_cases c (partition_blocks q)) as [Hc|Hc].
  - rewrite !part_read_in by auto. destruct Hq as [Hq H64]. apply Ho; lia.
  - unfold part_read_block. cbn. by rewrite !(proj2 (N.leb_le _ _)) by done.
Qed.
End PartitionsOk.

Definition demo_block_disk : Disk.VirtualDisk :=
  {| Disk.file := replicate (N.to_nat 16384) 0; Disk.total_sectors := 32; Disk.bitmap := [7] |}.
Definition demo_partition (n start : N) : Partition :=
  {| number := n; start_block := start; partition_blocks := 2; partition_type := EXT4; bootable := false |}.
Lemma partitions_isolated_witness :
  exists d', part_write_block 1 (replicate (N.to_nat 4096) 5) {| device := demo_block_disk; partition := demo_partition 1 0 |}
      = ({| device := d'; partition := demo_partition 1 0 |}, Ok tt) /\
    part_read_block 0 {| device := d'; partition := demo_partition 2 2 |}
      = part_read_block 0 {| device := demo_block_disk; partition := demo_partition 2 2 |}.
Proof.
  destruct (partitions_isolated demo_block_disk (demo_partition 1 0) (demo_partition 2 2) 1 (replicate (N.to_nat 4096) 5))
    as (d' & H1 & _ & H3).
  - split; [done|]. cbn [Disk.file Disk.total_sectors demo_block_disk]. rewrite length_replicate. lia.
  - done.
  - done.
  - by left.
  - done.
  - rewrite length_replicate. reflexivity.
  - exists d'. split; [exact H1|apply H3].
Defined.

Lemma mod64_mod32 x : (x mod 2 ^ 64) mod 2 ^ 32 = x mod 2 ^ 32.
Proof.
  rewrite (N.div_mod' x (2 ^ 64)) at 2.
  replace (2 ^ 64 * (x / 2 ^ 64) + x mod 2 ^ 64) with (x mod 2 ^ 64 + (x / 2 ^ 64 * 2 ^ 32) * 2 ^ 32) by lia.
  by rewrite N.Div0.mod_add.
Qed.

(** Property: a block number is cut to the 32 bits of a sector number without a
    check: the block 2^29 places further is the same block, so a device never
    refuses one past its end that wraps around onto it. *)
Theorem block_numbers_alias b n bs d :
  read_block (b + n * 2 ^ 29) d = read_block b d /\
  fst (write_block (b + n * 2 ^ 29) bs d) = fst (write_block b bs d).
Proof.
  assert (E : start_sector (b + n * 2 ^ 29) = start_sector b).
  { unfold start_sector, to_u32, wmul64. change (BLOCK_SIZE / SECTOR_SIZE) with 8.
    rewrite !mod64_mod32.
    replace ((b + n * 2 ^ 29) * 8) with (b * 8 + n * 2 ^ 32) by lia. apply N.Div0.mod_add. }
  cbn. unfold phys_read_block, phys_write_block. rewrite E. split; [done|]. by destruct (negb _).
Qed.
