(* ===== verification/Swap.v ===== *)
(** * Swap space (src/src/services/memory/swap.rs)

    [SwapManager] keeps a vector of slots, the queue of free slot numbers, the
    slots of each process and the swap disk.  Vector indexing and [unwrap] are
    [outcome]s; error strings are the values they render. *)
From S2P Require Import Prelude Types Disk.

Record SwapSlot := {
  number : N; slot_bytes : N; occupied : bool; owner : option Pid; vpn : option N }.

Definition SwapSlot_new (n sz : N) : SwapSlot :=
  {| number := n; slot_bytes := sz; occupied := false; owner := None; vpn := None |}.
Definition occupy (pid : Pid) (v : N) (s : SwapSlot) : SwapSlot :=
  {| number := number s; slot_bytes := slot_bytes s; occupied := true; owner := Some pid; vpn := Some v |}.
Definition slot_free (s : SwapSlot) : SwapSlot :=
  {| number := number s; slot_bytes := slot_bytes s; occupied := false; owner := None; vpn := None |}.
Definition slot_is_free (s : SwapSlot) : bool := negb (occupied s).

Record SwapConfig := { total_size : N; slot_size : N; max_slots : N }.

Definition SwapConfig_default : SwapConfig :=
  {| total_size := 1024 * 1024 * 1024; slot_size := 4096; max_slots := 262144 |}.

Record SwapManager := {
  config : SwapConfig; slots : list SwapSlot; free_queue : list N;
  process_slots : gmap Pid (list N); total_slots : N; used_slots : N;
  enabled : bool; disk : VirtualDisk }.

Definition with_slots (s : SwapManager) sl q ps u : SwapManager :=
  {| config := config s; slots := sl; free_queue := q; process_slots := ps;
     total_slots := total_slots s; used_slots := u; enabled := enabled s; disk := disk s |}.
Definition with_disk (s : SwapManager) d : SwapManager :=
  {| config := config s; slots := slots s; free_queue := free_queue s; process_slots := process_slots s;
     total_slots := total_slots s; used_slots := used_slots s; enabled := enabled s; disk := d |}.
Definition set_enabled (b : bool) (s : SwapManager) : SwapManager :=
  {| config := config s; slots := slots s; free_queue := free_queue s; process_slots := process_slots s;
     total_slots := total_slots s; used_slots := used_slots s; enabled := b; disk := disk s |}.

(** [total_size / slot_size]: a zero slot size panics. *)
Definition new (cfg : SwapConfig) (d : VirtualDisk) : outcome SwapManager :=
  if slot_size cfg =? 0 then Panicked
  else
    let total := total_size cfg / slot_size cfg in
    Done {| config := cfg;
            slots := (fun i => SwapSlot_new i (slot_size cfg)) <$> range 0 total;
            free_queue := range 0 total; process_slots := ∅; total_slots := total;
            used_slots := 0; enabled := true; disk := d |}.

Definition enable := set_enabled true.
Definition disable := set_enabled false.

(** [self.process_slots.entry(pid).or_insert_with(Vec::new)] *)
Definition slots_of (s : SwapManager) (pid : Pid) : list N := default [] (process_slots s !! pid).

Definition allocate_slot (s : SwapManager) (pid : Pid) (v : N) : outcome (SwapManager * option SwapSlot) :=
  if negb (enabled s) then Done (s, None)
  else
    match free_queue s with
    | [] => Done (s, None)
    | n :: q =>
        slot ← index (slots s) n;
        let slot := occupy pid v slot in
        Done (with_slots s (<[N.to_nat n := slot]> (slots s)) q
                (<[pid := slots_of s pid ++ [n]]> (process_slots s)) (wadd64 (used_slots s) 1),
              Some slot)
    end.

(** [position] and [remove]: the first occurrence *)
Fixpoint remove_first (x : N) (l : list N) : list N :=
  match l with
  | [] => []
  | y :: l => if y =? x then l else y :: remove_first x l
  end.

Definition free_slot (s : SwapManager) (n : N) : outcome (SwapManager * bool) :=
  if total_slots s <=? n then Done (s, false)
  else
    slot ← index (slots s) n;
    if negb (occupied slot) then Done (s, false)
    else
      match owner slot with
      | None => Panicked
      | Some pid =>
          let ps := match process_slots s !! pid with
                    | Some l => <[pid := remove_first n l]> (process_slots s)
                    | None => process_slots s
                    end in
          Done (with_slots s (<[N.to_nat n := slot_free slot]> (slots s)) (free_queue s ++ [n]) ps
                  (wsub64 (used_slots s) 1), true)
      end.

Definition get_slot (s : SwapManager) (n : N) : outcome (option SwapSlot) :=
  if n <? total_slots s then slot ← index (slots s) n; Done (Some slot) else Done None.

(** the [filter_map] of [get_process_slots] *)
Fixpoint lookup_slots (s : SwapManager) (ns : list N) : outcome (list SwapSlot) :=
  match ns with
  | [] => Done []
  | n :: ns =>
      o ← get_slot s n;
      rest ← lookup_slots s ns;
      Done (match o with Some sl => sl :: rest | None => rest end)
  end.

Definition get_process_slots (s : SwapManager) (pid : Pid) : outcome (list SwapSlot) :=
  match process_slots s !! pid with Some ns => lookup_slots s ns | None => Done [] end.

Fixpoint free_slots_loop (s : SwapManager) (ns : list N) (freed : N) : outcome (SwapManager * N) :=
  match ns with
  | [] => Done (s, freed)
  | n :: ns =>
      '(s', ok) ← free_slot s n;
      free_slots_loop s' ns (if ok : bool then wadd64 freed 1 else freed)
  end.

Definition free_process_slots (s : SwapManager) (pid : Pid) : outcome (SwapManager * N) :=
  match process_slots s !! pid with
  | Some ns =>
      free_slots_loop (with_slots s (slots s) (free_queue s) (delete pid (process_slots s)) (used_slots s)) ns 0
  | None => Done (s, 0)
  end.

Definition has_space (s : SwapManager) : bool := negb (bool_decide (free_queue s = [])).

(** ** Data on the disk *)

Inductive SwapError := SwapOutFailed (e : DiskError) | SwapInFailed (e : DiskError).

(** the 512 bytes of [data] for the [i]-th sector of a slot, padded with zeros *)
Definition sector_of (data : list N) (i : N) : list N :=
  let off := N.to_nat (i * 512) in
  let chunk := take 512 (drop off data) in
  chunk ++ replicate (512 - length chunk) 0.

Definition slot_start (n : N) : N := to_u32 (wmul64 n 8).

Fixpoint swap_out_loop (start : N) (data : list N) (ids : list N) (d : VirtualDisk)
    : VirtualDisk * result SwapError unit :=
  match ids with
  | [] => (d, Ok tt)
  | i :: ids =>
      match write_sector d (wadd32 start i) (sector_of data i) with
      | Ok d' => swap_out_loop start data ids d'
      | Err e => (d, Err (SwapOutFailed e))
      end
  end.

Definition swap_out (s : SwapManager) (n : N) (data : list N) : SwapManager * result SwapError unit :=
  let '(d, r) := swap_out_loop (slot_start n) data (range 0 8) (disk s) in (with_disk s d, r).

(** [data[off..off + 512].copy_from_slice(&sd)] *)
Definition splice (data : list N) (off : nat) (sd : list N) : list N :=
  take off data ++ sd ++ drop (off + 512) data.

Fixpoint swap_in_loop (d : VirtualDisk) (start : N) (ids : list N) (data : list N)
    : result SwapError (list N) :=
  match ids with
  | [] => Ok data
  | i :: ids =>
      sd ← map_err SwapInFailed (read_sector d (wadd32 start i));
      swap_in_loop d start ids (splice data (N.to_nat (i * 512)) sd)
  end.

Definition swap_in (s : SwapManager) (n : N) : result SwapError (list N) :=
  swap_in_loop (disk s) (slot_start n) (range 0 8) (replicate (N.to_nat 4096) 0).

Record SwapStats := {
  st_enabled : bool; st_total_slots : N; st_used_slots : N; st_free_slots : N;
  st_total_size : N; st_used_size : N }.

(** The percentage, a floating-point number, is left out. *)
Definition stats (s : SwapManager) : SwapStats :=
  {| st_enabled := enabled s; st_total_slots := total_slots s; st_used_slots := used_slots s;
     st_free_slots := wsub64 (total_slots s) (used_slots s);
     st_total_size := total_size (config s);
     st_used_size := wmul64 (used_slots s) (slot_size (config s)) |}.

(** ** Invariant *)

Definition slot_wf (i : nat) (sl : SwapSlot) : Prop :=
  number sl = N.of_nat i /\ occupied sl = bool_decide (is_Some (owner sl)).

Definition owned_by (s : SwapManager) (n : N) (o : option Pid) : Prop :=
  exists sl, slots s !! N.to_nat n = Some sl /\ owner sl = o.

(** [lists] are the slot lists of the processes. *)
Definition wf_lists (lists : Pid -> list N) (s : SwapManager) : Prop :=
  total_slots s = len (slots s) /\ total_slots s < 2 ^ 64 /\
  (forall i sl, slots s !! i = Some sl -> slot_wf i sl) /\
  NoDup (free_queue s) /\ (forall n, n ∈ free_queue s <-> owned_by s n None) /\
  used_slots s + len (free_queue s) = total_slots s /\
  (forall pid, NoDup (lists pid) /\ forall n, n ∈ lists pid <-> owned_by s n (Some pid)).

Definition wf (s : SwapManager) : Prop := wf_lists (slots_of s) s.

(** ** Lemmas: the slot pool *)

Lemma elem_of_remove_first x y l : NoDup l -> (y ∈ remove_first x l <-> y ∈ l /\ y <> x).
Proof.
  induction l as [|z l IH]; intros Hn; cbn [remove_first].
  - split; [by intros ?%not_elem_of_nil|by intros [?%not_elem_of_nil _]].
  - apply list.NoDup_cons in Hn as [Hz Hn]. destruct (N.eqb_spec z x) as [->|Hne].
    + rewrite elem_of_cons. split; [|naive_solver]. intros Hy. split; [by right|]. by intros ->.
    + rewrite !elem_of_cons, IH by done. naive_solver.
Qed.

Lemma NoDup_remove_first x l : NoDup l -> NoDup (remove_first x l).
Proof.
  induction l as [|z l IH]; intros Hn; cbn [remove_first]; [done|].
  apply list.NoDup_cons in Hn as [Hz Hn]. destruct (N.eqb_spec z x); [done|].
  apply list.NoDup_cons. rewrite elem_of_remove_first by done. naive_solver.
Qed.

Lemma NoDup_snoc {A} (l : list A) x : NoDup l -> x ∉ l -> NoDup (l ++ [x]).
Proof.
  intros Hn Hx. apply list.NoDup_app. split_and!; [done| |apply NoDup_singleton].
  intros y Hy Hy'. apply list_elem_of_singleton in Hy'. congruence.
Qed.

Lemma owned_by_update s sl n q ps u o m sl0 :
  slots s !! N.to_nat n = Some sl0 ->
  owned_by (with_slots s (<[N.to_nat n := sl]> (slots s)) q ps u) m o <->
  if decide (m = n) then owner sl = o else owned_by s m o.
Proof.
  intros Hsl0. unfold owned_by. cbn [slots with_slots]. destruct (decide (m = n)) as [->|Hne].
  - rewrite list_lookup_insert_eq by by eapply lookup_lt_Some. naive_solver.
  - by rewrite list_lookup_insert_ne by lia.
Qed.

Lemma owned_by_fun s n o o' : owned_by s n o -> owned_by s n o' -> o = o'.
Proof. intros (sl & H & <-) (sl' & H' & <-). congruence. Qed.

Lemma wf_lists_ext l1 l2 s : (forall p, l1 p = l2 p) -> wf_lists l1 s -> wf_lists l2 s.
Proof.
  intros He (?&?&?&?&?&?&H). split_and!; try done. intros p. rewrite <- He. apply H.
Qed.

Lemma slots_wf_update s n sl sl0 :
  (forall i x, slots s !! i = Some x -> slot_wf i x) ->
  slots s !! N.to_nat n = Some sl0 -> slot_wf (N.to_nat n) sl ->
  forall i x, <[N.to_nat n := sl]> (slots s) !! i = Some x -> slot_wf i x.
Proof.
  intros Hs H0 Hsl i x Hx. apply list_lookup_insert_Some in Hx as [(Hi & Hx & _)|(_ & Hx)]; [by subst|by apply Hs].
Qed.

Lemma slots_of_insert s sl q u pid l p :
  slots_of (with_slots s sl q (<[pid := l]> (process_slots s)) u) p =
  if decide (p = pid) then l else slots_of s p.
Proof.
  unfold slots_of; cbn [process_slots with_slots].
  destruct (decide (p = pid)) as [->|]; [by rewrite lookup_insert_eq|by rewrite lookup_insert_ne].
Qed.

(** Taking the head of the free queue. *)
Lemma allocate_slot_spec s pid v n q :
  wf s -> enabled s = true -> free_queue s = n :: q ->
  exists sl s', slots s !! N.to_nat n = Some sl /\ owner sl = None /\
    allocate_slot s pid v = Done (s', Some (occupy pid v sl)) /\ wf s' /\
    slots s' = <[N.to_nat n := occupy pid v sl]> (slots s) /\ number sl = n /\ disk s' = disk s.
Proof.
  intros (Ht & Hb & Hs & Hnq & Hq & Hu & Hl) He Hfq.
  assert (Hn : owned_by s n None) by (apply Hq; rewrite Hfq; left).
  destruct Hn as (sl & Hsl & Ho). pose proof (Hs _ _ Hsl) as [Hnum Hocc].
  rewrite Hfq in Hnq, Hu. apply list.NoDup_cons in Hnq as [Hnin Hnq]. cbn [length] in Hu.
  eexists sl, _. split; [done|]. split; [done|]. split.
  { unfold allocate_slot. rewrite He, Hfq, (index_done _ _ _ Hsl). reflexivity. }
  split; [|split_and!; [done|lia|done]].
  unfold wf, wf_lists. cbn [with_slots slots free_queue used_slots total_slots].
  rewrite length_insert, wadd64_small by lia. split_and!; try done; try lia.
  - by eapply slots_wf_update.
  - intros m. rewrite (owned_by_update _ _ _ _ _ _ _ _ _ Hsl). specialize (Hq m). rewrite Hfq in Hq.
    rewrite elem_of_cons in Hq. destruct (decide (m = n)) as [->|Hne]; cbn [occupy owner]; naive_solver.
  - intros p. destruct (Hl p) as [Hnd Hin]. rewrite slots_of_insert.
    assert (Hfresh : n ∉ slots_of s pid).
    { intros Hx. apply (proj2 (Hl pid)) in Hx. destruct Hx as (sl' & Hsl' & Ho'). congruence. }
    destruct (decide (p = pid)) as [->|Hp].
    + split; [by apply NoDup_snoc|]. intros m.
      rewrite (owned_by_update _ _ _ _ _ _ _ _ _ Hsl), elem_of_app, list_elem_of_singleton, Hin.
      destruct (decide (m = n)) as [->|]; cbn [occupy owner]; naive_solver.
    + split; [exact Hnd|]. intros m.
      rewrite (owned_by_update _ _ _ _ _ _ _ _ _ Hsl), Hin.
      destruct (decide (m = n)) as [->|]; cbn [occupy owner]; [|done].
      split; [intros Hx; pose proof (owned_by_fun _ _ _ _ Hx (ex_intro _ sl (conj Hsl Ho)))|]; congruence.
Qed.

(** the lists after [n] left the list of [pid] *)
Definition without (lists : Pid -> list N) (pid : Pid) (n : N) : Pid -> list N :=
  fun p => if decide (p = pid) then remove_first n (lists pid) else lists p.

Lemma free_slot_occupied lists s n sl pid :
  wf_lists lists s -> slots s !! N.to_nat n = Some sl -> owner sl = Some pid ->
  exists s', free_slot s n = Done (s', true) /\ wf_lists (without lists pid n) s' /\
    slots s' = <[N.to_nat n := slot_free sl]> (slots s) /\ disk s' = disk s /\
    process_slots s' = match process_slots s !! pid with
                       | Some l => <[pid := remove_first n l]> (process_slots s)
                       | None => process_slots s end.
Proof.
  intros (Ht & Hb & Hs & Hnq & Hq & Hu & Hl) Hsl Ho.
  pose proof (Hs _ _ Hsl) as [Hnum Hocc]. rewrite Ho in Hocc.
  pose proof (lookup_lt_Some _ _ _ Hsl) as Hlt.
  assert (Hnin : n ∉ free_queue s).
  { intros Hx. apply Hq in Hx as (sl' & ? & ?). congruence. }
  assert (Hused : 1 <= used_slots s).
  { assert (Hle : (length (n :: free_queue s) <= length (seq 0 (length (slots s))))%nat).
    { rewrite <- (length_fmap N.of_nat (seq _ _)). apply submseteq_length, NoDup_submseteq.
      - by apply list.NoDup_cons.
      - intros m Hm. apply list_elem_of_fmap. exists (N.to_nat m). split; [lia|]. apply elem_of_seq.
        apply elem_of_cons in Hm as [->|Hm]; [lia|]. apply Hq in Hm as (sl' & Hsl' & _).
        pose proof (lookup_lt_Some _ _ _ Hsl'). lia. }
    rewrite length_seq in Hle. cbn [length] in Hle. lia. }
  eexists. split.
  { unfold free_slot. destruct (N.leb_spec (total_slots s) n); [lia|].
    rewrite (index_done _ _ _ Hsl). cbn [mbind outcome_bind]. rewrite Hocc, Ho. reflexivity. }
  split; [|done].
  unfold wf_lists. cbn [with_slots slots free_queue used_slots total_slots].
  rewrite length_insert, wsub64_ge, length_app by lia. cbn [length]. split_and!; try done; try lia.
  - by eapply slots_wf_update.
  - by apply NoDup_snoc.
  - intros m. rewrite (owned_by_update _ _ _ _ _ _ _ _ _ Hsl), elem_of_app, list_elem_of_singleton, Hq.
    destruct (decide (m = n)) as [->|]; cbn [slot_free owner]; naive_solver.
  - intros p. unfold without. destruct (decide (p = pid)) as [->|Hp].
    + split; [by apply NoDup_remove_first, Hl|]. intros m.
      rewrite elem_of_remove_first by apply Hl. rewrite (proj2 (Hl pid)).
      rewrite (owned_by_update _ _ _ _ _ _ _ _ _ Hsl).
      destruct (decide (m = n)) as [->|]; cbn [slot_free owner]; naive_solver.
    + split; [by apply Hl|]. intros m. rewrite (proj2 (Hl p)), (owned_by_update _ _ _ _ _ _ _ _ _ Hsl).
      destruct (decide (m = n)) as [->|]; cbn [slot_free owner]; [|done].
      split; [intros (sl' & ? & ?)|]; congruence.
Qed.

Lemma free_slot_false lists s n :
  wf_lists lists s -> (forall pid, ~ owned_by s n (Some pid)) -> free_slot s n = Done (s, false).
Proof.
  intros (Ht & Hb & Hs & _) Hn. unfold free_slot. destruct (N.leb_spec (total_slots s) n); [done|].
  destruct (lookup_lt_is_Some_2 (slots s) (N.to_nat n)) as [sl Hsl]; [lia|].
  rewrite (index_done _ _ _ Hsl). cbn [mbind outcome_bind]. destruct (Hs _ _ Hsl) as [_ Hocc].
  destruct (owner sl) as [p|] eqn:E; [destruct (Hn p); by exists sl|].
  rewrite Hocc. done.
Qed.

(** One [free_slot] on a well-formed manager. *)
Lemma free_slot_wf s n : wf s -> exists s' b, free_slot s n = Done (s', b) /\ wf s' /\
  disk s' = disk s /\ (b = true <-> exists pid, owned_by s n (Some pid)) /\
  (b = true -> owned_by s' n None) /\
  (forall m, m <> n -> slots s' !! N.to_nat m = slots s !! N.to_nat m).
Proof.
  intros Hw. destruct (slots s !! N.to_nat n) as [sl|] eqn:Hsl.
  - destruct (owner sl) as [pid|] eqn:Ho.
    + destruct (free_slot_occupied _ s n sl pid Hw Hsl Ho) as (s' & Hf & Hw' & Hsl' & Hd & Hps).
      exists s', true. split_and!; try done.
      * unfold wf. eapply wf_lists_ext; [|exact Hw']. intros p. unfold without, slots_of. rewrite Hps.
        destruct (process_slots s !! pid) as [l|] eqn:El, (decide (p = pid)) as [->|Hp];
          rewrite ?lookup_insert_eq, ?lookup_insert_ne, ?El by done; done.
      * split; [|done]. intros _. by exists pid, sl.
      * intros _. exists (slot_free sl). rewrite Hsl'. split; [|done].
        by apply list_lookup_insert_eq, lookup_lt_Some with sl.
      * intros m Hm. rewrite Hsl'. by rewrite list_lookup_insert_ne by lia.
    + exists s, false. split_and!; try done.
      * apply (free_slot_false _ _ _ Hw). intros p (sl' & ? & ?). congruence.
      * split; [done|]. intros (p & sl' & ? & ?). congruence.
  - exists s, false. split_and!; try done.
    + apply (free_slot_false _ _ _ Hw). intros p (sl' & ? & ?). congruence.
    + split; [done|]. intros (p & sl' & ? & ?). congruence.
Qed.

Lemma free_slots_loop_spec pid ns : forall lists s freed,
  wf_lists lists s -> lists pid = ns -> process_slots s !! pid = None ->
  (forall p, p <> pid -> lists p = slots_of s p) -> freed + len ns < 2 ^ 64 ->
  exists s', free_slots_loop s ns freed = Done (s', freed + len ns) /\ wf s' /\
    disk s' = disk s /\ (forall n, n ∈ ns -> owned_by s' n None) /\
    (forall n, ~ owned_by s n (Some pid) -> slots s' !! N.to_nat n = slots s !! N.to_nat n).
Proof.
  induction ns as [|n ns IH]; intros lists s freed Hw Hns Hps Hlists Hb.
  - exists s. cbn [free_slots_loop length]. rewrite N.add_0_r. split_and!; try done.
    + eapply wf_lists_ext; [|exact Hw]. intros p. destruct (decide (p = pid)) as [->|Hp]; [|by apply Hlists].
      rewrite Hns. unfold slots_of. by rewrite Hps.
    + by intros n ?%not_elem_of_nil.
  - pose proof Hw as (_ & _ & _ & _ & _ & _ & Hl).
    assert (Hn : owned_by s n (Some pid)) by (apply (Hl pid); rewrite Hns; left).
    pose proof Hn as (sl & Hsl & Ho).
    destruct (free_slot_occupied _ s n sl pid Hw Hsl Ho) as (s1 & Hf & Hw1 & Hsl1 & Hd & Hps1).
    rewrite Hps in Hps1. cbn [length] in Hb.
    destruct (IH (without lists pid n) s1 (freed + 1) Hw1) as (s' & Hlp & Hw' & Hd' & Hfreed & Hsame).
    + unfold without. rewrite decide_True, Hns by done. cbn [remove_first]. by rewrite N.eqb_refl.
    + by rewrite Hps1.
    + intros p Hp. unfold without. rewrite decide_False by done. rewrite Hlists by done.
      unfold slots_of. by rewrite Hps1.
    + lia.
    + exists s'. cbn [free_slots_loop length]. rewrite Hf. cbn [mbind outcome_bind].
      rewrite wadd64_small by lia. rewrite Hlp. split_and!; try done.
      * do 2 f_equal. lia.
      * congruence.
      * assert (Hn1 : owned_by s1 n None).
        { exists (slot_free sl). rewrite Hsl1. split; [|done].
          by apply list_lookup_insert_eq, lookup_lt_Some with sl. }
        intros m Hm. apply elem_of_cons in Hm as [->|Hm]; [|by apply Hfreed].
        destruct Hn1 as (x & Hx & Hox). exists x. rewrite Hsame; [done|].
        intros (y & Hy & Hoy). congruence.
      * intros m Hm. rewrite Hsame.
        -- rewrite Hsl1. rewrite list_lookup_insert_ne; [done|]. intros E.
           replace m with n in * by lia. done.
        -- intros (x & Hx & Hox). apply Hm. rewrite Hsl1 in Hx.
           apply list_lookup_insert_Some in Hx as [(_ & <- & _)|(_ & Hx)]; [done|]. by exists x.
Qed.

Lemma owned_lists_length s pid : wf s -> len (slots_of s pid) <= total_slots s.
Proof.
  intros (Ht & _ & _ & _ & _ & _ & Hl). destruct (Hl pid) as [Hnd Hin]. rewrite Ht.
  assert (Hle : (length (slots_of s pid) <= length (N.of_nat <$> seq 0 (length (slots s))))%nat).
  { apply submseteq_length, NoDup_submseteq; [done|]. intros m Hm. apply Hin in Hm as (sl & Hsl & _).
    apply list_elem_of_fmap. exists (N.to_nat m). split; [lia|]. apply elem_of_seq.
    pose proof (lookup_lt_Some _ _ _ Hsl). lia. }
  rewrite length_fmap, length_seq in Hle. lia.
Qed.

Lemma free_process_slots_wf s pid : wf s ->
  exists s', free_process_slots s pid = Done (s', len (slots_of s pid)) /\ wf s' /\ disk s' = disk s /\
    (forall n, n ∈ slots_of s pid -> owned_by s' n None) /\
    (forall n, ~ owned_by s n (Some pid) -> slots s' !! N.to_nat n = slots s !! N.to_nat n).
Proof.
  intros Hw. pose proof (owned_lists_length s pid Hw) as Hlen. pose proof Hw as (Ht & Hb & _ & _ & _ & _ & Hl).
  unfold free_process_slots. destruct (process_slots s !! pid) as [ns|] eqn:E.
  - assert (Hns : slots_of s pid = ns) by (unfold slots_of; by rewrite E). rewrite Hns in *.
    apply (free_slots_loop_spec pid ns (slots_of s)
             (with_slots s (slots s) (free_queue s) (delete pid (process_slots s)) (used_slots s)) 0);
      [exact Hw|done|..|lia].
    + cbn. by rewrite lookup_delete_eq.
    + intros p Hp. unfold slots_of. cbn [with_slots process_slots]. by rewrite lookup_delete_ne.
  - assert (Hns : slots_of s pid = []) by (unfold slots_of; by rewrite E). rewrite Hns.
    exists s. split_and!; try done. by intros n ?%not_elem_of_nil.
Qed.

(** ** Histories of calls *)

Inductive SwapOp :=
  | OpAllocate (pid : Pid) (v : N) | OpFree (n : N) | OpFreeProcess (pid : Pid)
  | OpOut (n : N) (data : list N) | OpEnable (b : bool).

Definition swap_op (s : SwapManager) (o : SwapOp) : outcome SwapManager :=
  match o with
  | OpAllocate pid v => '(s, _) ← allocate_slot s pid v; Done s
  | OpFree n => '(s, _) ← free_slot s n; Done s
  | OpFreeProcess pid => '(s, _) ← free_process_slots s pid; Done s
  | OpOut n data => Done (fst (swap_out s n data))
  | OpEnable b => Done (set_enabled b s)
  end.

Fixpoint swap_ops (s : SwapManager) (os : list SwapOp) : outcome SwapManager :=
  match os with [] => Done s | o :: os => s ← swap_op s o; swap_ops s os end.

Lemma swap_new_wf cfg d s : total_size cfg < 2 ^ 64 -> new cfg d = Done s -> wf s.
Proof.
  intros Hc Hn. unfold new in Hn. destruct (N.eqb_spec (slot_size cfg) 0) as [|Hnz]; [done|]. injection Hn as <-.
  assert (Hle : total_size cfg / slot_size cfg <= total_size cfg) by (apply N.Div0.div_le_upper_bound; nia).
  assert (Hr : length (range 0 (total_size cfg / slot_size cfg)) = N.to_nat (total_size cfg / slot_size cfg)).
  { rewrite range_map, length_fmap, length_seq, N.sub_0_r. done. }
  unfold wf, wf_lists; cbn [slots total_slots free_queue used_slots]. rewrite !length_fmap, Hr.
  assert (Hown : forall n o, owned_by {| config := cfg;
     slots := (fun i => SwapSlot_new i (slot_size cfg)) <$> range 0 (total_size cfg / slot_size cfg);
     free_queue := range 0 (total_size cfg / slot_size cfg); process_slots := ∅;
     total_slots := total_size cfg / slot_size cfg; used_slots := 0; enabled := true; disk := d |} n o
     <-> n < total_size cfg / slot_size cfg /\ o = None).
  { intros n o. unfold owned_by; cbn [slots]. split.
    - intros (sl & Hsl & <-). pose proof (lookup_lt_Some _ _ _ Hsl) as Hlt.
      rewrite length_fmap, Hr in Hlt. rewrite list_lookup_fmap in Hsl.
      destruct (range _ _ !! _); [|done]. cbn in Hsl. injection Hsl as <-. split; [lia|done].
    - intros [Hlt ->]. destruct (lookup_lt_is_Some_2 (range 0 (total_size cfg / slot_size cfg)) (N.to_nat n)) as [x Hx]; [lia|].
      exists (SwapSlot_new x (slot_size cfg)). by rewrite list_lookup_fmap, Hx. }
  split_and!; try lia.
  - intros i sl Hsl. rewrite list_lookup_fmap in Hsl. destruct (range _ _ !! i) as [x|] eqn:E; [|done].
    cbn in Hsl. injection Hsl as <-. apply range_lookup in E as [-> _]. split; [cbn; lia|done].
  - rewrite range_map. apply NoDup_fmap_2; [intros a b Hab; cbv beta in Hab; lia|apply NoDup_seq].
  - intros n. rewrite Hown, elem_of_range. split; [intros; split; [lia|done]|lia].
  - intros pid. unfold slots_of; cbn [process_slots]. rewrite lookup_empty; cbn [default from_option].
    split; [constructor|]. intros n. rewrite Hown. split; [by intros ?%not_elem_of_nil|by intros [_ ?]].
Qed.

Lemma allocate_slot_wf s pid v : wf s -> exists s' o, allocate_slot s pid v = Done (s', o) /\ wf s'.
Proof.
  intros Hw. destruct (enabled s) eqn:He; [|exists s, None; unfold allocate_slot; by rewrite He].
  destruct (free_queue s) as [|n q] eqn:Hq; [exists s, None; unfold allocate_slot; by rewrite He, Hq|].
  destruct (allocate_slot_spec s pid v n q Hw He Hq) as (sl & s' & _ & _ & H & Hw' & _). by eexists _, _.
Qed.

Lemma swap_op_wf s o : wf s -> exists s', swap_op s o = Done s' /\ wf s'.
Proof.
  intros Hw. destruct o as [pid v|n|pid|n data|b]; cbn [swap_op].
  - destruct (allocate_slot_wf s pid v Hw) as (s' & x & -> & Hw'). by exists s'.
  - destruct (free_slot_wf s n Hw) as (s' & x & -> & Hw' & _). by exists s'.
  - destruct (free_process_slots_wf s pid Hw) as (s' & -> & Hw' & _). by exists s'.
  - eexists. split; [done|]. unfold swap_out. by destruct (swap_out_loop _ _ _ _) as [d r].
  - by eexists.
Qed.

Lemma swap_ops_wf os s : wf s -> exists s', swap_ops s os = Done s' /\ wf s'.
Proof.
  revert s. induction os as [|o os IH]; intros s Hw; [by exists s|]. cbn [swap_ops].
  destruct (swap_op_wf s o Hw) as (s1 & -> & Hw1). by apply IH.
Qed.

Lemma lookup_slots_owned s pid ns : wf s -> (forall n, n ∈ ns -> owned_by s n (Some pid)) ->
  exists sls, lookup_slots s ns = Done sls /\ number <$> sls = ns /\
    forall sl, sl ∈ sls -> sl ∈ slots s /\ owner sl = Some pid.
Proof.
  intros Hw. pose proof Hw as (Ht & _ & Hs & _). induction ns as [|n ns IH]; intros Hns.
  - exists []. split_and!; [done|done|]. by intros sl ?%not_elem_of_nil.
  - destruct IH as (sls & Hl & Hnum & Hin); [intros m Hm; apply Hns; by right|].
    destruct (Hns n) as (sl & Hsl & Ho); [left|]. pose proof (lookup_lt_Some _ _ _ Hsl) as Hlt.
    exists (sl :: sls). cbn [lookup_slots]. unfold get_slot.
    destruct (N.ltb_spec n (total_slots s)); [|lia].
    rewrite (index_done _ _ _ Hsl). cbn [mbind outcome_bind]. rewrite Hl. split_and!; [done|..].
    + rewrite fmap_cons, Hnum. f_equal. destruct (Hs _ _ Hsl) as [-> _]. lia.
    + intros x Hx. apply elem_of_cons in Hx as [->|Hx]; [|by apply Hin].
      split; [by eapply list_elem_of_lookup_2|done].
Qed.

(** Property: After any history of calls no call has panicked, a slot is in the free
    queue exactly when nobody owns it, used and free slots add up to the total,
    and [get_process_slots] lists, once each, exactly the slots that the process
    owns. *)
Theorem swap_accounting cfg d s0 os :
  total_size cfg < 2 ^ 64 -> new cfg d = Done s0 ->
  exists s, swap_ops s0 os = Done s /\
    used_slots s + len (free_queue s) = total_slots s /\
    (forall n, n ∈ free_queue s <-> owned_by s n None) /\
    forall pid, exists sls, get_process_slots s pid = Done sls /\ NoDup (number <$> sls) /\
      forall sl, sl ∈ sls <-> sl ∈ slots s /\ owner sl = Some pid.
Proof.
  intros Hc Hn. destruct (swap_ops_wf os s0 (swap_new_wf _ _ _ Hc Hn)) as (s & Hs & Hw).
  exists s. pose proof Hw as (_ & _ & Hsl & _ & Hq & Hu & Hl). split_and!; try done.
  intros pid. destruct (Hl pid) as [Hnd Hin].
  destruct (lookup_slots_owned s pid (slots_of s pid) Hw) as (sls & Hlk & Hnum & Ho); [by intros; apply Hin|].
  exists sls. split_and!.
  - unfold get_process_slots. unfold slots_of in Hlk. by destruct (process_slots s !! pid).
  - by rewrite Hnum.
  - intros sl. split; [apply Ho|]. intros [Hx Hox].
    apply list_elem_of_lookup in Hx as [i Hi]. destruct (Hsl _ _ Hi) as [Hnm _].
    assert (Hm : number sl ∈ number <$> sls).
    { rewrite Hnum, Hin. exists sl. rewrite Hnm, Nat2N.id. done. }
    apply list_elem_of_fmap in Hm as (sl' & He & Hsl').
    destruct (Ho _ Hsl') as [Hx' _]. apply list_elem_of_lookup in Hx' as [i' Hi'].
    destruct (Hsl _ _ Hi') as [Hnm' _]. assert (i = i') by lia. congruence.
Qed.

Definition demo_config : SwapConfig := {| total_size := 12288; slot_size := 4096; max_slots := 3 |}.
Definition demo_swap : outcome SwapManager := new demo_config demo_disk2.

Lemma swap_accounting_witness :
  exists s0 s, demo_swap = Done s0 /\
    swap_ops s0 [OpAllocate 7 1; OpAllocate 8 2; OpFree 0; OpAllocate 8 5; OpFreeProcess 7] = Done s /\
    used_slots s + len (free_queue s) = 3 /\ used_slots s = 2.
Proof.
  eexists. pose proof (swap_accounting demo_config demo_disk2 _
    [OpAllocate 7 1; OpAllocate 8 2; OpFree 0; OpAllocate 8 5; OpFreeProcess 7] eq_refl eq_refl) as (s & Hs & Hu & _).
  exists s. split; [reflexivity|]. split; [exact Hs|].
  vm_compute in Hs. injection Hs as <-. split; [exact Hu|reflexivity].
Defined.

(** Property: [allocate_slot] answers with a slot that nobody owned, now owned by the
    caller, and changes no other slot and no data; it answers [None], without
    any change, exactly when swapping is disabled or every slot is owned. *)
Theorem allocate_slot_exclusive s pid v :
  wf s ->
  match allocate_slot s pid v with
  | Done (s', Some sl) =>
      owned_by s (number sl) None /\ owner sl = Some pid /\ vpn sl = Some v /\
      slots s' !! N.to_nat (number sl) = Some sl /\
      (forall n, n <> number sl -> slots s' !! N.to_nat n = slots s !! N.to_nat n) /\
      disk s' = disk s /\ wf s'
  | Done (s', None) => s' = s /\ (enabled s = false \/ forall n, ~ owned_by s n None)
  | _ => False
  end.
Proof.
  intros Hw. destruct (enabled s) eqn:He.
  - destruct (free_queue s) as [|n q] eqn:Hq.
    + unfold allocate_slot. rewrite He, Hq. split; [done|]. right. intros n Hn.
      destruct Hw as (_ & _ & _ & _ & Hqs & _). apply Hqs in Hn. rewrite Hq in Hn. by apply not_elem_of_nil in Hn.
    + destruct (allocate_slot_spec s pid v n q Hw He Hq) as (sl & s' & Hsl & Ho & -> & Hw' & Hss & Hnum & Hd).
      cbn [occupy number owner vpn]. rewrite Hnum. split_and!; try done.
      * by exists sl.
      * rewrite Hss. by rewrite list_lookup_insert_eq by by eapply lookup_lt_Some.
      * intros m Hm. rewrite Hss. by rewrite list_lookup_insert_ne by lia.
  - unfold allocate_slot. rewrite He. cbn [negb]. split; [done|by left].
Qed.

Lemma allocate_slot_exclusive_witness :
  exists s0 s' sl, demo_swap = Done s0 /\ allocate_slot s0 7 1 = Done (s', Some sl) /\ owner sl = Some 7.
Proof.
  eexists _, _, _. split; [reflexivity|].
  match goal with |- allocate_slot ?s _ _ = _ /\ _ => 
    pose proof (allocate_slot_exclusive s 7 1 (swap_new_wf demo_config demo_disk2 s eq_refl eq_refl)) as H end.
  split; [reflexivity|]. apply H.
Defined.

(** Property: [free_process_slots] frees every slot of the process, answers how many
    they were, and leaves every other slot and the data alone. *)
Theorem free_process_slots_spec s pid :
  wf s ->
  exists s', free_process_slots s pid = Done (s', len (slots_of s pid)) /\
    (forall n, n ∈ slots_of s pid -> owned_by s' n None) /\
    (forall n, n ∉ slots_of s pid -> slots s' !! N.to_nat n = slots s !! N.to_nat n) /\
    slots_of s' pid = [] /\ disk s' = disk s /\ wf s'.
Proof.
  intros Hw. destruct (free_process_slots_wf s pid Hw) as (s' & Hf & Hw' & Hd & Hfreed & Hsame).
  pose proof Hw as (_ & _ & _ & _ & _ & _ & Hl). pose proof Hw' as (_ & _ & _ & _ & _ & _ & Hl').
  exists s'. split_and!; try done.
  - intros n Hn. apply Hsame. intros Ho. by apply Hn, (Hl pid).
  - destruct (slots_of s' pid) as [|n l] eqn:E; [done|].
    assert (Ho' : owned_by s' n (Some pid)) by (apply (Hl' pid); rewrite E; left).
    destruct (decide (n ∈ slots_of s pid)) as [Hn|Hn].
    + pose proof (owned_by_fun _ _ _ _ Ho' (Hfreed n Hn)). done.
    + destruct Ho' as (x & Hx & Hox). rewrite Hsame in Hx by (by rewrite <- (proj2 (Hl pid))).
      destruct Hn. apply (Hl pid). by exists x.
Qed.

Lemma free_process_slots_spec_witness :
  exists s0 s s', demo_swap = Done s0 /\ swap_ops s0 [OpAllocate 7 1; OpAllocate 8 2; OpAllocate 7 3] = Done s /\
    slots_of s 7 = [0; 2] /\ free_process_slots s 7 = Done (s', 2) /\ slots_of s' 7 = [].
Proof.
  eexists. destruct (swap_ops_wf [OpAllocate 7 1; OpAllocate 8 2; OpAllocate 7 3] _
    (swap_new_wf demo_config demo_disk2 _ eq_refl eq_refl)) as (s & Hs & Hw).
  destruct (free_process_slots_spec s 7 Hw) as (s' & Hf & _ & _ & He & _).
  assert (Hso : slots_of s 7 = [0; 2]) by (vm_compute in Hs; injection Hs as <-; reflexivity).
  exists s, s'. rewrite Hso in Hf. split; [reflexivity|]. split; [exact Hs|]. by split.
Defined.

(** ** Round trip through the disk *)

Lemma sector_of_length data i : length (sector_of data i) = 512%nat.
Proof. unfold sector_of. rewrite length_app, length_replicate, length_take. lia. Qed.

Lemma swap_out_loop_ok start data ids : forall d,
  NoDup ids -> (forall i, i ∈ ids -> start + i < total_sectors d) -> total_sectors d < 2 ^ 32 ->
  exists d', swap_out_loop start data ids d = (d', Ok tt) /\ total_sectors d' = total_sectors d /\
    bitmap d' = bitmap d /\
    (forall i, i ∈ ids -> read_sector d' (start + i) = Ok (sector_of data i)) /\
    (forall t x, (forall i, i ∈ ids -> t <> start + i) -> read_sector d t = Ok x -> read_sector d' t = Ok x).
Proof.
  induction ids as [|i ids IH]; intros d Hnd Hin Htot.
  - exists d. split_and!; try done. by intros i ?%not_elem_of_nil.
  - apply list.NoDup_cons in Hnd as [Hi Hnd]. cbn [swap_out_loop].
    assert (Hlt : start + i < total_sectors d) by (apply Hin; left).
    rewrite wadd32_small by lia.
    assert (Hw := proj2 (write_sector_ok d (start + i) (sector_of data i) _)
      (conj Hlt (conj (f_equal N.of_nat (sector_of_length data i)) eq_refl))).
    rewrite Hw. destruct (write_sector_read _ _ _ _ Hw) as (Hr & Ho & Hb & Ht).
    set (d1 := with_file d _) in *.
    destruct (IH d1 Hnd) as (d' & Hl & Ht' & Hb' & Hr' & Ho').
    + intros j Hj. rewrite Ht. apply Hin. by right.
    + by rewrite Ht.
    + exists d'. split_and!; [exact Hl|congruence|congruence|..].
      * intros j Hj. apply elem_of_cons in Hj as [->|Hj]; [|by apply Hr'].
        apply Ho'; [|done]. intros k Hk E. replace k with i in Hk by lia. done.
      * intros t x Hx Hrd. apply Ho'; [intros j Hj; apply Hx; by right|].
        apply Ho; [|done]. apply Hx. left.
Qed.

Lemma swap_in_loop_ok d start (c : N -> list N) n : forall k (A : list N),
  (forall i, i < N.of_nat (k + n) -> read_sector d (start + i) = Ok (c i) /\ length (c i) = 512%nat) ->
  start + N.of_nat (k + n) < 2 ^ 32 -> length A = (k * 512)%nat ->
  swap_in_loop d start (N.of_nat <$> seq k n) (A ++ replicate (n * 512) 0) =
  Ok (A ++ flat_map c (N.of_nat <$> seq k n)).
Proof.
  induction n as [|n IH]; intros k A Hc Hs HA.
  - cbn [seq fmap list_fmap swap_in_loop flat_map Nat.mul replicate]. done.
  - cbn [seq]. rewrite fmap_cons. cbn [swap_in_loop flat_map].
    destruct (Hc (N.of_nat k)) as [Hr Hl]; [lia|]. rewrite wadd32_small by lia.
    rewrite Hr. cbn [map_err mbind result_bind]. unfold splice.
    replace (N.to_nat (N.of_nat k * 512)) with (k * 512)%nat by lia.
    rewrite take_app_length' by done. rewrite <- HA at 1. rewrite drop_app_add, drop_replicate.
    replace (S n * 512 - 512)%nat with (n * 512)%nat by lia.
    rewrite app_assoc. rewrite IH.
    + by rewrite <- app_assoc.
    + intros i Hi. apply Hc. lia.
    + lia.
    + rewrite length_app, Hl. lia.
Qed.

Definition padded (data : list N) : list N := data ++ replicate (4096 - length data) 0.

Lemma sectors_of_data data n : (length data <= 4096)%nat -> (n <= 8)%nat ->
  flat_map (sector_of data) (N.of_nat <$> seq 0 n) = take (n * 512) (padded data).
Proof.
  intros Hd. induction n as [|n IH]; intros Hn; [done|].
  rewrite seq_S, fmap_app, flat_map_app, IH by lia. cbn [fmap list_fmap flat_map Nat.add].
  rewrite app_nil_r. replace (S n * 512)%nat with (n * 512 + 512)%nat by lia.
  rewrite <- take_take_drop. f_equal. unfold sector_of, padded.
  replace (N.to_nat (N.of_nat n * 512)) with (n * 512)%nat by lia.
  rewrite length_take, length_drop. destruct (Nat.le_gt_cases (n * 512) (length data)) as [Hle|Hgt].
  - rewrite drop_app_le by done. rewrite take_app, take_replicate, length_drop.
    do 2 f_equal. lia.
  - rewrite (drop_ge data) by lia. rewrite take_nil, drop_app_ge, drop_replicate, take_replicate by lia.
    cbn [app]. f_equal. lia.
Qed.

Lemma range_seq n : range 0 n = N.of_nat <$> seq 0 (N.to_nat n).
Proof. rewrite range_map, N.sub_0_r. apply list_fmap_ext. intros. lia. Qed.

Lemma slot_start_small n k : n * 8 + k < 2 ^ 32 -> slot_start n = n * 8.
Proof. intros H. unfold slot_start, wmul64, to_u32. rewrite (N.mod_small (n * 8) (2 ^ 64)), N.mod_small; lia. Qed.

Lemma swap_out_spec s n data :
  n * 8 + 8 <= total_sectors (disk s) -> total_sectors (disk s) < 2 ^ 32 ->
  (length data <= 4096)%nat ->
  let '(s', r) := swap_out s n data in
  r = Ok tt /\ swap_in s' n = Ok (data ++ replicate (4096 - length data) 0) /\
  s' = with_disk s (disk s') /\
  (forall m, m <> n -> m * 8 + 8 <= total_sectors (disk s) ->
     (forall i, i < 8 -> exists x, read_sector (disk s) (m * 8 + i) = Ok x /\ length x = 512%nat) ->
     swap_in s' m = swap_in s m).
Proof.
  intros Hn Htot Hd. unfold swap_out. rewrite (slot_start_small n 7) by lia.
  assert (Hnd : NoDup (range 0 8)) by (rewrite range_seq; apply NoDup_fmap_2; [intros a b; lia|apply NoDup_seq]).
  destruct (swap_out_loop_ok (n * 8) data (range 0 8) (disk s) Hnd) as (d' & Hl & Ht & Hb & Hr & Ho);
    [intros i Hi%elem_of_range; lia|done|].
  rewrite Hl. split_and!; [done| |done|].
  - unfold swap_in. cbn [disk with_disk]. rewrite (slot_start_small n 7), range_seq by lia.
    change (N.to_nat 8) with 8%nat. change (replicate (N.to_nat 4096) 0) with ([] ++ replicate (8 * 512) 0).
    rewrite (swap_in_loop_ok d' (n * 8) (sector_of data) 8 0 []); [|..|done].
    + cbn [app]. rewrite sectors_of_data by lia. f_equal. unfold padded. apply take_ge.
      rewrite length_app, length_replicate. lia.
    + intros i Hi. split; [|apply sector_of_length]. apply Hr, elem_of_range. lia.
    + lia.
  - intros m Hm Hlim Hread. unfold swap_in. cbn [disk with_disk].
    rewrite (slot_start_small m 7), range_seq by lia.
    set (c := fun i => match read_sector (disk s) (m * 8 + i) with Ok x => x | Err _ => [] end).
    change (N.to_nat 8) with 8%nat. change (replicate (N.to_nat 4096) 0) with ([] ++ replicate (8 * 512) 0).
    rewrite (swap_in_loop_ok d' (m * 8) c 8 0 []), (swap_in_loop_ok (disk s) (m * 8) c 8 0 []);
      try done; try lia; intros i Hi; destruct (Hread i) as (x & Hx & Hlx); try lia;
      unfold c; rewrite Hx; (split; [|done]); [done|].
    apply Ho; [|done]. intros j Hj%elem_of_range. lia.
Qed.

(** C27: For a slot inside the swap disk, swapping a page out succeeds and
    swapping it in gives the page back (padded with zeros to 4096 bytes), while
    every other slot of the disk still swaps in the data it had. *)
Theorem swap_out_swap_in s n data :
  n * 8 + 8 <= total_sectors (disk s) -> total_sectors (disk s) < 2 ^ 32 ->
  (length data <= 4096)%nat ->
  let '(s', r) := swap_out s n data in
  r = Ok tt /\ swap_in s' n = Ok (data ++ replicate (4096 - length data) 0) /\
  slots s' = slots s /\
  (forall m, m <> n -> m * 8 + 8 <= total_sectors (disk s) ->
     (forall i, i < 8 -> exists x, read_sector (disk s) (m * 8 + i) = Ok x /\ length x = 512%nat) ->
     swap_in s' m = swap_in s m).
Proof.
  intros Hn Htot Hd. pose proof (swap_out_spec s n data Hn Htot Hd) as H.
  destruct (swap_out s n data) as [s' r]. destruct H as (-> & Hin & -> & Ho). by split_and!.
Qed.

(** a manager of three slots on a disk of 40 sectors *)
Definition demo_swap_disk : VirtualDisk :=
  {| file := file_set_len [] (40 * SECTOR_SIZE); total_sectors := 40; bitmap := [7] |}.

Lemma swap_out_swap_in_witness :
  exists s s', new demo_config demo_swap_disk = Done s /\
    swap_out s 2 (replicate 100 9) = (s', Ok tt) /\
    swap_in s' 2 = Ok (replicate 100 9 ++ replicate (4096 - length (replicate 100 (9 : N))) 0).
Proof.
  eexists.
  assert (H : forall s, disk s = demo_swap_disk -> exists s', swap_out s 2 (replicate 100 9) = (s', Ok tt) /\
     swap_in s' 2 = Ok (replicate 100 9 ++ replicate (4096 - length (replicate 100 (9 : N))) 0)).
  { intros s Hs. pose proof (swap_out_swap_in s 2 (replicate 100 9)) as H. rewrite Hs in H.
    destruct (swap_out s 2 (replicate 100 9)) as [s' r]. exists s'.
    destruct H as (-> & H & _); [vm_compute; discriminate|reflexivity|rewrite length_replicate; lia|].
    by split. }
  edestruct H as (s' & Hs'); [|exists s'; split; [reflexivity|exact Hs']]. reflexivity.
Defined.

(** Property: For a slot past the end of the swap disk, swapping out fails before
    anything is written.  The default configuration has 262144 slots, the swap
    disk that the memory service creates has 256 sectors: the slots from 32 on
    are handed out but hold nothing. *)
Theorem swap_out_past_disk s n data :
  total_sectors (disk s) <= n * 8 -> n * 8 < 2 ^ 32 ->
  exists e, swap_out s n data = (s, Err (SwapOutFailed e)) /\
    e = InvalidSector (n * 8) (wsub32 (total_sectors (disk s)) 1).
Proof.
  intros Hn Hb. eexists. split; [|done].
  unfold swap_out. rewrite (slot_start_small n 0) by lia.
  rewrite range_cons by lia. cbn [swap_out_loop]. rewrite wadd32_small, N.add_0_r by lia.
  unfold write_sector, check_sector. destruct (N.leb_spec (total_sectors (disk s)) (n * 8)); [|lia].
  rstep. by destruct s.
Qed.

Lemma swap_out_past_disk_witness :
  exists e s d, Disk.new 256 [] = Done d /\ disk s = d /\ total_slots s = 262144 /\
    swap_out s 32 [1; 2; 3] = (s, Err (SwapOutFailed e)).
Proof.
  set (d := {| file := file_set_len [] (256 * SECTOR_SIZE); total_sectors := 256;
               bitmap := mark_used_range (replicate 4 0) 0 3 |}).
  set (s := {| config := SwapConfig_default; slots := []; free_queue := []; process_slots := ∅;
               total_slots := total_size SwapConfig_default / slot_size SwapConfig_default;
               used_slots := 0; enabled := true; disk := d |}).
  destruct (swap_out_past_disk s 32 [1; 2; 3]) as (e & He & _); [done|done|].
  exists e, s, d. split; [reflexivity|]. split; [reflexivity|]. split; [reflexivity|exact He].
Defined.
