(* ===== verification/Sched.v ===== *)
(** * The scheduler (src/src/services/process/scheduler.rs)

    [Scheduler] keeps one ready queue, one priority queue and, per CPU, the
    current process and the ticks of its quantum.  [ready_since], a wall-clock
    time stamp that nothing reads, is left out.  Indexing the per-CPU vectors
    out of range panics. *)
From S2P Require Import Prelude Types.

Inductive SchedulingPolicy :=
  | FIFO
  | RoundRobin (quantum : N)
  | Priority
  | SJF
  | MLFQ.

Definition SchedulingPolicy_default : SchedulingPolicy := RoundRobin 10.

Inductive SchedulingDecision := Run (pid : Pid) (tid : Tid) | Idle | Halt.

Record ReadyQueueEntry := { e_pid : Pid; e_tid : Tid; e_priority : N }.

Record Scheduler := {
  policy : SchedulingPolicy;
  ready_queue : list ReadyQueueEntry;
  priority_queue : list ReadyQueueEntry;
  cpu_current : list (option (Pid * Tid));
  cpu_ticks : list N;
  time_slice : N; total_scheduled : N; context_switches : N }.

Definition with_queues (s : Scheduler) rq pq : Scheduler :=
  {| policy := policy s; ready_queue := rq; priority_queue := pq; cpu_current := cpu_current s;
     cpu_ticks := cpu_ticks s; time_slice := time_slice s; total_scheduled := total_scheduled s;
     context_switches := context_switches s |}.
Definition with_cpus (s : Scheduler) cs ts : Scheduler :=
  {| policy := policy s; ready_queue := ready_queue s; priority_queue := priority_queue s;
     cpu_current := cs; cpu_ticks := ts; time_slice := time_slice s;
     total_scheduled := total_scheduled s; context_switches := context_switches s |}.
Definition count_switch (s : Scheduler) : Scheduler :=
  {| policy := policy s; ready_queue := ready_queue s; priority_queue := priority_queue s;
     cpu_current := cpu_current s; cpu_ticks := cpu_ticks s; time_slice := time_slice s;
     total_scheduled := wadd64 (total_scheduled s) 1; context_switches := wadd64 (context_switches s) 1 |}.

Definition new (p : SchedulingPolicy) (cpu_count : N) : Scheduler :=
  {| policy := p; ready_queue := []; priority_queue := [];
     cpu_current := replicate (N.to_nat cpu_count) None;
     cpu_ticks := replicate (N.to_nat cpu_count) 0;
     time_slice := match p with RoundRobin quantum => quantum | _ => 10 end;
     total_scheduled := 0; context_switches := 0 |}.

Definition fifo : Scheduler := new FIFO 1.
Definition round_robin (quantum : N) : Scheduler := new (RoundRobin quantum) 1.
Definition priority : Scheduler := new Priority 1.

(** [insert] before the first entry of lower priority *)
Fixpoint insert_by_priority (e : ReadyQueueEntry) (q : list ReadyQueueEntry) : list ReadyQueueEntry :=
  match q with
  | [] => [e]
  | x :: q => if e_priority x <? e_priority e then e :: x :: q else x :: insert_by_priority e q
  end.

Definition ready (s : Scheduler) (pid : Pid) (tid : Tid) (prio : N) : Scheduler :=
  let entry := {| e_pid := pid; e_tid := tid; e_priority := prio |} in
  match policy s with
  | FIFO | RoundRobin _ => with_queues s (ready_queue s ++ [entry]) (priority_queue s)
  | Priority | SJF => with_queues s (ready_queue s) (insert_by_priority entry (priority_queue s))
  | MLFQ => with_queues s (ready_queue s ++ [entry]) (priority_queue s)
  end.

Definition is_entry (pid : Pid) (tid : Tid) (e : ReadyQueueEntry) : bool :=
  (e_pid e =? pid) && (e_tid e =? tid).

(** [position] and [remove]: without the first match, and whether there was one *)
Fixpoint remove_entry (pid : Pid) (tid : Tid) (q : list ReadyQueueEntry) : list ReadyQueueEntry * bool :=
  match q with
  | [] => ([], false)
  | e :: q =>
      if is_entry pid tid e then (q, true)
      else let '(q', b) := remove_entry pid tid q in (e :: q', b)
  end.

Definition clear_current (pid : Pid) (tid : Tid) (c : option (Pid * Tid)) : option (Pid * Tid) :=
  if bool_decide (c = Some (pid, tid)) then None else c.
Definition clear_ticks (pid : Pid) (tid : Tid) (c : option (Pid * Tid)) (t : N) : N :=
  if bool_decide (c = Some (pid, tid)) then 0 else t.

Definition remove (s : Scheduler) (pid : Pid) (tid : Tid) : Scheduler * bool :=
  let s := with_cpus s (clear_current pid tid <$> cpu_current s)
             (zip_with (clear_ticks pid tid) (cpu_current s) (cpu_ticks s)) in
  let '(q, b) := remove_entry pid tid (ready_queue s) in
  (with_queues s q (priority_queue s), b).

Definition block (s : Scheduler) (pid : Pid) (tid : Tid) : Scheduler * bool := remove s pid tid.

(** the pids that run on the other CPUs *)
Fixpoint busy_from (i : N) (cpu : N) (cs : list (option (Pid * Tid))) : list Pid :=
  match cs with
  | [] => []
  | c :: cs =>
      (if i =? cpu then [] else match c with Some (p, _) => [p] | None => [] end) ++ busy_from (i + 1) cpu cs
  end.
Definition busy (s : Scheduler) (cpu : N) : list Pid := busy_from 0 cpu (cpu_current s).

(** The loop of [dequeue_next], [n] rounds: entries of busy pids go to the back. *)
Fixpoint dequeue_loop (n : nat) (bs : list Pid) (q : list ReadyQueueEntry)
    : list ReadyQueueEntry * option ReadyQueueEntry :=
  match n with
  | O => (q, None)
  | S n =>
      match q with
      | [] => dequeue_loop n bs []
      | e :: q =>
          if bool_decide (e_pid e ∈ bs) then dequeue_loop n bs (q ++ [e]) else (q, Some e)
      end
  end.

Definition set_cpu (s : Scheduler) (cpu : N) c t : Scheduler :=
  with_cpus s (<[N.to_nat cpu := c]> (cpu_current s)) (<[N.to_nat cpu := t]> (cpu_ticks s)).

Definition dequeue_next (s : Scheduler) (cpu : N) : Scheduler * SchedulingDecision :=
  match dequeue_loop (length (ready_queue s)) (busy s cpu) (ready_queue s) with
  | (q, Some e) =>
      (count_switch (set_cpu (with_queues s q (priority_queue s)) cpu (Some (e_pid e, e_tid e)) 0),
       Run (e_pid e) (e_tid e))
  | (q, None) =>
      (with_cpus (with_queues s q (priority_queue s)) (<[N.to_nat cpu := None]> (cpu_current s)) (cpu_ticks s), Idle)
  end.

(** back to the ready queue, with the default priority *)
Definition requeue (s : Scheduler) (cpu : N) (pid : Pid) (tid : Tid) : Scheduler :=
  set_cpu (ready s pid tid 128) cpu None 0.

Definition schedule (s : Scheduler) (cpu : N) : outcome (Scheduler * SchedulingDecision) :=
  c ← index (cpu_current s) cpu;
  match c with
  | Some (pid, tid) =>
      t ← index (cpu_ticks s) cpu;
      let t := wadd64 t 1 in
      if t <? time_slice s
      then Done (set_cpu s cpu (Some (pid, tid)) t, Run pid tid)
      else Done (dequeue_next (requeue s cpu pid tid) cpu)
  | None => Done (dequeue_next s cpu)
  end.

Definition yield_current (s : Scheduler) (cpu : N) : outcome (Scheduler * SchedulingDecision) :=
  c ← index (cpu_current s) cpu;
  match c with
  | Some (pid, tid) => Done (dequeue_next (requeue s cpu pid tid) cpu)
  | None => Done (dequeue_next s cpu)
  end.

Definition ready_count (s : Scheduler) : N := len (ready_queue s) + len (priority_queue s).
Definition queue_pids (s : Scheduler) : list Pid := e_pid <$> ready_queue s.
Definition current_on (s : Scheduler) (cpu : N) : option (Pid * Tid) := mjoin (cpu_current s !! N.to_nat cpu).

(** ** Histories *)

Inductive SchedOp :=
  | OpReady (pid : Pid) (tid : Tid) (prio : N) | OpRemove (pid : Pid) (tid : Tid)
  | OpSchedule (cpu : N) | OpYield (cpu : N).

Definition sched_op (s : Scheduler) (o : SchedOp) : outcome (Scheduler * option SchedulingDecision) :=
  match o with
  | OpReady pid tid prio => Done (ready s pid tid prio, None)
  | OpRemove pid tid => Done (fst (remove s pid tid), None)
  | OpSchedule cpu => '(s, d) ← schedule s cpu; Done (s, Some d)
  | OpYield cpu => '(s, d) ← yield_current s cpu; Done (s, Some d)
  end.

(** The decisions of a history, and the state after it. *)
Fixpoint sched_ops (s : Scheduler) (os : list SchedOp) : outcome (Scheduler * list SchedulingDecision) :=
  match os with
  | [] => Done (s, [])
  | o :: os =>
      '(s, d) ← sched_op s o;
      '(s, ds) ← sched_ops s os;
      Done (s, match d with Some d => d :: ds | None => ds end)
  end.

(** the policies whose processes wait in [ready_queue] *)
Definition queue_policy (s : Scheduler) : bool :=
  match policy s with Priority | SJF => false | _ => true end.

(** ** Lemmas: the dequeue loop *)

Definition is_busy (bs : list Pid) (e : ReadyQueueEntry) : Prop := e_pid e ∈ bs.

Lemma dequeue_loop_rotate bs pre : forall n rest, Forall (is_busy bs) pre ->
  dequeue_loop (length pre + n) bs (pre ++ rest) = dequeue_loop n bs (rest ++ pre).
Proof.
  induction pre as [|x pre IH]; intros n rest Hb; cbn [length app Nat.add].
  - by rewrite app_nil_r.
  - apply Forall_cons_1 in Hb as [Hx Hb]. cbn [dequeue_loop]. rewrite bool_decide_true by done.
    rewrite <- app_assoc, IH by done. by rewrite <- app_assoc.
Qed.

Lemma dequeue_loop_all_busy bs q : Forall (is_busy bs) q -> dequeue_loop (length q) bs q = (q, None).
Proof.
  intros H. pose proof (dequeue_loop_rotate bs q 0 [] H) as E.
  rewrite Nat.add_0_r, app_nil_r in E. exact E.
Qed.

Lemma dequeue_loop_found bs pre e post :
  Forall (is_busy bs) pre -> ~ is_busy bs e ->
  dequeue_loop (length (pre ++ e :: post)) bs (pre ++ e :: post) = (post ++ pre, Some e).
Proof.
  intros Hp He. rewrite length_app, dequeue_loop_rotate by done.
  cbn [length app dequeue_loop]. by rewrite bool_decide_false.
Qed.

Lemma split_busy bs q : Forall (is_busy bs) q \/
  exists pre e post, q = pre ++ e :: post /\ Forall (is_busy bs) pre /\ ~ is_busy bs e.
Proof.
  induction q as [|e q [IH|(pre & x & post & -> & Hp & Hx)]]; [by left|..].
  - destruct (decide (e_pid e ∈ bs)); [left; by constructor|]. right. exists [], e, q. by split_and!.
  - destruct (decide (e_pid e ∈ bs)).
    + right. exists (e :: pre), x, post. split_and!; [done|by constructor|done].
    + right. exists [], e, (pre ++ x :: post). by split_and!.
Qed.

Lemma elem_of_busy_from p cpu cs : forall k,
  p ∈ busy_from k cpu cs <-> exists i t, cs !! i = Some (Some (p, t)) /\ k + N.of_nat i <> cpu.
Proof.
  induction cs as [|c cs IH]; intros k; cbn [busy_from].
  - split; [by intros ?%not_elem_of_nil|]. by intros (i & t & H & _).
  - rewrite elem_of_app, IH. split.
    + intros [H|(i & t & Hi & Hne)].
      * exists 0%nat. destruct (N.eqb_spec k cpu); [by apply not_elem_of_nil in H|].
        destruct c as [[p' t]|]; [|by apply not_elem_of_nil in H].
        apply list_elem_of_singleton in H as ->. exists t. split; [done|lia].
      * exists (S i), t. split; [done|lia].
    + intros ([|i] & t & Hi & Hne).
      * left. cbn in Hi. injection Hi as ->. destruct (N.eqb_spec k cpu); [lia|]. by left.
      * right. exists i, t. split; [done|lia].
Qed.

Lemma elem_of_busy p s cpu :
  p ∈ busy s cpu <-> exists i t, cpu_current s !! i = Some (Some (p, t)) /\ i <> N.to_nat cpu.
Proof.
  unfold busy. rewrite elem_of_busy_from. split; intros (i & t & H & Hne); exists i, t; (split; [done|lia]).
Qed.

(** The two outcomes of [dequeue_next]. *)
Lemma dequeue_next_idle s cpu : Forall (is_busy (busy s cpu)) (ready_queue s) ->
  dequeue_next s cpu =
  (with_cpus (with_queues s (ready_queue s) (priority_queue s)) (<[N.to_nat cpu := None]> (cpu_current s)) (cpu_ticks s), Idle).
Proof. intros H. unfold dequeue_next. by rewrite dequeue_loop_all_busy. Qed.

Lemma dequeue_next_run s cpu pre e post :
  ready_queue s = pre ++ e :: post -> Forall (is_busy (busy s cpu)) pre -> ~ is_busy (busy s cpu) e ->
  dequeue_next s cpu =
  (count_switch (set_cpu (with_queues s (post ++ pre) (priority_queue s)) cpu (Some (e_pid e, e_tid e)) 0),
   Run (e_pid e) (e_tid e)).
Proof. intros Hq Hp He. unfold dequeue_next. by rewrite Hq, dequeue_loop_found. Qed.

(** ** No process on two CPUs *)

Definition exclusive (cs : list (option (Pid * Tid))) : Prop :=
  forall i j p t t', cs !! i = Some (Some (p, t)) -> cs !! j = Some (Some (p, t')) -> i = j.

Definition sched_wf (s : Scheduler) : Prop :=
  exclusive (cpu_current s) /\ length (cpu_ticks s) = length (cpu_current s).

Lemma exclusive_sub cs cs' :
  (forall i x, cs' !! i = Some (Some x) -> cs !! i = Some (Some x)) -> exclusive cs -> exclusive cs'.
Proof. intros Hs He i j p t t' Hi Hj. eapply He; by apply Hs. Qed.

Lemma exclusive_none cs i : exclusive cs -> exclusive (<[i := None]> cs).
Proof.
  apply exclusive_sub. intros j x Hj. by apply list_lookup_insert_Some in Hj as [(_ & ? & _)|[_ Hj]].
Qed.

Lemma dequeue_next_wf s cpu : sched_wf s -> sched_wf (fst (dequeue_next s cpu)).
Proof.
  intros [He Hl]. destruct (split_busy (busy s cpu) (ready_queue s)) as [Hb|(pre & e & post & Hq & Hp & Hx)].
  - rewrite dequeue_next_idle by done. split; cbn [fst with_cpus cpu_current cpu_ticks].
    + by apply exclusive_none.
    + by rewrite length_insert.
  - erewrite dequeue_next_run by done. split; cbn [fst count_switch set_cpu with_cpus with_queues cpu_current cpu_ticks].
    + assert (Hnew : forall k t, cpu_current s !! k = Some (Some (e_pid e, t)) -> k = N.to_nat cpu).
      { intros k t Hk. destruct (decide (k = N.to_nat cpu)); [done|]. destruct Hx.
        apply elem_of_busy. by exists k, t. }
      intros i j p t t' Hi Hj.
      apply list_lookup_insert_Some in Hi as [(Hi & Hpi & _)|[Hni Hi]];
        apply list_lookup_insert_Some in Hj as [(Hj & Hpj & _)|[Hnj Hj]]; simplify_eq; try done.
      * by destruct Hnj; symmetry; eapply Hnew.
      * by destruct Hni; symmetry; eapply Hnew.
      * by eapply He.
    + by rewrite !length_insert.
Qed.

Lemma ready_wf s pid tid prio : sched_wf s -> sched_wf (ready s pid tid prio).
Proof. intros H. unfold ready. by destruct (policy s). Qed.

Lemma set_cpu_wf s cpu p t t' k :
  sched_wf s -> cpu_current s !! N.to_nat cpu = Some (Some (p, t)) -> sched_wf (set_cpu s cpu (Some (p, t')) k).
Proof.
  intros [He Hl] Hc. split; cbn [set_cpu with_cpus cpu_current cpu_ticks]; [|by rewrite !length_insert].
  intros i j q u u' Hi Hj.
  apply list_lookup_insert_Some in Hi as [(Hi & Hpi & _)|[Hni Hi]];
    apply list_lookup_insert_Some in Hj as [(Hj & Hpj & _)|[Hnj Hj]]; simplify_eq; try done; by eapply He.
Qed.

Lemma requeue_wf s cpu pid tid : sched_wf s -> sched_wf (requeue s cpu pid tid).
Proof.
  intros H. unfold requeue. destruct (ready_wf s pid tid 128 H) as [He Hl].
  split; cbn [set_cpu with_cpus cpu_current cpu_ticks]; [by apply exclusive_none|by rewrite !length_insert].
Qed.

Lemma remove_wf s pid tid : sched_wf s -> sched_wf (fst (remove s pid tid)).
Proof.
  intros [He Hl]. unfold remove. destruct (remove_entry _ _ _) as [q b].
  split; cbn [fst with_queues with_cpus cpu_current cpu_ticks].
  - revert He. apply exclusive_sub. intros i x Hx. rewrite list_lookup_fmap in Hx.
    destruct (cpu_current s !! i) as [c|]; [|done]. cbn in Hx. injection Hx as Hx.
    unfold clear_current in Hx. by destruct (bool_decide _); simplify_eq.
  - rewrite length_fmap, length_zip_with. lia.
Qed.

(** [schedule] and [yield_current] answer on an existing CPU. *)
Lemma schedule_step s cpu : sched_wf s -> cpu < len (cpu_current s) ->
  exists s' d, schedule s cpu = Done (s', d) /\ sched_wf s' /\ length (cpu_current s') = length (cpu_current s).
Proof.
  intros Hw Hc. pose proof Hw as [He Hl].
  destruct (lookup_lt_is_Some_2 (cpu_current s) (N.to_nat cpu)) as [c Hcur]; [lia|].
  destruct (lookup_lt_is_Some_2 (cpu_ticks s) (N.to_nat cpu)) as [t Htick]; [lia|].
  assert (Hdq : forall s0, length (cpu_current (fst (dequeue_next s0 cpu))) = length (cpu_current s0)).
  { intros s0. unfold dequeue_next. destruct (dequeue_loop _ _ _) as [q [e|]]; cbn; by rewrite length_insert. }
  unfold schedule. rewrite (index_done _ _ _ Hcur). cbn [mbind outcome_bind].
  destruct c as [[p u]|].
  - rewrite (index_done _ _ _ Htick). cbn [mbind outcome_bind].
    destruct (wadd64 t 1 <? time_slice s).
    + eexists _, _. split; [done|]. split; [by eapply set_cpu_wf|]. cbn. by rewrite length_insert.
    + rewrite (surjective_pairing (dequeue_next _ _)). eexists _, _. split; [done|].
      split; [by apply dequeue_next_wf, requeue_wf|]. rewrite Hdq. unfold requeue, ready.
      destruct (policy s); cbn; by rewrite length_insert.
  - rewrite (surjective_pairing (dequeue_next _ _)). eexists _, _. split; [done|].
    split; [by apply dequeue_next_wf|apply Hdq].
Qed.

Lemma yield_step s cpu : sched_wf s -> cpu < len (cpu_current s) ->
  exists s' d, yield_current s cpu = Done (s', d) /\ sched_wf s' /\ length (cpu_current s') = length (cpu_current s).
Proof.
  intros Hw Hc. destruct (lookup_lt_is_Some_2 (cpu_current s) (N.to_nat cpu)) as [c Hcur]; [lia|].
  assert (Hdq : forall s0, length (cpu_current (fst (dequeue_next s0 cpu))) = length (cpu_current s0)).
  { intros s0. unfold dequeue_next. destruct (dequeue_loop _ _ _) as [q [e|]]; cbn; by rewrite length_insert. }
  unfold yield_current. rewrite (index_done _ _ _ Hcur). cbn [mbind outcome_bind].
  destruct c as [[p u]|]; rewrite (surjective_pairing (dequeue_next _ _)); eexists _, _; (split; [done|]).
  - split; [by apply dequeue_next_wf, requeue_wf|]. rewrite Hdq. unfold requeue, ready.
    destruct (policy s); cbn; by rewrite length_insert.
  - split; [by apply dequeue_next_wf|apply Hdq].
Qed.

(** the CPUs that a history names exist *)
Definition op_on_cpu (n : N) (o : SchedOp) : Prop :=
  match o with OpSchedule cpu | OpYield cpu => cpu < n | _ => True end.

Lemma sched_op_wf s o : sched_wf s -> op_on_cpu (len (cpu_current s)) o ->
  exists s' d, sched_op s o = Done (s', d) /\ sched_wf s' /\ length (cpu_current s') = length (cpu_current s).
Proof.
  intros Hw Ho. destruct o as [pid tid prio|pid tid|cpu|cpu]; cbn [sched_op].
  - eexists _, _. split; [done|]. split; [by apply ready_wf|]. unfold ready. by destruct (policy s).
  - eexists _, _. split; [done|]. split; [by apply remove_wf|]. unfold remove.
    destruct (remove_entry _ _ _) as [q b]. cbn. by rewrite length_fmap.
  - destruct (schedule_step s cpu Hw Ho) as (s' & d & -> & Hs'). by eexists _, _.
  - destruct (yield_step s cpu Hw Ho) as (s' & d & -> & Hs'). by eexists _, _.
Qed.

Lemma sched_ops_wf os : forall s, sched_wf s -> Forall (op_on_cpu (len (cpu_current s))) os ->
  exists s' ds, sched_ops s os = Done (s', ds) /\ sched_wf s' /\ length (cpu_current s') = length (cpu_current s).
Proof.
  induction os as [|o os IH]; intros s Hw Hall; [by eexists _, _|].
  apply Forall_cons_1 in Hall as [Ho Hall]. cbn [sched_ops].
  destruct (sched_op_wf s o Hw Ho) as (s1 & d & -> & Hw1 & Hl1). cbn [mbind outcome_bind].
  destruct (IH s1 Hw1) as (s2 & ds & -> & Hw2 & Hl2); [by rewrite Hl1|].
  eexists _, _. split; [done|]. split; [done|congruence].
Qed.

Lemma sched_new_wf p n : sched_wf (new p n) /\ length (cpu_current (new p n)) = N.to_nat n.
Proof.
  split; [split|]; cbn [new cpu_current cpu_ticks].
  - intros i j q t t' Hi. by apply lookup_replicate in Hi as [? _].
  - by rewrite !length_replicate.
  - by rewrite length_replicate.
Qed.

(** C5: Under every policy, any history of calls that name existing CPUs
    completes without a panic, and after it no process is current on two CPUs
    (and never was: the statement covers every prefix). *)
Theorem no_process_on_two_cpus p n os :
  Forall (op_on_cpu n) os ->
  exists s ds, sched_ops (new p n) os = Done (s, ds) /\
    forall cpu1 cpu2 pid tid1 tid2,
      current_on s cpu1 = Some (pid, tid1) -> current_on s cpu2 = Some (pid, tid2) -> cpu1 = cpu2.
Proof.
  intros Hall. destruct (sched_new_wf p n) as [Hw Hl].
  destruct (sched_ops_wf os (new p n) Hw) as (s & ds & Hs & [He _] & _); [by rewrite Hl, N2Nat.id|].
  exists s, ds. split; [done|]. intros c1 c2 pid t1 t2 H1 H2. unfold current_on in *.
  destruct (cpu_current s !! N.to_nat c1) as [[x|]|] eqn:E1; cbn in H1; simplify_eq.
  destruct (cpu_current s !! N.to_nat c2) as [[y|]|] eqn:E2; cbn in H2; simplify_eq.
  pose proof (He _ _ _ _ _ E1 E2). lia.
Qed.

Definition demo_sched_ops : list SchedOp :=
  [OpReady 1 1 128; OpReady 1 1 128; OpReady 2 1 128; OpSchedule 0; OpSchedule 1].

Lemma no_process_on_two_cpus_witness :
  exists s ds, sched_ops (new (RoundRobin 3) 2) demo_sched_ops = Done (s, ds) /\
    current_on s 0 = Some (1, 1) /\ current_on s 1 <> Some (1, 1).
Proof.
  destruct (no_process_on_two_cpus (RoundRobin 3) 2 demo_sched_ops) as (s & ds & Hs & Hex).
  { repeat (constructor; [cbn; lia || exact I|]). constructor. }
  exists s, ds. split; [exact Hs|].
  assert (H0 : current_on s 0 = Some (1, 1)) by (vm_compute in Hs; injection Hs as <- <-; reflexivity).
  split; [exact H0|]. intros H1. pose proof (Hex _ _ _ _ _ H0 H1). done.
Defined.

(** ** What [schedule] does *)

(** the ready queue as [dequeue_next] will see it *)
Definition queue_with_current (s : Scheduler) (cpu : N) : list ReadyQueueEntry :=
  ready_queue s ++
  match current_on s cpu with
  | Some (pid, tid) => [{| e_pid := pid; e_tid := tid; e_priority := 128 |}]
  | None => []
  end.

Definition ticks_on (s : Scheduler) (cpu : N) : N := default 0 (cpu_ticks s !! N.to_nat cpu).

Lemma ready_queue_policy s pid tid prio : queue_policy s = true ->
  ready s pid tid prio =
  with_queues s (ready_queue s ++ [{| e_pid := pid; e_tid := tid; e_priority := prio |}]) (priority_queue s).
Proof. unfold queue_policy, ready. by destruct (policy s). Qed.

Lemma busy_set_cpu s cpu c t q pq :
  forall p, p ∈ busy (set_cpu (with_queues s q pq) cpu c t) cpu <-> p ∈ busy s cpu.
Proof.
  intros p. rewrite !elem_of_busy. cbn [set_cpu with_cpus with_queues cpu_current].
  split; intros (i & u & Hi & Hne); exists i, u; (split; [|done]); by rewrite list_lookup_insert_ne in *.
Qed.

(** Picking the next process, from a state in which the CPU is idle. *)
Definition picked (s : Scheduler) (cpu : N) (q : list ReadyQueueEntry) (s' : Scheduler) (d : SchedulingDecision) : Prop :=
  (Forall (is_busy (busy s cpu)) q /\ d = Idle /\ current_on s' cpu = None /\ ready_queue s' = q) \/
  (exists pre e post, q = pre ++ e :: post /\ Forall (is_busy (busy s cpu)) pre /\ ~ is_busy (busy s cpu) e /\
     d = Run (e_pid e) (e_tid e) /\ current_on s' cpu = Some (e_pid e, e_tid e) /\
     ticks_on s' cpu = 0 /\ ready_queue s' = post ++ pre).

Lemma current_on_insert s cpu c t :
  cpu < len (cpu_current s) -> current_on (set_cpu s cpu c t) cpu = c.
Proof.
  intros H. unfold current_on; cbn [set_cpu with_cpus cpu_current].
  rewrite list_lookup_insert_eq by lia. by destruct c.
Qed.

Lemma current_on_other s cpu c t cpu' : cpu' <> cpu ->
  current_on (set_cpu s cpu c t) cpu' = current_on s cpu'.
Proof.
  intros H. unfold current_on; cbn [set_cpu with_cpus cpu_current]. by rewrite list_lookup_insert_ne by lia.
Qed.

Lemma dequeue_next_picked s cpu :
  length (cpu_ticks s) = length (cpu_current s) -> cpu < len (cpu_current s) ->
  let '(s', d) := dequeue_next s cpu in
  picked s cpu (ready_queue s) s' d /\
  (forall cpu', cpu' <> cpu -> current_on s' cpu' = current_on s cpu') /\
  time_slice s' = time_slice s /\ policy s' = policy s /\
  length (cpu_ticks s') = length (cpu_current s') /\ length (cpu_current s') = length (cpu_current s).
Proof.
  intros Hl Hc. destruct (split_busy (busy s cpu) (ready_queue s)) as [Hb|(pre & e & post & Hq & Hp & Hx)].
  - rewrite dequeue_next_idle by done. split_and!; try done.
    + left. split_and!; try done. unfold current_on; cbn. by rewrite list_lookup_insert_eq by lia.
    + intros cpu' Hne. unfold current_on; cbn. by rewrite list_lookup_insert_ne by lia.
    + cbn. by rewrite length_insert.
    + cbn. by rewrite length_insert.
  - erewrite dequeue_next_run by done. split_and!; try done.
    + right. exists pre, e, post. split_and!; try done.
      * by apply (current_on_insert (with_queues s _ _)).
      * unfold ticks_on; cbn. rewrite list_lookup_insert_eq by lia. done.
    + intros cpu' Hne. by apply (current_on_other (with_queues s _ _)).
    + cbn. by rewrite !length_insert.
    + cbn. by rewrite length_insert.
Qed.

Lemma picked_ext s1 s2 cpu q s' d :
  (forall p, p ∈ busy s1 cpu <-> p ∈ busy s2 cpu) -> picked s1 cpu q s' d -> picked s2 cpu q s' d.
Proof.
  intros He. unfold picked, is_busy. intros [(Hb & H)|(pre & e & post & Hq & Hp & Hx & H)].
  - left. split; [|done]. eapply Forall_impl; [|exact Hb]. intros x. apply He.
  - right. exists pre, e, post. split_and!; try done; try apply H.
    + eapply Forall_impl; [|exact Hp]. intros x. apply He.
    + by rewrite <- He.
Qed.

(** Property: [schedule] under the queue policies, in full: while the quantum lasts the
    current process goes on and only its tick count moves; otherwise the
    current process (if any) goes to the back of the queue and the first entry
    whose process runs on no other CPU is dispatched with a fresh quantum, the
    entries skipped moving to the back; the CPU idles only when every waiting
    process runs elsewhere.  The other CPUs keep their processes. *)
Theorem schedule_outcome s cpu :
  queue_policy s = true -> length (cpu_ticks s) = length (cpu_current s) ->
  cpu < len (cpu_current s) -> ticks_on s cpu + 1 < 2 ^ 64 ->
  exists s' d, schedule s cpu = Done (s', d) /\
    (forall cpu', cpu' <> cpu -> current_on s' cpu' = current_on s cpu') /\
    match current_on s cpu with
    | Some (pid, tid) =>
        if ticks_on s cpu + 1 <? time_slice s
        then d = Run pid tid /\ s' = set_cpu s cpu (Some (pid, tid)) (ticks_on s cpu + 1)
        else picked s cpu (queue_with_current s cpu) s' d
    | None => picked s cpu (queue_with_current s cpu) s' d
    end.
Proof.
  intros Hp Hl Hc Ht. unfold schedule, queue_with_current.
  destruct (lookup_lt_is_Some_2 (cpu_current s) (N.to_nat cpu)) as [c Hcur]; [lia|].
  destruct (lookup_lt_is_Some_2 (cpu_ticks s) (N.to_nat cpu)) as [t Htick]; [lia|].
  assert (Eon : current_on s cpu = c) by (unfold current_on; rewrite Hcur; by destruct c).
  assert (Etk : ticks_on s cpu = t) by (unfold ticks_on; by rewrite Htick).
  rewrite Eon, Etk in *. rewrite (index_done _ _ _ Hcur). cbn [mbind outcome_bind].
  destruct c as [[p u]|].
  - rewrite (index_done _ _ _ Htick). cbn [mbind outcome_bind]. rewrite wadd64_small by done.
    destruct (t + 1 <? time_slice s).
    + eexists _, _. split; [done|]. split; [|done]. intros cpu' Hne. by apply current_on_other.
    + unfold requeue. rewrite ready_queue_policy by done.
      pose proof (dequeue_next_picked (set_cpu (with_queues s (ready_queue s ++ [{| e_pid := p; e_tid := u; e_priority := 128 |}]) (priority_queue s)) cpu None 0) cpu) as H.
      destruct (dequeue_next _ cpu) as [s' d]. exists s', d. split; [done|].
      destruct H as (Hpk & Ho & _); [cbn; by rewrite !length_insert|cbn; by rewrite length_insert|].
      split.
      * intros cpu' Hne. rewrite Ho by done. by rewrite current_on_other.
      * eapply picked_ext; [|exact Hpk]. intros q. apply busy_set_cpu.
  - pose proof (dequeue_next_picked s cpu Hl Hc) as H. destruct (dequeue_next s cpu) as [s' d].
    exists s', d. rewrite app_nil_r. split; [done|]. split; [apply H|apply H].
Qed.

(** three processes on one CPU, the first one dispatched *)
Definition demo_sched : Scheduler :=
  {| policy := RoundRobin 2;
     ready_queue := [{| e_pid := 2; e_tid := 1; e_priority := 128 |}; {| e_pid := 3; e_tid := 1; e_priority := 128 |}];
     priority_queue := []; cpu_current := [Some (1, 1)]; cpu_ticks := [1];
     time_slice := 2; total_scheduled := 1; context_switches := 1 |}.

Lemma schedule_outcome_witness :
  exists s' d, schedule demo_sched 0 = Done (s', d) /\ picked demo_sched 0 (queue_with_current demo_sched 0) s' d /\
    d = Run 2 1.
Proof.
  destruct (schedule_outcome demo_sched 0) as (s' & d & Hs & _ & H); [done..|].
  exists s', d. split; [exact Hs|]. split; [exact H|].
  vm_compute in Hs. by injection Hs as _ <-.
Defined.

(** ** Nothing is lost or duplicated *)

Definition key (e : ReadyQueueEntry) : Pid * Tid := (e_pid e, e_tid e).
Fixpoint somes {A} (l : list (option A)) : list A :=
  match l with [] => [] | Some x :: l => x :: somes l | None :: l => somes l end.
(** every process the scheduler knows: the ready queue and the CPUs *)
Definition known (s : Scheduler) : list (Pid * Tid) := (key <$> ready_queue s) ++ somes (cpu_current s).

Lemma somes_insert_none {A} (l : list (option A)) i c :
  l !! i = Some c ->
  somes l ≡ₚ match c with Some x => [x] | None => [] end ++ somes (<[i := None]> l).
Proof.
  revert i. induction l as [|d l IH]; intros [|i] H; try done; cbn in H.
  - simplify_eq. by destruct c.
  - specialize (IH i H). change (<[S i := None]> (d :: l)) with (d :: <[i := None]> l).
    destruct d as [y|]; cbn [somes]; [|exact IH]. rewrite IH. destruct c; [apply Permutation_swap|done].
Qed.

Lemma somes_insert_some {A} (l : list (option A)) i x :
  l !! i = Some None -> somes (<[i := Some x]> l) ≡ₚ x :: somes l.
Proof.
  intros H. pose proof (lookup_lt_Some _ _ _ H) as Hi.
  rewrite (somes_insert_none (<[i := Some x]> l) i (Some x)) by by apply list_lookup_insert_eq.
  rewrite list_insert_insert_eq, (list_insert_id l i None) by done. done.
Qed.

Lemma dequeue_next_known s cpu :
  cpu_current s !! N.to_nat cpu = Some None -> known (fst (dequeue_next s cpu)) ≡ₚ known s.
Proof.
  intros Hc. unfold known.
  destruct (split_busy (busy s cpu) (ready_queue s)) as [Hb|(pre & e & post & Hq & Hp & Hx)].
  - rewrite dequeue_next_idle by done. cbn. by rewrite list_insert_id.
  - erewrite dequeue_next_run by done. cbn [fst count_switch set_cpu with_cpus with_queues cpu_current ready_queue].
    rewrite somes_insert_some by done. rewrite Hq, !fmap_app, fmap_cons.
    change (e_pid e, e_tid e) with (key e). set (r := somes _). solve_Permutation.
Qed.

Lemma requeue_known s cpu pid tid : queue_policy s = true ->
  cpu_current s !! N.to_nat cpu = Some (Some (pid, tid)) -> known (requeue s cpu pid tid) ≡ₚ known s.
Proof.
  intros Hp Hc. unfold known, requeue. rewrite ready_queue_policy by done.
  cbn [set_cpu with_cpus with_queues cpu_current ready_queue].
  rewrite fmap_app, (somes_insert_none _ _ _ Hc). cbn [fmap list_fmap app].
  change (key _) with (pid, tid). by rewrite <- app_assoc.
Qed.

(** Property: Under the queue policies [schedule] loses no process and invents none:
    the ready queue and the CPUs together hold the same entries as before. *)
Theorem schedule_conserves s cpu s' d :
  queue_policy s = true -> schedule s cpu = Done (s', d) -> known s' ≡ₚ known s.
Proof.
  intros Hp Hs. unfold schedule, index in Hs.
  destruct (cpu_current s !! N.to_nat cpu) as [c|] eqn:Hc; [|done]. cbn [mbind outcome_bind] in Hs.
  destruct c as [[p t]|].
  - destruct (cpu_ticks s !! N.to_nat cpu) as [k|]; [|done]. cbn [mbind outcome_bind] in Hs.
    destruct (wadd64 k 1 <? time_slice s).
    + injection Hs as <- <-. unfold known; cbn. by rewrite list_insert_id.
    + injection Hs as Hs. rewrite <- (requeue_known s cpu p t Hp Hc).
      rewrite <- (dequeue_next_known (requeue s cpu p t) cpu); [by rewrite Hs|].
      unfold requeue. rewrite ready_queue_policy by done. cbn.
      apply list_lookup_insert_eq. by eapply lookup_lt_Some.
  - injection Hs as Hs. rewrite <- (dequeue_next_known s cpu Hc). by rewrite Hs.
Qed.

Lemma schedule_conserves_witness :
  exists s' d, schedule demo_sched 0 = Done (s', d) /\ known s' ≡ₚ [(1, 1); (2, 1); (3, 1)].
Proof.
  eexists _, _. split; [vm_compute; reflexivity|].
  etrans; [eapply (schedule_conserves demo_sched 0); vm_compute; reflexivity|].
  change (known demo_sched) with [(2, 1 : Tid); (3, 1); (1, 1)]. solve_Permutation.
Defined.

(** ** Every waiting process gets its turn *)

(** calls of [schedule] until the next dispatch on the only CPU *)
Definition calls_left (s : Scheduler) : N :=
  match current_on s 0 with Some _ => time_slice s - ticks_on s 0 | None => 1 end.

Definition one_cpu (s : Scheduler) : Prop :=
  queue_policy s = true /\ length (cpu_current s) = 1%nat /\ length (cpu_ticks s) = 1%nat /\
  0 < time_slice s < 2 ^ 64 /\ ticks_on s 0 < time_slice s.

Lemma one_cpu_not_busy s e : length (cpu_current s) = 1%nat -> ~ is_busy (busy s 0) e.
Proof.
  intros Hl Hb. apply elem_of_busy in Hb as (i & t & Hi & Hne). apply lookup_lt_Some in Hi. lia.
Qed.

Lemma picked_one_cpu s q s' d :
  length (cpu_current s) = 1%nat -> picked s 0 q s' d ->
  match q with
  | [] => True
  | e :: q => d = Run (e_pid e) (e_tid e) /\ current_on s' 0 = Some (e_pid e, e_tid e) /\
              ticks_on s' 0 = 0 /\ ready_queue s' = q
  end.
Proof.
  intros Hl [(Hb & _)|(pre & e & post & -> & Hp & _ & H)].
  - destruct q as [|x q]; [done|]. apply Forall_cons_1 in Hb as [Hb _]. by apply one_cpu_not_busy in Hb.
  - destruct pre as [|x pre].
    + cbn [app]. by rewrite app_nil_r in H.
    + apply Forall_cons_1 in Hp as [Hp _]. by apply one_cpu_not_busy in Hp.
Qed.

Definition one_cpu_shape (s : Scheduler) : Prop :=
  queue_policy s = true /\ length (cpu_current s) = 1%nat /\ length (cpu_ticks s) = 1%nat.

Lemma dequeue_next_shape s : one_cpu_shape s ->
  one_cpu_shape (fst (dequeue_next s 0)) /\ time_slice (fst (dequeue_next s 0)) = time_slice s.
Proof.
  intros (Hp & Hc & Ht). pose proof (dequeue_next_picked s 0) as H.
  destruct (dequeue_next s 0) as [s' d]. destruct H as (_ & _ & Hsl & Hpo & H1 & H2); [congruence|lia|].
  cbn [fst]. unfold one_cpu_shape, queue_policy. rewrite Hpo. split_and!; try done; congruence.
Qed.

Lemma schedule_shape s s' d : one_cpu_shape s -> schedule s 0 = Done (s', d) ->
  one_cpu_shape s' /\ time_slice s' = time_slice s.
Proof.
  intros Hsh. pose proof Hsh as (Hp & Hc & Ht). unfold schedule, index.
  destruct (cpu_current s !! _) as [c|]; [|done]. cbn [mbind outcome_bind]. destruct c as [[p t]|].
  - destruct (cpu_ticks s !! _) as [k|]; [|done]. cbn [mbind outcome_bind].
    destruct (wadd64 k 1 <? time_slice s).
    + intros [= <- <-]. unfold one_cpu_shape; cbn. by rewrite !length_insert.
    + intros [= H]. pose proof (dequeue_next_shape (requeue s 0 p t)) as Hd. rewrite H in Hd.
      unfold requeue in Hd. rewrite ready_queue_policy in Hd by done. apply Hd.
      unfold one_cpu_shape; cbn. by rewrite !length_insert.
  - intros [= H]. pose proof (dequeue_next_shape s Hsh) as Hd. by rewrite H in Hd.
Qed.

(** One call on the only CPU: one call nearer to the next dispatch, or the
    dispatch of the head of the queue. *)
Definition one_call (s s' : Scheduler) (d : SchedulingDecision) : Prop :=
  (1 < calls_left s /\ calls_left s' = calls_left s - 1 /\ ready_queue s' = ready_queue s) \/
  (calls_left s = 1 /\ calls_left s' = time_slice s /\
   exists e rest, ready_queue s ++ rest = e :: ready_queue s' /\ d = Run (e_pid e) (e_tid e)).

Lemma dispatch_one_call s s' d :
  length (cpu_current s) = 1%nat -> time_slice s' = time_slice s -> calls_left s = 1 ->
  ready_queue s <> [] -> picked s 0 (queue_with_current s 0) s' d ->
  one_call s s' d /\ ticks_on s' 0 = 0.
Proof.
  intros Hc Hs H1 Hq Hpk. apply picked_one_cpu in Hpk; [|done]. unfold queue_with_current in Hpk.
  destruct (ready_queue s) as [|e q] eqn:Eq; [done|]. cbn [app] in Hpk.
  destruct Hpk as (-> & Hcur & Htk & Hrq). split; [|done]. right. split; [done|]. split.
  - unfold calls_left. rewrite Hcur, Htk, Hs. lia.
  - eexists e, _. rewrite Eq, Hrq. split; [reflexivity|done].
Qed.

Lemma schedule_one_cpu s : one_cpu s -> ready_queue s <> [] ->
  exists s' d, schedule s 0 = Done (s', d) /\ one_cpu s' /\ time_slice s' = time_slice s /\ one_call s s' d.
Proof.
  intros (Hp & Hc & Ht & Hs & Hk) Hq.
  destruct (schedule_outcome s 0 Hp) as (s' & d & Hsch & _ & Hout); [congruence|lia|lia|].
  destruct (schedule_shape s s' d (conj Hp (conj Hc Ht)) Hsch) as ((Hp' & Hc' & Ht') & Hs').
  exists s', d. split; [done|]. unfold one_cpu. rewrite Hs'.
  assert (Hdisp : calls_left s = 1 -> picked s 0 (queue_with_current s 0) s' d ->
    one_call s s' d /\ ticks_on s' 0 < time_slice s).
  { intros H1 Hpk. destruct (dispatch_one_call s s' d Hc Hs' H1 Hq Hpk) as [H ->]. split; [done|lia]. }
  destruct (current_on s 0) as [[p t]|] eqn:Ecur.
  - destruct (N.ltb_spec (ticks_on s 0 + 1) (time_slice s)) as [Hlt|Hge].
    + destruct Hout as [-> ->].
      assert (Etk : ticks_on (set_cpu s 0 (Some (p, t)) (ticks_on s 0 + 1)) 0 = ticks_on s 0 + 1).
      { unfold ticks_on at 1; cbn [set_cpu with_cpus cpu_ticks]. by rewrite list_lookup_insert_eq by lia. }
      rewrite Etk. split_and!; try done; try lia. left. unfold calls_left.
      rewrite current_on_insert by lia. rewrite Ecur, Etk. cbn [set_cpu with_cpus time_slice ready_queue].
      split_and!; [lia|lia|done].
    + destruct Hdisp as [H1 H2]; [unfold calls_left; rewrite Ecur; lia|done|]. split_and!; try done; lia.
  - destruct Hdisp as [H1 H2]; [unfold calls_left; by rewrite Ecur|done|]. split_and!; try done; lia.
Qed.

Lemma turn_after m : forall s i e, one_cpu s -> ready_queue s !! i = Some e ->
  calls_left s + time_slice s * N.of_nat i = N.of_nat m ->
  exists s' ds, sched_ops s (replicate m (OpSchedule 0)) = Done (s', ds) /\
    exists ds0, ds = ds0 ++ [Run (e_pid e) (e_tid e)].
Proof.
  induction m as [|m IH]; intros s i e Hone Hi Hm.
  - destruct Hone as (_ & _ & _ & _ & Hk). unfold calls_left in Hm. destruct (current_on s 0); lia.
  - destruct (schedule_one_cpu s Hone) as (s1 & d & Hs & Hone1 & Hsl & Hcall); [intros E; by rewrite E in Hi|].
    cbn [replicate sched_ops sched_op]. rewrite Hs. cbn [mbind outcome_bind].
    destruct Hcall as [(Hgt & Hleft & Hq)|(H1 & Hleft & e0 & rest & Hq & Hd)].
    + destruct (IH s1 i e Hone1) as (s' & ds & Hops & ds0 & ->); [by rewrite Hq|lia|].
      rewrite Hops. cbn [mbind outcome_bind]. eexists _, _. split; [done|]. by exists (d :: ds0).
    + assert (Hi' : (ready_queue s ++ rest) !! i = Some e) by (by apply lookup_app_l_Some).
      rewrite Hq in Hi'. destruct i as [|i].
      * cbn in Hi'. injection Hi' as ->. replace m with 0%nat by lia. cbn. eexists _, _. split; [done|]. exists []. by rewrite Hd.
      * destruct (IH s1 i e Hone1) as (s' & ds & Hops & ds0 & ->); [done|lia|].
        rewrite Hops. cbn [mbind outcome_bind]. eexists _, _. split; [done|]. by exists (d :: ds0).
Qed.

(** C17: No starvation on a single CPU under the queue policies: the process at
    position [i] of the ready queue is dispatched by exactly the call number
    [calls_left + time_slice * i] of [schedule], where [calls_left] is what
    remains of the current quantum. *)
Theorem round_robin_turn s i e :
  one_cpu s -> ready_queue s !! i = Some e ->
  exists s' ds,
    sched_ops s (replicate (N.to_nat (calls_left s + time_slice s * N.of_nat i)) (OpSchedule 0)) = Done (s', ds) /\
    exists ds0, ds = ds0 ++ [Run (e_pid e) (e_tid e)].
Proof. intros Hone Hi. eapply turn_after; [done|done|lia]. Qed.

Lemma round_robin_turn_witness :
  exists s' ds, sched_ops demo_sched (replicate 3 (OpSchedule 0)) = Done (s', ds) /\
    exists ds0, ds = ds0 ++ [Run 3 1].
Proof.
  apply (round_robin_turn demo_sched 1 {| e_pid := 3; e_tid := 1; e_priority := 128 |}); [|done].
  by split_and!.
Defined.

(** ** [remove] *)

Lemma remove_entry_spec pid tid q :
  let '(q', b) := remove_entry pid tid q in
  (b = false -> q' = q /\ ((pid, tid) ∉ (key <$> q))) /\
  (b = true -> exists l1 e l2, q = l1 ++ e :: l2 /\ key e = (pid, tid) /\
     ((pid, tid) ∉ (key <$> l1)) /\ q' = l1 ++ l2).
Proof.
  induction q as [|e q IH]; cbn [remove_entry].
  - split; [|done]. intros _. split; [done|]. by intros ?%not_elem_of_nil.
  - destruct (is_entry pid tid e) eqn:He; unfold is_entry in He.
    + apply andb_true_iff in He as [Hp%N.eqb_eq Ht%N.eqb_eq]. split; [done|]. intros _.
      exists [], e, q. split_and!; [done|unfold key; congruence| |done]. by intros ?%not_elem_of_nil.
    + assert (Hk : (pid, tid) <> key e).
      { unfold key. intros [= -> ->]. by rewrite !N.eqb_refl in He. }
      destruct (remove_entry pid tid q) as [q' b]. destruct IH as [IH0 IH1]. split.
      * intros Hb. destruct (IH0 Hb) as [-> Hn]. split; [done|].
        rewrite fmap_cons, elem_of_cons. naive_solver.
      * intros Hb. destruct (IH1 Hb) as (l1 & x & l2 & -> & Hx & Hn & ->).
        exists (e :: l1), x, l2. split_and!; try done. rewrite fmap_cons, elem_of_cons. naive_solver.
Qed.

(** Property: [remove] takes the thread off every CPU and takes its first entry out of
    the ready queue, and nothing else; it answers true exactly when the ready
    queue had such an entry.  So it answers false for a process that was only
    running, and a second queued entry stays. *)
Theorem remove_outcome s pid tid :
  length (cpu_ticks s) = length (cpu_current s) ->
  let '(s', b) := remove s pid tid in
  (forall cpu, current_on s' cpu =
     if bool_decide (current_on s cpu = Some (pid, tid)) then None else current_on s cpu) /\
  priority_queue s' = priority_queue s /\
  (b = false -> ready_queue s' = ready_queue s /\ ((pid, tid) ∉ (key <$> ready_queue s))) /\
  (b = true -> exists l1 e l2, ready_queue s = l1 ++ e :: l2 /\ key e = (pid, tid) /\
     ((pid, tid) ∉ (key <$> l1)) /\ ready_queue s' = l1 ++ l2).
Proof.
  intros Hl. unfold remove. cbn [with_cpus ready_queue].
  pose proof (remove_entry_spec pid tid (ready_queue s)) as Hr.
  destruct (remove_entry pid tid (ready_queue s)) as [q b]. destruct Hr as [H0 H1].
  split_and!; [|done|exact H0|exact H1].
  intros cpu. unfold current_on. cbn [with_queues with_cpus cpu_current].
  rewrite list_lookup_fmap. destruct (cpu_current s !! N.to_nat cpu) as [c|]; [|done].
  cbn. unfold clear_current. by destruct c.
Qed.

Lemma remove_outcome_witness :
  exists s', remove demo_sched 1 1 = (s', false) /\ current_on s' 0 = None /\ ready_queue s' = ready_queue demo_sched.
Proof.
  pose proof (remove_outcome demo_sched 1 1 eq_refl) as H.
  destruct (remove demo_sched 1 1) as [s' b] eqn:E.
  assert (Hb : b = false) by (change b with (snd (s', b)); rewrite <- E; reflexivity). subst b.
  destruct H as (Hc & _ & Hq & _). exists s'. split; [done|]. split; [|by apply Hq].
  rewrite Hc. reflexivity.
Defined.

(** ** The priority policies *)

Definition is_ready (o : SchedOp) : bool := match o with OpReady _ _ _ => true | _ => false end.

Definition starved (s : Scheduler) : Prop :=
  queue_policy s = false /\ ready_queue s = [] /\ Forall (fun c => c = None) (cpu_current s).

Lemma length_insert_by_priority e q : length (insert_by_priority e q) = S (length q).
Proof. induction q as [|x q IH]; cbn; [done|]. destruct (_ <? _); cbn; congruence. Qed.

Lemma ready_priority s pid tid prio : queue_policy s = false ->
  ready s pid tid prio = with_queues s (ready_queue s)
    (insert_by_priority {| e_pid := pid; e_tid := tid; e_priority := prio |} (priority_queue s)).
Proof. unfold queue_policy, ready. by destruct (policy s). Qed.

Lemma starved_dequeue s cpu : starved s ->
  let '(s', d) := dequeue_next s cpu in starved s' /\ d = Idle /\ priority_queue s' = priority_queue s.
Proof.
  intros (Hp & Hq & Hc). rewrite dequeue_next_idle by (by rewrite Hq).
  split; [|done]. split; [done|]. split; [done|]. by apply Forall_insert.
Qed.

Lemma starved_op s o s' d : starved s -> sched_op s o = Done (s', d) ->
  starved s' /\ (d = None \/ d = Some Idle) /\
  ready_count s' = ready_count s + (if is_ready o then 1 else 0).
Proof.
  intros Hs. pose proof Hs as (Hp & Hq & Hc). unfold ready_count.
  assert (Hcur : forall cpu c, cpu_current s !! N.to_nat cpu = Some c -> c = None).
  { intros cpu c Hx. exact (Forall_lookup_1 _ _ _ _ Hc Hx). }
  destruct o as [pid tid prio|pid tid|cpu|cpu]; cbn [sched_op is_ready].
  - intros [= <- <-]. rewrite ready_priority by done. split_and!; [done|by left|].
    cbn. rewrite Hq, length_insert_by_priority. cbn. lia.
  - unfold remove. cbn [with_cpus ready_queue]. rewrite Hq. cbn [remove_entry]. intros [= <- <-].
    split_and!; [|by left|cbn; lia]. split; [done|]. split; [done|].
    cbn. apply Forall_fmap. eapply Forall_impl; [|exact Hc]. intros c ->. unfold compose, clear_current. 
    by destruct (bool_decide _).
  - unfold schedule, index. destruct (cpu_current s !! _) as [c|] eqn:Ec; [|done].
    rewrite (Hcur _ _ Ec). cbn [mbind outcome_bind]. pose proof (starved_dequeue s cpu Hs) as Hd.
    destruct (dequeue_next s cpu) as [s1 d1]. intros [= <- <-]. destruct Hd as ((? & Hq1 & ?) & -> & Hpq).
    split_and!; [done|by right|]. rewrite Hq, Hq1, Hpq. lia.
  - unfold yield_current, index. destruct (cpu_current s !! _) as [c|] eqn:Ec; [|done].
    rewrite (Hcur _ _ Ec). cbn [mbind outcome_bind]. pose proof (starved_dequeue s cpu Hs) as Hd.
    destruct (dequeue_next s cpu) as [s1 d1]. intros [= <- <-]. destruct Hd as ((? & Hq1 & ?) & -> & Hpq).
    split_and!; [done|by right|]. rewrite Hq, Hq1, Hpq. lia.
Qed.

Lemma starved_ops os : forall s s' ds, starved s -> sched_ops s os = Done (s', ds) ->
  Forall (fun d => d = Idle) ds /\ ready_count s' = ready_count s + len (List.filter is_ready os).
Proof.
  induction os as [|o os IH]; intros s s' ds Hs; cbn [sched_ops List.filter].
  - intros [= <- <-]. split; [done|]. cbn [length]. lia.
  - destruct (sched_op s o) as [[s1 d]| |] eqn:Eo; [|done|done]. cbn [mbind outcome_bind].
    destruct (sched_ops s1 os) as [[s2 ds2]| |] eqn:Es; [|done|done]. cbn [mbind outcome_bind].
    intros [= <- <-]. destruct (starved_op s o s1 d Hs Eo) as (Hs1 & Hd & Hn1).
    destruct (IH s1 s2 ds2 Hs1 Es) as [Hds Hn2]. split.
    + destruct Hd as [->| ->]; [done|by constructor].
    + rewrite Hn2, Hn1. destruct (is_ready o); cbn [length]; lia.
Qed.

(** Property: Under [Priority] and [SJF] no process is ever dispatched: [ready] puts
    entries into the priority queue, from which nothing is taken, so every
    decision of every history is [Idle] and the queue only grows. *)
Theorem priority_policies_never_run p n os s ds :
  p = Priority \/ p = SJF -> sched_ops (new p n) os = Done (s, ds) ->
  Forall (fun d => d = Idle) ds /\ ready_count s = len (List.filter is_ready os).
Proof.
  intros Hp Hops. destruct (starved_ops os (new p n) s ds) as [H1 H2]; [|done|].
  - split_and!; [by destruct Hp as [->| ->]|done|]. cbn. by apply Forall_replicate.
  - split; [done|]. rewrite H2. unfold ready_count; cbn [new ready_queue priority_queue length]. lia.
Qed.

Lemma priority_policies_never_run_witness :
  exists s ds, sched_ops (new Priority 1) [OpReady 1 1 200; OpSchedule 0; OpSchedule 0] = Done (s, ds) /\
    ds = [Idle; Idle] /\ ready_count s = 1.
Proof.
  eexists _, _. split; [vm_compute; reflexivity|]. split; [reflexivity|].
  eapply (priority_policies_never_run Priority 1 [OpReady 1 1 200; OpSchedule 0; OpSchedule 0]);
    [by left|vm_compute; reflexivity].
Defined.
