(* ===== verification/Assembler.v ===== *)
(** * The assembler (src/src/services/process/assembler.rs)

    Text is a list of byte codes; the model covers ASCII sources (outside ASCII,
    Rust's [trim], [split_whitespace] and [to_uppercase] know further white
    space and letters).  The messages printed for rejected lines are left out.
    The instruction printer is the [Display] of cpu.rs. *)
From Stdlib Require Ascii String.
Import (notations) String.
From S2P Require Import Prelude Types PhysMem Mmu Cpu.

Notation str := (list N).
(** the bytes of a string literal *)
Definition B (s : String.string) : str := Ascii.N_of_ascii <$> String.list_ascii_of_string s.
Arguments B s%_string.

(** ** The string functions of the standard library that the assembler uses *)

Fixpoint beq (a b : str) : bool :=
  match a, b with
  | [], [] => true
  | x :: a, y :: b => (x =? y) && beq a b
  | _, _ => false
  end.

Definition is_whitespace (c : N) : bool := ((9 <=? c) && (c <=? 13)) || (c =? 32).
Definition to_upper (c : N) : N := if (97 <=? c) && (c <=? 122) then c - 32 else c.
Definition to_uppercase (s : str) : str := to_upper <$> s.

Fixpoint drop_while (f : N -> bool) (s : str) : str :=
  match s with
  | [] => []
  | c :: r => if f c then drop_while f r else s
  end.
Definition trim_start_matches (f : N -> bool) (s : str) : str := drop_while f s.
Definition trim_end_matches (f : N -> bool) (s : str) : str := rev (drop_while f (rev s)).
Definition trim (s : str) : str := trim_end_matches is_whitespace (drop_while is_whitespace s).

Fixpoint strip_prefix (p s : str) : option str :=
  match p, s with
  | [], _ => Some s
  | x :: p, y :: s => if x =? y then strip_prefix p s else None
  | _ :: _, [] => None
  end.
Definition strip_suffix (p s : str) : option str := @rev N <$> strip_prefix (rev p) (rev s).
Definition starts_with (p s : str) : bool := match strip_prefix p s with Some _ => true | None => false end.

(** [line[..pos]] up to the first [c], or the whole line *)
Fixpoint before (c : N) (s : str) : str :=
  match s with
  | [] => []
  | x :: s => if x =? c then [] else x :: before c s
  end.
Fixpoint contains (c : N) (s : str) : bool :=
  match s with [] => false | x :: s => (x =? c) || contains c s end.

(** [split_whitespace]; [tok] is the token being read, reversed *)
Definition emit (tok : str) (rest : list str) : list str :=
  match tok with [] => rest | _ => rev tok :: rest end.
Fixpoint split_ws (tok s : str) : list str :=
  match s with
  | [] => emit tok []
  | c :: s => if is_whitespace c then emit tok (split_ws [] s) else split_ws (c :: tok) s
  end.
Definition split_whitespace (s : str) : list str := split_ws [] s.

(** [lines]: split at line feeds, drop one carriage return at the end of each,
    no line after a final line feed *)
Definition chop_cr (l : str) : str :=
  match rev l with c :: r => if c =? 13 then rev r else l | [] => l end.
Fixpoint lines_from (cur s : str) : list str :=
  match s with
  | [] => match cur with [] => [] | _ => [rev cur] end
  | c :: s => if c =? 10 then chop_cr (rev cur) :: lines_from [] s else lines_from (c :: cur) s
  end.
Definition lines (s : str) : list str := lines_from [] s.

Definition digit_value (radix c : N) : option N :=
  let v := if (48 <=? c) && (c <=? 57) then c - 48
           else if (97 <=? c) && (c <=? 122) then c - 87
           else if (65 <=? c) && (c <=? 90) then c - 55
           else radix in
  if v <? radix then Some v else None.

(** the digits of a [u64]: no digit or an overflow is an error *)
Fixpoint digits_from (radix acc : N) (s : str) : option N :=
  match s with
  | [] => Some acc
  | c :: s =>
      d ← digit_value radix c;
      let acc := acc * radix + d in
      if acc <? 2 ^ 64 then digits_from radix acc s else None
  end.
(** [u64::from_str_radix]: one leading plus sign is accepted *)
Definition from_str_radix (radix : N) (s : str) : option N :=
  match s with
  | [] => None
  | c :: r =>
      if c =? 43 then match r with [] => None | _ => digits_from radix 0 r end
      else digits_from radix 0 s
  end.

(** ** Operands *)

Definition SRC_REG : N := 0.
Definition SRC_IMM : N := 1.

Definition reg_index (name : str) : option N :=
  let u := to_uppercase name in
  if beq u (B "R0") then Some 0
  else if beq u (B "R1") then Some 1
  else if beq u (B "R2") then Some 2
  else if beq u (B "R3") then Some 3
  else None.

Definition strip_hex (s : str) : option str :=
  match strip_prefix (B "0x") s with Some h => Some h | None => strip_prefix (B "0X") s end.

Definition parse_number (s : str) : option N :=
  match strip_hex s with
  | Some hex => from_str_radix 16 hex
  | None => from_str_radix 10 s
  end.

Definition parse_operand (s : str) : option (N * N) :=
  let s := trim s in
  match strip_prefix (B "#") s with
  | Some stripped => v ← parse_number stripped; Some (SRC_IMM, v)
  | None => idx ← reg_index s; Some (SRC_REG, idx)
  end.

Definition parse_immediate (s : str) : option N :=
  parse_number (trim_start_matches (N.eqb 35) (trim s)).

Definition parse_mem_operand (s : str) : option (N * N) :=
  inner ← strip_prefix (B "[") (trim s) ≫= strip_suffix (B "]");
  match reg_index inner with
  | Some idx => Some (SRC_REG, idx)
  | None => v ← parse_immediate inner; Some (SRC_IMM, v)
  end.

(** ** Lines *)

Definition encode (opcode dst_reg src_type value : N) : list N :=
  [opcode; dst_reg; src_type; 0] ++ to_le_bytes 4 (to_u32 value).

Definition trim_comma (s : str) : str := trim_end_matches (N.eqb 44) s.

(** the two-operand arms *)
Definition parse_two (opcode : N) (parts : list str) : option (list N) :=
  match parts with
  | _ :: a :: b :: _ =>
      dst ← reg_index (trim_comma a);
      '(src_type, value) ← parse_operand b;
      Some (encode opcode dst src_type value)
  | _ => None
  end.
(** the arms that take an address or a vector *)
Definition parse_one (opcode : N) (parts : list str) : option (list N) :=
  match parts with
  | _ :: a :: _ => addr ← parse_immediate a; Some (encode opcode 0 SRC_IMM addr)
  | _ => None
  end.
Definition parse_load (parts : list str) : option (list N) :=
  match parts with
  | _ :: a :: b :: _ =>
      dst ← reg_index (trim_comma a);
      '(addr_type, addr_val) ← parse_mem_operand b;
      Some (encode 0x06 dst addr_type addr_val)
  | _ => None
  end.
Definition parse_store (parts : list str) : option (list N) :=
  match parts with
  | _ :: a :: b :: _ =>
      src ← reg_index (trim_comma b);
      '(addr_type, addr_val) ← parse_mem_operand (trim_comma a);
      Some (encode 0x07 src addr_type addr_val)
  | _ => None
  end.

Definition parse_mnemonic (m : str) (parts : list str) : option (list N) :=
  if beq m (B "HALT") then Some (encode 0xFF 0 0 0)
  else if beq m (B "MOV") then parse_two 0x01 parts
  else if beq m (B "ADD") then parse_two 0x02 parts
  else if beq m (B "SUB") then parse_two 0x03 parts
  else if beq m (B "MUL") then parse_two 0x04 parts
  else if beq m (B "DIV") then parse_two 0x05 parts
  else if beq m (B "JMP") then parse_one 0x10 parts
  else if beq m (B "CMP") then parse_two 0x11 parts
  else if beq m (B "JZ") || beq m (B "JE") then parse_one 0x12 parts
  else if beq m (B "JNZ") || beq m (B "JNE") then parse_one 0x13 parts
  else if beq m (B "LOAD") then parse_load parts
  else if beq m (B "STORE") then parse_store parts
  else if beq m (B "INT") then parse_one 0x80 parts
  else None.

Definition parse_line (line : str) : option (list N) :=
  let line := trim line in
  if bool_decide (line = []) || starts_with (B ";") line || starts_with (B "//") line then None
  else
    let line := if contains 59 line then trim (before 59 line) else line in
    match split_whitespace line with
    | [] => None
    | (m :: _) as parts => parse_mnemonic (to_uppercase m) parts
    end.

Definition line_code (line : str) : list N := default [] (parse_line line).

Inductive AsmError := NoInstructions.

Definition assemble (source : str) : result AsmError (list N) :=
  let code := flat_map line_code (lines source) in
  if bool_decide (code = []) then Err NoInstructions else Ok code.

(** ** Printing instructions ([Display] in cpu.rs) *)

Definition digit_char (d : N) : N := if d <? 10 then 48 + d else 87 + d.
(** the hexadecimal digits of a [u64]: at most 16 *)
Fixpoint hex_digits (fuel : nat) (v : N) : str :=
  match fuel with
  | O => [digit_char (v mod 16)]
  | S fuel => if v <? 16 then [digit_char v] else hex_digits fuel (v / 16) ++ [digit_char (v mod 16)]
  end.
(** [{:#x}] *)
Definition display_hex (v : N) : str := B "0x" ++ hex_digits 15 v.

Definition display_register (r : Register) : str :=
  match r with R0 => B "R0" | R1 => B "R1" | R2 => B "R2" | R3 => B "R3" end.
Definition display_operand (o : Operand) : str :=
  match o with Reg r => display_register r | Imm v => B "#" ++ display_hex v end.
Definition display_instruction (i : Instruction) : str :=
  match i with
  | Mov dst src => B "MOV " ++ display_register dst ++ B ", " ++ display_operand src
  | Add dst src => B "ADD " ++ display_register dst ++ B ", " ++ display_operand src
  | Sub dst src => B "SUB " ++ display_register dst ++ B ", " ++ display_operand src
  | Mul dst src => B "MUL " ++ display_register dst ++ B ", " ++ display_operand src
  | Div dst src => B "DIV " ++ display_register dst ++ B ", " ++ display_operand src
  | Jmp addr => B "JMP " ++ display_hex addr
  | Load dst addr => B "LOAD " ++ display_register dst ++ B ", [" ++ display_operand addr ++ B "]"
  | Store src addr => B "STORE [" ++ display_operand addr ++ B "], " ++ display_register src
  | Int vector => B "INT " ++ display_hex vector
  | Cmp dst src => B "CMP " ++ display_register dst ++ B ", " ++ display_operand src
  | Jz addr => B "JZ " ++ display_hex addr
  | Jnz addr => B "JNZ " ++ display_hex addr
  | Halt => B "HALT"
  end.

(** a program, one instruction per line *)
Definition display_program (prog : list Instruction) : str :=
  flat_map (fun i => display_instruction i ++ [10]) prog.

(** ** Decoding what was encoded *)

(** Eight bytes as [fetch_instruction] reads them. *)
Definition decode_bytes (p : N) (bs : list N) : result CPUError.t Instruction :=
  match bs with
  | [op; dst; st; _; b0; b1; b2; b3] => decode p op dst st (from_le_bytes [b0; b1; b2; b3])
  | _ => Err (CPUError.InvalidInstruction p 0)
  end.

Lemma decode_encode p op dst st v : decode_bytes p (encode op dst st v) = decode p op dst st (to_u32 v).
Proof.
  change (decode p op dst st (from_le_bytes (to_le_bytes 4 (to_u32 v))) = decode p op dst st (to_u32 v)).
  rewrite from_to_le_bytes; [done|]. by apply N.mod_lt.
Qed.

Lemma encode_length op dst st v : length (encode op dst st v) = 8%nat.
Proof. reflexivity. Qed.

(** the register an operand number stands for *)
Definition reg_of (n : N) : Register := default R0 (from_index n).

Lemma reg_index_register s n : reg_index s = Some n -> from_index n = Some (reg_of n) /\ to_u32 n = n.
Proof.
  unfold reg_index. cbv zeta.
  destruct (beq _ (B "R0")); [by intros [= <-]|]. destruct (beq _ (B "R1")); [by intros [= <-]|].
  destruct (beq _ (B "R2")); [by intros [= <-]|]. destruct (beq _ (B "R3")); [by intros [= <-]|]. done.
Qed.

Lemma decode_register_index s n : reg_index s = Some n -> decode_register n = Ok (reg_of n).
Proof. intros H. unfold decode_register. by rewrite (proj1 (reg_index_register s n H)). Qed.

Definition operand_of (st v : N) : Operand := if st =? 0 then Reg (reg_of v) else Imm (to_u32 v).

Definition operand_ok (st v : N) : Prop := decode_operand st (to_u32 v) = Ok (operand_of st v).

Lemma operand_ok_reg s n : reg_index s = Some n -> operand_ok SRC_REG n.
Proof.
  intros H. unfold operand_ok, decode_operand, operand_of. cbn.
  rewrite (proj2 (reg_index_register s n H)), (decode_register_index s n H). done.
Qed.

Lemma operand_ok_imm v : operand_ok SRC_IMM v.
Proof. done. Qed.

Lemma parse_operand_decodes s st v : parse_operand s = Some (st, v) -> operand_ok st v.
Proof.
  unfold parse_operand. destruct (strip_prefix _ _) as [h|].
  - destruct (parse_number h); cbn; intros; simplify_eq. apply operand_ok_imm.
  - destruct (reg_index _) eqn:E; cbn; intros; simplify_eq. by eapply operand_ok_reg.
Qed.

Lemma parse_mem_operand_decodes s st v : parse_mem_operand s = Some (st, v) -> operand_ok st v.
Proof.
  unfold parse_mem_operand. destruct (strip_prefix (B "[") (trim s) ≫= strip_suffix (B "]")) as [inner|]; cbn; [|done].
  destruct (reg_index inner) eqn:E.
  - intros; simplify_eq. by eapply operand_ok_reg.
  - destruct (parse_immediate inner); cbn; intros; simplify_eq. apply operand_ok_imm.
Qed.

(** opcodes with a register and an operand *)
Definition two_operands (op : N) : option (Register -> Operand -> Instruction) :=
  if op =? 0x01 then Some Mov else if op =? 0x02 then Some Add else if op =? 0x03 then Some Sub
  else if op =? 0x04 then Some Mul else if op =? 0x05 then Some Div else if op =? 0x06 then Some Load
  else if op =? 0x07 then Some Store else if op =? 0x11 then Some Cmp else None.

Lemma decode_two op mk p dst st v r :
  two_operands op = Some mk -> decode_register dst = Ok r -> operand_ok st v ->
  decode p op dst st (to_u32 v) = Ok (mk r (operand_of st v)).
Proof.
  intros Hop Hr Ho. unfold two_operands in Hop. unfold decode. unfold operand_ok in Ho.
  repeat match type of Hop with
  | (if ?op =? ?c then _ else _) = _ =>
      destruct (N.eqb_spec op c) as [->|]; [injection Hop as <-; cbn [N.eqb Pos.eqb]; rewrite Hr; rstep; by rewrite Ho|]
  end. done.
Qed.

(** what an accepted line is: eight bytes that decode, wherever they stand *)
Definition decodes (bs : list N) : Prop := length bs = 8%nat /\ exists i, forall p, decode_bytes p bs = Ok i.

Lemma decodes_two op mk dst st v r :
  two_operands op = Some mk -> decode_register dst = Ok r -> operand_ok st v -> decodes (encode op dst st v).
Proof.
  intros Hop Hr Ho. split; [done|]. eexists. intros p. rewrite decode_encode. by apply decode_two.
Qed.

Lemma parse_two_decodes op mk parts bs :
  two_operands op = Some mk -> parse_two op parts = Some bs -> decodes bs.
Proof.
  intros Hop. unfold parse_two. destruct parts as [|m [|a [|b parts]]]; try done.
  destruct (reg_index (trim_comma a)) as [dst|] eqn:Ed; cbn [mbind option_bind]; [|done].
  destruct (parse_operand b) as [[st v]|] eqn:Eo; cbn [mbind option_bind]; [|done].
  intros [= <-]. eapply decodes_two; [done|by eapply decode_register_index|by eapply parse_operand_decodes].
Qed.

Lemma parse_load_decodes parts bs : parse_load parts = Some bs -> decodes bs.
Proof.
  unfold parse_load. destruct parts as [|m [|a [|b parts]]]; try done.
  destruct (reg_index (trim_comma a)) as [dst|] eqn:Ed; cbn [mbind option_bind]; [|done].
  destruct (parse_mem_operand b) as [[st v]|] eqn:Eo; cbn [mbind option_bind]; [|done].
  intros [= <-]. eapply (decodes_two 0x06);
    [reflexivity|by eapply decode_register_index|by eapply parse_mem_operand_decodes].
Qed.

Lemma parse_store_decodes parts bs : parse_store parts = Some bs -> decodes bs.
Proof.
  unfold parse_store. destruct parts as [|m [|a [|b parts]]]; try done.
  destruct (reg_index (trim_comma b)) as [src|] eqn:Ed; cbn [mbind option_bind]; [|done].
  destruct (parse_mem_operand (trim_comma a)) as [[st v]|] eqn:Eo; cbn [mbind option_bind]; [|done].
  intros [= <-]. eapply (decodes_two 0x07);
    [reflexivity|by eapply decode_register_index|by eapply parse_mem_operand_decodes].
Qed.

(** opcodes whose value field is all they use *)
Definition one_operand (op : N) : option (N -> Instruction) :=
  if op =? 0x10 then Some Jmp else if op =? 0x12 then Some Jz else if op =? 0x13 then Some Jnz
  else if op =? 0x80 then Some (fun v => Int (to_u8 v)) else None.

Lemma decode_one op mk p v : one_operand op = Some mk -> decode p op 0 SRC_IMM v = Ok (mk v).
Proof.
  intros Hop. unfold one_operand in Hop. unfold decode.
  repeat match type of Hop with
  | (if ?op =? ?c then _ else _) = _ => destruct (N.eqb_spec op c) as [->|]; [by injection Hop as <-|]
  end. done.
Qed.

Lemma parse_one_decodes op mk parts bs :
  one_operand op = Some mk -> parse_one op parts = Some bs -> decodes bs.
Proof.
  intros Hop. unfold parse_one. destruct parts as [|m [|a parts]]; try done.
  destruct (parse_immediate a) as [v|]; cbn [mbind option_bind]; [|done].
  intros [= <-]. split; [done|]. exists (mk (to_u32 v)). intros p. rewrite decode_encode. by apply decode_one.
Qed.

Lemma parse_mnemonic_decodes m parts bs : parse_mnemonic m parts = Some bs -> decodes bs.
Proof.
  unfold parse_mnemonic.
  destruct (beq m (B "HALT")); [intros [= <-]; split; [done|]; by exists Halt|].
  destruct (beq m (B "MOV")); [by apply (parse_two_decodes 0x01 Mov)|].
  destruct (beq m (B "ADD")); [by apply (parse_two_decodes 0x02 Add)|].
  destruct (beq m (B "SUB")); [by apply (parse_two_decodes 0x03 Sub)|].
  destruct (beq m (B "MUL")); [by apply (parse_two_decodes 0x04 Mul)|].
  destruct (beq m (B "DIV")); [by apply (parse_two_decodes 0x05 Div)|].
  destruct (beq m (B "JMP")); [by apply (parse_one_decodes 0x10 Jmp)|].
  destruct (beq m (B "CMP")); [by apply (parse_two_decodes 0x11 Cmp)|].
  destruct (_ || _); [by apply (parse_one_decodes 0x12 Jz)|].
  destruct (_ || _); [by apply (parse_one_decodes 0x13 Jnz)|].
  destruct (beq m (B "LOAD")); [apply parse_load_decodes|].
  destruct (beq m (B "STORE")); [apply parse_store_decodes|].
  destruct (beq m (B "INT")); [by apply (parse_one_decodes 0x80 (fun v => Int (to_u8 v)))|done].
Qed.

Lemma parse_line_decodes l bs : parse_line l = Some bs -> decodes bs.
Proof.
  unfold parse_line. destruct (_ || _); [done|]. destruct (split_whitespace _); [done|].
  apply parse_mnemonic_decodes.
Qed.

(** The assembler makes bytes. *)
#[local] Notation bytes := (Forall (fun b => b < 2 ^ 8)).
Lemma encode_bytes op d st v : op < 2 ^ 8 -> d < 2 ^ 8 -> st < 2 ^ 8 -> bytes (encode op d st v).
Proof.
  intros H1 H2 H3. unfold encode. apply Forall_app. split; [by repeat constructor|]. apply to_le_bytes_bound.
Qed.
Lemma reg_index_byte s n : reg_index s = Some n -> n < 2 ^ 8.
Proof. unfold reg_index. cbv zeta. repeat (destruct (beq _ _); [by intros [= <-]|]). done. Qed.
Lemma parse_operand_byte s st v : parse_operand s = Some (st, v) -> st < 2 ^ 8.
Proof.
  unfold parse_operand. cbv zeta. destruct (strip_prefix _ _); intros H; apply bind_Some in H as (x & _ & [= <- _]); done.
Qed.
Lemma parse_mem_byte s st v : parse_mem_operand s = Some (st, v) -> st < 2 ^ 8.
Proof.
  unfold parse_mem_operand. intros (x & _ & H)%bind_Some. destruct (reg_index x); [by injection H as <- _|].
  apply bind_Some in H as (y & _ & [= <- _]). done.
Qed.
Lemma parse_two_bytes op parts bs : op < 2 ^ 8 -> parse_two op parts = Some bs -> bytes bs.
Proof.
  intros Ho. unfold parse_two. destruct parts as [|? [|a [|b ?]]]; try done. intros (d & Hd & ([st v] & Hst & [= <-])%bind_Some)%bind_Some.
  apply encode_bytes; [done|by eapply reg_index_byte|by eapply parse_operand_byte].
Qed.
Lemma parse_one_bytes op parts bs : op < 2 ^ 8 -> parse_one op parts = Some bs -> bytes bs.
Proof. intros Ho. unfold parse_one. destruct parts as [|? [|a ?]]; try done. intros (v & _ & [= <-])%bind_Some. by apply encode_bytes. Qed.
Lemma parse_load_bytes parts bs : parse_load parts = Some bs -> bytes bs.
Proof.
  unfold parse_load. destruct parts as [|? [|a [|b ?]]]; try done. intros (d & Hd & ([st v] & Hst & [= <-])%bind_Some)%bind_Some.
  apply encode_bytes; [done|by eapply reg_index_byte|by eapply parse_mem_byte].
Qed.
Lemma parse_store_bytes parts bs : parse_store parts = Some bs -> bytes bs.
Proof.
  unfold parse_store. destruct parts as [|? [|a [|b ?]]]; try done. intros (d & Hd & ([st v] & Hst & [= <-])%bind_Some)%bind_Some.
  apply encode_bytes; [done|by eapply reg_index_byte|by eapply parse_mem_byte].
Qed.
Lemma parse_mnemonic_bytes m parts bs : parse_mnemonic m parts = Some bs -> bytes bs.
Proof.
  unfold parse_mnemonic. destruct (beq m (B "HALT")); [intros [= <-]; by apply encode_bytes|].
  repeat (destruct (_ : bool); [first [apply parse_two_bytes; done|apply parse_one_bytes; done|apply parse_load_bytes|apply parse_store_bytes]|]).
  done.
Qed.
Lemma assembled_bytes source code : assemble source = Ok code -> bytes code.
Proof.
  unfold assemble. case_bool_decide as H; [done|]. intros [= <-]. clear H. induction (lines source) as [|l ls IH]; [constructor|].
  cbn [flat_map]. apply Forall_app. split; [|exact IH]. unfold line_code, parse_line. destruct (_ || _); [constructor|].
  destruct (split_whitespace _) as [|m ps]; [constructor|]. destruct (parse_mnemonic _ _) eqn:E; [|constructor].
  by eapply parse_mnemonic_bytes.
Qed.

(** [code] is the instructions [is], eight bytes each *)
Inductive is_code : list N -> list Instruction -> Prop :=
  | code_nil : is_code [] []
  | code_cons bs i code prog :
      length bs = 8%nat -> (forall p, decode_bytes p bs = Ok i) -> is_code code prog ->
      is_code (bs ++ code) (i :: prog).

Lemma is_code_lines ls : exists prog, is_code (flat_map line_code ls) prog.
Proof.
  induction ls as [|l ls [prog IH]]; cbn [flat_map]; [exists []; constructor|].
  unfold line_code at 1. destruct (parse_line l) as [bs|] eqn:E; cbn [default from_option id].
  - destruct (parse_line_decodes l bs E) as (Hl & i & Hi). exists (i :: prog). by constructor.
  - by exists prog.
Qed.

Lemma is_code_length code prog : is_code code prog -> length code = (8 * length prog)%nat.
Proof. induction 1 as [|bs i code prog Hl _ _ IH]; [done|]. rewrite length_app, Hl, IH. cbn [length]. lia. Qed.

Lemma is_code_at code prog k i : is_code code prog -> prog !! k = Some i ->
  exists op dst st pad b0 b1 b2 b3,
    take 8 (drop (8 * k) code) = [op; dst; st; pad; b0; b1; b2; b3] /\
    forall p, decode p op dst st (from_le_bytes [b0; b1; b2; b3]) = Ok i.
Proof.
  intros Hc. revert k. induction Hc as [|bs j code prog Hl Hj _ IH]; intros k Hk; [done|].
  destruct k as [|k].
  - cbn in Hk. injection Hk as ->. change (8 * 0)%nat with 0%nat. rewrite drop_0, take_app_length' by done.
    do 8 (destruct bs as [|? bs]; [done|]). destruct bs; [|done]. by do 8 eexists.
  - replace (8 * S k)%nat with (8 + 8 * k)%nat by lia.
    rewrite <- drop_drop, drop_app_length' by done. by apply IH.
Qed.

Lemma assembled_fetches source :
  match assemble source with
  | Ok code =>
      exists prog, prog <> [] /\ length code = (8 * length prog)%nat /\
        forall m base k i,
          Mmu.wf (mmu m) -> page_size (mmu m) mod 4 = 0 -> base mod 4 = 0 ->
          base + len code < 2 ^ 64 -> code_at (mmu m) (current_pid (cpu m)) base code ->
          prog !! k = Some i -> pc (cpu m) = base + 8 * N.of_nat k ->
          fetch_instruction m = (upd_cpu (set_pc (pc (cpu m) + 8)) m, Ok i)
  | Err _ => forall l, l ∈ lines source -> parse_line l = None
  end.
Proof.
  unfold assemble. destruct (bool_decide_reflect (flat_map line_code (lines source) = [])) as [Hn|Hn].
  - intros l Hl. destruct (parse_line l) as [bs|] eqn:E; [|done].
    destruct (parse_line_decodes l bs E) as [Hlen _].
    assert (Hin : In l (lines source)) by (by apply list_elem_of_In).
    apply in_split in Hin as (l1 & l2 & Hs). rewrite Hs, flat_map_app in Hn. cbn [flat_map] in Hn.
    apply app_eq_nil in Hn as [_ Hn]. apply app_eq_nil in Hn as [Hn _].
    unfold line_code in Hn. rewrite E in Hn. cbn in Hn. by subst bs.
  - destruct (is_code_lines (lines source)) as [prog Hc]. set (code := flat_map _ _) in *.
    pose proof (is_code_length _ _ Hc) as Hlen. exists prog. split_and!; [|done|].
    + intros ->. by destruct code.
    + intros m base k i Hm Hps Hb Hlt Hat Hk Hpc.
      destruct (is_code_at _ _ _ _ Hc Hk) as (op & dst & st & pad & b0 & b1 & b2 & b3 & Ht & Hd).
      pose proof (lookup_lt_Some _ _ _ Hk) as Hkl.
      assert (Hmod : (base + 8 * N.of_nat k) mod 4 = 0).
      { replace (base + 8 * N.of_nat k) with (base + (2 * N.of_nat k) * 4) by lia.
        by rewrite N.Div0.mod_add. }
      rewrite (fetch_instruction_code m op dst st pad b0 b1 b2 b3); [by rewrite Hd|done|done|..].
      * by rewrite Hpc.
      * lia.
      * intros j b Hj. rewrite Hpc, <- Ht in *. rewrite lookup_take_Some in Hj. destruct Hj as [Hj Hj8].
        rewrite lookup_drop in Hj. specialize (Hat _ _ Hj).
        by replace (base + 8 * N.of_nat k + N.of_nat j) with (base + N.of_nat (8 * k + j)) by lia.
Qed.

(** C11: Everything the assembler accepts runs: the code of a source text is a
    whole number of eight-byte instructions, at least one, and a CPU whose
    program counter is at the [k]-th one in a memory that holds the code fetches
    a valid instruction - the [k]-th of one program, the same at every load
    address that is a multiple of four, as long as the code ends below 2^64 and
    the page size is a multiple of four.  (At another address the fetch fails, as
    the CPU reads aligned words only.)  The assembler fails only when it accepted
    no line. *)
Theorem assembled_code_executes source :
  match assemble source with
  | Ok code =>
      exists prog, prog <> [] /\ length code = (8 * length prog)%nat /\
        forall m base k i,
          Mmu.wf (mmu m) -> page_size (mmu m) mod 4 = 0 -> base mod 4 = 0 ->
          base + len code < 2 ^ 64 -> code_at (mmu m) (current_pid (cpu m)) base code ->
          prog !! k = Some i -> pc (cpu m) = base + 8 * N.of_nat k ->
          fetch_instruction m = (upd_cpu (set_pc (pc (cpu m) + 8)) m, Ok i)
  | Err _ => forall l, l ∈ lines source -> parse_line l = None
  end.
Proof. apply assembled_fetches. Qed.

(** the source of the code that [demo_machine] holds at 0x20 *)
Definition demo_source : str :=
  B "MOV R1, #0x2A ; set up" ++ [10] ++ B "  store [0x28], r1" ++ [13; 10; 10] ++ B "LOAD R2, [0x90]".

Lemma assembled_code_executes_witness :
  exists i, assemble demo_source = Ok demo_code /\
    fetch_instruction (demo_machine 0x28) = (demo_machine 0x30, Ok i) /\ i = Store R1 (Imm 0x28).
Proof.
  pose proof (assembled_code_executes demo_source) as H.
  assert (Ha : assemble demo_source = Ok demo_code) by (vm_compute; reflexivity). rewrite Ha in H.
  destruct H as (prog & _ & Hl & H).
  destruct (lookup_lt_is_Some_2 prog 1) as [i Hi]; [cbn in Hl; lia|].
  exists i. split; [exact Ha|].
  assert (Hf : fetch_instruction (demo_machine 0x28) = (demo_machine 0x30, Ok i)).
  { apply (H (demo_machine 0x28) 0x20 1%nat i); [|reflexivity|reflexivity|reflexivity| |exact Hi|reflexivity].
    - exact (proj2 (proj2 (proj2 (demo_machine_wf 0x28 eq_refl)))).
    - intros j b Hj. do 24 (destruct j as [|j]; [cbn in Hj; injection Hj as <-; vm_compute; reflexivity|]). done. }
  split; [exact Hf|]. assert (E : snd (fetch_instruction (demo_machine 0x28)) = Ok (Store R1 (Imm 0x28)))
    by (vm_compute; reflexivity). rewrite Hf in E. by injection E.
Defined.

(** ** Printing and assembling *)

Lemma digits_from_app radix acc s t :
  digits_from radix acc (s ++ t) = digits_from radix acc s ≫= fun a => digits_from radix a t.
Proof.
  revert acc. induction s as [|c s IH]; intros acc; [done|]. cbn [digits_from app].
  destruct (digit_value radix c); cbn [mbind option_bind]; [|done].
  destruct (_ <? _); [apply IH|done].
Qed.

Lemma digit_char_value d : d < 16 -> digit_value 16 (digit_char d) = Some d.
Proof.
  intros H. unfold digit_char, digit_value. destruct (N.ltb_spec d 10).
  - destruct (N.leb_spec 48 (48 + d)), (N.leb_spec (48 + d) 57); cbn [andb]; try lia.
    replace (48 + d - 48) with d by lia. destruct (N.ltb_spec d 16); [done|lia].
  - destruct (N.leb_spec 48 (87 + d)), (N.leb_spec (87 + d) 57), (N.leb_spec 97 (87 + d)),
      (N.leb_spec (87 + d) 122); cbn [andb]; try lia.
    replace (87 + d - 87) with d by lia. destruct (N.ltb_spec d 16); [done|lia].
Qed.

Lemma hex_digits_value fuel : forall v,
  v < 16 ^ N.of_nat (S fuel) -> v < 2 ^ 64 -> digits_from 16 0 (hex_digits fuel v) = Some v.
Proof.
  induction fuel as [|fuel IH]; intros v Hv H64; cbn [hex_digits].
  - change (16 ^ N.of_nat 1) with 16 in Hv. rewrite N.mod_small by done.
    cbn [digits_from]. rewrite digit_char_value by done. cbn [mbind option_bind].
    change (0 * 16) with 0. rewrite N.add_0_l. destruct (N.ltb_spec v (2 ^ 64)); [done|lia].
  - destruct (N.ltb_spec v 16) as [Hs|Hs].
    + cbn [digits_from]. rewrite digit_char_value by done. cbn [mbind option_bind].
      change (0 * 16) with 0. rewrite N.add_0_l. destruct (N.ltb_spec v (2 ^ 64)); [done|lia].
    + pose proof (N.div_mod' v 16) as Hd. pose proof (N.mod_lt v 16 ltac:(done)) as Hm.
      rewrite digits_from_app, IH.
      * cbn [mbind option_bind digits_from]. rewrite digit_char_value by done. cbn [mbind option_bind].
        replace (v / 16 * 16 + v mod 16) with v by lia. destruct (N.ltb_spec v (2 ^ 64)); [done|lia].
      * apply N.Div0.div_lt_upper_bound.
        replace (N.of_nat (S (S fuel))) with (N.succ (N.of_nat (S fuel))) in Hv by lia.
        rewrite N.pow_succ_r' in Hv. exact Hv.
      * assert (v / 16 <= v) by (apply N.Div0.div_le_upper_bound; lia). eapply N.le_lt_trans; eassumption.
Qed.

(** characters of hexadecimal digits *)
Definition hex_char (c : N) : Prop := 48 <= c <= 57 \/ 97 <= c <= 102.

Lemma hex_digits_chars fuel v : hex_digits fuel v <> [] /\ Forall hex_char (hex_digits fuel v).
Proof.
  assert (Hc : forall d, d < 16 -> hex_char (digit_char d)).
  { intros d Hd. unfold hex_char, digit_char. destruct (N.ltb_spec d 10); lia. }
  revert v. induction fuel as [|fuel IH]; intros v; cbn [hex_digits].
  - split; [done|]. constructor; [|constructor]. apply Hc. by apply N.mod_lt.
  - destruct (N.ltb_spec v 16).
    + split; [done|]. constructor; [|constructor]. by apply Hc.
    + split; [by destruct (hex_digits fuel (v / 16))|]. apply Forall_app. split; [apply IH|].
      constructor; [|constructor]. apply Hc. by apply N.mod_lt.
Qed.

Lemma parse_display_hex v : v < 2 ^ 64 -> parse_number (display_hex v) = Some v.
Proof.
  intros H. destruct (hex_digits_chars 15 v) as [Hne Hch].
  unfold parse_number, strip_hex, display_hex.
  change (strip_prefix (B "0x") (B "0x" ++ hex_digits 15 v)) with (Some (hex_digits 15 v)). cbv iota.
  rewrite <- (hex_digits_value 15 v H H). unfold from_str_radix.
  destruct (hex_digits 15 v) as [|c r] eqn:E; [done|].
  apply Forall_cons_1 in Hch as [Hc _]. destruct (N.eqb_spec c 43) as [->|]; [|done].
  unfold hex_char in Hc. lia.
Qed.

(** *** Tokens: words without white space, semicolon or line end *)

Definition plain (c : N) : Prop := is_whitespace c = false /\ c <> 59.
Definition token (t : str) : Prop := t <> [] /\ Forall plain t.

Fixpoint join (ts : list str) : str :=
  match ts with [] => [] | [t] => t | t :: ts => t ++ 32 :: join ts end.

Lemma hex_char_plain c : hex_char c -> plain c.
Proof.
  unfold hex_char, plain, is_whitespace. intros H.
  destruct (N.leb_spec 9 c), (N.leb_spec c 13), (N.eqb_spec c 32); cbn; split; try done; lia.
Qed.

Lemma token_app s t : Forall plain s -> token t -> token (s ++ t).
Proof. intros Hs [Hn Ht]. split; [by destruct s|by apply Forall_app]. Qed.

Lemma token_app_r s t : token s -> Forall plain t -> token (s ++ t).
Proof. intros [Hn Hs] Ht. split; [by destruct s|by apply Forall_app]. Qed.

Ltac plain_word := repeat (first [apply Forall_nil_2 | apply Forall_cons_2; [by vm_compute|]]).

Lemma token_hex v : token (display_hex v).
Proof.
  apply token_app; [plain_word|]. destruct (hex_digits_chars 15 v) as [Hn Hc]. split; [done|].
  eapply Forall_impl; [|exact Hc]. apply hex_char_plain.
Qed.

Lemma token_register r : token (display_register r).
Proof. destruct r; (split; [done|plain_word]). Qed.

Lemma token_operand o : token (display_operand o).
Proof. destruct o as [r|v]; [apply token_register|]. apply token_app; [plain_word|apply token_hex]. Qed.

Lemma drop_while_none f c s : f c = false -> drop_while f (c :: s) = c :: s.
Proof. cbn. by intros ->. Qed.

Lemma trim_plain s t : token s -> token t -> forall mid, trim (s ++ mid ++ t) = s ++ mid ++ t.
Proof.
  intros [Hs Hps] [Ht Hpt] mid. unfold trim, trim_end_matches.
  destruct s as [|c s]; [done|]. apply Forall_cons_1 in Hps as [[Hc _] _].
  cbn [app]. rewrite drop_while_none by done.
  destruct (rev t) as [|d r] eqn:Er; [apply (f_equal (@rev N)) in Er; rewrite rev_involutive in Er; done|].
  assert (Hd : is_whitespace d = false).
  { assert (Hin : d ∈ t) by (apply list_elem_of_In, in_rev; rewrite Er; by left).
    by apply (proj1 (list.Forall_forall _ _) Hpt). }
  replace (rev (c :: s ++ mid ++ t)) with (d :: r ++ rev mid ++ rev (c :: s)).
  - rewrite drop_while_none by done.
    change (d :: r ++ rev mid ++ rev (c :: s)) with ((d :: r) ++ rev mid ++ rev (c :: s)).
    rewrite <- Er, !rev_app_distr, !rev_involutive. by rewrite <- app_assoc.
  - change (c :: s ++ mid ++ t) with ((c :: s) ++ mid ++ t). rewrite !rev_app_distr, Er.
    cbn [app]. by rewrite <- app_assoc.
Qed.

Lemma trim_token t : token t -> trim t = t.
Proof.
  intros [Hn Hp]. unfold trim, trim_end_matches.
  assert (G : forall s, Forall plain s -> drop_while is_whitespace s = s).
  { intros [|c s] H; [done|]. apply Forall_cons_1 in H as [[Hc _] _]. by apply drop_while_none. }
  rewrite (G t) by done. rewrite G; [apply rev_involutive|].
  apply list.Forall_forall. intros c Hc. apply (proj1 (list.Forall_forall _ _) Hp).
  apply list_elem_of_In. apply list_elem_of_In in Hc. by apply in_rev.
Qed.

Lemma split_ws_token t : forall tok s, Forall plain t ->
  split_ws tok (t ++ 32 :: s) = emit (rev t ++ tok) (split_ws [] s) /\
  split_ws tok t = emit (rev t ++ tok) [].
Proof.
  induction t as [|c t IH]; intros tok s Ht; [done|].
  apply Forall_cons_1 in Ht as [[Hc _] Ht]. cbn [app split_ws rev]. rewrite Hc.
  destruct (IH (c :: tok) s Ht) as [-> ->]. by rewrite <- app_assoc.
Qed.

Lemma emit_token t rest : t <> [] -> emit (rev t ++ []) rest = t :: rest.
Proof.
  intros Hn. rewrite app_nil_r. unfold emit.
  destruct (rev t) as [|c r] eqn:E; [|by rewrite <- E, rev_involutive].
  apply (f_equal (@rev N)) in E. rewrite rev_involutive in E. done.
Qed.

Lemma split_join ts : Forall token ts -> split_whitespace (join ts) = ts.
Proof.
  unfold split_whitespace. induction ts as [|t ts IH]; intros Hts; [done|].
  apply Forall_cons_1 in Hts as [[Hn Ht] Hts]. destruct ts as [|u ts].
  - cbn [join]. destruct (split_ws_token t [] [] Ht) as [_ ->]. by apply emit_token.
  - cbn [join]. destruct (split_ws_token t [] (join (u :: ts)) Ht) as [E _].
    cbn [join] in E. rewrite E. rewrite (emit_token t _ Hn). f_equal. by apply IH.
Qed.

Lemma join_shape ts t0 : ts <> [] -> Forall token ts -> head ts = Some t0 ->
  exists mid tl, token tl /\ (join ts = t0 ++ mid ++ tl \/ join ts = t0) .
Proof.
  revert t0. induction ts as [|t ts IH]; intros t0 Hn Hts Hh; [done|]. cbn in Hh. injection Hh as ->.
  apply Forall_cons_1 in Hts as [Ht Hts]. destruct ts as [|u ts].
  - exists [], t0. split; [done|by right].
  - destruct (IH u) as (mid & tl & Htl & [E|E]); [done|done|done|..].
    + exists (32 :: u ++ mid), tl. split; [done|]. left.
      change (join (t0 :: u :: ts)) with (t0 ++ 32 :: join (u :: ts)). rewrite E.
      cbn [app]. by rewrite <- !app_assoc.
    + exists [32], u. apply Forall_cons_1 in Hts as [Hu _]. split; [done|]. left.
      change (join (t0 :: u :: ts)) with (t0 ++ 32 :: join (u :: ts)). by rewrite E.
Qed.

Lemma trim_join ts : Forall token ts -> trim (join ts) = join ts.
Proof.
  intros Hts. destruct ts as [|t ts]; [done|].
  destruct (join_shape (t :: ts) t) as (mid & tl & Htl & [E|E]); [done|done|done|..];
    apply Forall_cons_1 in Hts as [Ht _]; rewrite E; [by apply trim_plain|by apply trim_token].
Qed.

Lemma contains_join ts : Forall token ts -> contains 59 (join ts) = false.
Proof.
  assert (Hc : forall t s, Forall plain t -> contains 59 (t ++ s) = contains 59 s).
  { intros t s H. induction H as [|c t [_ Hc] _ IH]; [done|]. cbn [app contains]. rewrite IH.
    by destruct (N.eqb_spec c 59). }
  induction ts as [|t ts IH]; intros Hts; [done|]. apply Forall_cons_1 in Hts as [[_ Ht] Hts].
  destruct ts as [|u ts].
  - cbn [join]. rewrite <- (app_nil_r t). by rewrite Hc.
  - change (join (t :: u :: ts)) with (t ++ 32 :: join (u :: ts)). rewrite Hc by done.
    cbn [contains]. by apply IH.
Qed.

(** A line of tokens goes to the mnemonic of the first one. *)
Lemma parse_line_tokens m ts :
  Forall token (m :: ts) -> strip_prefix (B "/") m = None ->
  parse_line (join (m :: ts)) = parse_mnemonic (to_uppercase m) (m :: ts).
Proof.
  intros Hts Hm. unfold parse_line. rewrite trim_join by done. rewrite contains_join, split_join by done.
  pose proof Hts as [Htok _]%Forall_cons_1. destruct Htok as [Hn Hp].
  destruct m as [|c m]; [done|]. apply Forall_cons_1 in Hp as [[_ Hc] _].
  assert (E : exists s, join ((c :: m) :: ts) = c :: s).
  { destruct ts; cbn [join app]; by eexists. }
  destruct E as [s ->]. rewrite bool_decide_false by done.
  change (strip_prefix (B "/") (c :: m)) with (if 47 =? c then Some m else None) in Hm.
  change (starts_with (B ";") (c :: s)) with (match (if 59 =? c then Some s else None) with Some _ => true | None => false end).
  change (starts_with (B "//") (c :: s)) with
    (match (if 47 =? c then strip_prefix (B "/") s else None) with Some _ => true | None => false end).
  destruct (N.eqb_spec 59 c); [congruence|]. by destruct (47 =? c).
Qed.

Lemma token_word w : Forall plain (B w) -> B w <> [] -> token (B w).
Proof. by intros; split. Qed.

Lemma parse_operand_display o :
  (forall v, o = Imm v -> v < 2 ^ 64) ->
  exists st v, parse_operand (display_operand o) = Some (st, v) /\
    operand_of st v = match o with Reg r => Reg r | Imm v => Imm (to_u32 v) end.
Proof.
  intros Ho. destruct o as [r|v]; cbn [display_operand].
  - unfold parse_operand. rewrite trim_token by apply token_register.
    destruct r; by eexists _, _.
  - unfold parse_operand. rewrite trim_token by (apply token_app; [plain_word|apply token_hex]).
    change (strip_prefix (B "#") (B "#" ++ display_hex v)) with (Some (display_hex v)). cbv iota.
    rewrite parse_display_hex by (by apply Ho). by eexists _, _.
Qed.

Lemma trim_hash_hex v : trim_start_matches (N.eqb 35) (display_hex v) = display_hex v.
Proof. reflexivity. Qed.

Lemma parse_immediate_hex v : v < 2 ^ 64 ->
  parse_immediate (display_hex v) = Some v /\ parse_immediate (B "#" ++ display_hex v) = Some v.
Proof.
  intros H. unfold parse_immediate. rewrite (trim_token (display_hex v)) by apply token_hex.
  rewrite (trim_token (B "#" ++ display_hex v)) by (apply token_app; [plain_word|apply token_hex]).
  rewrite trim_hash_hex. change (trim_start_matches (N.eqb 35) (B "#" ++ display_hex v)) with (display_hex v).
  by rewrite parse_display_hex.
Qed.

Lemma parse_mem_display o :
  (forall v, o = Imm v -> v < 2 ^ 64) ->
  exists st v, parse_mem_operand (B "[" ++ display_operand o ++ B "]") = Some (st, v) /\
    operand_of st v = match o with Reg r => Reg r | Imm v => Imm (to_u32 v) end.
Proof.
  intros Ho. unfold parse_mem_operand.
  rewrite trim_token by (apply token_app; [plain_word|apply token_app_r; [apply token_operand|plain_word]]).
  change (strip_prefix (B "[") (B "[" ++ display_operand o ++ B "]")) with (Some (display_operand o ++ B "]")).
  cbn [mbind option_bind]. unfold strip_suffix. rewrite rev_app_distr.
  change (strip_prefix (rev (B "]")) (rev (B "]") ++ rev (display_operand o))) with (Some (rev (display_operand o))).
  cbn [fmap option_fmap option_map]. rewrite rev_involutive.
  destruct o as [r|v]; cbn [display_operand].
  - destruct r; by eexists _, _.
  - cbn [mbind option_bind]. change (reg_index (B "#" ++ display_hex v)) with (@None N). cbv iota.
    rewrite (proj2 (parse_immediate_hex v (Ho v eq_refl))). by eexists _, _.
Qed.

Lemma trim_comma_register r : reg_index (trim_comma (display_register r ++ B ",")) = Some (N.of_nat (Cpu.reg_index r)) /\
  reg_index (trim_comma (display_register r)) = Some (N.of_nat (Cpu.reg_index r)).
Proof. by destruct r. Qed.

(** what the assembler keeps of an instruction: the low 32 bits of a value, the
    low 8 of an interrupt vector *)
Definition low_operand (o : Operand) : Operand := match o with Reg r => Reg r | Imm v => Imm (to_u32 v) end.
Definition low (i : Instruction) : Instruction :=
  match i with
  | Mov d s => Mov d (low_operand s) | Add d s => Add d (low_operand s) | Sub d s => Sub d (low_operand s)
  | Mul d s => Mul d (low_operand s) | Div d s => Div d (low_operand s)
  | Load d a => Load d (low_operand a) | Store s a => Store s (low_operand a)
  | Cmp d s => Cmp d (low_operand s)
  | Jmp a => Jmp (to_u32 a) | Jz a => Jz (to_u32 a) | Jnz a => Jnz (to_u32 a)
  | Int v => Int (to_u8 (to_u32 v)) | Halt => Halt
  end.

(** values are machine words *)
Definition operand_word (o : Operand) : Prop := match o with Reg _ => True | Imm v => v < 2 ^ 64 end.
Definition word_values (i : Instruction) : Prop :=
  match i with
  | Mov _ o | Add _ o | Sub _ o | Mul _ o | Div _ o | Load _ o | Store _ o | Cmp _ o => operand_word o
  | Jmp v | Jz v | Jnz v | Int v => v < 2 ^ 64
  | Halt => True
  end.

Definition line_decodes (l : str) (i : Instruction) : Prop :=
  exists bs, parse_line l = Some bs /\ length bs = 8%nat /\ forall p, decode_bytes p bs = Ok i.

Lemma token_comma t : token t -> token (t ++ B ",").
Proof. intros H. apply token_app_r; [done|plain_word]. Qed.
Lemma token_mem o : token (B "[" ++ display_operand o ++ B "]").
Proof. apply token_app; [plain_word|]. apply token_app_r; [apply token_operand|plain_word]. Qed.

Ltac tokens := repeat first [apply Forall_nil_2 | apply Forall_cons_2];
  first [apply token_register | apply token_operand | apply token_hex | apply token_mem
        | apply token_comma, token_register | apply token_comma, token_mem | (split; [done|plain_word])].

Lemma imm_word o : operand_word o -> forall v, o = Imm v -> v < 2 ^ 64.
Proof. by intros H v ->. Qed.

Lemma decode_register_of r : decode_register (N.of_nat (Cpu.reg_index r)) = Ok r.
Proof. by destruct r. Qed.

(** the lines "OP R, operand" *)
Lemma two_line w op mk r o :
  token (B w) -> strip_prefix (B "/") (B w) = None -> two_operands op = Some mk ->
  (forall ts, parse_mnemonic (to_uppercase (B w)) ts = parse_two op ts) -> operand_word o ->
  line_decodes (B w ++ 32 :: (display_register r ++ B ",") ++ 32 :: display_operand o) (mk r (low_operand o)).
Proof.
  intros Hw Hs Hop Hm Ho.
  destruct (parse_operand_display o (imm_word o Ho)) as (st & v & Hp & Hv).
  change (B w ++ 32 :: (display_register r ++ B ",") ++ 32 :: display_operand o)
    with (join [B w; display_register r ++ B ","; display_operand o]).
  unfold line_decodes. rewrite parse_line_tokens, Hm; [|constructor; [done|tokens]|done].
  unfold parse_two. rewrite (proj1 (trim_comma_register r)). cbn [mbind option_bind].
  rewrite Hp. cbn [mbind option_bind]. eexists. split; [done|]. split; [done|].
  intros p. rewrite decode_encode. rewrite (decode_two op mk p _ st v r Hop (decode_register_of r)).
  - by rewrite Hv.
  - by eapply parse_operand_decodes.
Qed.

(** the lines "OP address" *)
Lemma one_line w op mk a :
  token (B w) -> strip_prefix (B "/") (B w) = None -> one_operand op = Some mk ->
  (forall ts, parse_mnemonic (to_uppercase (B w)) ts = parse_one op ts) -> a < 2 ^ 64 ->
  line_decodes (B w ++ 32 :: display_hex a) (mk (to_u32 a)).
Proof.
  intros Hw Hs Hop Hm Ha. change (B w ++ 32 :: display_hex a) with (join [B w; display_hex a]).
  unfold line_decodes. rewrite parse_line_tokens, Hm; [|constructor; [done|tokens]|done].
  unfold parse_one. rewrite (proj1 (parse_immediate_hex a Ha)). cbn [mbind option_bind].
  eexists. split; [done|]. split; [done|]. intros p. rewrite decode_encode. by apply decode_one.
Qed.

Lemma trim_comma_mem o :
  trim_comma ((B "[" ++ display_operand o ++ B "]") ++ B ",") = B "[" ++ display_operand o ++ B "]".
Proof.
  unfold trim_comma, trim_end_matches. rewrite rev_app_distr.
  set (t := B "[" ++ _). assert (Ht : rev t = 93 :: rev (B "[" ++ display_operand o)).
  { unfold t. rewrite app_assoc, rev_app_distr. reflexivity. }
  change (rev (B ",") ++ rev t) with (44 :: rev t). rewrite Ht.
  change (drop_while (N.eqb 44) (44 :: 93 :: rev (B "[" ++ display_operand o)))
    with (93 :: rev (B "[" ++ display_operand o)). rewrite <- Ht. apply rev_involutive.
Qed.

Lemma load_line r o : operand_word o ->
  line_decodes (B "LOAD" ++ 32 :: (display_register r ++ B ",") ++ 32 :: (B "[" ++ display_operand o ++ B "]"))
    (Load r (low_operand o)).
Proof.
  intros Ho. destruct (parse_mem_display o (imm_word o Ho)) as (st & v & Hp & Hv).
  change (B "LOAD" ++ 32 :: (display_register r ++ B ",") ++ 32 :: (B "[" ++ display_operand o ++ B "]"))
    with (join [B "LOAD"; display_register r ++ B ","; B "[" ++ display_operand o ++ B "]"]).
  unfold line_decodes. rewrite parse_line_tokens; [|tokens|done].
  change (parse_mnemonic (to_uppercase (B "LOAD"))) with parse_load.
  unfold parse_load. rewrite (proj1 (trim_comma_register r)). cbn [mbind option_bind].
  rewrite Hp. cbn [mbind option_bind]. eexists. split; [done|]. split; [done|].
  intros p. rewrite decode_encode. rewrite (decode_two 0x06 Load p _ st v r eq_refl (decode_register_of r)).
  - by rewrite Hv.
  - by eapply parse_mem_operand_decodes.
Qed.

Lemma store_line r o : operand_word o ->
  line_decodes (B "STORE" ++ 32 :: ((B "[" ++ display_operand o ++ B "]") ++ B ",") ++ 32 :: display_register r)
    (Store r (low_operand o)).
Proof.
  intros Ho. destruct (parse_mem_display o (imm_word o Ho)) as (st & v & Hp & Hv).
  change (B "STORE" ++ 32 :: ((B "[" ++ display_operand o ++ B "]") ++ B ",") ++ 32 :: display_register r)
    with (join [B "STORE"; (B "[" ++ display_operand o ++ B "]") ++ B ","; display_register r]).
  unfold line_decodes. rewrite parse_line_tokens; [|tokens|done].
  change (parse_mnemonic (to_uppercase (B "STORE"))) with parse_store.
  unfold parse_store. rewrite (proj2 (trim_comma_register r)). cbn [mbind option_bind].
  rewrite trim_comma_mem, Hp. cbn [mbind option_bind]. eexists. split; [done|]. split; [done|].
  intros p. rewrite decode_encode. rewrite (decode_two 0x07 Store p _ st v r eq_refl (decode_register_of r)).
  - by rewrite Hv.
  - by eapply parse_mem_operand_decodes.
Qed.

Ltac word_token := split; [done|plain_word].

(** The printed form of an instruction is a line that assembles back to it. *)
Lemma display_line i : word_values i -> line_decodes (display_instruction i) (low i).
Proof.
  assert (Hspace : forall (r : Register) (rest : str), display_register r ++ B ", " ++ rest =
      (display_register r ++ B ",") ++ 32 :: rest) by (intros; by rewrite <- app_assoc).
  intros Hi. destruct i as [d o|d o|d o|d o|d o|a|a|d o|s o|d o|a|a|];
    cbn [display_instruction low word_values] in *; rewrite ?Hspace.
  - change (B "MOV " ++ ?x) with (B "MOV" ++ 32 :: x). by apply (two_line "MOV" 0x01 Mov); [word_token|..].
  - change (B "ADD " ++ ?x) with (B "ADD" ++ 32 :: x). by apply (two_line "ADD" 0x02 Add); [word_token|..].
  - change (B "SUB " ++ ?x) with (B "SUB" ++ 32 :: x). by apply (two_line "SUB" 0x03 Sub); [word_token|..].
  - change (B "MUL " ++ ?x) with (B "MUL" ++ 32 :: x). by apply (two_line "MUL" 0x04 Mul); [word_token|..].
  - change (B "DIV " ++ ?x) with (B "DIV" ++ 32 :: x). by apply (two_line "DIV" 0x05 Div); [word_token|..].
  - by apply (one_line "JMP" 0x10 Jmp); [word_token|..].
  - by apply (one_line "INT" 0x80 (fun v => Int (to_u8 v))); [word_token|..].
  - replace (B "LOAD " ++ display_register d ++ B ", [" ++ display_operand o ++ B "]") with
      (B "LOAD" ++ 32 :: (display_register d ++ B ",") ++ 32 :: (B "[" ++ display_operand o ++ B "]"))
      by (by rewrite <- app_assoc). by apply load_line.
  - replace (B "STORE [" ++ display_operand o ++ B "], " ++ display_register s) with
      (B "STORE" ++ 32 :: ((B "[" ++ display_operand o ++ B "]") ++ B ",") ++ 32 :: display_register s)
      by (by rewrite <- !app_assoc). by apply store_line.
  - change (B "CMP " ++ ?x) with (B "CMP" ++ 32 :: x). by apply (two_line "CMP" 0x11 Cmp); [word_token|..].
  - by apply (one_line "JZ" 0x12 Jz); [word_token|..].
  - by apply (one_line "JNZ" 0x13 Jnz); [word_token|..].
  - exists (encode 0xFF 0 0 0). split; [by vm_compute|]. by split.
Qed.

(** *** Programs *)

Definition no_break (c : N) : Prop := c <> 10 /\ c <> 13.

Lemma token_no_break t : token t -> Forall no_break t.
Proof.
  intros [_ H]. eapply Forall_impl; [|exact H]. intros c [Hc _]. split; intros ->; done.
Qed.

Lemma display_no_break i : Forall no_break (display_instruction i).
Proof.
  assert (Hr : forall r, Forall no_break (display_register r)) by (intros; apply token_no_break, token_register).
  assert (Ho : forall o, Forall no_break (display_operand o)) by (intros; apply token_no_break, token_operand).
  assert (Hh : forall v, Forall no_break (display_hex v)) by (intros; apply token_no_break, token_hex).
  destruct i; cbn [display_instruction];
    repeat match goal with |- Forall _ (_ ++ _) => apply Forall_app; split end;
    first [apply Hr | apply Ho | apply Hh | plain_word].
Qed.

Lemma chop_cr_none l : Forall no_break l -> chop_cr l = l.
Proof.
  intros H. unfold chop_cr. destruct (rev l) as [|c r] eqn:E; [done|].
  assert (Hc : c ∈ l) by (apply list_elem_of_In, in_rev; rewrite E; by left).
  apply (proj1 (list.Forall_forall _ _) H) in Hc as [_ Hc]. by destruct (N.eqb_spec c 13).
Qed.

Lemma lines_from_line l : forall cur s, Forall no_break l ->
  lines_from cur (l ++ 10 :: s) = chop_cr (rev cur ++ l) :: lines s.
Proof.
  induction l as [|c l IH]; intros cur s H; cbn [app lines_from].
  - by rewrite app_nil_r.
  - apply Forall_cons_1 in H as [[Hc _] H]. destruct (N.eqb_spec c 10); [done|].
    rewrite IH by done. cbn [rev]. by rewrite <- app_assoc.
Qed.

Lemma lines_program prog : lines (display_program prog) = display_instruction <$> prog.
Proof.
  unfold display_program. induction prog as [|i prog IH]; [done|]. cbn [flat_map]. rewrite fmap_cons, <- IH.
  rewrite <- app_assoc. cbn [app]. unfold lines at 1. rewrite lines_from_line by apply display_no_break.
  cbn [rev app]. by rewrite chop_cr_none by apply display_no_break.
Qed.

(** C15: Printing a program, one instruction per line, and assembling the text
    gives code whose instructions are those of the program with every value
    cut to its low 32 bits (low 8 for an interrupt vector): a value that does
    not fit is truncated without an error, and a program whose values fit comes
    back as it was. *)
Theorem display_assemble prog :
  prog <> [] -> Forall word_values prog ->
  exists code, assemble (display_program prog) = Ok code /\
    length code = (8 * length prog)%nat /\
    forall k i, prog !! k = Some i ->
      forall p, decode_bytes p (take 8 (drop (8 * k) code)) = Ok (low i).
Proof.
  intros Hne Hp. unfold assemble. rewrite lines_program.
  assert (Hc : is_code (flat_map line_code (display_instruction <$> prog)) (low <$> prog)).
  { clear Hne. induction Hp as [|i prog Hi Hp IH]; [constructor|]. rewrite !fmap_cons. cbn [flat_map].
    destruct (display_line i Hi) as (bs & Hl & Hlen & Hd). unfold line_code at 1. rewrite Hl.
    by constructor. }
  pose proof (is_code_length _ _ Hc) as Hlen. rewrite length_fmap in Hlen.
  set (code := flat_map _ _) in *. exists code.
  rewrite bool_decide_false by (intros E; rewrite E in Hlen; destruct prog; [done|cbn in Hlen; lia]).
  split_and!; [done|done|]. intros k i Hk p.
  assert (Hk' : (low <$> prog) !! k = Some (low i)) by (by rewrite list_lookup_fmap, Hk).
  destruct (is_code_at _ _ _ _ Hc Hk') as (op & dst & st & pad & b0 & b1 & b2 & b3 & -> & Hd).
  apply Hd.
Qed.

Definition demo_program : list Instruction := [Mov R0 (Imm (2 ^ 32 + 5)); Store R2 (Reg R1); Int 0x80; Halt].

Lemma display_assemble_witness :
  exists code, assemble (display_program demo_program) = Ok code /\
    decode_bytes 0 (take 8 (drop 0 code)) = Ok (Mov R0 (Imm 5)).
Proof.
  destruct (display_assemble demo_program) as (code & Ha & _ & Hd); [done|by repeat constructor|].
  exists code. split; [exact Ha|]. exact (Hd 0%nat _ eq_refl 0).
Defined.
