(* ===== verification/Ipc.v ===== *)
(** * Inter-process communication (src/src/services/process/ipc.rs)

    Message queues and shared-memory regions are shared objects behind mutexes
    ([Arc<Mutex<_>>]); the manager maps process and region identifiers to them.
    The objects live in stores and the maps hold references, so that a handle
    denotes its object after the map has changed.  Time stamps, which nothing
    reads, are left out; so is the listing of regions, which copies fields. *)
From S2P Require Import Prelude Types.

(** ** Message queues *)

Record QueuedMessage := { message : IPCMessage; from_pid : Pid; from_tid : Tid }.

Record MessageQueue := {
  owner_pid : Pid; capacity : N; messages : list QueuedMessage; total_sent : N; total_received : N }.

Inductive QueueError := Full | NotFound | PermissionDenied | Closed.

Definition MessageQueue_new (owner : Pid) (cap : N) : MessageQueue :=
  {| owner_pid := owner; capacity := cap; messages := []; total_sent := 0; total_received := 0 |}.

Definition with_messages (q : MessageQueue) ms sent recv : MessageQueue :=
  {| owner_pid := owner_pid q; capacity := capacity q; messages := ms; total_sent := sent; total_received := recv |}.

Definition is_full (q : MessageQueue) : bool := (0 <? capacity q) && (capacity q <=? len (messages q)).

Definition send (q : MessageQueue) (pid : Pid) (tid : Tid) (m : IPCMessage) : MessageQueue * result QueueError unit :=
  if (0 <? capacity q) && (capacity q <=? len (messages q)) then (q, Err Full)
  else (with_messages q (messages q ++ [{| message := m; from_pid := pid; from_tid := tid |}])
          (wadd64 (total_sent q) 1) (total_received q), Ok tt).

Definition receive (q : MessageQueue) : MessageQueue * option QueuedMessage :=
  match messages q with
  | [] => (q, None)
  | m :: ms => (with_messages q ms (total_sent q) (wadd64 (total_received q) 1), Some m)
  end.

Definition peek (q : MessageQueue) : option QueuedMessage := head (messages q).
Definition queue_len (q : MessageQueue) : N := len (messages q).
Definition is_empty (q : MessageQueue) : bool := match messages q with [] => true | _ => false end.
Definition clear (q : MessageQueue) : MessageQueue := with_messages q [] (total_sent q) (total_received q).

(** ** Shared-memory regions *)

Record SharedMemoryRegion := {
  shmid : N; creator_pid : Pid; region_size : N; physical_addr : PhysAddr; prot : MemProt;
  ref_count : N; attached : gmap Pid VirtAddr; marked_for_deletion : bool }.

Definition SharedMemoryRegion_new (id : N) (creator : Pid) (sz : N) (pa : PhysAddr) (pr : MemProt) : SharedMemoryRegion :=
  {| shmid := id; creator_pid := creator; region_size := sz; physical_addr := pa; prot := pr;
     ref_count := 0; attached := ∅; marked_for_deletion := false |}.

Definition with_attached (r : SharedMemoryRegion) n a : SharedMemoryRegion :=
  {| shmid := shmid r; creator_pid := creator_pid r; region_size := region_size r;
     physical_addr := physical_addr r; prot := prot r; ref_count := n; attached := a;
     marked_for_deletion := marked_for_deletion r |}.

Definition attach (pid : Pid) (v : VirtAddr) (r : SharedMemoryRegion) : SharedMemoryRegion :=
  with_attached r (wadd64 (ref_count r) 1) (<[pid := v]> (attached r)).

Definition detach (pid : Pid) (r : SharedMemoryRegion) : SharedMemoryRegion * bool :=
  match attached r !! pid with
  | Some _ => (with_attached r (wsub64 (ref_count r) 1) (delete pid (attached r)), true)
  | None => (r, false)
  end.

Definition get_vaddr (pid : Pid) (r : SharedMemoryRegion) : option VirtAddr := attached r !! pid.
Definition is_attached (pid : Pid) (r : SharedMemoryRegion) : bool := bool_decide (is_Some (attached r !! pid)).
Definition attached_pids (r : SharedMemoryRegion) : list Pid := fst <$> map_to_list (attached r).
Definition can_delete (r : SharedMemoryRegion) : bool := marked_for_deletion r && (ref_count r =? 0).
Definition mark_for_deletion (r : SharedMemoryRegion) : SharedMemoryRegion :=
  {| shmid := shmid r; creator_pid := creator_pid r; region_size := region_size r;
     physical_addr := physical_addr r; prot := prot r; ref_count := ref_count r;
     attached := attached r; marked_for_deletion := true |}.

(** ** The manager *)

Inductive IPCError := RegionNotFound (id : N) | Locked | IpcPermissionDenied | InvalidSize | OutOfMemory.

Record IPCManager := {
  queue_store : list MessageQueue; region_store : list SharedMemoryRegion;
  message_queues : gmap Pid nat; shared_memory : gmap N nat; next_shmid : N }.

Definition with_queues (m : IPCManager) st qs : IPCManager :=
  {| queue_store := st; region_store := region_store m; message_queues := qs;
     shared_memory := shared_memory m; next_shmid := next_shmid m |}.
Definition with_regions (m : IPCManager) st rs nx : IPCManager :=
  {| queue_store := queue_store m; region_store := st; message_queues := message_queues m;
     shared_memory := rs; next_shmid := nx |}.

Definition IPCManager_new : IPCManager :=
  {| queue_store := []; region_store := []; message_queues := ∅; shared_memory := ∅; next_shmid := 1 |}.

(** The answer is a handle.  For an unknown process it is a new queue that the
    map does not hold. *)
Definition get_message_queue (m : IPCManager) (pid : Pid) : IPCManager * nat :=
  match message_queues m !! pid with
  | Some r => (m, r)
  | None => (with_queues m (queue_store m ++ [MessageQueue_new pid 0]) (message_queues m), length (queue_store m))
  end.

Definition ensure_message_queue (m : IPCManager) (pid : Pid) : IPCManager * nat :=
  match message_queues m !! pid with
  | Some r => (m, r)
  | None => (with_queues m (queue_store m ++ [MessageQueue_new pid 0])
               (<[pid := length (queue_store m)]> (message_queues m)), length (queue_store m))
  end.

Definition remove_message_queue (m : IPCManager) (pid : Pid) : IPCManager * option nat :=
  (with_queues m (queue_store m) (delete pid (message_queues m)), message_queues m !! pid).

(** an operation on the queue behind a handle *)
Definition on_queue {A} (m : IPCManager) (r : nat) (f : MessageQueue -> MessageQueue * A) : option (IPCManager * A) :=
  q ← queue_store m !! r;
  let '(q', a) := f q in
  Some (with_queues m (<[r := q']> (queue_store m)) (message_queues m), a).

Definition create_shared_memory (m : IPCManager) (creator : Pid) (sz : N) (pa : PhysAddr) (pr : MemProt)
    : IPCManager * N :=
  let id := next_shmid m in
  (with_regions m (region_store m ++ [SharedMemoryRegion_new id creator sz pa pr])
     (<[id := length (region_store m)]> (shared_memory m)) (wadd64 id 1), id).

Definition get_shared_memory (m : IPCManager) (id : N) : option nat := shared_memory m !! id.

(** an operation on the region an identifier names *)
Definition on_region {A} (m : IPCManager) (id : N) (f : SharedMemoryRegion -> SharedMemoryRegion * A)
    : IPCManager * result IPCError A :=
  match shared_memory m !! id ≫= fun r => pair r <$> region_store m !! r with
  | Some (r, reg) =>
      let '(reg', a) := f reg in
      (with_regions m (<[r := reg']> (region_store m)) (shared_memory m) (next_shmid m), Ok a)
  | None => (m, Err (RegionNotFound id))
  end.

Definition attach_shared_memory (m : IPCManager) (id : N) (pid : Pid) (v : VirtAddr) : IPCManager * result IPCError unit :=
  on_region m id (fun r => (attach pid v r, tt)).
Definition detach_shared_memory (m : IPCManager) (id : N) (pid : Pid) : IPCManager * result IPCError bool :=
  on_region m id (detach pid).
Definition mark_shared_memory_for_deletion (m : IPCManager) (id : N) : IPCManager * result IPCError unit :=
  on_region m id (fun r => (mark_for_deletion r, tt)).

Definition removable (m : IPCManager) (e : N * nat) : bool :=
  match region_store m !! snd e with Some r => can_delete r | None => false end.

(** the identifiers removed, in no particular order *)
Definition cleanup_shared_memory (m : IPCManager) : IPCManager * list N :=
  (with_regions m (region_store m) (filter (fun e => removable m e = false) (shared_memory m)) (next_shmid m),
   fst <$> map_to_list (filter (fun e => removable m e = true) (shared_memory m))).

Record SharedMemoryInfo := {
  info_shmid : N; info_creator_pid : Pid; info_size : N; info_ref_count : N; info_attached_pids : list Pid }.
Definition region_info (id : N) (r : SharedMemoryRegion) : SharedMemoryInfo :=
  {| info_shmid := id; info_creator_pid := creator_pid r; info_size := region_size r; info_ref_count := ref_count r;
     info_attached_pids := attached_pids r |}.
Definition list_shared_memory (m : IPCManager) : list (N * SharedMemoryInfo) :=
  omap (fun e => (fun r => (fst e, region_info (fst e) r)) <$> region_store m !! snd e) (map_to_list (shared_memory m)).

(** the list shows every region once, as it is *)
Lemma list_shared_memory_spec m id i :
  (id, i) ∈ list_shared_memory m <->
  exists r, (shared_memory m !! id ≫= fun k => region_store m !! k) = Some r /\ i = region_info id r.
Proof.
  unfold list_shared_memory. rewrite list_elem_of_omap. split.
  - intros ([id' k] & Hin & E). apply elem_of_map_to_list in Hin. cbn [fst snd] in E.
    apply fmap_Some in E as (r & Hr & [= -> ->]). exists r. by rewrite Hin.
  - intros (r & E & ->). apply bind_Some in E as (k & Hk & Hr). exists (id, k). split; [by apply elem_of_map_to_list|]. cbn. by rewrite Hr.
Qed.
Lemma attached_pids_spec pid r : pid ∈ attached_pids r <-> is_attached pid r = true.
Proof.
  unfold attached_pids, is_attached. rewrite bool_decide_eq_true, list_elem_of_fmap. split.
  - intros ([p v] & -> & H%elem_of_map_to_list). by eexists.
  - intros [v Hv]. exists (pid, v). split; [done|]. by apply elem_of_map_to_list.
Qed.

(** ** A queue delivers in order *)

Inductive QueueOp := OpSend (pid : Pid) (tid : Tid) (m : IPCMessage) | OpReceive.

(** The state after a history, the messages accepted and the messages delivered. *)
Fixpoint queue_history (q : MessageQueue) (os : list QueueOp)
    : MessageQueue * (list QueuedMessage * list QueuedMessage) :=
  match os with
  | [] => (q, ([], []))
  | OpSend pid tid m :: os =>
      let '(q1, r) := send q pid tid m in
      let '(q2, (acc, del)) := queue_history q1 os in
      (q2, ((if is_ok r then [{| message := m; from_pid := pid; from_tid := tid |}] else []) ++ acc, del))
  | OpReceive :: os =>
      let '(q1, o) := receive q in
      let '(q2, (acc, del)) := queue_history q1 os in
      (q2, (acc, option_list o ++ del))
  end.

Definition queue_ok (q : MessageQueue) : Prop := 0 < capacity q -> len (messages q) <= capacity q.

Lemma send_spec q pid tid m :
  queue_ok q ->
  let x := {| message := m; from_pid := pid; from_tid := tid |} in
  let '(q', r) := send q pid tid m in
  queue_ok q' /\ capacity q' = capacity q /\ total_received q' = total_received q /\
  ((r = Err Full /\ q' = q /\ 0 < capacity q /\ len (messages q) = capacity q) \/
   (r = Ok tt /\ messages q' = messages q ++ [x] /\ total_sent q' = wadd64 (total_sent q) 1)).
Proof.
  unfold send, queue_ok. intros Hok. cbv zeta.
  destruct (N.ltb_spec 0 (capacity q)), (N.leb_spec (capacity q) (len (messages q))); cbn [andb].
  - split_and!; try done. left. split_and!; try done. specialize (Hok ltac:(done)). lia.
  - split_and!; try done; [|by right]. cbn. intros _. rewrite length_app. cbn. lia.
  - split_and!; try done; [|by right]. cbn. intros. lia.
  - split_and!; try done; [|by right]. cbn. intros. lia.
Qed.

Lemma queue_history_spec os : forall q,
  queue_ok q -> total_sent q + len os < 2 ^ 64 -> total_received q + len os < 2 ^ 64 ->
  let '(q', (acc, del)) := queue_history q os in
  queue_ok q' /\ messages q ++ acc = del ++ messages q' /\
  total_sent q' = total_sent q + len acc /\ total_received q' = total_received q + len del /\
  capacity q' = capacity q.
Proof.
  induction os as [|o os IH]; intros q Hok Hs Hr; cbn [queue_history].
  - cbn [app length]. rewrite app_nil_r. split_and!; try done; lia.
  - cbn [length] in *. destruct o as [pid tid m|].
    + pose proof (send_spec q pid tid m Hok) as H. destruct (send q pid tid m) as [q1 r].
      destruct H as (Hok1 & Hc & Htr & [(-> & -> & _)|(-> & Hm & Hts)]); cbn [is_ok].
      * specialize (IH q Hok ltac:(lia) ltac:(lia)).
        destruct (queue_history q os) as [q2 [acc del]]. exact IH.
      * rewrite wadd64_small in Hts by lia. specialize (IH q1 Hok1 ltac:(lia) ltac:(lia)).
        destruct (queue_history q1 os) as [q2 [acc del]]. destruct IH as (? & He & ? & ? & ?).
        rewrite Hm, <- app_assoc in He.
        split_and!; try done; try congruence; cbn [app length]; lia.
    + unfold receive. destruct (messages q) as [|m ms] eqn:Em.
      * specialize (IH q Hok ltac:(lia) ltac:(lia)). rewrite Em in IH.
        destruct (queue_history q os) as [q2 [acc del]]. exact IH.
      * rewrite wadd64_small by lia.
        specialize (IH (with_messages q ms (total_sent q) (total_received q + 1))).
        destruct (queue_history _ os) as [q2 [acc del]].
        cbn [with_messages total_sent total_received messages capacity] in IH.
        destruct IH as (? & He & ? & ? & ?); [|lia|lia|].
        { unfold queue_ok in *. cbn [with_messages messages capacity]. rewrite Em in Hok. cbn [length] in Hok.
          intros Hc. specialize (Hok Hc). lia. }
        change (option_list (Some m)) with [m]. cbn [app length].
        split_and!; try done; try lia. by rewrite He.
Qed.

(** C32: A message queue is a bounded FIFO: after any history of sends and
    receives the messages delivered, followed by those still queued, are the
    messages accepted, in the order of sending; the counters count them; and a
    bounded queue never holds more than its capacity. *)
Theorem queue_fifo owner cap os :
  len os < 2 ^ 64 ->
  let '(q, (accepted, delivered)) := queue_history (MessageQueue_new owner cap) os in
  accepted = delivered ++ messages q /\
  total_sent q = len accepted /\ total_received q = len delivered /\
  (0 < cap -> queue_len q <= cap).
Proof.
  intros Hl. pose proof (queue_history_spec os (MessageQueue_new owner cap)) as H.
  destruct (queue_history _ os) as [q [acc del]].
  destruct H as (Hok & He & Hs & Hr & Hc); [unfold queue_ok; cbn; lia|cbn; lia|cbn; lia|].
  cbn in He, Hs, Hr, Hc. split_and!; try done. unfold queue_ok in Hok. rewrite Hc in Hok. exact Hok.
Qed.

Lemma queue_fifo_witness :
  exists q del, queue_history (MessageQueue_new 1 1)
      [OpSend 2 1 (PassFd 3); OpSend 2 1 (PassFd 4); OpReceive; OpSend 2 1 (PassFd 5)] =
    (q, ([{| message := PassFd 3; from_pid := 2; from_tid := 1 |}; {| message := PassFd 5; from_pid := 2; from_tid := 1 |}], del)) /\
    total_received q = len del /\ queue_len q <= 1.
Proof.
  eexists _, _. split; [vm_compute; reflexivity|].
  destruct (queue_fifo 1 1 [OpSend 2 1 (PassFd 3); OpSend 2 1 (PassFd 4); OpReceive; OpSend 2 1 (PassFd 5)] eq_refl)
    as (_ & _ & Hr & Hq). split; [exact Hr|exact (Hq eq_refl)].
Defined.

(** ** Delivery through the manager *)

Definition ipc_wf (m : IPCManager) : Prop :=
  (forall pid r, message_queues m !! pid = Some r -> (r < length (queue_store m))%nat) /\
  (forall p1 p2 r, message_queues m !! p1 = Some r -> message_queues m !! p2 = Some r -> p1 = p2).

(** the messages waiting for a process *)
Definition waiting (m : IPCManager) (pid : Pid) : list QueuedMessage :=
  match message_queues m !! pid ≫= (queue_store m !!.) with Some q => messages q | None => [] end.

Lemma waiting_registered m pid r q :
  message_queues m !! pid = Some r -> queue_store m !! r = Some q -> waiting m pid = messages q.
Proof. intros Hr Hq. unfold waiting. rewrite Hr. cbn [mbind option_bind]. by rewrite Hq. Qed.

Lemma ensure_spec m pid :
  ipc_wf m ->
  let '(m', r) := ensure_message_queue m pid in
  ipc_wf m' /\ message_queues m' !! pid = Some r /\ (exists q, queue_store m' !! r = Some q) /\
  (forall p, waiting m' p = waiting m p) /\
  (forall p r', p <> pid -> message_queues m' !! p = Some r' -> r' <> r).
Proof.
  intros [Hlt Hinj]. unfold ensure_message_queue. destruct (message_queues m !! pid) as [r|] eqn:E.
  - split_and!; try done.
    + apply lookup_lt_is_Some_2. by apply (Hlt pid).
    + intros p r' Hp Hr' ->. apply Hp. by eapply Hinj.
  - cbn [with_queues message_queues queue_store].
    assert (Hother : forall p r', <[pid := length (queue_store m)]> (message_queues m) !! p = Some r' ->
      p <> pid -> message_queues m !! p = Some r' /\ (r' < length (queue_store m))%nat).
    { intros p r' Hp Hne. rewrite lookup_insert_ne in Hp by done. split; [done|by apply (Hlt p)]. }
    split_and!.
    + split; cbn [with_queues message_queues queue_store].
      * intros p r' Hp. rewrite length_app. cbn [length]. destruct (decide (p = pid)) as [->|Hne].
        -- rewrite lookup_insert_eq in Hp. injection Hp as <-. lia.
        -- destruct (Hother p r' Hp Hne). lia.
      * intros p1 p2 r' H1 H2. destruct (decide (p1 = pid)) as [->|N1], (decide (p2 = pid)) as [->|N2]; [done|..].
        -- rewrite lookup_insert_eq in H1. injection H1 as <-. destruct (Hother _ _ H2 N2). lia.
        -- rewrite lookup_insert_eq in H2. injection H2 as <-. destruct (Hother _ _ H1 N1). lia.
        -- destruct (Hother _ _ H1 N1), (Hother _ _ H2 N2). by eapply Hinj.
    + by rewrite lookup_insert_eq.
    + eexists. by rewrite list_lookup_middle.
    + intros p. unfold waiting. cbn [with_queues message_queues queue_store].
      destruct (decide (p = pid)) as [->|Hne].
      * rewrite lookup_insert_eq, E. cbn [mbind option_bind]. by rewrite list_lookup_middle.
      * rewrite lookup_insert_ne by done. destruct (message_queues m !! p) as [r'|] eqn:Ep; [|done].
        cbn [mbind option_bind]. rewrite lookup_app_l; [done|by apply (Hlt p)].
    + intros p r' Hne Hp. destruct (Hother p r' Hp Hne). lia.
Qed.

(** Property: Sending to a process through [ensure_message_queue] appends the message
    to what waits for that process, or answers [Full], and touches nobody
    else's messages; and [get_message_queue] then answers that same queue. *)
Theorem send_delivers m pid from tid msg :
  ipc_wf m ->
  let '(m1, r) := ensure_message_queue m pid in
  match on_queue m1 r (fun q => send q from tid msg) with
  | Some (m2, res) =>
      get_message_queue m2 pid = (m2, r) /\ ipc_wf m2 /\
      (forall p, p <> pid -> waiting m2 p = waiting m p) /\
      waiting m2 pid = waiting m pid ++
        (if is_ok res then [{| message := msg; from_pid := from; from_tid := tid |}] else [])
  | None => False
  end.
Proof.
  intros Hw. pose proof (ensure_spec m pid Hw) as H.
  destruct (ensure_message_queue m pid) as [m1 r]. destruct H as (Hw1 & Hr & (q & Hq) & Hsame & Hne).
  unfold on_queue. rewrite Hq. cbn [mbind option_bind].
  assert (Hsend : let '(q', res) := send q from tid msg in
    messages q' = messages q ++ (if is_ok res then [{| message := msg; from_pid := from; from_tid := tid |}] else [])).
  { unfold send. destruct (_ && _); cbn; [by rewrite app_nil_r|done]. }
  destruct (send q from tid msg) as [q' res].
  pose proof (lookup_lt_Some _ _ _ Hq) as Hlt.
  split_and!.
  - unfold get_message_queue. cbn [with_queues message_queues]. by rewrite Hr.
  - destruct Hw1 as [H1 H2]. split; cbn [with_queues message_queues queue_store]; [|done].
    intros p r' Hp. rewrite length_insert. by apply (H1 p).
  - intros p Hp. rewrite <- Hsame. unfold waiting; cbn [with_queues message_queues queue_store].
    destruct (message_queues m1 !! p) as [r'|] eqn:Ep; [|done]. cbn [mbind option_bind].
    rewrite list_lookup_insert_ne; [done|]. intros E. by apply (Hne p r' Hp Ep).
  - rewrite <- Hsame, (waiting_registered m1 pid r q Hr Hq).
    rewrite (waiting_registered _ pid r q'); [done|done|]. cbn. by apply list_lookup_insert_eq.
Qed.

Lemma ipc_new_wf : ipc_wf IPCManager_new.
Proof. split; intros *; cbn; rewrite ?lookup_empty; done. Qed.

Lemma send_delivers_witness :
  exists m2, on_queue (fst (ensure_message_queue IPCManager_new 5)) 0 (fun q => send q 2 1 (PassFd 3)) = Some (m2, Ok tt) /\
    waiting m2 5 = [{| message := PassFd 3; from_pid := 2; from_tid := 1 |}].
Proof.
  eexists. split; [vm_compute; reflexivity|].
  exact (proj2 (proj2 (proj2 (send_delivers IPCManager_new 5 2 1 (PassFd 3) ipc_new_wf)))).
Defined.

(** ** The life of a region *)

Inductive RegionOp := OpAttach (pid : Pid) (v : VirtAddr) | OpDetach (pid : Pid) | OpMark.

Definition region_op (r : SharedMemoryRegion) (o : RegionOp) : SharedMemoryRegion :=
  match o with
  | OpAttach pid v => attach pid v r
  | OpDetach pid => fst (detach pid r)
  | OpMark => mark_for_deletion r
  end.

(** no process attaches while it is attached *)
Fixpoint single_attach (r : SharedMemoryRegion) (os : list RegionOp) : Prop :=
  match os with
  | [] => True
  | o :: os =>
      match o with OpAttach pid _ => attached r !! pid = None | _ => True end /\
      single_attach (region_op r o) os
  end.

Definition marks (o : RegionOp) : bool := match o with OpMark => true | _ => false end.

Lemma region_history_spec os : forall r,
  single_attach r os -> ref_count r = N.of_nat (size (attached r)) -> ref_count r + len os < 2 ^ 64 ->
  let r' := foldl region_op r os in
  ref_count r' = N.of_nat (size (attached r')) /\
  marked_for_deletion r' = marked_for_deletion r || existsb marks os.
Proof.
  induction os as [|o os IH]; intros r Hs Hc Hb; cbn [foldl existsb].
  - split; [done|]. by rewrite orb_false_r.
  - cbn [single_attach length] in Hs, Hb. destruct Hs as [Ho Hs].
    assert (Hstep : ref_count (region_op r o) = N.of_nat (size (attached (region_op r o))) /\
      ref_count (region_op r o) <= ref_count r + 1 /\
      marked_for_deletion (region_op r o) = marked_for_deletion r || marks o).
    { destruct o as [pid v|pid|]; cbn [region_op marks].
      - unfold attach; cbn [with_attached ref_count attached marked_for_deletion].
        rewrite wadd64_small by lia. rewrite map_size_insert_None by done. rewrite orb_false_r. split_and!; [lia|lia|done].
      - unfold detach. rewrite orb_false_r. destruct (attached r !! pid) as [v|] eqn:E; cbn [fst]; [|split_and!; [done|lia|done]].
        cbn [with_attached ref_count attached marked_for_deletion].
        assert (size (attached r) <> 0%nat).
        { intros E0%map_size_empty_iff. by rewrite E0, lookup_empty in E. }
        rewrite wsub64_ge by lia. rewrite map_size_delete, E. split_and!; [lia|lia|done].
      - rewrite orb_true_r. cbn. split_and!; [done|lia|done]. }
    destruct Hstep as (Hc1 & Hb1 & Hm1). destruct (IH (region_op r o) Hs Hc1 ltac:(lia)) as [H1 H2].
    split; [exact H1|]. by rewrite H2, Hm1, orb_assoc.
Qed.

(** Property: As long as no process attaches to a region it is already attached to, the
    reference count is the number of attached processes, so the region may be
    deleted exactly when it was marked and nobody is attached. *)
Theorem region_deletion id creator sz pa pr os :
  let r0 := SharedMemoryRegion_new id creator sz pa pr in
  single_attach r0 os -> len os < 2 ^ 64 ->
  let r := foldl region_op r0 os in
  ref_count r = N.of_nat (size (attached r)) /\
  (can_delete r = true <-> OpMark ∈ os /\ attached r = ∅).
Proof.
  intros r0 Hs Hl r. destruct (region_history_spec os r0 Hs) as [Hc Hm]; [done|cbn; lia|].
  fold r in Hc, Hm. split; [done|]. unfold can_delete. rewrite andb_true_iff, N.eqb_eq, Hm, Hc. cbn [orb r0 marked_for_deletion SharedMemoryRegion_new].
  rewrite existsb_exists. split.
  - intros [(o & Ho & Hmk) Hz]. split; [|apply map_size_empty_iff; lia].
    destruct o; try done. by apply list_elem_of_In.
  - intros [Ho ->]. split; [|done]. exists OpMark. by split; [apply list_elem_of_In|].
Qed.

Lemma region_deletion_witness :
  let r0 := SharedMemoryRegion_new 1 7 4096 0x8000 MemProt_read_write in
  can_delete (foldl region_op r0 [OpAttach 7 0x6000; OpMark; OpDetach 7]) = true /\
  ~ can_delete (foldl region_op r0 [OpAttach 7 0x6000; OpMark]) = true.
Proof.
  split.
  - apply (region_deletion 1 7 4096 0x8000 MemProt_read_write [OpAttach 7 0x6000; OpMark; OpDetach 7]);
      [vm_compute; done|reflexivity|]. split; [vm_compute; right; left|vm_compute; reflexivity].
  - intros H. apply (region_deletion 1 7 4096 0x8000 MemProt_read_write [OpAttach 7 0x6000; OpMark]) in H as [_ H];
      [|vm_compute; done|reflexivity]. vm_compute in H. discriminate H.
Defined.

(** Property: A process that attaches twice pins the region: the second attach counts
    again but replaces the only entry, so after the process has detached, every
    further detach answers false and the region can never be deleted. *)
Theorem double_attach_pins r pid v1 v2 os :
  attached r !! pid = None -> ref_count r + 2 + len os < 2 ^ 64 -> ref_count r = N.of_nat (size (attached r)) ->
  let r1 := fst (detach pid (attach pid v2 (attach pid v1 r))) in
  attached r1 !! pid = None /\ snd (detach pid r1) = false /\
  (single_attach r1 os -> can_delete (foldl region_op r1 os) = false).
Proof.
  intros Hn Hb Hc.
  assert (Hd : fst (detach pid (attach pid v2 (attach pid v1 r))) = with_attached r (ref_count r + 1) (attached r)).
  { unfold detach, attach; cbn [with_attached attached ref_count]. rewrite lookup_insert_eq. cbn [fst].
    rewrite (wadd64_small (ref_count r)), wadd64_small, wsub64_ge by lia.
    replace (ref_count r + 1 + 1 - 1) with (ref_count r + 1) by lia.
    unfold with_attached; cbn. f_equal. by rewrite insert_insert_eq, delete_insert_id. }
  rewrite Hd. cbv zeta. split; [done|]. split; [unfold detach; cbn; by rewrite Hn|].
  set (r1 := with_attached _ _ _).
  assert (G : forall os r, single_attach r os -> ref_count r = N.of_nat (size (attached r)) + 1 ->
    ref_count r + len os < 2 ^ 64 -> ref_count (foldl region_op r os) <> 0).
  { clear. induction os as [|o os IH]; intros r Hs Hc Hb; cbn [foldl]; [lia|].
    cbn [single_attach length] in Hs, Hb. destruct Hs as [Ho Hs].
    destruct o as [pid v|pid|]; cbn [region_op] in *.
    - apply IH; [done|..]; unfold attach; cbn [with_attached ref_count attached].
      + rewrite wadd64_small by lia. rewrite map_size_insert_None by done. lia.
      + rewrite wadd64_small by lia. lia.
    - unfold detach in *. destruct (attached r !! pid) as [v|] eqn:E; cbn [fst] in *; [|apply IH; [done|done|lia]].
      assert (size (attached r) <> 0%nat).
      { intros E0%map_size_empty_iff. by rewrite E0, lookup_empty in E. }
      apply IH; [done|..]; cbn [with_attached ref_count attached]; rewrite wsub64_ge by lia;
        [rewrite map_size_delete, E; lia|lia].
    - apply IH; [done|done|cbn; lia]. }
  intros Hs. specialize (G os r1 Hs). cbn [r1 with_attached ref_count attached] in G.
  unfold can_delete. destruct (N.eqb_spec (ref_count (foldl region_op r1 os)) 0) as [E|]; [|apply andb_false_r].
  destruct G; [lia|lia|exact E].
Qed.

Lemma double_attach_pins_witness :
  let r1 := fst (detach 7 (attach 7 0x6000 (attach 7 0x5000 (SharedMemoryRegion_new 1 7 4096 0x8000 MemProt_read_write)))) in
  snd (detach 7 r1) = false /\ can_delete (foldl region_op r1 [OpMark; OpDetach 7]) = false.
Proof.
  destruct (double_attach_pins (SharedMemoryRegion_new 1 7 4096 0x8000 MemProt_read_write) 7 0x5000 0x6000 [OpMark; OpDetach 7])
    as (_ & H1 & H2); [reflexivity|reflexivity|reflexivity|].
  split; [exact H1|]. apply H2. by vm_compute.
Defined.
