(* ===== verification/Messages.v ===== *)
(** * The messages of the bus (src/src/messaging/msg.rs, response.rs)

    Requests to the services, what a response carries, and the errors.  Request
    identifiers and the texts inside errors are left out; file paths and
    program names are byte strings. *)
From S2P Require Import Prelude Types.

Notation str := (list N) (only parsing).

Module FileRequest.
Record OpenFlags := { read : bool; write : bool; create : bool; truncate : bool; append : bool }.
Definition read_only : OpenFlags :=
  {| read := true; write := false; create := false; truncate := false; append := false |}.
Definition write_only : OpenFlags :=
  {| read := false; write := true; create := false; truncate := false; append := false |}.
Definition read_write : OpenFlags :=
  {| read := true; write := true; create := false; truncate := false; append := false |}.
Definition create_flags : OpenFlags :=
  {| read := false; write := true; create := true; truncate := false; append := false |}.

Inductive FileSystemType := FAT32 | EXT4 | SimpleFS | ProcFS | Unknown.
Inductive SeekWhence := Set_ | Cur | End_.

Inductive t :=
  | Open (path : str) (flags : OpenFlags)
  | Close (fd : N)
  | Read (fd offset : N) (buf : VirtAddr) (size : N)
  | Write (fd offset : N) (buf : VirtAddr) (size : N)
  | WriteData (fd : N) (data : list N)
  | Unlink (path : str)
  | Stat (path : str)
  | CreateDirectory (path : str)
  | RemoveDirectory (path : str)
  | OpenDirectory (path : str)
  | ReadDirectory (dir_fd : N)
  | CloseDirectory (dir_fd : N)
  | ListDir (path : str)
  | DiskInfo
  | Mount (device_id : N) (mount_point : str) (fs_type : FileSystemType)
  | Unmount (mount_point : str)
  | Sync
  | Chmod (path : str) (mode : N)
  | Chown (path : str) (uid gid : N)
  | Link (oldpath newpath : str)
  | Symlink (oldpath newpath : str)
  | Readlink (path : str)
  | Seek (fd : N) (offset : Z) (whence : SeekWhence)
  | Tell (fd : N)
  | CloneFds (from_pid to_pid : Pid).
End FileRequest.

Module DeviceRequest.
Inductive DeviceClass := Block | Char | Network | Timer | Graphics | Clipboard | Unknown.
Inductive DeviceConfig :=
  | SerialConfig (baud_rate data_bits stop_bits parity : N)
  | NetworkConfig (ip_address netmask gateway : str) (mac_address : list N)
  | BlockConfig (block_size : N) (read_only : bool)
  | GenericConfig (key value : str).

Inductive t :=
  | Read (device_id : N) (buf : VirtAddr) (size : N)
  | Write (device_id : N) (buf : VirtAddr) (size : N)
  | Init (device_id : N)
  | Shutdown (device_id : N)
  | Reset_ (device_id : N)
  | Status (device_id : N)
  | RegisterDevice (device_type : DeviceClass) (name : str)
  | UnregisterDevice (device_id : N)
  | ListDevices
  | GetDevicesByType (device_type : DeviceClass)
  | Ioctl (device_id request : N) (arg : VirtAddr)
  | EnableInterrupt (device_id irq : N)
  | DisableInterrupt (device_id irq : N)
  | SetConfig (device_id : N) (config : DeviceConfig)
  | GetConfig (device_id : N)
  | ClipboardSet (data : list N)
  | ClipboardGet (max_size : N).
End DeviceRequest.

Module ProcessRequest.
Inductive t :=
  | Schedule (pid : Pid) (tid : Tid)
  | Block (pid : Pid) (tid : Tid) (reason : BlockReason)
  | Unblock (pid : Pid) (tid : Tid)
  | QueryState (pid : Pid)
  | ContextSwitch (from_pid to_pid : Pid)
  | SendMessage (from_pid to_pid : Pid) (msg : IPCMessage)
  | ReceiveMessage (pid : Pid) (blocking : bool)
  | PeekMessage (pid : Pid)
  | CreateSharedMemory (pid : Pid) (size : N) (prot : MemProt)
  | AttachSharedMemory (pid : Pid) (shmid : N)
  | DetachSharedMemory (pid : Pid) (shmid : N)
  | CreateSemaphore (pid : Pid) (initial_value : N)
  | WaitSemaphore (pid : Pid) (semid : N)
  | SignalSemaphore (pid : Pid) (semid : N)
  | CreateLock (pid : Pid)
  | AcquireLock (pid : Pid) (lock_id : N)
  | ReleaseLock (pid : Pid) (lock_id : N)
  | ForkProcess (parent_pid : Pid)
  | ExecProcess (pid : Pid) (executable : str) (args : list str) (path : option str)
  | WaitChild (pid : Pid) (child_pid : option Pid)
  | Signal (pid : Pid) (signal : SignalType)
  | GetProcessInfo (pid : Pid)
  | Spawn (program : str) (params : list N)
  | ListProcesses
  | GetStats
  | GetMemoryMap.
End ProcessRequest.

Module Syscall.
Inductive t :=
  | CreateProcess (executable : str) (args : list str)
  | ExitProcess (exit_code : Z)
  | CreateThread (entry_point : VirtAddr)
  | Read (fd : N) (buf : VirtAddr) (size : N)
  | Write (fd : N) (buf : VirtAddr) (size : N)
  | Mmap (size : N) (prot : MemProt)
  | Munmap (addr : VirtAddr) (size : N).
End Syscall.

Inductive KernelMsg :=
  | MsgSyscall (s : Syscall.t)
  | MsgInterrupt (i : Interrupt)
  | MsgProcess (r : ProcessRequest.t)
  | MsgMemory (r : MemoryRequest)
  | MsgFile (r : FileRequest.t)
  | MsgDevice (r : DeviceRequest.t).

(** ** Responses *)

Inductive ResponseData :=
  | Void
  | RPid (pid : N)
  | RTid (tid : N)
  | Fd (fd : N)
  | BytesProcessed (n : N)
  | PhysicalAddr (a : PhysAddr)
  | DiskStats (total_sectors used_sectors total_bytes : N)
  | Bytes (bs : list N)
  | Integer (n : N)
  | MemoryStats (total_frames used_frames free_frames : N)
  | FrameMap (owners : list (N * N))
  | RString (s : str)
  | Bool (b : bool)
  | StringList (l : list str).

(** response.rs: the error of a response *)
Inductive ResponseError :=
  | RespInvalidArguments
  | RespNotFound
  | RespPermissionDenied
  | RespResourceExhausted
  | RespIo
  | RespTimeout
  | RespNotImplemented
  | RespOther (code : N).

Notation Response := (result ResponseError ResponseData).

(** [Response::data] *)
Definition data (r : Response) : option ResponseData := match r with Ok d => Some d | Err _ => None end.

(** error.rs: the error of a handler; [SendFailed] is the error of a channel
    whose other end is gone *)
Inductive ServiceError :=
  | InvalidArguments
  | SvcNotFound
  | SvcPermissionDenied
  | ResourceExhausted (available requested : N)
  | SvcIo
  | SvcTimeout
  | NotImplemented
  | Other (code : N)
  | SendFailed.

(** ** Handlers

    A handler of a service runs on the service's state; it fails with a
    [ServiceError], and its thread may panic or block for ever on a lock that
    it holds itself. *)

Definition HM (S A : Type) : Type := S -> outcome (S * result ServiceError A).

#[export] Instance HM_ret S : MRet (HM S) := fun A a s => Done (s, Ok a).
#[export] Instance HM_bind S : MBind (HM S) := fun A B k m s =>
  match m s with
  | Done (s', Ok a) => k a s'
  | Done (s', Err e) => Done (s', Err e)
  | Panicked => Panicked
  | Deadlocked => Deadlocked
  end.

Definition throw {S A} (e : ServiceError) : HM S A := fun s => Done (s, Err e).
Definition deadlock {S A} : HM S A := fun _ => Deadlocked.
(** a call that may panic *)
Definition lift {S A} (o : outcome A) : HM S A := fun s => a ← o; Done (s, Ok a).
(** [let _ = f(..)]: an error is dropped, the state kept *)
Definition ignore {S A} (m : HM S A) : HM S unit := fun s =>
  match m s with
  | Done (s', _) => Done (s', Ok tt)
  | Panicked => Panicked
  | Deadlocked => Deadlocked
  end.

Lemma HM_bind_eq {S A B} (m : HM S A) (k : A -> HM S B) s :
  (m ≫= k) s = match m s with
               | Done (s', Ok a) => k a s'
               | Done (s', Err e) => Done (s', Err e)
               | Panicked => Panicked
               | Deadlocked => Deadlocked
               end.
Proof. reflexivity. Qed.
