(* ===== verification/Bus.v ===== *)
(** * The message bus and the kernel (src/src/messaging/bus.rs, response.rs,
      src/src/services/kernel.rs)

    The channels are those of the crossbeam crate: the class [Channel] has the
    operations the source uses, and [ChannelOk] what the crate documents of an
    unbounded channel.  The two ends of a channel are one object, so an envelope
    holds the index of its response channel in the list [responses].  The
    kernel subscribes to the bus and moves each envelope to the channel of the
    service it is for. *)
From S2P Require Import Prelude Types Messages.

Class Channel (C : Set -> Set) := {
  unbounded : forall {A : Set}, C A;
  try_send : forall {A : Set}, A -> C A -> C A * bool;
  try_recv : forall {A : Set}, C A -> C A * option A }.

(** An unbounded channel is a queue; sending fails if and only if the receivers
    are gone. *)
Class ChannelOk (C : Set -> Set) `{!Channel C} := {
  queued : forall {A : Set}, C A -> list A;
  connected : forall {A : Set}, C A -> bool;
  unbounded_new {A : Set} : queued (A := A) unbounded = [] /\ connected (A := A) unbounded = true;
  send_connected {A : Set} (x : A) c : connected c = true ->
    exists c', try_send x c = (c', true) /\ queued c' = queued c ++ [x] /\ connected c' = true;
  send_disconnected {A : Set} (x : A) c : connected c = false -> try_send x c = (c, false);
  recv_first {A : Set} (x : A) q c : queued c = x :: q ->
    exists c', try_recv c = (c', Some x) /\ queued c' = q /\ connected c' = connected c;
  recv_empty {A : Set} (c : C A) : queued c = [] -> try_recv c = (c, None) }.

(** ** Responses *)

Definition RequestId := N.
Record BusResponse := { resp_request_id : RequestId; payload : Response }.
Definition success (i : RequestId) (d : ResponseData) : BusResponse := {| resp_request_id := i; payload := Ok d |}.
Definition error (i : RequestId) (e : ResponseError) : BusResponse := {| resp_request_id := i; payload := Err e |}.
Definition is_success (r : BusResponse) : bool := is_ok (payload r).
Definition is_error (r : BusResponse) : bool := negb (is_ok (payload r)).
Definition resp_data (r : BusResponse) : option ResponseData := data (payload r).
Definition service_error (r : BusResponse) : option ResponseError := match payload r with Ok _ => None | Err e => Some e end.
(** the other kind of response is a panic *)
Definition unwrap_data (r : BusResponse) : outcome ResponseData := match resp_data r with Some d => Done d | None => Panicked end.
Definition unwrap_error (r : BusResponse) : outcome ResponseError :=
  match service_error r with Some e => Done e | None => Panicked end.

Inductive BusError := Disconnected | Full | NoReceiver.

Record Envelope := { message : KernelMsg; request_id : option RequestId; response_channel : option nat }.
Definition fire_and_forget (m : KernelMsg) : Envelope :=
  {| message := m; request_id := None; response_channel := None |}.
Definition expects_response (e : Envelope) : bool := bool_decide (is_Some (response_channel e)).

Section Bus.
Context {C : Set -> Set} `{!Channel C}.

(** the bus, the response channels, and the counter of request ids *)
Record Net := { subscribers : list (C Envelope); responses : list (C BusResponse); next_request_id : N }.
Definition set_subscribers x (n : Net) : Net :=
  {| subscribers := x; responses := responses n; next_request_id := next_request_id n |}.
Definition set_responses x (n : Net) : Net :=
  {| subscribers := subscribers n; responses := x; next_request_id := next_request_id n |}.

(** [LockedBus::new], with the counter where the program starts *)
Definition LockedBus_new : Net := {| subscribers := []; responses := []; next_request_id := 1 |}.

(** [fetch_add] *)
Definition generate_request_id (n : Net) : Net * RequestId :=
  ({| subscribers := subscribers n; responses := responses n; next_request_id := wadd64 (next_request_id n) 1 |}, next_request_id n).

Definition with_response (m : KernelMsg) (n : Net) : Net * Envelope * nat :=
  let '(n, i) := generate_request_id n in
  let h := length (responses n) in
  (set_responses (responses n ++ [unbounded]) n,
   {| message := m; request_id := Some i; response_channel := Some h |}, h).

(** a send on a response channel *)
Definition send_response (h : nat) (r : BusResponse) (n : Net) : Net * bool :=
  match responses n !! h with
  | Some c => let '(c, ok) := try_send r c in (set_responses (<[h := c]> (responses n)) n, ok)
  | None => (n, false)
  end.
(** both fields are there, or nobody waits *)
Definition respond (f : RequestId -> BusResponse) (e : Envelope) (n : Net) : Net * bool :=
  match request_id e, response_channel e with
  | Some i, Some h => send_response h (f i) n
  | _, _ => (n, true)
  end.
Definition respond_success (d : ResponseData) : Envelope -> Net -> Net * bool := respond (fun i => success i d).
Definition respond_error (x : ResponseError) : Envelope -> Net -> Net * bool := respond (fun i => error i x).

(** every subscriber gets a copy; one that is gone is skipped *)
Definition broadcast (e : Envelope) (cs : list (C Envelope)) : list (C Envelope) := (fun c : C Envelope => fst (try_send (C := C) e c)) <$> cs.

Definition send (m : KernelMsg) (n : Net) : Net * result BusError unit :=
  match subscribers n with
  | [] => (n, Ok tt)
  | _ => (set_subscribers (broadcast (fire_and_forget m) (subscribers n)) n, Ok tt)
  end.
Definition send_request (m : KernelMsg) (n : Net) : Net * result BusError nat :=
  match subscribers n with
  | [] => (n, Err Disconnected)
  | _ =>
      let '(n, e, h) := with_response m n in
      (set_subscribers (broadcast e (subscribers n)) n, Ok h)
  end.
Definition subscribe (n : Net) : Net * nat :=
  (set_subscribers (subscribers n ++ [unbounded]) n, length (subscribers n)).

(** [recv] of what is there *)
Definition recv_envelope (k : nat) (n : Net) : Net * option Envelope :=
  match subscribers n !! k with
  | Some c => let '(c, r) := try_recv c in (set_subscribers (<[k := c]> (subscribers n)) n, r)
  | None => (n, None)
  end.
Definition recv_response (h : nat) (n : Net) : Net * option BusResponse :=
  match responses n !! h with
  | Some c => let '(c, r) := try_recv c in (set_responses (<[h := c]> (responses n)) n, r)
  | None => (n, None)
  end.

(** ** Point to point *)

Definition direct_send (m : KernelMsg) (c : C Envelope) : C Envelope * result BusError unit :=
  let '(c, ok) := try_send (fire_and_forget m) c in (c, if ok : bool then Ok tt else Err Disconnected).
Definition direct_send_request (m : KernelMsg) (c : C Envelope) (n : Net) : C Envelope * Net * result BusError nat :=
  let '(n, e, h) := with_response m n in
  let '(c, ok) := try_send e c in (c, n, if ok : bool then Ok h else Err Disconnected).

(** ** The kernel *)

Record Kernel := {
  receiver : nat; process_tx : C Envelope; intr_tx : C Envelope; memory_tx : C Envelope; file_tx : C Envelope }.
Definition Kernel_new (n : Net) : Net * Kernel :=
  let '(n, k) := subscribe n in
  (n, {| receiver := k; process_tx := unbounded; intr_tx := unbounded; memory_tx := unbounded; file_tx := unbounded |}).

Definition route (e : Envelope) (k : Kernel) : Kernel :=
  let tx c := fst (try_send e c) in
  match message e with
  | MsgInterrupt _ => {| receiver := receiver k; process_tx := process_tx k; intr_tx := tx (intr_tx k);
                         memory_tx := memory_tx k; file_tx := file_tx k |}
  | MsgProcess _ | MsgSyscall _ => {| receiver := receiver k; process_tx := tx (process_tx k); intr_tx := intr_tx k;
                                      memory_tx := memory_tx k; file_tx := file_tx k |}
  | MsgMemory _ => {| receiver := receiver k; process_tx := process_tx k; intr_tx := intr_tx k;
                      memory_tx := tx (memory_tx k); file_tx := file_tx k |}
  | MsgFile _ => {| receiver := receiver k; process_tx := process_tx k; intr_tx := intr_tx k;
                    memory_tx := memory_tx k; file_tx := tx (file_tx k) |}
  | MsgDevice _ => k
  end.

(** [n] turns of the loop: a turn that finds no message waits *)
Fixpoint run (fuel : nat) (k : Kernel) (n : Net) : Kernel * Net :=
  match fuel with
  | O => (k, n)
  | S fuel =>
      match recv_envelope (receiver k) n with
      | (n, Some e) => run fuel (route e k) n
      | (n, None) => (k, n)
      end
  end.
End Bus.
Arguments Net C : clear implicits.
Arguments Kernel C : clear implicits.

(** ** Delivery *)

Inductive Service := ToProcess | ToInterrupts | ToMemory | ToFile.
#[export] Instance Service_eq_dec : EqDecision Service.
Proof. solve_decision. Defined.
Definition service_for (m : KernelMsg) : option Service :=
  match m with
  | MsgInterrupt _ => Some ToInterrupts
  | MsgProcess _ | MsgSyscall _ => Some ToProcess
  | MsgMemory _ => Some ToMemory
  | MsgFile _ => Some ToFile
  | MsgDevice _ => None
  end.

Section Delivery.
Context {C : Set -> Set} `{!Channel C, !ChannelOk C}.

Definition channel_of (s : Service) (k : Kernel C) : C Envelope :=
  match s with ToProcess => process_tx k | ToInterrupts => intr_tx k | ToMemory => memory_tx k | ToFile => file_tx k end.
Definition kernel_connected (k : Kernel C) : Prop := forall s, connected (channel_of s k) = true.
Definition for_service (s : Service) (es : list Envelope) : list Envelope :=
  filter (fun e => service_for (message e) = Some s) es.

Lemma route_spec e k : kernel_connected k ->
  kernel_connected (route e k) /\ receiver (route e k) = receiver k /\
  forall s, queued (channel_of s (route e k)) = queued (channel_of s k) ++ for_service s [e].
Proof.
  intros Hk. destruct e as [m i h].
  assert (Hsend : forall s, exists c', try_send {| message := m; request_id := i; response_channel := h |} (channel_of s k) = (c', true) /\
    queued c' = queued (channel_of s k) ++ [{| message := m; request_id := i; response_channel := h |}] /\ connected c' = true).
  { intros s. by apply send_connected. }
  unfold for_service. split; [|split].
  - intros s. pose proof (Hk s). destruct m, s; cbn in *; try done;
      match goal with |- connected (fst (try_send _ (?f k))) = _ =>
        first [destruct (Hsend ToProcess) as (c & E & _ & Hc); cbn in E; rewrite E; done
              |destruct (Hsend ToInterrupts) as (c & E & _ & Hc); cbn in E; rewrite E; done
              |destruct (Hsend ToMemory) as (c & E & _ & Hc); cbn in E; rewrite E; done
              |destruct (Hsend ToFile) as (c & E & _ & Hc); cbn in E; rewrite E; done] end.
  - by destruct m.
  - intros s. destruct (Hsend s) as (c & E & Hq & _). rewrite list.filter_cons. cbn [message].
    case_decide as Hs; destruct m, s; cbn in *; try done; rewrite ?app_nil_r; try done; by rewrite E.
Qed.

Lemma route_all_spec es : forall k, kernel_connected k ->
  let k' := foldl (fun k e => route e k) k es in
  kernel_connected k' /\ receiver k' = receiver k /\
  forall s, queued (channel_of s k') = queued (channel_of s k) ++ for_service s es.
Proof.
  induction es as [|e es IH]; intros k Hk; [by split_and!; [..|intros s; rewrite app_nil_r]|]. cbn [foldl].
  destruct (route_spec e k Hk) as (H1 & H2 & H3). destruct (IH (route e k) H1) as (H4 & H5 & H6).
  split; [done|]. split; [by rewrite H5|]. intros s. rewrite H6, H3, <- app_assoc. f_equal.
  unfold for_service. by rewrite <- list.filter_app.
Qed.

(** the loop moves everything that waits *)
Lemma kernel_run_spec es : forall fuel (k : Kernel C) n c,
  subscribers n !! receiver k = Some c -> queued c = es -> (length es <= fuel)%nat ->
  exists c', run fuel k n = (foldl (fun k e => route e k) k es, set_subscribers (<[receiver k := c']> (subscribers n)) n) /\
    queued c' = [] /\ connected c' = connected c.
Proof.
  induction es as [|e es IH]; intros fuel k n c Hc Hq Hf.
  - assert (Hid : set_subscribers (<[receiver k := c]> (subscribers n)) n = n) by (rewrite list_insert_id by done; by destruct n).
    exists c. rewrite Hid. split; [|done]. destruct fuel; [done|]. cbn [run]. unfold recv_envelope. rewrite Hc, recv_empty by done.
    by rewrite Hid.
  - destruct fuel as [|fuel]; [cbn in Hf; lia|]. cbn [run]. unfold recv_envelope. rewrite Hc.
    destruct (recv_first e es c Hq) as (c1 & E & Hq1 & Hc1). rewrite E.
    assert (Hr : receiver (route e k) = receiver k) by by destruct e as [[] ? ?].
    destruct (IH fuel (route e k) (set_subscribers (<[receiver k := c1]> (subscribers n)) n) c1) as (c2 & Hrun & Hq2 & Hc2).
    + rewrite Hr. cbn. apply list_lookup_insert_eq. by eapply lookup_lt_Some.
    + done.
    + cbn in Hf. lia.
    + exists c2. rewrite Hrun, Hr. cbn. rewrite list_insert_insert_eq. split; [done|]. split; [done|congruence].
Qed.

(** C13: the kernel moves every envelope that waits on the bus to the channel
    of the service it is for, each exactly once and in the order of sending, and
    leaves the bus empty; an envelope for a device is dropped, as the device
    service listens to the bus itself. *)
Theorem kernel_delivers_in_order (k : Kernel C) n c :
  kernel_connected k -> subscribers n !! receiver k = Some c ->
  exists k' n' c', run (length (queued c)) k n = (k', n') /\ subscribers n' = <[receiver k := c']> (subscribers n) /\
    queued c' = [] /\ responses n' = responses n /\
    forall s, queued (channel_of s k') = queued (channel_of s k) ++ for_service s (queued c).
Proof.
  intros Hk Hc. destruct (kernel_run_spec (queued c) (length (queued c)) k n c Hc eq_refl (le_n _)) as (c' & Hrun & Hq & _).
  eexists _, _, c'. split; [exact Hrun|]. split; [done|]. split; [done|]. split; [done|]. apply route_all_spec. exact Hk.
Qed.

Lemma broadcast_lookup e cs i c : cs !! i = Some c -> broadcast e cs !! i = Some (fst (try_send (C := C) e c)).
Proof. intros H. unfold broadcast. by rewrite list_lookup_fmap, H. Qed.

(** the response to the request in [e] *)
Lemma response_received (n : Net C) e i h d : request_id e = Some i -> response_channel e = Some h -> responses n !! h = Some unbounded ->
  exists n3 n4, respond_success d e n = (n3, true) /\ recv_response h n3 = (n4, Some (success i d)) /\
    forall h', h' <> h -> responses n4 !! h' = responses n !! h'.
Proof.
  intros Hi Hh Hc. destruct (unbounded_new (A := BusResponse)) as [Hu1 Hu2].
  destruct (send_connected (success i d) unbounded Hu2) as (c3 & Er & Hq3 & Hc3). rewrite Hu1 in Hq3. cbn in Hq3.
  destruct (recv_first _ _ c3 Hq3) as (c4 & Ev & _ & _). assert (Hlt : (h < length (responses n))%nat) by by eapply lookup_lt_Some.
  unfold respond_success, respond, send_response. rewrite Hi, Hh, Hc, Er. eexists _, _. split; [reflexivity|].
  unfold recv_response. cbn [responses set_responses]. rewrite list_lookup_insert_eq by done. rewrite Ev. split; [reflexivity|].
  intros h' Hne. cbn. by rewrite !list_lookup_insert_ne by done.
Qed.

(** C30: a request sent on a bus that somebody listens to gets the next number
    of the counter and comes, with that number and a response channel of its own,
    to every subscriber that is still there, as its last message.  Whoever
    answers it, with whatever the subscribers have taken meanwhile, the answer is
    what the requester receives, with the number of the request, and no other
    requester hears of it.  If the request is for a service that the kernel
    routes to, the kernel brings it there, as the last message of that service. *)
Theorem request_is_answered (n : Net C) m : subscribers n <> [] ->
  exists n1 h e, send_request m n = (n1, Ok h) /\
    message e = m /\ request_id e = Some (next_request_id n) /\ next_request_id n1 = wadd64 (next_request_id n) 1 /\
    (forall i c, subscribers n !! i = Some c -> connected c = true ->
       exists c', subscribers n1 !! i = Some c' /\ connected c' = true /\ queued c' = queued c ++ [e]) /\
    (forall n2 d, responses n2 = responses n1 ->
       exists n3 n4, respond_success d e n2 = (n3, true) /\ recv_response h n3 = (n4, Some (success (next_request_id n) d)) /\
         forall h', (h' < length (responses n))%nat -> responses n4 !! h' = responses n !! h') /\
    (forall (k : Kernel C) c s, kernel_connected k -> subscribers n !! receiver k = Some c -> connected c = true -> service_for m = Some s ->
       exists k' n2 q, run (S (length (queued c))) k n1 = (k', n2) /\ queued (channel_of s k') = q ++ [e] /\ responses n2 = responses n1).
Proof.
  intros Hsub. unfold send_request. destruct (subscribers n) as [|c0 cs] eqn:Esub; [done|]. rewrite <- Esub in *. clear Hsub Esub c0 cs.
  unfold with_response, generate_request_id. cbn [set_responses responses subscribers next_request_id].
  set (e := {| message := m; request_id := Some (next_request_id n); response_channel := Some (length (responses n)) |}).
  set (n1 := set_subscribers _ _). exists n1, (length (responses n)), e.
  assert (Hall : forall i c, subscribers n !! i = Some c -> connected c = true ->
    exists c', subscribers n1 !! i = Some c' /\ connected c' = true /\ queued c' = queued c ++ [e]).
  { intros i c Hc Hcon. destruct (send_connected e c Hcon) as (c1 & Es & Hq1 & Hc1). exists c1. split; [|done].
    change (broadcast e (subscribers n) !! i = Some c1). by rewrite (broadcast_lookup e _ _ _ Hc), Es. }
  do 4 (split; [done|]). split; [exact Hall|]. split.
  - intros n2 d Hn2. assert (Hlk : responses n2 !! length (responses n) = Some unbounded).
    { rewrite Hn2. cbn. rewrite lookup_app_r by lia. by rewrite Nat.sub_diag. }
    destruct (response_received n2 e _ _ d eq_refl eq_refl Hlk) as (n3 & n4 & H1 & H2 & H3). exists n3, n4. split; [done|]. split; [done|].
    intros h' Hh. rewrite H3 by lia. rewrite Hn2. cbn. by rewrite lookup_app_l.
  - intros k c s Hk Hc Hcon Hs. destruct (Hall _ _ Hc Hcon) as (c1 & Hc1 & _ & Hq1).
    destruct (kernel_run_spec (queued c1) (S (length (queued c))) k n1 c1 Hc1 eq_refl) as (c2 & Hrun & _ & _).
    { rewrite Hq1, length_app. cbn. lia. }
    destruct (route_all_spec (queued c1) k Hk) as (_ & _ & Hdel). specialize (Hdel s).
    rewrite Hq1 in Hdel at 2. unfold for_service in Hdel. rewrite list.filter_app, list.filter_cons_True, app_assoc in Hdel by done.
    eexists _, _, _. split; [exact Hrun|]. split; [exact Hdel|done].
Qed.
End Delivery.

(** ** A queue is such a channel *)

Record ListChannel (A : Set) := { items : list A; open : bool }.
Arguments items {A}. Arguments open {A}.
#[export] Instance ListChannel_ops : Channel ListChannel := {
  unbounded A := {| items := []; open := true |};
  try_send A x c := if open c then ({| items := items c ++ [x]; open := true |}, true) else (c, false);
  try_recv A c := match items c with
                  | [] => (c, None)
                  | x :: q => ({| items := q; open := open c |}, Some x)
                  end }.
#[export] Program Instance ListChannel_ok : ChannelOk ListChannel := {
  queued A c := items c; connected A c := open c }.
Next Obligation. done. Qed.
Next Obligation. intros A x c H. cbn. rewrite H. by eexists. Qed.
Next Obligation. intros A x c H. cbn. by rewrite H. Qed.
Next Obligation. intros A x q c H. cbn in *. rewrite H. by eexists. Qed.
Next Obligation. intros A c H. cbn in *. by rewrite H. Qed.

Definition demo_net : Net ListChannel * Kernel ListChannel := Kernel_new LockedBus_new.
Definition demo_messages : list KernelMsg :=
  [MsgInterrupt Timer; MsgMemory GetFrameMap; MsgFile FileRequest.DiskInfo; MsgMemory (AllocFrame 1 2)].
Definition demo_sent : Net ListChannel := foldl (fun n m => fst (send m n)) (fst demo_net) demo_messages.

Lemma kernel_delivers_in_order_witness :
  exists k' n', run 4 (snd demo_net) demo_sent = (k', n') /\
    message <$> queued (memory_tx k') = [MsgMemory GetFrameMap; MsgMemory (AllocFrame 1 2)].
Proof.
  destruct (kernel_delivers_in_order (snd demo_net) demo_sent {| items := fire_and_forget <$> demo_messages; open := true |})
    as (k' & n' & c' & H & _ & _ & _ & Hq); [by intros []|reflexivity|].
  exists k', n'. split; [exact H|]. pose proof (Hq ToMemory) as Hm. cbn [channel_of] in Hm. rewrite Hm. reflexivity.
Defined.

Lemma request_is_answered_witness :
  exists n1 h e k' n2 n3 n4,
    send_request (MsgFile FileRequest.DiskInfo) demo_sent = (n1, Ok h) /\ run 5 (snd demo_net) n1 = (k', n2) /\
    respond_success (DiskStats 16 3 8192) e n2 = (n3, true) /\
    recv_response h n3 = (n4, Some (success 1 (DiskStats 16 3 8192))).
Proof.
  destruct (request_is_answered demo_sent (MsgFile FileRequest.DiskInfo)) as (n1 & h & e & H1 & _ & _ & _ & _ & Hans & Hk); [by cbn|].
  destruct (Hk (snd demo_net) {| items := fire_and_forget <$> demo_messages; open := true |} ToFile) as (k' & n2 & q & H2 & _ & Hr);
    [by intros []|reflexivity..|].
  destruct (Hans n2 (DiskStats 16 3 8192) Hr) as (n3 & n4 & H3 & H4 & _).
  exists n1, h, e, k', n2, n3, n4. split_and!; [exact H1|exact H2|exact H3|exact H4].
Defined.
