(* ===== verification/MemService.v ===== *)
(** * The memory service (src/src/services/memory/service.rs)

    One thread receives requests and runs a handler for each, so a handler is a
    function on the service state.  [hardware_memory] and the memory behind the
    MMU are clones of one handle and so the same bytes, [memory (mmu s)].  The
    handler monad returns the new state, the responses sent and a result; a lock
    that the thread takes while it holds it is [Deadlocked].  [connected] says
    that the requester still holds the receiving end of the response channel
    (crossbeam, a third-party crate): sending fails exactly when it does not.
    Printed messages and the texts inside errors are left out. *)
From S2P Require Import Prelude Types Messages.
From S2P Require PhysMem Mmu Disk Swap FrameAlloc Paging.

Record MemoryService := {
  memory_manager : FrameAlloc.PhysicalMemoryManager;
  page_tables : Paging.PageTableManager;
  swap_manager : Swap.SwapManager;
  mmu : Mmu.MMU;
  swapped_pages : gmap Pid (gmap VirtAddr N) }.

Definition set_manager x (s : MemoryService) : MemoryService :=
  {| memory_manager := x; page_tables := page_tables s; swap_manager := swap_manager s; mmu := mmu s; swapped_pages := swapped_pages s |}.
Definition set_tables x (s : MemoryService) : MemoryService :=
  {| memory_manager := memory_manager s; page_tables := x; swap_manager := swap_manager s; mmu := mmu s; swapped_pages := swapped_pages s |}.
Definition set_swap x (s : MemoryService) : MemoryService :=
  {| memory_manager := memory_manager s; page_tables := page_tables s; swap_manager := x; mmu := mmu s; swapped_pages := swapped_pages s |}.
Definition set_mmu x (s : MemoryService) : MemoryService :=
  {| memory_manager := memory_manager s; page_tables := page_tables s; swap_manager := swap_manager s; mmu := x; swapped_pages := swapped_pages s |}.
Definition set_swapped x (s : MemoryService) : MemoryService :=
  {| memory_manager := memory_manager s; page_tables := page_tables s; swap_manager := swap_manager s; mmu := mmu s; swapped_pages := x |}.

Definition FRAME_SIZE : N := 4096.

(** [MemoryService::new]; [image] is the content of the swap file *)
Definition new (hw : PhysMem.PhysicalMemory) (u : Mmu.MMU) (image : list N) : outcome MemoryService :=
  mm ← FrameAlloc.pmm_new (PhysMem.size hw) 4096;
  d ← Disk.new 256 image;
  sw ← Swap.new Swap.SwapConfig_default d;
  Done {| memory_manager := mm; page_tables := Paging.manager_new 4096 256; swap_manager := sw;
          mmu := u; swapped_pages := ∅ |}.

(** The queries of other parts of the program. *)
Definition memory_usage (s : MemoryService) : FrameAlloc.MemoryUsage := FrameAlloc.usage (FrameAlloc.allocator (memory_manager s)).
Definition swap_stats (s : MemoryService) : Swap.SwapStats := Swap.stats (swap_manager s).
Definition page_table_stats (s : MemoryService) : list (Pid * Paging.PageTableStats) := Paging.all_tables (page_tables s).
Definition process_page_table_stats (s : MemoryService) (pid : Pid) : option Paging.PageTableStats :=
  Paging.stats <$> Paging.get_table (page_tables s) pid.

(** ** The handler monad *)

Abbreviation H := (HM (MemoryService * list Response)).

Definition get : H MemoryService := fun st => Done (st, Ok (fst st)).
Definition update (f : MemoryService -> MemoryService) : H unit := fun '(s, rs) => Done ((f s, rs), Ok tt).

Section Handlers.
Context (connected : bool).

(** [envelope.respond_success] and [respond_error], the result ignored *)
Definition respond (r : Response) : H unit :=
  fun '(s, rs) => Done ((s, if connected then rs ++ [r] else rs), Ok tt).
(** the same with [?] *)
Definition respond_or_fail (r : Response) : H unit :=
  _ ← respond r; if connected then mret tt else throw SendFailed.

Definition allocate_frames (pid : Pid) (count : N) : H (list FrameAlloc.Frame) :=
  s ← get;
  '(mm, fs) ← lift (FrameAlloc.allocate_frames (memory_manager s) pid count);
  _ ← update (set_manager mm);
  mret fs.
Definition free_frame (pid : Pid) (n : N) : H bool :=
  s ← get;
  '(mm, b) ← lift (FrameAlloc.free_frame (memory_manager s) pid n);
  _ ← update (set_manager mm);
  mret b.

(** ** Frames *)

Definition handle_alloc_frame (count : N) (pid : Pid) : H unit :=
  frames ← allocate_frames pid count;
  if negb (len frames =? count) then throw (ResourceExhausted (len frames) count) else mret tt.

Definition first_address (fs : list FrameAlloc.Frame) : PhysAddr :=
  match fs with f :: _ => FrameAlloc.address f | [] => 0 end.

Definition handle_alloc_frame_with_response (count : N) (pid : Pid) : H unit :=
  frames ← allocate_frames pid count;
  if negb (len frames =? count) then
    _ ← respond (Err RespResourceExhausted);
    throw (ResourceExhausted (len frames) count)
  else respond (Ok (PhysicalAddr (first_address frames))).

Definition handle_free_frame (paddr : PhysAddr) : H unit :=
  freed ← free_frame 0 (paddr / FRAME_SIZE);
  if freed : bool then mret tt else throw SvcNotFound.

Definition handle_free_frame_with_response (paddr : PhysAddr) : H unit :=
  freed ← free_frame 0 (paddr / FRAME_SIZE);
  if freed : bool then respond_or_fail (Ok Void)
  else _ ← respond (Err RespNotFound); throw SvcNotFound.

(** ** Page tables *)

Definition handle_map_page (pid : Pid) (virt : VirtAddr) (phys : PhysAddr) (prot : MemProt) : H unit :=
  s ← get;
  let '(pts, table) := match Paging.get_table (page_tables s) pid with
                       | Some t => (page_tables s, t)
                       | None => Paging.create_table (page_tables s) pid
                       end in
  _ ← update (set_tables pts);
  match Paging.map table virt phys prot with
  | Ok t => update (set_tables (Paging.with_tables pts (<[pid := t]> (Paging.tables pts))))
  | Err (Paging.AlreadyMapped _) => throw InvalidArguments
  | Err _ => throw (Other 1)
  end.

Definition handle_unmap_page (pid : Pid) (virt : VirtAddr) : H unit :=
  s ← get;
  match Mmu.unmap_page (mmu s) pid virt with
  | Ok u => update (set_mmu u)
  | Err _ => throw (Other 2)
  end.

Definition rw_flags (w : bool) : Mmu.PageFlags :=
  {| Mmu.present := true; Mmu.writable := w; Mmu.user_accessible := true |}.

Definition handle_map_page_with_response (pid : Pid) (virt : VirtAddr) (phys : PhysAddr) (prot : MemProt) : H unit :=
  _ ← update (fun s => set_mmu (Mmu.map_page (mmu s) pid virt phys (rw_flags (prot_writable prot))) s);
  respond (Ok Void).

Definition handle_unmap_page_with_response (pid : Pid) (virt : VirtAddr) : H unit :=
  s ← get;
  match Mmu.unmap_page (mmu s) pid virt with
  | Ok u => _ ← update (set_mmu u); respond (Ok Void)
  | Err _ => _ ← respond (Err (RespOther 2)); throw (Other 2)
  end.

(** ** Page faults *)

Definition prot_for (access : AccessType) : MemProt :=
  match access with
  | Read => MemProt_read_only
  | Write => MemProt_read_write
  | Execute => MemProt_execute
  end.

Definition handle_page_fault (pid : Pid) (faulting_addr : VirtAddr) (access : AccessType) : H unit :=
  s ← get;
  match Paging.get_table (page_tables s) pid with
  | None => throw SvcNotFound
  | Some table =>
      if match Paging.lookup table faulting_addr with Some e => Paging.entry_is_present e | None => false end
      then throw SvcPermissionDenied
      else
        frames ← allocate_frames pid 1;
        match frames with
        | [] =>
            s ← get;
            if negb (Swap.enabled (swap_manager s)) || negb (Swap.has_space (swap_manager s))
            then throw (ResourceExhausted 0 1) else mret tt
        | f :: _ => handle_map_page pid faulting_addr (FrameAlloc.address f) (prot_for access)
        end
  end.

(** [faulting_addr & !0xFFF] *)
Definition page_base (a : VirtAddr) : VirtAddr := N.land a (N.lnot 0xFFF 64).

Definition find_victim_page (u : Mmu.MMU) (exclude_pid : Pid) : option (Pid * VirtAddr * PhysAddr) :=
  let pages := Mmu.all_present_pages u in
  match list_find (fun '(p, _, _) => p <> exclude_pid) pages with
  | Some (_, x) => Some x
  | None => head pages
  end.

(** [for (i, &b) in data.iter().enumerate() { let _ = self.mmu.write_u8(..) }] *)
Fixpoint store_bytes (u : Mmu.MMU) (pid : Pid) (v : VirtAddr) (bs : list N) : Mmu.MMU :=
  match bs with
  | [] => u
  | b :: bs =>
      let u := match Mmu.write_u8 u pid v b with Ok u' => u' | Err _ => u end in
      store_bytes u pid (wadd64 v 1) bs
  end.

(** [read_u8(..).unwrap_or(0)] of the bytes of a page *)
Definition page_bytes (u : Mmu.MMU) (pid : Pid) (v : VirtAddr) : list N :=
  (fun i => match Mmu.read_u8 u pid (wadd64 v (N.of_nat i)) with Ok b => b | Err _ => 0 end) <$> seq 0 4096.

Definition map_fresh (pid : Pid) (page_vaddr : VirtAddr) (f : FrameAlloc.Frame) : H unit :=
  _ ← update (fun s => set_mmu (Mmu.map_page (mmu s) pid page_vaddr (FrameAlloc.address f) (rw_flags true)) s);
  respond (Ok (PhysicalAddr (FrameAlloc.address f))).

(** Step 1: the page was swapped out.  The guard of [swapped_pages] is held
    throughout, also when the lock is taken again after the page was read in. *)
Definition fault_swapped_in (pid : Pid) (page_vaddr : VirtAddr) (slot : N) : H bool :=
  s ← get;
  match Swap.swap_in (swap_manager s) slot with
  | Err _ => _ ← respond (Err (RespOther 80)); mret true
  | Ok data =>
      frames ← allocate_frames pid 1;
      match frames with
      | [] => mret false
      | f :: _ =>
          _ ← update (fun s => set_mmu (Mmu.map_page (mmu s) pid page_vaddr (FrameAlloc.address f) (rw_flags true)) s);
          _ ← update (fun s => set_mmu (store_bytes (mmu s) pid page_vaddr data) s);
          deadlock
      end
  end.

(** Step 3: make room by swapping a page out. *)
Definition fault_swap_out (pid : Pid) (page_vaddr : VirtAddr) : H bool :=
  s ← get;
  match find_victim_page (mmu s) pid with
  | None => mret false
  | Some (vpid, vaddr, vframe) =>
      '(sw, slot) ← lift (Swap.allocate_slot (swap_manager s) vpid (vaddr / 4096));
      _ ← update (set_swap sw);
      match slot with
      | None => mret false
      | Some slot =>
          let '(sw, r) := Swap.swap_out sw (Swap.number slot) (page_bytes (mmu s) vpid vaddr) in
          _ ← update (set_swap sw);
          match r with
          | Err _ => mret false
          | Ok _ =>
              _ ← update (fun s => set_mmu (match Mmu.unmap_page (mmu s) vpid vaddr with Ok u => u | Err _ => mmu s end) s);
              _ ← free_frame vpid (vframe / 4096);
              _ ← update (fun s => set_swapped
                    (<[vpid := <[vaddr := Swap.number slot]> (default ∅ (swapped_pages s !! vpid))]> (swapped_pages s)) s);
              frames ← allocate_frames pid 1;
              match frames with
              | [] => mret false
              | f :: _ => _ ← map_fresh pid page_vaddr f; mret true
              end
          end
      end
  end.

Definition handle_page_fault_with_response (pid : Pid) (faulting_addr : VirtAddr) (_access : AccessType) : H unit :=
  let page_vaddr := page_base faulting_addr in
  s ← get;
  answered ← match swapped_pages s !! pid ≫= (.!! page_vaddr) with
             | Some slot => fault_swapped_in pid page_vaddr slot
             | None => mret false
             end;
  if answered : bool then mret tt
  else
    frames ← allocate_frames pid 1;
    match frames with
    | f :: _ => map_fresh pid page_vaddr f
    | [] =>
        answered ← fault_swap_out pid page_vaddr;
        if answered : bool then mret tt
        else _ ← respond (Err RespResourceExhausted); throw (ResourceExhausted 0 1)
    end.

(** ** Swapping on request *)

Definition handle_swap_out (pid : Pid) (virt : VirtAddr) : H unit :=
  s ← get;
  if negb (Swap.enabled (swap_manager s)) then throw NotImplemented
  else
    '(sw, slot) ← lift (Swap.allocate_slot (swap_manager s) pid (virt / 4096));
    _ ← update (set_swap sw);
    match slot with Some _ => mret tt | None => throw (ResourceExhausted 0 1) end.

(** a page read through the hardware memory; zeros when it is not mapped or
    does not lie in memory *)
Definition frame_data (u : Mmu.MMU) (pid : Pid) (virt : VirtAddr) : list N :=
  match Mmu.translate u pid virt Read with
  | Ok paddr => match PhysMem.read_slice (Mmu.memory u) paddr 4096 with Ok bs => bs | Err _ => replicate (N.to_nat 4096) 0 end
  | Err _ => replicate (N.to_nat 4096) 0
  end.

Definition handle_swap_out_with_response (pid : Pid) (virt : VirtAddr) : H unit :=
  s ← get;
  if negb (Swap.enabled (swap_manager s)) then
    _ ← respond_or_fail (Err RespNotImplemented); throw NotImplemented
  else
    '(sw, slot) ← lift (Swap.allocate_slot (swap_manager s) pid (virt / 4096));
    _ ← update (set_swap sw);
    match slot with
    | None => _ ← respond (Err RespResourceExhausted); throw (ResourceExhausted 0 1)
    | Some slot =>
        let '(sw, r) := Swap.swap_out sw (Swap.number slot) (frame_data (mmu s) pid virt) in
        _ ← update (set_swap sw);
        match r with
        | Err _ => _ ← respond (Err (RespOther 81)); throw (Other 81)
        | Ok _ => respond (Ok (Integer (Swap.number slot)))
        end
    end.

(** [slots.iter().find(|s| s.vpn == Some(vpn))] *)
Definition find_slot (slots : list Swap.SwapSlot) (vpn : N) : option Swap.SwapSlot :=
  snd <$> list_find (fun s => Swap.vpn s = Some vpn) slots.

Definition handle_swap_in (pid : Pid) (virt : VirtAddr) : H unit :=
  s ← get;
  slots ← lift (Swap.get_process_slots (swap_manager s) pid);
  match find_slot slots (virt / 4096) with
  | None => throw SvcNotFound
  | Some slot =>
      '(sw, _) ← lift (Swap.free_slot (swap_manager s) (Swap.number slot));
      update (set_swap sw)
  end.

Definition handle_swap_in_with_response (pid : Pid) (virt : VirtAddr) : H unit :=
  s ← get;
  slots ← lift (Swap.get_process_slots (swap_manager s) pid);
  match find_slot slots (virt / 4096) with
  | None => _ ← respond (Err RespNotFound); throw SvcNotFound
  | Some slot =>
      '(sw, _) ← lift (Swap.free_slot (swap_manager s) (Swap.number slot));
      _ ← update (set_swap sw);
      match Swap.swap_in sw (Swap.number slot) with
      | Err _ => _ ← respond (Err (RespOther 84)); throw (Other 84)
      | Ok data =>
          _ ← match Mmu.translate (mmu s) pid virt Write with
              | Ok paddr =>
                  match PhysMem.write_slice (Mmu.memory (mmu s)) paddr data with
                  | Ok mem => update (set_mmu (Mmu.set_memory (mmu s) mem))
                  | Err _ => throw (Other 83)
                  end
              | Err _ => mret tt
              end;
          respond (Ok Void)
      end
  end.

(** ** Requests *)

Definition handle_memory_request (req : MemoryRequest) : H unit :=
  match req with
  | AllocFrame count pid => handle_alloc_frame count pid
  | FreeFrame paddr => handle_free_frame paddr
  | MapPage pid virt phys prot => handle_map_page pid virt phys prot
  | UnmapPage pid virt => handle_unmap_page pid virt
  | PageFaultHandler pid a t => handle_page_fault pid a t
  | SwapOut pid virt => handle_swap_out pid virt
  | SwapIn pid virt => handle_swap_in pid virt
  | GetStats | GetFrameMap => mret tt
  end.

Definition handle_get_stats : H unit :=
  s ← get;
  let a := FrameAlloc.allocator (memory_manager s) in
  respond (Ok (MemoryStats (FrameAlloc.total_frames a)
                 (wsub64 (FrameAlloc.total_frames a) (FrameAlloc.free_count a)) (FrameAlloc.free_count a))).

Definition handle_get_frame_map : H unit :=
  s ← get; respond (Ok (FrameMap (FrameAlloc.frame_owners (FrameAlloc.allocator (memory_manager s))))).

Definition handle_memory_request_with_response (req : MemoryRequest) : H unit :=
  match req with
  | AllocFrame count pid => handle_alloc_frame_with_response count pid
  | FreeFrame paddr => handle_free_frame_with_response paddr
  | MapPage pid virt phys prot => handle_map_page_with_response pid virt phys prot
  | UnmapPage pid virt => handle_unmap_page_with_response pid virt
  | PageFaultHandler pid a t => handle_page_fault_with_response pid a t
  | SwapOut pid virt => handle_swap_out_with_response pid virt
  | SwapIn pid virt => handle_swap_in_with_response pid virt
  | GetStats => handle_get_stats
  | GetFrameMap => handle_get_frame_map
  end.

(** [handle_envelope] for a memory request: an error is logged and, for a
    request that expects a response, answered. *)
Definition handle_envelope (expects_response : bool) (req : MemoryRequest) : H unit := fun st =>
  match (if expects_response then handle_memory_request_with_response req else handle_memory_request req) st with
  | Done (st', Ok _) => Done (st', Ok tt)
  | Done (st', Err _) => if expects_response then respond (Err (RespOther 1)) st' else Done (st', Ok tt)
  | Panicked => Panicked
  | Deadlocked => Deadlocked
  end.
End Handlers.

(** ** No panic, and every request answered

    [service_inv] is what the handlers need of the frame and slot bookkeeping so
    as not to panic.  [spec dl m Q]: from a state with the invariant, [m] keeps
    it, does not panic, deadlocks only if [dl], and adds the responses that [Q]
    allows. *)

Definition service_inv (s : MemoryService) : Prop :=
  FrameAlloc.wf (FrameAlloc.allocator (memory_manager s)) /\ Swap.wf (swap_manager s).

Definition spec {A} (dl : bool) (m : H A) (Q : result ServiceError A -> nat -> Prop) : Prop :=
  forall s rs, service_inv s ->
  match m (s, rs) with
  | Done (s', rs', r) => service_inv s' /\ exists extra, rs' = rs ++ extra /\ Q r (length extra)
  | Panicked => False
  | Deadlocked => dl = true
  end.

(** a handler that has answered exactly when it succeeds, and at most once *)
Definition answers (r : result ServiceError unit) (k : nat) : Prop :=
  match r with Ok _ => k = 1%nat | Err _ => (k <= 1)%nat end.
(** a step of the page-fault handler that tells whether it has answered *)
Definition answered_if (r : result ServiceError bool) (k : nat) : Prop :=
  match r with Ok b => k = Nat.b2n b | Err _ => (k <= 1)%nat end.
Definition silent {A} (r : result ServiceError A) (k : nat) : Prop := k = 0%nat.

Lemma spec_weaken {A} dl (m : H A) (Q R : result ServiceError A -> nat -> Prop) :
  spec dl m Q -> (forall r k, Q r k -> R r k) -> spec dl m R.
Proof.
  intros Hm Himp s rs Hs. specialize (Hm s rs Hs). destruct (m (s, rs)) as [[[s' rs'] r]| |]; try done.
  destruct Hm as (? & ex & -> & HQ). split; [done|]. exists ex. split; [done|]. by apply Himp.
Qed.

Lemma spec_dl {A} (m : H A) Q : spec false m Q -> spec true m Q.
Proof. intros Hm s rs Hs. specialize (Hm s rs Hs). by destruct (m (s, rs)). Qed.

(** sequencing after a step that answers nothing *)
Lemma spec_bind {A B} dl (m : H A) (k : A -> H B) (R : result ServiceError B -> nat -> Prop) :
  spec dl m silent -> (forall a, spec dl (k a) R) -> (forall e, R (Err e) 0%nat) -> spec dl (m ≫= k) R.
Proof.
  intros Hm Hk He s rs Hs. specialize (Hm s rs Hs). rewrite HM_bind_eq.
  destruct (m (s, rs)) as [[[s' rs'] [a|e]]| |]; try done.
  - destruct Hm as (Hs' & ex & -> & Hex). apply nil_length_inv in Hex as ->. rewrite app_nil_r. by apply Hk.
  - destruct Hm as (Hs' & ex & -> & Hex). split; [done|]. exists ex. split; [done|]. by rewrite Hex.
Qed.

Lemma spec_get {A} dl (k : MemoryService -> H A) R :
  (forall s, service_inv s -> spec dl (k s) R) -> spec dl (get ≫= k) R.
Proof. intros Hk s rs Hs. by apply (Hk s Hs s rs Hs). Qed.

Lemma spec_ret {A} dl (a : A) (R : result ServiceError A -> nat -> Prop) : R (Ok a) 0%nat -> spec dl (mret a : H A) R.
Proof. intros HR s rs Hs. cbv [mret HM_ret throw]. split; [done|]. exists []. by rewrite app_nil_r. Qed.

Lemma spec_throw {A} dl e (R : result ServiceError A -> nat -> Prop) : R (Err e) 0%nat -> spec dl (throw e) R.
Proof. intros HR s rs Hs. cbv [mret HM_ret throw]. split; [done|]. exists []. by rewrite app_nil_r. Qed.

Lemma spec_update dl f (R : result ServiceError unit -> nat -> Prop) :
  (forall s, service_inv s -> service_inv (f s)) -> R (Ok tt) 0%nat -> spec dl (update f) R.
Proof. intros Hf HR s rs Hs. cbn [update]. split; [by apply Hf|]. exists []. by rewrite app_nil_r. Qed.

Lemma spec_respond dl r (R : result ServiceError unit -> nat -> Prop) : R (Ok tt) 1%nat -> spec dl (respond true r) R.
Proof. intros HR s rs Hs. split; [done|]. by exists [r]. Qed.

(** sequencing after the answer *)
Lemma spec_respond_then {A} dl r (k : unit -> H A) (R : result ServiceError A -> nat -> Prop) :
  spec dl (k tt) (fun x n => R x (S n)) -> spec dl (respond true r ≫= k) R.
Proof.
  intros Hk s rs Hs. rewrite HM_bind_eq. cbn [respond]. specialize (Hk s (rs ++ [r]) Hs).
  destruct (k tt (s, rs ++ [r])) as [[[s' rs'] x]| |]; try done.
  destruct Hk as (? & ex & -> & HR). split; [done|]. exists (r :: ex). by rewrite <- app_assoc.
Qed.

Lemma spec_answer_then {B} dl (m : H unit) (k : unit -> H B) (R : result ServiceError B -> nat -> Prop) :
  spec dl m answers -> (forall a, spec dl (k a) (fun x n => R x (S n))) ->
  (forall e j, (j <= 1)%nat -> R (Err e) j) -> spec dl (m ≫= k) R.
Proof.
  intros Hm Hk He s rs Hs. specialize (Hm s rs Hs). rewrite HM_bind_eq.
  destruct (m (s, rs)) as [[[s' rs'] [a|e]]| |]; try done.
  - destruct Hm as (Hs' & ex & -> & Hex). destruct ex as [|r [|]]; try done.
    specialize (Hk a s' (rs ++ [r]) Hs'). destruct (k a (s', rs ++ [r])) as [[[s2 rs2] x]| |]; try done.
    destruct Hk as (? & ex & -> & HR). split; [done|]. exists (r :: ex). by rewrite <- app_assoc.
  - destruct Hm as (Hs' & ex & -> & Hex). split; [done|]. exists ex. split; [done|]. by apply He.
Qed.

Lemma spec_answered_then {B} dl (m : H bool) (k : bool -> H B) (R : result ServiceError B -> nat -> Prop) :
  spec dl m answered_if -> spec dl (k true) (fun x n => R x (S n)) -> spec dl (k false) R ->
  (forall e j, (j <= 1)%nat -> R (Err e) j) -> spec dl (m ≫= k) R.
Proof.
  intros Hm Ht Hf He s rs Hs. specialize (Hm s rs Hs). rewrite HM_bind_eq.
  destruct (m (s, rs)) as [[[s' rs'] [[]|e]]| |]; try done.
  - destruct Hm as (Hs' & ex & -> & Hex). destruct ex as [|r [|]]; try done.
    specialize (Ht s' (rs ++ [r]) Hs'). destruct (k true (s', rs ++ [r])) as [[[s2 rs2] x]| |]; try done.
    destruct Ht as (? & ex & -> & HR). split; [done|]. exists (r :: ex). by rewrite <- app_assoc.
  - destruct Hm as (Hs' & ex & -> & Hex). apply nil_length_inv in Hex as ->. rewrite app_nil_r. by apply Hf.
  - destruct Hm as (Hs' & ex & -> & Hex). split; [done|]. exists ex. split; [done|]. by apply He.
Qed.

Lemma spec_respond_or_fail dl r (R : result ServiceError unit -> nat -> Prop) :
  R (Ok tt) 1%nat -> spec dl (respond_or_fail true r) R.
Proof. intros HR. by apply spec_respond_then, spec_ret. Qed.

Lemma spec_allocate_frames dl pid count : spec dl (allocate_frames pid count) silent.
Proof.
  intros s rs [Hf Hsw]. destruct (FrameAlloc.allocate_frames_total (memory_manager s) pid count Hf) as (mm & fs & E & Hw & _).
  unfold allocate_frames, get, lift, update. rewrite !HM_bind_eq. cbn [fst]. rewrite E. cbn [mbind outcome_bind].
  split; [by split|]. exists []. by rewrite app_nil_r.
Qed.

Lemma spec_free_frame dl pid n : spec dl (free_frame pid n) silent.
Proof.
  intros s rs [Hf Hsw]. destruct (FrameAlloc.free_frame_total (memory_manager s) pid n Hf) as (mm & b & E & Hw).
  unfold free_frame, get, lift, update. rewrite !HM_bind_eq. cbn [fst]. rewrite E. cbn [mbind outcome_bind].
  split; [by split|]. exists []. by rewrite app_nil_r.
Qed.

(** a call on a manager that returns *)
Lemma spec_lift {A B} dl (o : outcome B) (b : B) (k : B -> H A) R :
  o = Done b -> spec dl (k b) R -> spec dl (lift o ≫= k) R.
Proof. intros ->. done. Qed.

Lemma set_swap_inv sw s : Swap.wf sw -> service_inv s -> service_inv (set_swap sw s).
Proof. intros Hw [Hf _]. by split. Qed.
Lemma set_mmu_inv u s : service_inv s -> service_inv (set_mmu u s).
Proof. by intros [Hf Hs]. Qed.
Lemma set_tables_inv u s : service_inv s -> service_inv (set_tables u s).
Proof. by intros [Hf Hs]. Qed.
Lemma set_swapped_inv u s : service_inv s -> service_inv (set_swapped u s).
Proof. by intros [Hf Hs]. Qed.

Lemma swap_out_wf sw n data sw' r : Swap.wf sw -> Swap.swap_out sw n data = (sw', r) -> Swap.wf sw'.
Proof.
  intros Hw. unfold Swap.swap_out. destruct (Swap.swap_out_loop _ _ _ _) as [d r']. intros [= <- _]. exact Hw.
Qed.

Create HintDb service.
#[export] Hint Resolve set_mmu_inv set_tables_inv set_swapped_inv set_swap_inv : service.

Lemma process_slots_total s pid :
  Swap.wf s -> exists sls, Swap.get_process_slots s pid = Done sls.
Proof.
  intros Hs. unfold Swap.get_process_slots. destruct (Swap.process_slots s !! pid) as [ns|] eqn:E; [|by eexists].
  destruct (Swap.lookup_slots_owned s pid ns Hs) as (sls & H & _); [|by exists sls].
  pose proof Hs as (_ & _ & _ & _ & _ & _ & Hl). intros n Hn. apply (proj2 (Hl pid)).
  unfold Swap.slots_of. by rewrite E.
Qed.

Lemma map_fresh_spec dl pid v f : spec dl (map_fresh true pid v f) answers.
Proof.
  apply spec_bind; [apply spec_update; [by auto with service|done]|intros ?; by apply spec_respond|].
  intros ?. by cbn; lia.
Qed.

(** One step of a [spec] proof, by the shape of the handler. *)
Ltac spec_step :=
  lazymatch goal with
  | |- spec _ (get ≫= _) _ => apply spec_get; intros ? [? ?]
  | |- spec _ (lift (Swap.allocate_slot ?s ?p ?v) ≫= _) _ =>
      let E := fresh in
      destruct (Swap.allocate_slot_wf s p v) as (? & ? & E & ?); [done|];
      eapply spec_lift; [exact E|]; clear E
  | |- spec _ (lift (Swap.free_slot ?s ?n) ≫= _) _ =>
      let E := fresh in
      destruct (Swap.free_slot_wf s n) as (? & ? & E & ? & _); [done|];
      eapply spec_lift; [exact E|]; clear E
  | |- spec _ (lift (Swap.get_process_slots ?s ?p) ≫= _) _ =>
      let E := fresh in
      destruct (process_slots_total s p) as (? & E); [done|];
      eapply spec_lift; [exact E|]; clear E
  | |- spec _ (respond _ _ ≫= _) _ => apply spec_respond_then
  | |- spec _ (respond_or_fail _ _ ≫= _) _ => apply spec_respond_then; cbn beta iota
  | |- spec _ (mret _ ≫= _) _ => apply spec_bind; [by apply spec_ret|intros ?|]
  | |- spec _ (throw _ ≫= _) _ => apply spec_bind; [by apply spec_throw|intros ?|]
  | |- spec _ (update _ ≫= _) _ => apply spec_bind; [apply spec_update; [by auto with service|done]|intros ?|]
  | |- spec _ (allocate_frames _ _ ≫= _) _ => apply spec_bind; [apply spec_allocate_frames|intros ?|]
  | |- spec _ (free_frame _ _ ≫= _) _ => apply spec_bind; [apply spec_free_frame|intros ?|]
  | |- spec _ (match Swap.swap_out ?s ?n ?d with _ => _ end) _ =>
      let E := fresh in
      destruct (Swap.swap_out s n d) as [? ?] eqn:E; apply swap_out_wf in E; [|done]
  | |- spec _ (map_fresh _ _ _ _ ≫= _) _ => apply spec_answer_then; [apply map_fresh_spec|intros ?|]
  | |- spec _ (map_fresh _ _ _ _) _ => apply map_fresh_spec
  | |- spec _ (match ?x with _ => _ end) _ => let E := fresh in destruct x eqn:E
  | |- spec _ (match ?x with _ => _ end ≫= _) _ => let E := fresh in destruct x eqn:E
  | |- spec _ (mret _) _ => apply spec_ret
  | |- spec _ (throw _) _ => apply spec_throw
  | |- spec _ (respond _ _) _ => apply spec_respond
  | |- spec _ (respond_or_fail _ _) _ => apply spec_respond_or_fail
  | |- spec _ (update _) _ => apply spec_update; [by auto with service|]
  end.
Ltac spec_auto := repeat (spec_step; cbn beta iota);
  try (intros; first [done | by cbn; lia]).

Lemma fault_swapped_in_spec pid v slot : spec true (fault_swapped_in true pid v slot) answered_if.
Proof.
  unfold fault_swapped_in. spec_auto.
Qed.

Lemma fault_swap_out_spec dl pid v : spec dl (fault_swap_out true pid v) answered_if.
Proof.
  unfold fault_swap_out. spec_auto.
Qed.

Lemma page_fault_step_2_spec dl pid v : spec dl
  (frames ← allocate_frames pid 1;
   match frames with
   | f :: _ => map_fresh true pid v f
   | [] =>
       answered ← fault_swap_out true pid v;
       if answered : bool then mret tt
       else _ ← respond true (Err RespResourceExhausted); throw (ResourceExhausted 0 1)
   end) answers.
Proof.
  spec_step; [|by cbn; lia]. destruct a as [|f fs]; [|apply map_fresh_spec].
  apply spec_answered_then; [apply fault_swap_out_spec|spec_auto..].
Qed.

(** the requests that the page-fault handler serves from the swap device *)
Definition faults_on_swapped (s : MemoryService) (req : MemoryRequest) : bool :=
  match req with
  | PageFaultHandler pid a _ => bool_decide (is_Some (swapped_pages s !! pid ≫= (.!! page_base a)))
  | _ => false
  end.

Lemma handle_page_fault_spec pid a acc s rs :
  service_inv s ->
  match handle_page_fault_with_response true pid a acc (s, rs) with
  | Done (s', rs', r) => service_inv s' /\ exists extra, rs' = rs ++ extra /\ answers r (length extra)
  | Panicked => False
  | Deadlocked => faults_on_swapped s (PageFaultHandler pid a acc) = true
  end.
Proof.
  intros Hs. unfold faults_on_swapped, handle_page_fault_with_response. rewrite HM_bind_eq. cbn [get fst].
  destruct (swapped_pages s !! pid ≫= (.!! page_base a)) as [slot|].
  - rewrite bool_decide_true by done.
    refine (spec_answered_then true _ _ _ (fault_swapped_in_spec _ _ _) _ _ _ s rs Hs); [spec_auto| |spec_auto].
    apply page_fault_step_2_spec.
  - rewrite bool_decide_false by by intros [? ?].
    refine (spec_answered_then false (mret false) _ answers _ _ _ _ s rs Hs); [spec_auto|spec_auto| |spec_auto].
    apply page_fault_step_2_spec.
Qed.

(** the handlers without a response *)
Definition quiet (r : result ServiceError unit) (k : nat) : Prop := k = 0%nat.

Lemma handle_map_page_spec pid v p prot : spec false (handle_map_page pid v p prot) quiet.
Proof. unfold handle_map_page. spec_auto. Qed.

Lemma handle_memory_request_spec req : spec false (handle_memory_request req) quiet.
Proof.
  destruct req; cbn [handle_memory_request]; try apply handle_map_page_spec;
    try (unfold handle_alloc_frame, handle_free_frame, handle_unmap_page, handle_swap_out, handle_swap_in;
         by spec_auto).
  unfold handle_page_fault. spec_step. spec_step; [spec_step; [spec_auto|]|spec_auto].
  spec_step; [|done]. destruct a; [spec_auto|apply handle_map_page_spec].
Qed.

Lemma handle_request_with_response_spec req s rs :
  service_inv s ->
  match handle_memory_request_with_response true req (s, rs) with
  | Done (s', rs', r) => service_inv s' /\ exists extra, rs' = rs ++ extra /\ answers r (length extra)
  | Panicked => False
  | Deadlocked => faults_on_swapped s req = true
  end.
Proof.
  intros Hs.
  assert (Hspec : forall m : H unit, spec false m answers ->
    match m (s, rs) with
    | Done (s', rs', r) => service_inv s' /\ exists extra, rs' = rs ++ extra /\ answers r (length extra)
    | Panicked => False
    | Deadlocked => faults_on_swapped s req = true
    end).
  { intros m Hm. specialize (Hm s rs Hs). by destruct (m (s, rs)). }
  destruct req; cbn [handle_memory_request_with_response];
    try (by apply handle_page_fault_spec); apply Hspec;
    unfold handle_alloc_frame_with_response, handle_free_frame_with_response, handle_map_page_with_response,
      handle_unmap_page_with_response, handle_swap_out_with_response, handle_swap_in_with_response,
      handle_get_stats, handle_get_frame_map; by spec_auto.
Qed.

(** ** What a page fault does to the mappings *)

(** the service as it is built: 4 KB frames and pages, all inside the address space *)
Definition service_wf (s : MemoryService) : Prop :=
  FrameAlloc.pmm_wf (memory_manager s) /\
  FrameAlloc.frame_size (FrameAlloc.allocator (memory_manager s)) = 4096 /\
  FrameAlloc.total_frames (FrameAlloc.allocator (memory_manager s)) * 4096 <= 2 ^ 64 /\
  Mmu.wf (mmu s) /\ Mmu.page_size (mmu s) = 4096 /\ Swap.wf (swap_manager s).

Lemma service_wf_inv s : service_wf s -> service_inv s.
Proof. by intros ([? _] & _ & _ & _ & _ & ?). Qed.

Lemma new_wf hw u image s :
  PhysMem.size hw < 2 ^ 64 -> Mmu.wf u -> Mmu.page_size u = 4096 -> new hw u image = Done s -> service_wf s.
Proof.
  intros Hsz Hu Hps. unfold new. destruct (FrameAlloc.pmm_new (PhysMem.size hw) 4096) as [mm| |] eqn:Em; try done.
  cbn [mbind outcome_bind]. destruct (Disk.new 256 image) as [d| |]; try done. cbn [mbind outcome_bind].
  destruct (Swap.new Swap.SwapConfig_default d) as [sw| |] eqn:Es; try done. cbn [mbind outcome_bind]. intros [= <-].
  unfold service_wf. cbn [memory_manager mmu swap_manager].
  pose proof (FrameAlloc.pmm_new_wf _ _ _ Hsz Em) as Hm. injection Em as <-. cbn.
  split_and!; [exact Hm|done| |done|done|by refine (Swap.swap_new_wf Swap.SwapConfig_default d sw _ Es)].
  pose proof (N.Div0.mul_div_le (PhysMem.size hw) 4096). lia.
Qed.

Lemma page_base_align u a : Mmu.page_size u = 4096 -> Mmu.align_down u a = page_base a.
Proof. intros H. unfold Mmu.align_down, page_base. by rewrite H. Qed.

Lemma map_fresh_translate u pid a p :
  Mmu.wf u -> Mmu.page_size u = 4096 -> a < 2 ^ 64 -> p < 2 ^ 64 -> p mod 4096 = 0 ->
  let u' := Mmu.map_page u pid (page_base a) p (rw_flags true) in
  Mmu.wf u' /\ Mmu.page_size u' = 4096 /\
  (forall acc, Mmu.translate u' pid a acc = Ok (p + a mod 4096)) /\
  (forall pid' v' acc, pid' <> pid \/ page_base v' <> page_base a -> Mmu.page_tables u !! pid' <> None ->
     Mmu.translate u' pid' v' acc = Mmu.translate u pid' v' acc).
Proof.
  intros Hu Hps Ha Hp Hal u'.
  pose proof (Mmu.align_down_page u a Hu Ha) as (Hmod & _ & _ & Hlt).
  pose proof (Mmu.align_down_aligned u p Hu Hp) as Hpa.
  pose proof (Mmu.align_down_aligned u _ Hu Hlt Hmod) as Haa.
  pose proof (Mmu.align_down_spec u a Hu Ha) as Hsp.
  rewrite !(page_base_align u) in * by done. rewrite Hps in *. specialize (Hpa Hal).
  pose proof (fun acc => Mmu.map_page_spec u pid (page_base a) p (rw_flags true) acc Hu Hlt Hp) as H.
  cbn zeta in H. rewrite !(page_base_align u) in H by done. rewrite Haa, Hpa, Hps in H.
  split_and!; [by apply Mmu.map_page_wf|done| |].
  - intros acc. destruct (H acc) as (H1 & _ & _).
    pose proof (N.mod_lt a 4096 ltac:(done)). pose proof (N.Div0.mod_le a 4096).
    destruct (H1 (a mod 4096)) as [E _]; [done|done|by right|].
    by replace (page_base a + a mod 4096) with a in E by lia.
  - intros pid' v' acc Hd. destruct (H acc) as (_ & _ & H3). specialize (H3 pid' v').
    rewrite (page_base_align u) in H3 by done. by apply H3.
Qed.

Lemma total_frames_kept a a' n f :
  FrameAlloc.wf a -> FrameAlloc.wf a' -> FrameAlloc.frames a' = <[n := f]> (FrameAlloc.frames a) ->
  FrameAlloc.total_frames a' = FrameAlloc.total_frames a.
Proof. intros (-> & _) (-> & _) ->. by rewrite length_insert. Qed.

Lemma allocate_frames_eq pid c s rs mm fs :
  FrameAlloc.allocate_frames (memory_manager s) pid c = Done (mm, fs) ->
  allocate_frames pid c (s, rs) = Done ((set_manager mm s, rs), Ok fs).
Proof. intros E. unfold allocate_frames, get, lift, update. rewrite !HM_bind_eq. cbn [fst]. by rewrite E. Qed.

Lemma free_frame_eq pid n s rs mm b :
  FrameAlloc.free_frame (memory_manager s) pid n = Done (mm, b) ->
  free_frame pid n (s, rs) = Done ((set_manager mm s, rs), Ok b).
Proof. intros E. unfold free_frame, get, lift, update. rewrite !HM_bind_eq. cbn [fst]. by rewrite E. Qed.

(** Taking one frame when one is free. *)
Lemma allocate_one_frame pid s :
  service_wf s -> 0 < FrameAlloc.free_count (FrameAlloc.allocator (memory_manager s)) ->
  exists mm n f, FrameAlloc.allocate_frames (memory_manager s) pid 1 = Done (mm, [FrameAlloc.Frame_allocate pid f]) /\
    service_wf (set_manager mm s) /\
    FrameAlloc.frames (FrameAlloc.allocator (memory_manager s)) !! N.to_nat n = Some f /\
    FrameAlloc.allocated f = false /\ FrameAlloc.address f = n * 4096 /\ n * 4096 < 2 ^ 64 /\
    FrameAlloc.frames (FrameAlloc.allocator mm) =
      <[N.to_nat n := FrameAlloc.Frame_allocate pid f]> (FrameAlloc.frames (FrameAlloc.allocator (memory_manager s))).
Proof.
  intros (Hm & Hfs & Htot & Hu & Hps & Hsw) Hc.
  destruct (FrameAlloc.allocate_one (memory_manager s) pid Hm Hc) as (n & f & mm & Hf & Hal & Hn & E & Hm' & Hfr & Hsz).
  pose proof Hm as [(Ht & _ & Hshape & _) _]. destruct (Hshape _ _ Hf) as (_ & Haddr & _).
  pose proof (lookup_lt_Some _ _ _ Hf). rewrite Hfs, N2Nat.id in Haddr.
  exists mm, n, f. split; [done|]. split; [|split_and!; [done|done|done|lia|done]].
  unfold service_wf. cbn [set_manager memory_manager mmu swap_manager].
  split_and!; try done; [congruence|].
  by rewrite (total_frames_kept _ _ _ _ (proj1 Hm) (proj1 Hm') Hfr).
Qed.

(** The answer of [map_fresh], and the service after it. *)
Lemma map_fresh_result connected pid a n f s rs :
  service_wf s -> a < 2 ^ 64 -> n * 4096 < 2 ^ 64 -> FrameAlloc.address f = n * 4096 ->
  exists u, map_fresh connected pid (page_base a) f (s, rs) =
      Done ((set_mmu u s, if connected then rs ++ [Ok (PhysicalAddr (n * 4096))] else rs), Ok tt) /\
    service_wf (set_mmu u s) /\ Mmu.memory u = Mmu.memory (mmu s) /\
    (forall acc, Mmu.translate u pid a acc = Ok (n * 4096 + a mod 4096)) /\
    (forall pid' v' acc, pid' <> pid \/ page_base v' <> page_base a -> Mmu.page_tables (mmu s) !! pid' <> None ->
       Mmu.translate u pid' v' acc = Mmu.translate (mmu s) pid' v' acc).
Proof.
  intros (Hm & Hfs & Htot & Hu & Hps & Hsw) Ha Hn Haddr.
  destruct (map_fresh_translate (mmu s) pid a (n * 4096) Hu Hps Ha Hn) as (Hu' & Hps' & Htr & Hother);
    [apply N.Div0.mod_mul|].
  eexists. split; [unfold map_fresh; rewrite HM_bind_eq, Haddr; reflexivity|].
  split_and!; [|done|done|done]. unfold service_wf. by split_and!.
Qed.

(** Property: a page fault on a page that is not on the swap device, while a frame is
    free, maps the page at a frame that nobody owned; the frame belongs to the
    process afterwards, every access to the faulting address translates into it
    whatever the access was, all other pages translate as before, memory is
    untouched and the requester is sent the frame's address. *)
Theorem page_fault_maps_free_frame connected pid a acc s rs :
  service_wf s -> a < 2 ^ 64 -> swapped_pages s !! pid ≫= (.!! page_base a) = None ->
  0 < FrameAlloc.free_count (FrameAlloc.allocator (memory_manager s)) ->
  exists s' n f f', handle_page_fault_with_response connected pid a acc (s, rs) =
      Done ((s', if connected then rs ++ [Ok (PhysicalAddr (n * 4096))] else rs), Ok tt) /\
    service_wf s' /\
    FrameAlloc.frames (FrameAlloc.allocator (memory_manager s)) !! N.to_nat n = Some f /\
    FrameAlloc.allocated f = false /\
    FrameAlloc.frames (FrameAlloc.allocator (memory_manager s')) !! N.to_nat n = Some f' /\
    FrameAlloc.owner f' = Some pid /\
    (forall acc', Mmu.translate (mmu s') pid a acc' = Ok (n * 4096 + a mod 4096)) /\
    (forall pid' v' acc', pid' <> pid \/ page_base v' <> page_base a -> Mmu.page_tables (mmu s) !! pid' <> None ->
       Mmu.translate (mmu s') pid' v' acc' = Mmu.translate (mmu s) pid' v' acc') /\
    Mmu.memory (mmu s') = Mmu.memory (mmu s).
Proof.
  intros Hs Ha Hnsw Hc.
  destruct (allocate_one_frame pid s Hs Hc) as (mm & n & f & E & Hs1 & Hf & Hal & Haddr & Hn & Hfr).
  destruct (map_fresh_result connected pid a n (FrameAlloc.Frame_allocate pid f) _ rs Hs1 Ha Hn Haddr)
    as (u & E2 & Hs2 & Hmem & Htr & Ho).
  eexists _, n, f, (FrameAlloc.Frame_allocate pid f). split.
  { unfold handle_page_fault_with_response. rewrite HM_bind_eq. cbn [get fst]. rewrite Hnsw.
    rewrite !HM_bind_eq. cbn [mret HM_ret]. rewrite HM_bind_eq, (allocate_frames_eq _ _ _ _ _ _ E). exact E2. }
  split_and!; [exact Hs2|done|done| |done|exact Htr|exact Ho|exact Hmem].
  cbn [memory_manager set_mmu set_manager]. rewrite Hfr. apply list_lookup_insert_eq. by eapply lookup_lt_Some.
Qed.

(** Property: a page that was swapped out never comes back.  When a process faults on a
    page recorded as swapped out, the page can be read from the device and a
    frame is free, the handler restores the page and then takes the lock of the
    swapped-page table that it already holds: the service thread blocks for
    ever and no request is answered any more. *)
Theorem swapped_page_fault_deadlocks connected pid a acc slot data s rs :
  service_wf s -> swapped_pages s !! pid ≫= (.!! page_base a) = Some slot ->
  Swap.swap_in (swap_manager s) slot = Ok data ->
  0 < FrameAlloc.free_count (FrameAlloc.allocator (memory_manager s)) ->
  handle_page_fault_with_response connected pid a acc (s, rs) = Deadlocked.
Proof.
  intros Hs Hsl Hin Hc. destruct (allocate_one_frame pid s Hs Hc) as (mm & n & f & E & _).
  unfold handle_page_fault_with_response. rewrite HM_bind_eq. cbn [get fst]. rewrite Hsl, HM_bind_eq.
  unfold fault_swapped_in. rewrite HM_bind_eq. cbn [get fst]. by rewrite Hin, HM_bind_eq, (allocate_frames_eq _ _ _ _ _ _ E).
Qed.

(** ** Swapping a page out to serve a fault *)

Lemma find_victim_page_mapped u pid vpid vaddr vframe :
  find_victim_page u pid = Some (vpid, vaddr, vframe) ->
  exists t e, Mmu.page_tables u !! vpid = Some t /\ t !! vaddr = Some e /\
    Mmu.frame e = vframe /\ Mmu.is_present e = true.
Proof.
  intros H. assert (Hin : (vpid, vaddr, vframe) ∈ Mmu.all_present_pages u).
  { unfold find_victim_page in H. destruct (list_find _ _) as [[i x]|] eqn:E.
    - injection H as ->. apply list_find_Some in E as (E & _). by eapply list_elem_of_lookup_2.
    - by apply head_Some_elem_of in H. }
  unfold Mmu.all_present_pages in Hin.
  apply list_elem_of_bind in Hin as ([p t] & Hin & Ht%elem_of_map_to_list).
  apply list_elem_of_bind in Hin as ([v e] & Hin & He%elem_of_map_to_list).
  destruct (Mmu.present (Mmu.flags e)) eqn:Hp; [|by apply elem_of_nil in Hin].
  apply list_elem_of_singleton in Hin as [= -> -> ->]. by exists t, e.
Qed.

Lemma length_page_bytes u pid v : length (page_bytes u pid v) = 4096%nat.
Proof. unfold page_bytes. by rewrite length_fmap, length_seq. Qed.

Lemma allocate_no_frame pid s rs :
  service_wf s -> FrameAlloc.free_count (FrameAlloc.allocator (memory_manager s)) = 0 ->
  allocate_frames pid 1 (s, rs) = Done ((s, rs), Ok []).
Proof.
  intros (Hm & _) Hc. unfold allocate_frames, get, lift, update. rewrite !HM_bind_eq. cbn [fst].
  rewrite (FrameAlloc.allocate_none _ pid Hm Hc). cbn [mbind outcome_bind]. by destruct s.
Qed.

(** A free slot that lies on the device takes a page and gives it back. *)
Lemma swap_victim sw vpid v data n q :
  Swap.wf sw -> Swap.enabled sw = true -> Swap.free_queue sw = n :: q ->
  n * 8 + 8 <= Disk.total_sectors (Swap.disk sw) -> Disk.total_sectors (Swap.disk sw) < 2 ^ 32 ->
  length data = 4096%nat ->
  exists sl sw1 sw2, Swap.allocate_slot sw vpid v = Done (sw1, Some sl) /\ Swap.number sl = n /\
    Swap.swap_out sw1 n data = (sw2, Ok tt) /\ Swap.wf sw2 /\ Swap.swap_in sw2 n = Ok data.
Proof.
  intros Hw Hen Hq Hn Ht Hd.
  destruct (Swap.allocate_slot_spec sw vpid v n q Hw Hen Hq) as (sl & sw1 & _ & _ & E & Hw1 & _ & Hnum & Hdisk).
  rewrite <- Hdisk in Hn, Ht.
  pose proof (Swap.swap_out_spec sw1 n data Hn Ht ltac:(lia)) as H.
  destruct (Swap.swap_out sw1 n data) as [sw2 r] eqn:Eo. destruct H as (-> & Hin & _).
  rewrite Hd in Hin. change (replicate (4096 - 4096) 0) with (@nil N) in Hin. rewrite app_nil_r in Hin.
  eexists _, sw1, sw2. split_and!; [exact E|done|done| |done]. by eapply swap_out_wf.
Qed.

(** Giving the victim's frame back and taking it for the faulting process. *)
Lemma reuse_victim_frame vpid pid k f s :
  service_wf s -> FrameAlloc.free_count (FrameAlloc.allocator (memory_manager s)) = 0 ->
  FrameAlloc.frames (FrameAlloc.allocator (memory_manager s)) !! N.to_nat k = Some f ->
  FrameAlloc.owner f = Some vpid ->
  exists mm1 mm2 g, FrameAlloc.free_frame (memory_manager s) vpid k = Done (mm1, true) /\
    FrameAlloc.allocate_frames mm1 pid 1 = Done (mm2, [g]) /\
    service_wf (set_manager mm2 s) /\ FrameAlloc.address g = k * 4096 /\ k * 4096 < 2 ^ 64 /\
    FrameAlloc.owner g = Some pid /\ FrameAlloc.frames (FrameAlloc.allocator mm2) !! N.to_nat k = Some g.
Proof.
  intros (Hm & Hfs & Htot & Hu & Hps & Hsw) Hc Hf Ho.
  destruct (FrameAlloc.free_frame_wf _ vpid k f Hm Hf Ho) as (mm1 & E & Hm1 & Hfr & Hc1).
  pose proof (FrameAlloc.free_frame_size _ _ _ _ _ E) as Hfs1.
  assert (Hs1 : service_wf (set_manager mm1 s)).
  { unfold service_wf. cbn [set_manager memory_manager mmu swap_manager]. split_and!; try done; [congruence|].
    by rewrite (total_frames_kept _ _ _ _ (proj1 Hm) (proj1 Hm1) Hfr). }
  destruct (allocate_one_frame pid _ Hs1) as (mm2 & n & f2 & E2 & Hs2 & Hf2 & Hal & Haddr & Hn & Hfr2);
    [cbn [set_manager memory_manager]; lia|].
  cbn [set_manager memory_manager] in E2, Hf2, Hfr2.
  assert (Hnk : N.to_nat n = N.to_nat k).
  { destruct (decide (N.to_nat n = N.to_nat k)) as [|Hne]; [done|].
    rewrite Hfr, list_lookup_insert_ne in Hf2 by done.
    pose proof (FrameAlloc.none_free _ _ _ (proj1 Hm) Hc Hf2). congruence. }
  assert (n = k) as -> by lia.
  exists mm1, mm2, (FrameAlloc.Frame_allocate pid f2). split_and!; try done.
  rewrite Hfr2. apply list_lookup_insert_eq. by eapply lookup_lt_Some.
Qed.

(** the state when the freed frame has been taken again *)
Definition after_swap_out (s : MemoryService) mm sw u swapped : MemoryService :=
  {| memory_manager := mm; page_tables := page_tables s; swap_manager := sw; mmu := u; swapped_pages := swapped |}.

Lemma fault_swap_out_run connected pid v s rs vpid vaddr vframe q sl sw1 sw2 u mm1 mm2 g k :
  find_victim_page (mmu s) pid = Some (vpid, vaddr, vframe) ->
  Swap.allocate_slot (swap_manager s) vpid (vaddr / 4096) = Done (sw1, Some sl) -> Swap.number sl = q ->
  Swap.swap_out sw1 q (page_bytes (mmu s) vpid vaddr) = (sw2, Ok tt) ->
  Mmu.unmap_page (mmu s) vpid vaddr = Ok u ->
  vframe / 4096 = k -> FrameAlloc.free_frame (memory_manager s) vpid k = Done (mm1, true) ->
  FrameAlloc.allocate_frames mm1 pid 1 = Done (mm2, [g]) ->
  fault_swap_out connected pid v (s, rs) =
    (_ ← map_fresh connected pid v g; mret true)
      (after_swap_out s mm2 sw2 u
         (<[vpid := <[vaddr := q]> (default ∅ (swapped_pages s !! vpid))]> (swapped_pages s)), rs).
Proof.
  intros Hv Hal Hq Hout Hun Hk Hfr Hag. unfold fault_swap_out. rewrite HM_bind_eq. cbn [get fst].
  rewrite Hv, HM_bind_eq, Hal. cbn [lift mbind outcome_bind]. rewrite HM_bind_eq. cbn [update].
  rewrite Hq, Hout, HM_bind_eq. cbn [update]. rewrite HM_bind_eq. cbn [update set_swap mmu]. rewrite Hun, HM_bind_eq, Hk.
  rewrite (free_frame_eq _ _ _ _ mm1 true) by exact Hfr. rewrite HM_bind_eq. cbn [update]. rewrite HM_bind_eq.
  rewrite (allocate_frames_eq _ _ _ _ mm2 [g]) by exact Hag. reflexivity.
Qed.

(** C14: serving a fault by swapping.  With no frame free, a victim page whose
    frame its process owns and a free slot on the device, the victim's bytes are
    on the device under a slot recorded for that page, the victim is unmapped,
    and the faulting page is mapped at the victim's frame, now owned by the
    faulting process, whose requester is sent the frame's address. *)
Theorem page_fault_swaps_victim_out connected pid a acc s rs vpid vaddr vframe f n q :
  service_wf s -> a < 2 ^ 64 -> vaddr < 2 ^ 64 -> swapped_pages s !! pid ≫= (.!! page_base a) = None ->
  FrameAlloc.free_count (FrameAlloc.allocator (memory_manager s)) = 0 ->
  find_victim_page (mmu s) pid = Some (vpid, vaddr, vframe) ->
  FrameAlloc.frames (FrameAlloc.allocator (memory_manager s)) !! N.to_nat (vframe / 4096) = Some f ->
  FrameAlloc.owner f = Some vpid ->
  Swap.enabled (swap_manager s) = true -> Swap.free_queue (swap_manager s) = n :: q ->
  n * 8 + 8 <= Disk.total_sectors (Swap.disk (swap_manager s)) ->
  Disk.total_sectors (Swap.disk (swap_manager s)) < 2 ^ 32 ->
  exists s' f', handle_page_fault_with_response connected pid a acc (s, rs) =
      Done ((s', if connected then rs ++ [Ok (PhysicalAddr (vframe / 4096 * 4096))] else rs), Ok tt) /\
    service_wf s' /\
    Swap.swap_in (swap_manager s') n = Ok (page_bytes (mmu s) vpid vaddr) /\
    swapped_pages s' !! vpid ≫= (.!! vaddr) = Some n /\
    FrameAlloc.frames (FrameAlloc.allocator (memory_manager s')) !! N.to_nat (vframe / 4096) = Some f' /\
    FrameAlloc.owner f' = Some pid /\
    (forall acc', Mmu.translate (mmu s') pid a acc' = Ok (vframe / 4096 * 4096 + a mod 4096)) /\
    (forall acc', vpid <> pid \/ page_base vaddr <> page_base a ->
       Mmu.translate (mmu s') vpid vaddr acc' = Err (Mmu.PageNotPresent vpid vaddr)).
Proof.
  intros Hs Ha Hva Hnsw Hc Hv Hf Ho Hen Hq Hn Ht. pose proof Hs as (_ & _ & _ & Hu & Hps & Hsw).
  destruct (swap_victim (swap_manager s) vpid (vaddr / 4096) (page_bytes (mmu s) vpid vaddr) n q Hsw Hen Hq Hn Ht)
    as (sl & sw1 & sw2 & Eal & Enum & Eout & Hsw2 & Hin); [apply length_page_bytes|].
  destruct (reuse_victim_frame vpid pid _ f s Hs Hc Hf Ho) as (mm1 & mm2 & g & Efr & Eag & Hs2 & Haddr & Hk & Hog & Hg).
  destruct (find_victim_page_mapped _ _ _ _ _ Hv) as (t & e & Htab & _).
  destruct (Mmu.unmap_page (mmu s) vpid vaddr) as [u|] eqn:Eun;
    [|unfold Mmu.unmap_page in Eun; by rewrite Htab in Eun].
  pose proof (Mmu.unmap_page_wf _ _ _ _ Hu Eun) as Hu'.
  pose proof (fun acc' => Mmu.unmap_page_spec (mmu s) vpid vaddr acc' Hu Hva) as Hunmap. rewrite Eun in Hunmap.
  assert (Hps' : Mmu.page_size u = 4096 /\ Mmu.page_tables u !! vpid <> None).
  { unfold Mmu.unmap_page in Eun. rewrite Htab in Eun. injection Eun as <-. split; [done|].
    cbn [Mmu.page_tables Mmu.set_page_tables]. by rewrite lookup_insert_eq. }
  destruct Hps' as [Hps' Htu].
  set (s1 := after_swap_out s mm2 sw2 u (<[vpid := <[vaddr := n]> (default ∅ (swapped_pages s !! vpid))]> (swapped_pages s))).
  assert (Hs1 : service_wf s1) by (destruct Hs2 as (?&?&?&_); by split_and!).
  destruct (map_fresh_result connected pid a _ g s1 rs Hs1 Ha Hk Haddr) as (u2 & E2 & Hs3 & _ & Htr & Hother).
  exists (set_mmu u2 s1), g. split.
  { unfold handle_page_fault_with_response. rewrite HM_bind_eq. cbn [get fst]. rewrite Hnsw.
    rewrite HM_bind_eq. cbn [mret HM_ret]. rewrite HM_bind_eq, (allocate_no_frame _ _ _ Hs Hc), HM_bind_eq.
    rewrite (fault_swap_out_run _ _ _ _ _ _ _ _ _ _ _ _ _ _ _ _ _ Hv Eal Enum Eout Eun eq_refl Efr Eag).
    fold s1. by rewrite HM_bind_eq, E2. }
  split_and!; [done|exact Hin| |exact Hg|done|exact Htr|].
  - cbn [swapped_pages set_mmu s1 after_swap_out]. rewrite lookup_insert_eq. cbn [mbind option_bind].
    by rewrite lookup_insert_eq.
  - intros acc' Hd. cbn [mmu set_mmu]. rewrite Hother by done. by apply Hunmap.
Qed.


Lemma envelope_answered (expects_response : bool) req s rs :
  service_inv s ->
  match handle_envelope true expects_response req (s, rs) with
  | Done (s', rs', _) =>
      service_inv s' /\ exists extra, rs' = rs ++ extra /\
        if expects_response then (1 <= length extra <= 2)%nat else extra = []
  | Panicked => False
  | Deadlocked => expects_response = true /\ faults_on_swapped s req = true
  end.
Proof.
  intros Hs. unfold handle_envelope. destruct expects_response.
  - pose proof (handle_request_with_response_spec req s rs Hs) as H.
    destruct (handle_memory_request_with_response true req (s, rs)) as [[[s' rs'] [a|e]]| |]; try done;
      destruct H as (Hs' & ex & -> & Hex); cbn [answers] in Hex; split; try done.
    + exists ex. split; [done|lia].
    + exists (ex ++ [Err (RespOther 1)]). rewrite length_app. cbn [length]. split; [by rewrite app_assoc|lia].
  - pose proof (handle_memory_request_spec req s rs Hs) as H.
    destruct (handle_memory_request req (s, rs)) as [[[s' rs'] [a|e]]| |]; try done;
      destruct H as (Hs' & ex & -> & Hex); apply nil_length_inv in Hex as ->; by (split; [done|by exists []]).
Qed.

(** C6: every request is answered.  Handling a request whose sender waits
    for the response never panics and keeps the frame and slot bookkeeping
    well-formed; the sender gets one response, or two when the handler fails
    after it has answered.  The only request that is not handled is a page fault
    on a page in the swapped-page table, where the thread may deadlock on
    itself.  A request without response sends nothing and always completes. *)
Theorem every_request_answered (expects_response : bool) req s rs :
  service_inv s ->
  match handle_envelope true expects_response req (s, rs) with
  | Done (s', rs', _) =>
      service_inv s' /\ exists extra, rs' = rs ++ extra /\
        if expects_response then (1 <= length extra <= 2)%nat else extra = []
  | Panicked => False
  | Deadlocked => expects_response = true /\ faults_on_swapped s req = true
  end.
Proof. apply envelope_answered. Qed.

(** Property: a frame released on request stays in its owner's list.  The handler
    frees for process 0 whoever owns the frame, so the frame of a process with
    another identifier is free afterwards while the list of that process still
    names it; the next allocation may give it to somebody else. *)
Theorem free_frame_leaves_stale_entry connected a f pid s rs :
  FrameAlloc.pmm_wf (memory_manager s) ->
  FrameAlloc.frames (FrameAlloc.allocator (memory_manager s)) !! N.to_nat (a / FRAME_SIZE) = Some f ->
  FrameAlloc.owner f = Some pid -> pid <> 0 ->
  exists s' rs' r, handle_free_frame_with_response connected a (s, rs) = Done ((s', rs'), r) /\
    FrameAlloc.frames (FrameAlloc.allocator (memory_manager s')) !! N.to_nat (a / FRAME_SIZE) =
      Some (FrameAlloc.Frame_free f) /\
    a / FRAME_SIZE ∈ default [] (FrameAlloc.process_frames (memory_manager s') !! pid) /\
    ~ FrameAlloc.pmm_wf (memory_manager s').
Proof.
  intros Hm Hf Ho Hp. pose proof Hm as [Hw Hl]. pose proof Hw as (Ht & _ & Hshape & _).
  destruct (Hshape _ _ Hf) as (Hnum & _ & _ & Hal). rewrite Ho, bool_decide_true in Hal by done. rewrite N2Nat.id in Hnum.
  pose proof (lookup_lt_Some _ _ _ Hf) as Hlt.
  destruct (FrameAlloc.free_allocated _ (a / FRAME_SIZE) f Hw ltac:(lia) Hf Hal) as (al & E & _ & Hfr & _).
  set (pf := match FrameAlloc.process_frames (memory_manager s) !! 0 with
             | Some l => <[0 := FrameAlloc.remove_first (a / FRAME_SIZE) l]> (FrameAlloc.process_frames (memory_manager s))
             | None => FrameAlloc.process_frames (memory_manager s) end).
  set (mm := {| FrameAlloc.allocator := al; FrameAlloc.process_frames := pf |}).
  assert (Efr : FrameAlloc.free_frame (memory_manager s) 0 (a / FRAME_SIZE) = Done (mm, true))
    by (unfold FrameAlloc.free_frame; by rewrite E).
  assert (Hnew : FrameAlloc.frames al !! N.to_nat (a / FRAME_SIZE) = Some (FrameAlloc.Frame_free f))
    by (rewrite Hfr; by apply list_lookup_insert_eq).
  assert (Hin : a / FRAME_SIZE ∈ default [] (pf !! pid)).
  { assert (pf !! pid = FrameAlloc.process_frames (memory_manager s) !! pid) as ->.
    { unfold pf. destruct (FrameAlloc.process_frames (memory_manager s) !! 0); [|done]. by apply lookup_insert_ne. }
    rewrite (Hl pid). apply list_elem_of_fmap. exists f. split; [done|]. apply list_elem_of_In, filter_In.
    split; [by apply list_elem_of_In; eapply list_elem_of_lookup_2|]. unfold FrameAlloc.owned_by.
    by apply bool_decide_eq_true. }
  assert (Hbad : ~ FrameAlloc.pmm_wf mm).
  { intros [Hw' Hl']. change pf with (FrameAlloc.process_frames mm) in Hin. rewrite (Hl' pid) in Hin. apply list_elem_of_fmap in Hin as (g & Hn & Hg).
    apply list_elem_of_In, filter_In in Hg as [Hg Hown]. apply list_elem_of_In, list_elem_of_lookup_1 in Hg as (i & Hi).
    pose proof Hw' as (_ & _ & Hs' & _). destruct (Hs' _ _ Hi) as (Hni & _).
    assert (N.to_nat (a / FRAME_SIZE) = i) as Hieq by lia. cbn [FrameAlloc.allocator mm] in Hi. rewrite Hieq in Hnew.
    rewrite Hnew in Hi. injection Hi as <-. unfold FrameAlloc.owned_by in Hown. by apply bool_decide_eq_true in Hown. }
  unfold handle_free_frame_with_response. rewrite HM_bind_eq, (free_frame_eq _ _ _ _ mm true Efr).
  unfold respond_or_fail. rewrite HM_bind_eq. cbn [respond]. destruct connected; by eexists _, _, _.
Qed.

(** ** Witnesses: two frames, no page mapped; and the same with both frames taken *)

Definition demo_memory : PhysMem.PhysicalMemory :=
  {| PhysMem.data := replicate (N.to_nat 8192) 0; PhysMem.size := 8192 |}.

Definition demo_service (mem : PhysMem.PhysicalMemory) (d : Disk.VirtualDisk) : outcome MemoryService :=
  mm ← FrameAlloc.pmm_new 8192 4096;
  sw ← Swap.new Swap.demo_config d;
  Done {| memory_manager := mm; page_tables := Paging.manager_new 4096 256; swap_manager := sw;
          mmu := {| Mmu.page_tables := ∅; Mmu.memory := mem; Mmu.page_size := 4096 |};
          swapped_pages := ∅ |}.

Definition demo_full_service (mem : PhysMem.PhysicalMemory) (d : Disk.VirtualDisk) : outcome MemoryService :=
  s ← demo_service mem d;
  '(mm, _) ← FrameAlloc.allocate_frames (memory_manager s) 5 2;
  Done (set_mmu (Mmu.map_page (Mmu.map_page (mmu s) 5 0x1000 0 (rw_flags true)) 5 0x2000 4096 (rw_flags true))
          (set_manager mm s)).

Lemma demo_memory_wf : PhysMem.wf demo_memory.
Proof.
  unfold PhysMem.wf. cbn [demo_memory PhysMem.data PhysMem.size]. rewrite length_replicate, N2Nat.id.
  split_and!; [done|done|by apply Forall_replicate].
Qed.

Lemma demo_service_wf mem d s : PhysMem.wf mem -> demo_service mem d = Done s -> service_wf s.
Proof.
  intros Hmem. unfold demo_service. destruct (FrameAlloc.pmm_new 8192 4096) as [mm| |] eqn:Em; try done.
  cbn [mbind outcome_bind]. destruct (Swap.new _ _) as [sw| |] eqn:Es; try done. cbn [mbind outcome_bind].
  intros H. injection H as <-. unfold service_wf. cbn [memory_manager mmu swap_manager].
  split_and!; [by apply (FrameAlloc.pmm_new_wf 8192 4096)|by injection Em as <-|by injection Em as <-| |done|].
  - split; [by exists 12|]. split; [exact Hmem|]. intros pid t v e Ht. cbn [Mmu.page_tables] in Ht. by apply lookup_empty_Some in Ht.
  - by refine (Swap.swap_new_wf Swap.demo_config _ _ _ Es).
Qed.

Lemma demo_full_service_wf mem d s : PhysMem.wf mem -> demo_full_service mem d = Done s -> service_wf s.
Proof.
  intros Hmem. unfold demo_full_service. destruct (demo_service mem d) as [s0| |] eqn:E0; try done. cbn [mbind outcome_bind].
  destruct (FrameAlloc.allocate_frames (memory_manager s0) 5 2) as [[mm fs]| |] eqn:Ea; try done.
  cbn [mbind outcome_bind]. intros H. injection H as <-.
  destruct (demo_service_wf mem d s0 Hmem E0) as (Hm & Hfs & Htot & Hu & Hps & Hsw).
  pose proof (FrameAlloc.allocate_frames_wf _ _ _ _ _ Hm Ea) as Hm'.
  assert (E : FrameAlloc.frame_size (FrameAlloc.allocator mm) = 4096 /\ FrameAlloc.total_frames (FrameAlloc.allocator mm) = 2).
  { vm_compute in E0. injection E0 as <-. vm_compute in Ea. by injection Ea as <- _. }
  destruct E as [E1 E2]. unfold service_wf. cbn [memory_manager set_mmu set_manager mmu swap_manager].
  split_and!; [done|done|by rewrite E2| |done|done]. by repeat apply Mmu.map_page_wf.
Qed.

Lemma demo_disk_facts :
  Disk.total_sectors Swap.demo_swap_disk = 40 /\
  is_ok (Swap.swap_in_loop Swap.demo_swap_disk (Swap.slot_start 0) (Disk.range 0 8) (replicate (N.to_nat 4096) 0)) = true.
Proof. split; vm_compute; reflexivity. Qed.

Lemma every_request_answered_witness :
  exists s s' rs' r, demo_service demo_memory Swap.demo_swap_disk = Done s /\
    handle_envelope true true (AllocFrame 3 5) (s, []) = Done ((s', rs'), r) /\ (1 <= length rs' <= 2)%nat.
Proof.
  generalize demo_memory demo_memory_wf Swap.demo_swap_disk demo_disk_facts. intros mem Hmem d [_ Hd].
  destruct (demo_service mem d) as [s| |] eqn:E; [|vm_compute in E; discriminate..].
  pose proof (every_request_answered true (AllocFrame 3 5) s [] (service_wf_inv s (demo_service_wf mem d s Hmem E))) as H.
  destruct (handle_envelope true true (AllocFrame 3 5) (s, [])) as [[[s' rs'] r]| |] eqn:Eh;
    [|done|by destruct H].
  destruct H as (_ & ex & -> & Hlen). exists s, s', ex, r. split; [reflexivity|]. split; [exact Eh|exact Hlen].
Defined.

Lemma page_fault_maps_free_frame_witness :
  exists s s' rs' r n, demo_service demo_memory Swap.demo_swap_disk = Done s /\
    handle_page_fault_with_response true 7 0x1234 Write (s, []) = Done ((s', rs'), r) /\
    Mmu.translate (mmu s') 7 0x1234 Execute = Ok (n * 4096 + 0x234).
Proof.
  generalize demo_memory demo_memory_wf Swap.demo_swap_disk demo_disk_facts. intros mem Hmem d [_ Hd].
  destruct (demo_service mem d) as [s| |] eqn:E; [|vm_compute in E; discriminate..].
  destruct (page_fault_maps_free_frame true 7 0x1234 Write s [] (demo_service_wf mem d s Hmem E)) as (s' & n & f & f' & H & _ & _ & _ & _ & _ & Htr & _);
    [reflexivity|vm_compute in E; injection E as <-; reflexivity..|].
  eexists s, s', _, _, n. split; [reflexivity|]. split; [exact H|]. apply Htr.
Defined.

(** a service that swapped page 0x1000 of process 7 out to slot 0 *)
Lemma swapped_page_fault_deadlocks_witness :
  exists s, demo_service demo_memory Swap.demo_swap_disk = Done s /\
    handle_page_fault_with_response true 7 0x1234 Read
      (set_swapped {[ 7 := {[ 0x1000 := 0 ]} ]} s, []) = Deadlocked.
Proof.
  generalize demo_memory demo_memory_wf Swap.demo_swap_disk demo_disk_facts. intros mem Hmem d [_ Hd].
  destruct (demo_service mem d) as [s| |] eqn:E; [|vm_compute in E; discriminate..].
  exists s. split; [reflexivity|].
  assert (Hsw : Swap.disk (swap_manager s) = d) by (vm_compute in E; injection E as <-; reflexivity).
  rewrite <- Hsw in Hd. destruct (Swap.swap_in (swap_manager s) 0) as [data|] eqn:Ein;
    [|unfold Swap.swap_in in Ein; rewrite Ein in Hd; discriminate].
  apply (swapped_page_fault_deadlocks true 7 0x1234 Read 0 data (set_swapped {[ 7 := {[ 0x1000 := 0 ]} ]} s) []).
  - exact (demo_service_wf mem d s Hmem E).
  - reflexivity.
  - exact Ein.
  - vm_compute in E. injection E as <-. reflexivity.
Defined.

Lemma page_fault_swaps_victim_out_witness :
  exists s s' rs' r vaddr vframe, demo_full_service demo_memory Swap.demo_swap_disk = Done s /\
    find_victim_page (mmu s) 7 = Some (5, vaddr, vframe) /\
    handle_page_fault_with_response true 7 0x3234 Read (s, []) = Done ((s', rs'), r) /\
    Swap.swap_in (swap_manager s') 0 = Ok (page_bytes (mmu s) 5 vaddr) /\
    Mmu.translate (mmu s') 5 vaddr Read = Err (Mmu.PageNotPresent 5 vaddr).
Proof.
  generalize demo_memory demo_memory_wf Swap.demo_swap_disk demo_disk_facts. intros mem Hmem d [Hd _].
  destruct (demo_full_service mem d) as [s| |] eqn:E; [|vm_compute in E; discriminate..].
  pose proof (demo_full_service_wf mem d s Hmem E) as Hs. pose proof E as Es. vm_compute in Es. injection Es as Es.
  destruct (find_victim_page (mmu s) 7) as [[[p v] fr]|] eqn:Ev; [|subst s; vm_compute in Ev; discriminate].
  assert (p = 5 /\ v < 2 ^ 64 /\ page_base v <> page_base 0x3234) as (-> & Hv & Hb).
  { rewrite <- Es in Ev. vm_compute in Ev. injection Ev as <- <- <-. by split_and!. }
  assert (Hdisk : Swap.disk (swap_manager s) = d) by (subst s; reflexivity).
  set (f := FrameAlloc.Frame_allocate 5 (FrameAlloc.Frame_new (fr / 4096) (fr / 4096 * 4096) 4096)).
  assert (Hf : FrameAlloc.frames (FrameAlloc.allocator (memory_manager s)) !! N.to_nat (fr / 4096) = Some f).
  { unfold f. rewrite <- Es in Ev. vm_compute in Ev. injection Ev as <- <-. rewrite <- Es. reflexivity. }
  destruct (page_fault_swaps_victim_out true 7 0x3234 Read s [] 5 v fr f 0 [1; 2] Hs)
    as (s' & f' & H & _ & Hin & _ & _ & _ & _ & Hun);
    [done|done|by rewrite <- Es|by rewrite <- Es|done|done|done|by rewrite <- Es|by rewrite <- Es
    |by rewrite Hdisk, Hd|by rewrite Hdisk, Hd|].
  eexists s, s', _, _, v, fr. split_and!; [reflexivity|exact Ev|exact H|exact Hin|apply Hun; by left].
Defined.

(** the full service: frame 0 belongs to process 5 *)
Lemma free_frame_leaves_stale_entry_witness :
  exists s s' rs' r, demo_full_service demo_memory Swap.demo_swap_disk = Done s /\
    handle_free_frame_with_response true 0 (s, []) = Done ((s', rs'), r) /\
    0 ∈ default [] (FrameAlloc.process_frames (memory_manager s') !! 5).
Proof.
  generalize demo_memory demo_memory_wf Swap.demo_swap_disk. intros mem Hmem d.
  destruct (demo_full_service mem d) as [s| |] eqn:E; [|vm_compute in E; discriminate..].
  pose proof (demo_full_service_wf mem d s Hmem E) as [Hm _]. pose proof E as Es. vm_compute in Es. injection Es as Es.
  destruct (free_frame_leaves_stale_entry true 0 (FrameAlloc.Frame_allocate 5 (FrameAlloc.Frame_new 0 0 4096)) 5 s [] Hm)
    as (s' & rs' & r & H & _ & Hin & _); [by rewrite <- Es|done|done|].
  exists s, s', rs', r. split_and!; [reflexivity|exact H|exact Hin].
Defined.
