(* ===== verification/SharedMmu.v ===== *)
(** * The MMU shared with the CPUs (src/src/services/memory/service.rs)

    The process service waits at most 200 ms for the answer to a page fault; then
    the CPUs run on while the memory service may still be at work on the same MMU
    and the same memory.  Here every handler that touches the MMU is a sequence
    of accesses, one for each call of the MMU, and before each access the
    CPUs make some stores: [shared] takes them from a list that stands for the
    schedule.  With no stores the handlers are those of [MemService]
    ([alone_is_atomic]); with any stores the service answers as before
    ([answered_under_stores]); stores that keep off the page that is moved are as
    good as stores after the handler ([stores_linearize]); one into that page,
    after its byte was read, is lost ([late_store_is_lost]). *)
From S2P Require Import Prelude Types Messages.
From S2P Require PhysMem Mmu Swap FrameAlloc Cpu.
From S2P Require Import MemService.

(** ** Stores by the CPUs *)

Record Store := { by_pid : Pid; at_vaddr : VirtAddr; stored : N }.
(** a store that the MMU refuses is a page fault, which changes no memory *)
Definition store (u : Mmu.MMU) (x : Store) : Mmu.MMU :=
  match Mmu.write_u8 u (by_pid x) (at_vaddr x) (stored x) with Ok u' => u' | Err _ => u end.
Definition stores (u : Mmu.MMU) (l : list Store) : Mmu.MMU := foldl store u l.

(** Whatever a CPU executes is such a store, or nothing. *)
Lemma cpu_step_stores m m' r : Cpu.step m = (m', r) ->
  exists l, (length l <= 1)%nat /\ Forall (fun x => by_pid x = Cpu.current_pid (Cpu.cpu m)) l /\
    Cpu.mmu m' = stores (Cpu.mmu m) l.
Proof.
  intros H. destruct (Cpu.step_mmu _ _ _ H) as [-> | (v & x & _ & Hw)].
  - exists []. split; [cbn; lia|]. split; [constructor|done].
  - exists [{| by_pid := Cpu.current_pid (Cpu.cpu m); at_vaddr := v; stored := x |}].
    split; [cbn; lia|]. split; [by repeat constructor|]. unfold stores, store. cbn. by rewrite Hw.
Qed.

(** ** Handlers as sequences of accesses *)

(** the stores before the next access, before the one after it, ... *)
Abbreviation Schedule := (list (list Store)).
Abbreviation I := (HM ((MemoryService * list Response) * Schedule)).

(** what touches nothing that is shared *)
Definition quietly {A} (m : H A) : I A := fun '(st, env) =>
  match m st with
  | Done (st', r) => Done ((st', env), r)
  | Panicked => Panicked
  | Deadlocked => Deadlocked
  end.
(** one access under the locks of the MMU *)
Definition shared {A} (f : Mmu.MMU -> Mmu.MMU * A) : I A := fun '((s, rs), env) =>
  let '(u, a) := f (stores (mmu s) (default [] (head env))) in
  Done (((set_mmu u s, rs), tail env), Ok a).
Definition peek {A} (f : Mmu.MMU -> A) : I A := shared (fun u => (u, f u)).
Definition change (f : Mmu.MMU -> Mmu.MMU) : I unit := shared (fun u => (f u, tt)).

Section Handlers.
Context (connected : bool).

Definition map_page_accesses (pid : Pid) (virt : VirtAddr) (phys : PhysAddr) (prot : MemProt) : I unit :=
  _ ← change (fun u => Mmu.map_page u pid virt phys (rw_flags (prot_writable prot)));
  quietly (respond connected (Ok Void)).

Definition unmap (pid : Pid) (virt : VirtAddr) (u : Mmu.MMU) : Mmu.MMU * bool :=
  match Mmu.unmap_page u pid virt with Ok u' => (u', true) | Err _ => (u, false) end.
Definition unmap_page_accesses (pid : Pid) (virt : VirtAddr) : I unit :=
  b ← shared (unmap pid virt);
  if b : bool then quietly (respond connected (Ok Void))
  else quietly (_ ← respond connected (Err (RespOther 2)); throw (Other 2)).

(** the loops over the bytes of a page *)
Definition read_byte (pid : Pid) (v : VirtAddr) (u : Mmu.MMU) : N :=
  match Mmu.read_u8 u pid v with Ok b => b | Err _ => 0 end.
Fixpoint read_page (pid : Pid) (v : VirtAddr) (js : list nat) : I (list N) :=
  match js with
  | [] => mret []
  | i :: js => b ← peek (read_byte pid (wadd64 v (N.of_nat i))); bs ← read_page pid v js; mret (b :: bs)
  end.
Definition write_byte (pid : Pid) (v : VirtAddr) (b : N) (u : Mmu.MMU) : Mmu.MMU :=
  match Mmu.write_u8 u pid v b with Ok u' => u' | Err _ => u end.
Fixpoint write_page (pid : Pid) (v : VirtAddr) (bs : list N) : I unit :=
  match bs with [] => mret tt | b :: bs => _ ← change (write_byte pid v b); write_page pid (wadd64 v 1) bs end.

Definition map_fresh_accesses (pid : Pid) (page_vaddr : VirtAddr) (f : FrameAlloc.Frame) : I unit :=
  _ ← change (fun u => Mmu.map_page u pid page_vaddr (FrameAlloc.address f) (rw_flags true));
  quietly (respond connected (Ok (PhysicalAddr (FrameAlloc.address f)))).

Definition fault_swapped_in_accesses (pid : Pid) (page_vaddr : VirtAddr) (slot : N) : I bool :=
  s ← quietly get;
  match Swap.swap_in (swap_manager s) slot with
  | Err _ => _ ← quietly (respond connected (Err (RespOther 80))); mret true
  | Ok data =>
      frames ← quietly (allocate_frames pid 1);
      match frames with
      | [] => mret false
      | f :: _ =>
          _ ← change (fun u => Mmu.map_page u pid page_vaddr (FrameAlloc.address f) (rw_flags true));
          _ ← write_page pid page_vaddr data;
          quietly deadlock
      end
  end.

Definition fault_swap_out_accesses (pid : Pid) (page_vaddr : VirtAddr) : I bool :=
  victim ← peek (fun u => find_victim_page u pid);
  match victim with
  | None => mret false
  | Some (vpid, vaddr, vframe) =>
      slot ← quietly (s ← get;
                      '(sw, slot) ← lift (Swap.allocate_slot (swap_manager s) vpid (vaddr / 4096));
                      _ ← update (set_swap sw); mret slot);
      match slot with
      | None => mret false
      | Some slot =>
          data ← read_page vpid vaddr (seq 0 4096);
          r ← quietly (s ← get;
                       let '(sw, r) := Swap.swap_out (swap_manager s) (Swap.number slot) data in
                       _ ← update (set_swap sw); mret r);
          match r with
          | Err _ => mret false
          | Ok _ =>
              _ ← shared (unmap vpid vaddr);
              _ ← quietly (free_frame vpid (vframe / 4096));
              _ ← quietly (update (fun s => set_swapped
                    (<[vpid := <[vaddr := Swap.number slot]> (default ∅ (swapped_pages s !! vpid))]> (swapped_pages s)) s));
              frames ← quietly (allocate_frames pid 1);
              match frames with
              | [] => mret false
              | f :: _ => _ ← map_fresh_accesses pid page_vaddr f; mret true
              end
          end
      end
  end.

Definition page_fault_accesses (pid : Pid) (faulting_addr : VirtAddr) : I unit :=
  let page_vaddr := page_base faulting_addr in
  s ← quietly get;
  answered ← match swapped_pages s !! pid ≫= (.!! page_vaddr) with
             | Some slot => fault_swapped_in_accesses pid page_vaddr slot
             | None => mret false
             end;
  if answered : bool then mret tt
  else
    frames ← quietly (allocate_frames pid 1);
    match frames with
    | f :: _ => map_fresh_accesses pid page_vaddr f
    | [] =>
        answered ← fault_swap_out_accesses pid page_vaddr;
        if answered : bool then mret tt
        else quietly (_ ← respond connected (Err RespResourceExhausted); throw (ResourceExhausted 0 1))
    end.

(** the page of a process as a buffer, filled with zeros when it is not mapped or not
    in memory *)
Definition zeros : list N := replicate (N.to_nat 4096) 0.
Definition read_frame (paddr : PhysAddr) (u : Mmu.MMU) : list N :=
  match PhysMem.read_slice (Mmu.memory u) paddr 4096 with Ok bs => bs | Err _ => zeros end.
Definition write_frame (paddr : PhysAddr) (data : list N) (u : Mmu.MMU) : Mmu.MMU * bool :=
  match PhysMem.write_slice (Mmu.memory u) paddr data with Ok mem => (Mmu.set_memory u mem, true) | Err _ => (u, false) end.

Definition swap_out_accesses (pid : Pid) (virt : VirtAddr) : I unit :=
  s ← quietly get;
  if negb (Swap.enabled (swap_manager s)) then
    quietly (_ ← respond_or_fail connected (Err RespNotImplemented); throw NotImplemented)
  else
    slot ← quietly ('(sw, slot) ← lift (Swap.allocate_slot (swap_manager s) pid (virt / 4096));
                    _ ← update (set_swap sw); mret slot);
    match slot with
    | None => quietly (_ ← respond connected (Err RespResourceExhausted); throw (ResourceExhausted 0 1))
    | Some slot =>
        paddr ← peek (fun u => Mmu.translate u pid virt Read);
        data ← match paddr with Ok paddr => peek (read_frame paddr) | Err _ => mret zeros end;
        quietly (s ← get;
                 let '(sw, r) := Swap.swap_out (swap_manager s) (Swap.number slot) data in
                 _ ← update (set_swap sw);
                 match r with
                 | Err _ => _ ← respond connected (Err (RespOther 81)); throw (Other 81)
                 | Ok _ => respond connected (Ok (Integer (Swap.number slot)))
                 end)
    end.

Definition swap_in_accesses (pid : Pid) (virt : VirtAddr) : I unit :=
  s ← quietly get;
  slots ← quietly (lift (Swap.get_process_slots (swap_manager s) pid));
  match find_slot slots (virt / 4096) with
  | None => quietly (_ ← respond connected (Err RespNotFound); throw SvcNotFound)
  | Some slot =>
      sw ← quietly ('(sw, _) ← lift (Swap.free_slot (swap_manager s) (Swap.number slot)); _ ← update (set_swap sw); mret sw);
      match Swap.swap_in sw (Swap.number slot) with
      | Err _ => quietly (_ ← respond connected (Err (RespOther 84)); throw (Other 84))
      | Ok data =>
          paddr ← peek (fun u => Mmu.translate u pid virt Write);
          _ ← match paddr with
              | Ok paddr => b ← shared (write_frame paddr data); if b : bool then mret tt else quietly (throw (Other 83))
              | Err _ => mret tt
              end;
          quietly (respond connected (Ok Void))
      end
  end.

Definition request_accesses (req : MemoryRequest) : I unit :=
  match req with
  | MapPage pid virt phys prot => map_page_accesses pid virt phys prot
  | UnmapPage pid virt => unmap_page_accesses pid virt
  | PageFaultHandler pid a _ => page_fault_accesses pid a
  | SwapOut pid virt => swap_out_accesses pid virt
  | SwapIn pid virt => swap_in_accesses pid virt
  | _ => quietly (handle_memory_request_with_response connected req)
  end.
End Handlers.

(** ** Alone, a handler is atomic *)

Definition with_schedule {A} (env : Schedule) (o : outcome ((MemoryService * list Response) * result ServiceError A))
    : outcome (((MemoryService * list Response) * Schedule) * result ServiceError A) :=
  match o with
  | Done (st, r) => Done ((st, env), r)
  | Panicked => Panicked
  | Deadlocked => Deadlocked
  end.
Definition alone {A} (m : I A) (h : H A) : Prop := forall st, m (st, []) = with_schedule [] (h st).

Lemma set_mmu_same s : set_mmu (mmu s) s = s.
Proof. by destruct s. Qed.

Lemma alone_quietly {A} (h : H A) : alone (quietly h) h.
Proof. intros st. unfold quietly. by destruct (h st) as [[st' r]| |]. Qed.
Lemma alone_bind {A B} (m : I A) (h : H A) (k : A -> I B) (l : A -> H B) :
  alone m h -> (forall a, alone (k a) (l a)) -> alone (m ≫= k) (h ≫= l).
Proof.
  intros Hm Hk st. rewrite !HM_bind_eq, Hm. destruct (h st) as [[st' [a|e]]| |]; try done. apply Hk.
Qed.
Lemma alone_ret {A} (a : A) : alone (mret a) (mret a).
Proof. done. Qed.
Lemma alone_change f : alone (change f) (update (fun s => set_mmu (f (mmu s)) s)).
Proof. by intros [s rs]. Qed.
Lemma alone_peek {A} (f : Mmu.MMU -> A) : alone (peek f) (s ← get; mret (f (mmu s))).
Proof. intros [s rs]. unfold peek, shared. cbn. by rewrite set_mmu_same. Qed.
(** the handler may have looked at the state before *)
Lemma alone_peek_then {A B} (f : Mmu.MMU -> A) (k : A -> I B) (l : MemoryService -> H B) :
  (forall s rs, k (f (mmu s)) ((s, rs), []) = with_schedule [] (l s (s, rs))) -> alone (peek f ≫= k) (get ≫= l).
Proof. intros Hk [s rs]. rewrite !HM_bind_eq. unfold peek, shared. cbn. rewrite set_mmu_same. apply Hk. Qed.

Lemma alone_ext {A} (m : I A) (h h' : H A) : (forall st, h st = h' st) -> alone m h' -> alone m h.
Proof. intros E Hm st. by rewrite E, Hm. Qed.

Lemma read_page_alone pid v js s rs :
  read_page pid v js ((s, rs), []) =
    Done (((s, rs), []), Ok ((fun i => read_byte pid (wadd64 v (N.of_nat i)) (mmu s)) <$> js)).
Proof.
  induction js as [|i js IH]; [done|]. cbn [read_page]. rewrite HM_bind_eq. unfold peek at 1, shared at 1. cbn [head default tail stores foldl].
  rewrite set_mmu_same, HM_bind_eq, IH. done.
Qed.
Lemma write_page_alone pid bs : forall v, alone (write_page pid v bs) (update (fun s => set_mmu (store_bytes (mmu s) pid v bs) s)).
Proof.
  induction bs as [|b bs IH]; intros v [s rs]; cbn [write_page store_bytes]; [cbn; by rewrite set_mmu_same|].
  rewrite HM_bind_eq. unfold change at 1, shared at 1. cbn [head default tail stores foldl]. rewrite IH. done.
Qed.

Create HintDb alone.
#[local] Hint Resolve alone_quietly alone_ret alone_change write_page_alone : alone.
Ltac alone_auto := repeat (first [by auto with alone | apply alone_bind; [by auto with alone|intros ?]]; cbn beta iota).

Lemma alone_unmap {A} pid v (k : bool -> I A) (l : unit -> H A) : (forall b, alone (k b) (l tt)) ->
  alone (shared (unmap pid v) ≫= k)
    (update (fun s => set_mmu (match Mmu.unmap_page (mmu s) pid v with Ok u => u | Err _ => mmu s end) s) ≫= l).
Proof.
  intros Hk [s rs]. rewrite !HM_bind_eq. unfold shared, unmap. cbn [head default tail stores foldl update].
  destruct (Mmu.unmap_page (mmu s) pid v); apply Hk.
Qed.

Section Alone.
Context (connected : bool).

Lemma map_fresh_alone pid v f : alone (map_fresh_accesses connected pid v f) (map_fresh connected pid v f).
Proof. unfold map_fresh_accesses, map_fresh. alone_auto. Qed.

Lemma fault_swapped_in_alone pid v slot :
  alone (fault_swapped_in_accesses connected pid v slot) (fault_swapped_in connected pid v slot).
Proof.
  unfold fault_swapped_in_accesses, fault_swapped_in. apply alone_bind; [by auto with alone|intros s].
  destruct (Swap.swap_in _ _); [|alone_auto]. apply alone_bind; [by auto with alone|intros [|f fs]]; alone_auto.
Qed.

Lemma fault_swap_out_alone pid v : alone (fault_swap_out_accesses connected pid v) (fault_swap_out connected pid v).
Proof.
  unfold fault_swap_out_accesses, fault_swap_out. apply alone_peek_then. intros s rs.
  destruct (find_victim_page (mmu s) pid) as [[[vpid vaddr] vframe]|]; [|done].
  rewrite !HM_bind_eq. unfold quietly at 1. rewrite HM_bind_eq. cbn [get fst]. rewrite HM_bind_eq.
  unfold lift. destruct (Swap.allocate_slot (swap_manager s) vpid (vaddr / 4096)) as [[sw slot]| |] eqn:Es; [|done..].
  cbn [mbind outcome_bind]. rewrite !HM_bind_eq. cbn [update]. cbv [mret HM_ret]. destruct slot as [slot|]; [|done].
  rewrite HM_bind_eq, read_page_alone. change (mmu (set_swap sw s)) with (mmu s).
  change ((fun i => read_byte vpid (wadd64 vaddr (N.of_nat i)) (mmu s)) <$> seq 0 4096) with (page_bytes (mmu s) vpid vaddr).
  rewrite HM_bind_eq. unfold quietly at 1. rewrite HM_bind_eq. cbn [get fst]. change (swap_manager (set_swap sw s)) with sw.
  destruct (Swap.swap_out sw (Swap.number slot) (page_bytes (mmu s) vpid vaddr)) as [sw' r]. rewrite !HM_bind_eq. cbn [update].
  change (set_swap sw' (set_swap sw s)) with (set_swap sw' s). destruct r as [u|e]; [|done].
  apply (alone_unmap vpid vaddr). intros _. do 2 (apply alone_bind; [by auto with alone|intros _]).
  apply alone_bind; [by auto with alone|intros [|f fs]; [done|]]. apply alone_bind; [apply map_fresh_alone|done].
Qed.

Lemma page_fault_alone pid a acc : alone (page_fault_accesses connected pid a) (handle_page_fault_with_response connected pid a acc).
Proof.
  unfold page_fault_accesses, handle_page_fault_with_response. apply alone_bind; [by auto with alone|intros s].
  apply alone_bind.
  { destruct (_ ≫= _) as [slot|]; [apply fault_swapped_in_alone|done]. }
  intros [|]; [done|]. apply alone_bind; [by auto with alone|intros [|f fs]; [|apply map_fresh_alone]].
  apply alone_bind; [apply fault_swap_out_alone|intros [|]; [done|by auto with alone]].
Qed.

Lemma swap_out_alone pid v : alone (swap_out_accesses connected pid v) (handle_swap_out_with_response connected pid v).
Proof.
  intros [s rs]. unfold swap_out_accesses, handle_swap_out_with_response. rewrite !HM_bind_eq. unfold quietly at 1. cbn [get fst].
  destruct (Swap.enabled (swap_manager s)); cbn [negb]; [|by apply alone_quietly].
  rewrite !HM_bind_eq. unfold quietly at 1. rewrite HM_bind_eq. unfold lift.
  destruct (Swap.allocate_slot (swap_manager s) pid (v / 4096)) as [[sw slot]| |] eqn:Es; [|done..].
  cbn [mbind outcome_bind]. rewrite !HM_bind_eq. cbn [update]. cbv [mret HM_ret].
  destruct slot as [slot|]; [|by apply alone_quietly].
  rewrite HM_bind_eq. unfold peek at 1, shared at 1. cbn [head default tail stores foldl].
  change (mmu (set_swap sw s)) with (mmu s). change (set_mmu (mmu s) (set_swap sw s)) with (set_swap sw s).
  rewrite HM_bind_eq. unfold frame_data.
  fold zeros. destruct (Mmu.translate (mmu s) pid v Read) as [p|e].
  - unfold peek, shared. cbn [head default tail stores foldl]. change (mmu (set_swap sw s)) with (mmu s).
    change (set_mmu (mmu s) (set_swap sw s)) with (set_swap sw s). rewrite (alone_quietly _ _), HM_bind_eq. cbn [get fst].
    unfold read_frame. generalize zeros. done.
  - rewrite (alone_quietly _ _), HM_bind_eq. cbn [get fst]. generalize zeros. done.
Qed.

Lemma write_frame_alone paddr data (k : unit -> I unit) (l : unit -> H unit) : (forall u, alone (k u) (l u)) ->
  forall s rs, ((b ← shared (write_frame paddr data); if b : bool then mret tt else quietly (throw (Other 83))) ≫= k) ((s, rs), []) =
    with_schedule [] ((match PhysMem.write_slice (Mmu.memory (mmu s)) paddr data with
                       | Ok mem => update (set_mmu (Mmu.set_memory (mmu s) mem))
                       | Err _ => throw (Other 83)
                       end ≫= l) (s, rs)).
Proof.
  intros Hk s rs. rewrite !HM_bind_eq. unfold shared, write_frame. cbn [head default tail stores foldl].
  destruct (PhysMem.write_slice _ _ _); [apply Hk|]. cbn. by rewrite set_mmu_same.
Qed.

Lemma swap_in_alone pid v : alone (swap_in_accesses connected pid v) (handle_swap_in_with_response connected pid v).
Proof.
  intros [s rs]. unfold swap_in_accesses, handle_swap_in_with_response. rewrite !HM_bind_eq. unfold quietly at 1. cbn [get fst].
  rewrite !HM_bind_eq. unfold quietly at 1, lift.
  destruct (Swap.get_process_slots (swap_manager s) pid) as [slots| |]; [|done..].
  cbn [mbind outcome_bind]. destruct (find_slot _ _) as [slot|]; [|by apply alone_quietly].
  rewrite !HM_bind_eq. unfold quietly at 1. rewrite HM_bind_eq. unfold lift.
  destruct (Swap.free_slot (swap_manager s) (Swap.number slot)) as [[sw b]| |]; [|done..].
  cbn [mbind outcome_bind]. rewrite !HM_bind_eq. cbn [update]. cbv [mret HM_ret].
  destruct (Swap.swap_in sw (Swap.number slot)) as [data|e]; [|by apply alone_quietly].
  rewrite HM_bind_eq. unfold peek at 1, shared at 1. cbn [head default tail stores foldl].
  change (mmu (set_swap sw s)) with (mmu s). change (set_mmu (mmu s) (set_swap sw s)) with (set_swap sw s).
  destruct (Mmu.translate (mmu s) pid v Write) as [p|e]; [|by rewrite !HM_bind_eq].
  exact (write_frame_alone p data _ (fun _ => respond connected (Ok Void)) (fun u => alone_quietly _) (set_swap sw s) rs).
Qed.

(** Property: without a store in between, the accesses of a handler do what the handler
    does as one step. *)
Theorem alone_is_atomic req st :
  request_accesses connected req (st, []) = with_schedule [] (handle_memory_request_with_response connected req st).
Proof.
  destruct req; cbn [request_accesses]; try apply alone_quietly; cbn [handle_memory_request_with_response].
  - apply alone_bind; [by auto with alone|intros _; apply alone_quietly].
  - destruct st as [s rs]. unfold unmap_page_accesses, handle_unmap_page_with_response. rewrite !HM_bind_eq.
    unfold shared, unmap. cbn [head default tail stores foldl get fst].
    destruct (Mmu.unmap_page (mmu s) pid _) as [u|e]; [|rewrite set_mmu_same; apply alone_quietly].
    rewrite HM_bind_eq. apply alone_quietly.
  - apply page_fault_alone.
  - apply swap_out_alone.
  - apply swap_in_alone.
Qed.
End Alone.

(** ** With stores, every request is answered as before *)

Definition spec_i {A} (dl : bool) (m : I A) (Q : result ServiceError A -> nat -> Prop) : Prop :=
  forall s rs env, service_inv s ->
  match m ((s, rs), env) with
  | Done (((s', rs'), _), r) => service_inv s' /\ exists extra, rs' = rs ++ extra /\ Q r (length extra)
  | Panicked => False
  | Deadlocked => dl = true
  end.

Lemma spec_i_quietly {A} dl (h : H A) Q : spec dl h Q -> spec_i dl (quietly h) Q.
Proof. intros Hh s rs env Hs. specialize (Hh s rs Hs). unfold quietly. by destruct (h (s, rs)) as [[[s' rs'] r]| |]. Qed.
Lemma spec_i_shared {A} dl (f : Mmu.MMU -> Mmu.MMU * A) (Q : result ServiceError A -> nat -> Prop) :
  (forall a, Q (Ok a) 0%nat) -> spec_i dl (shared f) Q.
Proof.
  intros HQ s rs env Hs. unfold shared. destruct (f _) as [u a]. split; [by apply set_mmu_inv|]. exists []. by rewrite app_nil_r.
Qed.
Lemma spec_i_ret {A} dl (a : A) (Q : result ServiceError A -> nat -> Prop) : Q (Ok a) 0%nat -> spec_i dl (mret a) Q.
Proof. intros HQ s rs env Hs. split; [done|]. exists []. by rewrite app_nil_r. Qed.
(** [Q1] of the first part, and what the second adds *)
Lemma spec_i_bind {A B} dl (m : I A) (k : A -> I B) (Q1 : result ServiceError A -> nat -> Prop) (Q : result ServiceError B -> nat -> Prop) :
  spec_i dl m Q1 -> (forall a n, Q1 (Ok a) n -> spec_i dl (k a) (fun r j => Q r (n + j)%nat)) ->
  (forall e n, Q1 (Err e) n -> Q (Err e) n) -> spec_i dl (m ≫= k) Q.
Proof.
  intros Hm Hk He s rs env Hs. specialize (Hm s rs env Hs). rewrite HM_bind_eq.
  destruct (m ((s, rs), env)) as [[[[s' rs'] env'] [a|e]]| |]; try done; destruct Hm as (Hs' & ex & -> & Hex).
  - specialize (Hk a _ Hex s' (rs ++ ex) env' Hs'). destruct (k a _) as [[[[s2 rs2] env2] r]| |]; try done.
    destruct Hk as (Hs2 & ex2 & -> & Hq). split; [done|]. exists (ex ++ ex2). rewrite length_app. by rewrite app_assoc.
  - split; [done|]. exists ex. split; [done|by apply He].
Qed.
Lemma spec_i_silent {A B} dl (m : I A) (k : A -> I B) (Q : result ServiceError B -> nat -> Prop) :
  spec_i dl m silent -> (forall a, spec_i dl (k a) Q) -> (forall e, Q (Err e) 0%nat) -> spec_i dl (m ≫= k) Q.
Proof.
  intros Hm Hk He. eapply spec_i_bind; [exact Hm| |intros e n ->; apply He]. intros a n ->. apply Hk.
Qed.

Lemma read_page_spec dl pid v js : spec_i dl (read_page pid v js) silent.
Proof.
  induction js as [|j js IH]; [by apply spec_i_ret|]. cbn [read_page]. apply spec_i_silent; [by apply spec_i_shared|intros b|done].
  apply spec_i_silent; [exact IH|intros bs; by apply spec_i_ret|done].
Qed.
Lemma write_page_spec dl pid bs : forall v, spec_i dl (write_page pid v bs) silent.
Proof.
  induction bs as [|b bs IH]; intros v; [by apply spec_i_ret|]. cbn [write_page].
  apply spec_i_silent; [by apply spec_i_shared|intros u; apply IH|done].
Qed.

Lemma spec_i_answered {B} dl (m : I bool) (k : bool -> I B) (R : result ServiceError B -> nat -> Prop) :
  spec_i dl m answered_if -> spec_i dl (k true) (fun x n => R x (S n)) -> spec_i dl (k false) R ->
  (forall e j, (j <= 1)%nat -> R (Err e) j) -> spec_i dl (m ≫= k) R.
Proof.
  intros Hm Ht Hf He. apply (spec_i_bind dl m k answered_if R Hm); [|apply He]. intros [|] n Hn; cbn in Hn; by subst n.
Qed.

Lemma spec_i_get {A} dl (k : MemoryService -> I A) R :
  (forall s, service_inv s -> spec_i dl (k s) R) -> spec_i dl (quietly get ≫= k) R.
Proof. intros Hk s rs env Hs. by apply (Hk s Hs s rs env Hs). Qed.

Lemma map_fresh_accesses_spec dl pid v f : spec_i dl (map_fresh_accesses true pid v f) answers.
Proof.
  apply spec_i_silent; [by apply spec_i_shared|intros ?|]; [|by intros ?; cbn; lia].
  by apply spec_i_quietly, spec_respond.
Qed.

Lemma spec_lift_silent {A} dl (o : outcome A) (b : A) : o = Done b -> spec dl (lift o) silent.
Proof. intros -> s rs Hs. split; [done|]. exists []. by rewrite app_nil_r. Qed.

(** One step of a proof of [spec_i], by the shape of the handler. *)
Ltac spec_i_step :=
  lazymatch goal with
  | |- spec_i _ (mret _) _ => apply spec_i_ret
  | |- spec_i _ (mret _ ≫= _) _ => apply spec_i_silent; [by apply spec_i_ret|intros ?|]
  | |- spec_i _ (quietly get ≫= _) _ => apply spec_i_get; intros ? [? ?]
  | |- spec_i _ (quietly (allocate_frames _ _) ≫= _) _ =>
      apply spec_i_silent; [apply spec_i_quietly, spec_allocate_frames|intros ?|]
  | |- spec_i _ (quietly (free_frame _ _) ≫= _) _ =>
      apply spec_i_silent; [apply spec_i_quietly, spec_free_frame|intros ?|]
  | |- spec_i _ (quietly (respond _ _) ≫= _) _ =>
      apply (spec_i_bind _ _ _ answers); [apply spec_i_quietly; spec_auto|intros ? ? ?|]
  | |- spec_i _ (quietly _ ≫= _) _ => apply spec_i_silent; [apply spec_i_quietly; spec_auto|intros ?|]
  | |- spec_i _ (quietly _) _ => apply spec_i_quietly; spec_auto
  | |- spec_i _ (shared _) _ => apply spec_i_shared; intros ?
  | |- spec_i _ (peek _) _ => apply spec_i_shared; intros ?
  | |- spec_i _ (peek _ ≫= _) _ => apply spec_i_silent; [by apply spec_i_shared|intros ?|]
  | |- spec_i _ (change _ ≫= _) _ => apply spec_i_silent; [by apply spec_i_shared|intros ?|]
  | |- spec_i _ (shared _ ≫= _) _ => apply spec_i_silent; [by apply spec_i_shared|intros ?|]
  | |- spec_i _ (read_page _ _ _ ≫= _) _ => apply spec_i_silent; [apply read_page_spec|intros ?|]
  | |- spec_i _ (write_page _ _ _ ≫= _) _ => apply spec_i_silent; [apply write_page_spec|intros ?|]
  | |- spec_i _ (map_fresh_accesses _ _ _ _ ≫= _) _ =>
      apply (spec_i_bind _ _ _ answers); [apply map_fresh_accesses_spec|intros ? ? ?|]
  | |- spec_i _ (map_fresh_accesses _ _ _ _) _ => apply map_fresh_accesses_spec
  | |- spec_i _ (match ?x with _ => _ end) _ => destruct x eqn:?
  | |- spec_i _ (match ?x with _ => _ end ≫= _) _ => destruct x eqn:?
  end.
Ltac spec_i_auto := repeat (spec_i_step; cbn beta iota); try (intros; cbn in *; first [done | by subst; cbn; lia]).

Lemma fault_swapped_in_accesses_spec pid v slot : spec_i true (fault_swapped_in_accesses true pid v slot) answered_if.
Proof. unfold fault_swapped_in_accesses. spec_i_auto. Qed.

Lemma fault_swap_out_accesses_spec dl pid v : spec_i dl (fault_swap_out_accesses true pid v) answered_if.
Proof.
  unfold fault_swap_out_accesses. spec_i_auto.
Qed.

(** what the page-fault handler does when the page is not in the swapped-page table *)
Lemma fault_step_2_accesses_spec dl pid v : spec_i dl
  (frames ← quietly (allocate_frames pid 1);
   match frames with
   | f :: _ => map_fresh_accesses true pid v f
   | [] =>
       answered ← fault_swap_out_accesses true pid v;
       if answered : bool then mret tt
       else quietly (_ ← respond true (Err RespResourceExhausted); throw (ResourceExhausted 0 1))
   end) answers.
Proof.
  spec_i_step; [|by cbn; lia]. destruct a as [|f fs]; [|apply map_fresh_accesses_spec].
  apply spec_i_answered; [apply fault_swap_out_accesses_spec|spec_i_auto..].
Qed.

Lemma swap_out_accesses_spec dl pid v : spec_i dl (swap_out_accesses true pid v) answers.
Proof. unfold swap_out_accesses. spec_i_auto. Qed.

Lemma swap_in_accesses_spec dl pid v : spec_i dl (swap_in_accesses true pid v) answers.
Proof.
  unfold swap_in_accesses. spec_i_step.
  match goal with Hw : Swap.wf _ |- _ => destruct (process_slots_total _ pid Hw) as [sls E] end.
  apply spec_i_silent; [apply spec_i_quietly, (spec_lift_silent _ _ sls E)|intros slots|by cbn; lia].
  destruct (find_slot slots _) as [sl|]; [|spec_i_auto]. spec_i_step; [|by cbn; lia].
  destruct (Swap.swap_in _ _) as [data|]; [|spec_i_auto]. spec_i_step; [|by cbn; lia].
  apply spec_i_silent; [|intros u; spec_i_auto|by cbn; lia].
  destruct a0; spec_i_auto.
Qed.

(** the outcome of a handler from its [spec_i] *)
Ltac by_spec_i Hs dl :=
  lazymatch goal with
  | |- match ?m ((?s, ?rs), ?env) with _ => _ end =>
      let Hm := fresh in
      enough (Hm : spec_i dl m answers) by (specialize (Hm s rs env Hs); by destruct (m _) as [[[[? ?] ?] ?]| |])
  end.

(** C34: whatever the CPUs store while a handler is at work, a request whose sender
    waits is answered once when it succeeds and at most once when it fails, the
    frame and slot bookkeeping stays well-formed, nothing panics, and only a fault
    on a page of the swapped-page table may deadlock. *)
Theorem answered_under_stores req s rs env :
  service_inv s ->
  match request_accesses true req ((s, rs), env) with
  | Done (((s', rs'), _), r) => service_inv s' /\ exists extra, rs' = rs ++ extra /\ answers r (length extra)
  | Panicked => False
  | Deadlocked => faults_on_swapped s req = true
  end.
Proof.
  intros Hs.
  pose proof (handle_request_with_response_spec req s rs Hs) as Hq.
  destruct req; cbn [request_accesses];
    try (by_spec_i Hs false; first [by apply swap_out_accesses_spec | by apply swap_in_accesses_spec |
      unfold map_page_accesses, unmap_page_accesses; by spec_i_auto]);
    try (unfold quietly; by destruct (handle_memory_request_with_response _ _ _) as [[[s' rs'] r]| |]).
  unfold page_fault_accesses. rewrite HM_bind_eq. cbn [quietly get fst faults_on_swapped].
  destruct (swapped_pages s !! pid ≫= _) as [slot|]; [rewrite bool_decide_true by done; by_spec_i Hs true|by_spec_i Hs false];
    (apply spec_i_answered; [|by apply spec_i_ret|apply fault_step_2_accesses_spec|done]);
    [apply fault_swapped_in_accesses_spec|by apply spec_i_ret].
Qed.

(** ** What stores change *)

Lemma store_memory u x : exists mem, store u x = Mmu.set_memory u mem.
Proof.
  unfold store. destruct (Mmu.write_u8 _ _ _ _) as [u'|] eqn:E; [|exists (Mmu.memory u); by destruct u].
  apply Mmu.write_u8_inv in E as (p & _ & _ & ->). by eexists.
Qed.
Lemma stores_memory l : forall u, exists mem, stores u l = Mmu.set_memory u mem.
Proof.
  induction l as [|x l IH]; intros u; [exists (Mmu.memory u); by destruct u|].
  destruct (store_memory u x) as [mem E]. destruct (IH (store u x)) as [mem' E']. exists mem'.
  cbn [stores foldl]. fold (stores (store u x) l). rewrite E', E. done.
Qed.
Lemma stores_app u l l' : stores u (l ++ l') = stores (stores u l) l'.
Proof. apply foldl_app. Qed.
Lemma stores_wf l : forall u, Mmu.wf u -> Forall (fun x => stored x < 2 ^ 8) l -> Mmu.wf (stores u l).
Proof.
  induction l as [|x l IH]; intros u Hu Hl; [done|]. inversion Hl as [|? ? Hx Hl']; subst. cbn [stores foldl].
  apply IH; [|done]. unfold store. destruct (Mmu.write_u8 _ _ _ _) as [u'|] eqn:E; [|done]. by eapply Mmu.write_u8_wf.
Qed.
Lemma stores_page_tables u l : Mmu.page_tables (stores u l) = Mmu.page_tables u.
Proof. by destruct (stores_memory l u) as [mem ->]. Qed.
Lemma stores_page_size u l : Mmu.page_size (stores u l) = Mmu.page_size u.
Proof. by destruct (stores_memory l u) as [mem ->]. Qed.
Lemma stores_translate u l pid v acc : Mmu.translate (stores u l) pid v acc = Mmu.translate u pid v acc.
Proof. by destruct (stores_memory l u) as [mem ->]. Qed.
Lemma stores_victim u l pid : find_victim_page (stores u l) pid = find_victim_page u pid.
Proof. by destruct (stores_memory l u) as [mem ->]. Qed.

(** the MMU when the [n]-th access (from 1) is made, when the handler changes nothing before *)
Definition before (u : Mmu.MMU) (env : Schedule) (n : nat) : Mmu.MMU := stores u (concat (take n env)).

Lemma before_S u env n : before u env (S n) = before (stores u (default [] (head env))) (tail env) n.
Proof.
  unfold before. destruct env as [|l env]; cbn [head tail default]; [by rewrite !take_nil|]. cbn [take concat]. apply stores_app.
Qed.
Lemma before_wf u env n : Mmu.wf u -> Forall (fun x => stored x < 2 ^ 8) (concat env) -> Mmu.wf (before u env n).
Proof.
  intros Hu He. apply stores_wf; [done|]. rewrite <- (take_drop n env), concat_app in He. by apply Forall_app in He as [? _].
Qed.

(** ** Swapping a page out while the CPUs run *)

Lemma read_page_run pid v js : forall s rs env,
  read_page pid v js ((s, rs), env) =
    Done (((set_mmu (before (mmu s) env (length js)) s, rs), drop (length js) env),
          Ok (imap (fun k i => read_byte pid (wadd64 v (N.of_nat i)) (before (mmu s) env (S k))) js)).
Proof.
  induction js as [|i js IH]; intros s rs env.
  { cbn. unfold before. by destruct s. }
  cbn [read_page]. rewrite HM_bind_eq. unfold peek at 1, shared at 1. rewrite HM_bind_eq, IH.
  cbn [length imap set_mmu mmu]. rewrite before_S. replace (drop (S (length js)) env) with (drop (length js) (tail env)) by (destruct env; cbn [tail]; [by rewrite !drop_nil|done]).
  cbv [mret HM_ret]. do 2 f_equal. f_equal. f_equal; [by rewrite before_S|].
  apply imap_ext. intros k j _. cbn. by rewrite (before_S (mmu s) env (S k)).
Qed.

(** the page as it is read byte by byte, the first byte at access [n] *)
Definition page_read (u : Mmu.MMU) (env : Schedule) (n : nat) (pid : Pid) (v : VirtAddr) : list N :=
  (fun i => read_byte pid (wadd64 v (N.of_nat i)) (before u env (n + i))) <$> seq 0 4096.

Lemma imap_seq {A} (f : nat -> nat -> A) n : imap f (seq 0 n) = (fun i => f i i) <$> seq 0 n.
Proof.
  apply list_eq. intros i. rewrite list_lookup_imap, list_lookup_fmap.
  destruct (seq 0 n !! i) as [k|] eqn:E; [|done]. by apply lookup_seq in E as [-> Hi].
Qed.

Lemma read_page_seq pid v n s rs env :
  read_page pid v (seq 0 n) ((s, rs), env) =
    Done (((set_mmu (before (mmu s) env n) s, rs), drop n env),
          Ok ((fun i => read_byte pid (wadd64 v (N.of_nat i)) (before (mmu s) env (1 + i))) <$> seq 0 n)).
Proof. rewrite read_page_run, length_seq, imap_seq. reflexivity. Qed.

Lemma length_page_read u env n pid v : length (page_read u env n pid v) = 4096%nat.
Proof. unfold page_read. by rewrite length_fmap, length_seq. Qed.

(** the MMU after [k] more accesses that only look at it, the state otherwise as it was *)
Lemma before_add u env m n : before (before u env m) (drop m env) n = before u env (m + n).
Proof.
  unfold before. rewrite <- stores_app, <- concat_app. do 2 f_equal. rewrite <- (take_take_drop env m n).  done.
Qed.

Lemma before_1 u env : stores u (default [] (head env)) = before u env 1.
Proof. by rewrite before_S. Qed.
Lemma drop_1 {A} (l : list A) : tail l = drop 1 l.
Proof. by destruct l. Qed.

(** one access, then the rest *)
Lemma shared_run {A B} (f : Mmu.MMU -> Mmu.MMU * A) (k : A -> I B) s rs env u a :
  f (before (mmu s) env 1) = (u, a) -> (shared f ≫= k) ((s, rs), env) = k a ((set_mmu u s, rs), drop 1 env).
Proof. intros E. rewrite HM_bind_eq. unfold shared. by rewrite before_1, E, drop_1. Qed.
Lemma peek_run {A B} (f : Mmu.MMU -> A) (k : A -> I B) s rs env a :
  f (before (mmu s) env 1) = a -> (peek f ≫= k) ((s, rs), env) = k a ((set_mmu (before (mmu s) env 1) s, rs), drop 1 env).
Proof. intros E. apply shared_run. by rewrite E. Qed.
Lemma quietly_run {A B} (h : H A) (k : A -> I B) s rs env s' rs' a :
  h (s, rs) = Done ((s', rs'), Ok a) -> (quietly h ≫= k) ((s, rs), env) = k a ((s', rs'), env).
Proof. intros E. rewrite HM_bind_eq. unfold quietly. by rewrite E. Qed.
Lemma read_page_then {B} pid v n (k : list N -> I B) s rs env :
  (read_page pid v (seq 0 n) ≫= k) ((s, rs), env) =
    k ((fun i => read_byte pid (wadd64 v (N.of_nat i)) (before (mmu s) env (1 + i))) <$> seq 0 n)
      ((set_mmu (before (mmu s) env n) s, rs), drop n env).
Proof. by rewrite HM_bind_eq, read_page_seq. Qed.

(** The part of the handler between the choice of the victim and the mapping. *)
Lemma fault_swap_out_accesses_run connected pid v s rs env vpid vaddr vframe n sl sw1 sw2 u mm1 mm2 g :
  find_victim_page (mmu s) pid = Some (vpid, vaddr, vframe) ->
  Swap.allocate_slot (swap_manager s) vpid (vaddr / 4096) = Done (sw1, Some sl) -> Swap.number sl = n ->
  Swap.swap_out sw1 n (page_read (mmu s) env 2 vpid vaddr) = (sw2, Ok tt) ->
  Mmu.unmap_page (before (mmu s) env 4098) vpid vaddr = Ok u ->
  FrameAlloc.free_frame (memory_manager s) vpid (vframe / 4096) = Done (mm1, true) ->
  FrameAlloc.allocate_frames mm1 pid 1 = Done (mm2, [g]) ->
  fault_swap_out_accesses connected pid v ((s, rs), env) =
    (_ ← map_fresh_accesses connected pid v g; mret true)
      ((after_swap_out s mm2 sw2 u
         (<[vpid := <[vaddr := n]> (default ∅ (swapped_pages s !! vpid))]> (swapped_pages s)), rs), drop 4098 env).
Proof.
  intros Hv Hal Hq Hout Hun Hfr Hag. unfold fault_swap_out_accesses.
  rewrite (peek_run _ _ _ _ _ (Some (vpid, vaddr, vframe))) by (unfold before; by rewrite stores_victim).
  erewrite quietly_run.
  2:{ rewrite HM_bind_eq. cbn [get fst]. rewrite HM_bind_eq. unfold lift. cbn [set_mmu swap_manager]. rewrite Hal. reflexivity. }
  cbn iota. rewrite read_page_then. cbn [set_mmu set_swap mmu]. 
  assert (Edata : (fun i => read_byte vpid (wadd64 vaddr (N.of_nat i)) (before (before (mmu s) env 1) (drop 1 env) (1 + i))) <$> seq 0 4096
                  = page_read (mmu s) env 2 vpid vaddr).
  { unfold page_read. apply list_fmap_ext. intros k i _. by rewrite before_add. }
  rewrite Edata. clear Edata. rewrite before_add. rewrite drop_drop.
  erewrite quietly_run; [|rewrite HM_bind_eq; cbn [get fst set_mmu swap_manager set_swap]; rewrite Hq, Hout; reflexivity].
  cbn iota. rewrite (shared_run _ _ _ _ _ u true).
  2:{ cbn [set_mmu set_swap mmu]. rewrite before_add. unfold unmap. change (1 + 4096 + 1)%nat with 4098%nat. by rewrite Hun. }
  rewrite (quietly_run _ _ _ _ _ _ _ true) by (apply free_frame_eq; exact Hfr).
  erewrite quietly_run by reflexivity.
  erewrite quietly_run by (apply allocate_frames_eq; exact Hag).
  cbn iota. rewrite drop_drop. rewrite Hq. reflexivity.
Qed.

Lemma map_fresh_accesses_run connected pid v f s rs env :
  map_fresh_accesses connected pid v f ((s, rs), env) =
    with_schedule (drop 1 env) (map_fresh connected pid v f (set_mmu (before (mmu s) env 1) s, rs)).
Proof.
  unfold map_fresh_accesses, map_fresh, change. erewrite shared_run by reflexivity. rewrite HM_bind_eq.
  unfold quietly. by destruct connected.
Qed.

(** A fault of process [pid] at [a] that is served by swapping out page [vaddr] of
    process [vpid] from its frame to slot [n]. *)
Definition swaps_out (s : MemoryService) (pid : Pid) (a : VirtAddr) (vpid : Pid) (vaddr : VirtAddr) (vframe : PhysAddr) (n : N) : Prop :=
  service_wf s /\ a < 2 ^ 64 /\ vaddr < 2 ^ 64 /\ swapped_pages s !! pid ≫= (.!! page_base a) = None /\
  FrameAlloc.free_count (FrameAlloc.allocator (memory_manager s)) = 0 /\
  find_victim_page (mmu s) pid = Some (vpid, vaddr, vframe) /\
  (exists f, FrameAlloc.frames (FrameAlloc.allocator (memory_manager s)) !! N.to_nat (vframe / 4096) = Some f /\
     FrameAlloc.owner f = Some vpid) /\
  Swap.enabled (swap_manager s) = true /\ head (Swap.free_queue (swap_manager s)) = Some n /\
  n * 8 + 8 <= Disk.total_sectors (Swap.disk (swap_manager s)) /\
  Disk.total_sectors (Swap.disk (swap_manager s)) < 2 ^ 32.

Definition bytes_only (env : Schedule) : Prop := Forall (fun x => stored x < 2 ^ 8) (concat env).

Lemma bytes_only_drop n env : bytes_only env -> bytes_only (drop n env).
Proof.
  unfold bytes_only. intros H. rewrite <- (take_drop n env), concat_app in H. by apply Forall_app in H as [_ ?].
Qed.

Definition unmapped (u : Mmu.MMU) (pid : Pid) (v : VirtAddr) : Mmu.MMU := fst (unmap pid v u).
Definition mapped (u : Mmu.MMU) (pid : Pid) (a : VirtAddr) (p : PhysAddr) : Mmu.MMU :=
  Mmu.map_page u pid (page_base a) p (rw_flags true).

(** What the handler has done at the end, given the bytes it has read: the slot, the
    frame and the bookkeeping depend on nothing else. *)
Lemma swaps_out_run s pid a vpid vaddr vframe n :
  swaps_out s pid a vpid vaddr vframe n -> forall data, length data = 4096%nat ->
  exists sw mm g,
    (forall connected rs env, page_read (mmu s) env 2 vpid vaddr = data ->
       page_fault_accesses connected pid a ((s, rs), env) =
         Done (((after_swap_out s mm sw
                   (mapped (before (unmapped (before (mmu s) env 4098) vpid vaddr) (drop 4098 env) 1) pid a (vframe / 4096 * 4096))
                   (<[vpid := <[vaddr := n]> (default ∅ (swapped_pages s !! vpid))]> (swapped_pages s)),
                 if connected then rs ++ [Ok (PhysicalAddr (vframe / 4096 * 4096))] else rs), drop 4099 env), Ok tt)) /\
    (forall u sp, Mmu.wf u -> Mmu.page_size u = 4096 -> service_wf (after_swap_out s mm sw u sp)) /\
    Swap.swap_in sw n = Ok data /\ vframe / 4096 * 4096 < 2 ^ 64 /\
    FrameAlloc.frames (FrameAlloc.allocator mm) !! N.to_nat (vframe / 4096) = Some g /\ FrameAlloc.owner g = Some pid.
Proof.
  intros (Hs & Ha & Hva & Hnsw & Hc & Hv & (f & Hf & Ho) & Hen & Hq & Hn & Ht) data Hd.
  destruct (Swap.free_queue (swap_manager s)) as [|n' q] eqn:Eq; [done|]. injection Hq as ->.
  pose proof Hs as (_ & _ & _ & Hu & Hps & Hsw).
  destruct (swap_victim (swap_manager s) vpid (vaddr / 4096) data n q Hsw Hen Eq Hn Ht Hd)
    as (sl & sw1 & sw2 & Eal & Enum & Eout & Hsw2 & Hin).
  destruct (reuse_victim_frame vpid pid _ f s Hs Hc Hf Ho) as (mm1 & mm2 & g & Efr & Eag & Hs2 & Haddr & Hk & Hog & Hg).
  destruct (find_victim_page_mapped _ _ _ _ _ Hv) as (t & e & Htab & _).
  exists sw2, mm2, g. split_and!; [|intros u sp Hu' Hps'; destruct Hs2 as (?&?&?&_); by split_and!|done..].
  intros connected rs env Hdata. unfold page_fault_accesses. rewrite (quietly_run _ _ _ _ _ s rs s) by done. rewrite Hnsw.
  rewrite HM_bind_eq. cbn [mret HM_ret]. rewrite (quietly_run _ _ _ _ _ _ _ _ (allocate_no_frame _ _ _ Hs Hc)).
  destruct (Mmu.unmap_page (before (mmu s) env 4098) vpid vaddr) as [u|] eqn:Eun.
  2:{ unfold Mmu.unmap_page, before in Eun. by rewrite stores_page_tables, Htab in Eun. }
  rewrite HM_bind_eq, (fault_swap_out_accesses_run _ _ _ _ _ _ _ _ _ n sl sw1 sw2 u mm1 mm2 g) by (try rewrite Hdata; done).
  rewrite HM_bind_eq, map_fresh_accesses_run. unfold map_fresh. rewrite HM_bind_eq. cbn [update]. rewrite Haddr.
  unfold unmapped, unmap. rewrite Eun, drop_drop. by destruct connected.
Qed.

Lemma unmapped_set u pid v : exists t, unmapped u pid v = Mmu.set_page_tables u t.
Proof.
  unfold unmapped, unmap, Mmu.unmap_page. destruct (Mmu.page_tables u !! pid); [by eexists|]. exists (Mmu.page_tables u). by destruct u.
Qed.
Lemma unmapped_wf u pid v : Mmu.wf u -> Mmu.wf (unmapped u pid v).
Proof. intros Hu. unfold unmapped, unmap. destruct (Mmu.unmap_page u pid v) eqn:E; [by eapply Mmu.unmap_page_wf|done]. Qed.

(** Both processes see what the handler is for. *)
Lemma remapped_translate u pid a vpid vaddr p l :
  Mmu.wf u -> Mmu.page_size u = 4096 -> a < 2 ^ 64 -> vaddr < 2 ^ 64 -> p < 2 ^ 64 -> p mod 4096 = 0 ->
  Forall (fun x => stored x < 2 ^ 8) l -> Mmu.page_tables u !! vpid <> None ->
  let u' := mapped (stores (unmapped u vpid vaddr) l) pid a p in
  Mmu.wf u' /\ Mmu.page_size u' = 4096 /\
  (forall acc, Mmu.translate u' pid a acc = Ok (p + a mod 4096)) /\
  (forall acc, vpid <> pid \/ page_base vaddr <> page_base a -> Mmu.translate u' vpid vaddr acc = Err (Mmu.PageNotPresent vpid vaddr)).
Proof.
  intros Hu Hps Ha Hva Hp Hmod Hl Htab u'. set (w := stores (unmapped u vpid vaddr) l).
  assert (Hw : Mmu.wf w) by (apply stores_wf; [by apply unmapped_wf|done]).
  assert (Hpw : Mmu.page_size w = 4096).
  { unfold w. rewrite stores_page_size. by destruct (unmapped_set u vpid vaddr) as [t ->]. }
  destruct (map_fresh_translate w pid a p Hw Hpw Ha Hp Hmod) as (Hu' & Hps' & Htr & Hother).
  split_and!; [done|done|done|]. intros acc Hd. unfold u', mapped. rewrite Hother; [|done|].
  - unfold w. rewrite stores_translate. pose proof (Mmu.unmap_page_spec u vpid vaddr acc Hu Hva) as H.
    unfold unmapped, unmap. destruct (Mmu.unmap_page u vpid vaddr); [by apply H|by destruct H].
  - unfold w. rewrite stores_page_tables. unfold unmapped, unmap, Mmu.unmap_page.
    destruct (Mmu.page_tables u !! vpid) as [t|] eqn:E; [|done]. cbn. by rewrite lookup_insert_eq.
Qed.

Lemma page_offset_bound u v i :
  Mmu.wf u -> Mmu.page_size u = 4096 -> v < 2 ^ 64 -> v mod 4096 = 0 -> i < 4096 -> v + i < 2 ^ 64.
Proof.
  intros Hu Hps Hv Hmod Hi. pose proof (Mmu.page_addr_bound u v i Hu Hv) as H.
  rewrite Hps, Mmu.align_down_aligned in H by (try done; by rewrite Hps). by apply H.
Qed.
Lemma page_base_offset u a i :
  Mmu.wf u -> Mmu.page_size u = 4096 -> a < 2 ^ 64 -> i < 4096 ->
  page_base a + i < 2 ^ 64 /\ page_base (page_base a + i) = page_base a /\ (page_base a + i) mod 4096 = i.
Proof.
  intros Hu Hps Ha Hi. pose proof (Mmu.align_down_page u a Hu Ha) as (Hmod & _ & _ & Hlt).
  rewrite Hps, (page_base_align u a Hps) in *. pose proof (page_offset_bound u _ i Hu Hps Hlt Hmod Hi) as Hb.
  split; [done|]. split; [rewrite <- (page_base_align u _ Hps); apply Mmu.align_down_offset; try done; by rewrite Hps|].
  rewrite N.Div0.add_mod, Hmod, N.add_0_l, N.Div0.mod_mod. by apply N.mod_small.
Qed.

(** Where the bytes of the victim page are. *)
Lemma victim_translate s pid a vpid vaddr vframe n i acc p :
  swaps_out s pid a vpid vaddr vframe n -> vaddr mod 4096 = 0 -> i < 4096 ->
  Mmu.translate (mmu s) vpid (vaddr + i) acc = Ok p -> vframe mod 4096 = 0 /\ p = vframe + i.
Proof.
  intros (Hs & _ & Hva & _ & _ & Hv & _) Hmod Hi Htr. pose proof Hs as (_ & _ & _ & Hu & Hps & _).
  destruct (find_victim_page_mapped _ _ _ _ _ Hv) as (t & e & Ht & He & Hfr & _).
  pose proof (page_offset_bound (mmu s) vaddr i Hu Hps Hva Hmod Hi) as Hlt.
  apply Mmu.translate_ok in Htr as (t' & e' & Ht' & He' & _ & _ & -> & _); [|done..].
  rewrite Mmu.align_down_offset in * by (try done; by rewrite Hps). simplify_eq.
  destruct Hu as (_ & _ & Hu). destruct (Hu vpid t' vaddr e') as [Hm _]; [done..|]. rewrite Hps in Hm. split; [done|lia].
Qed.

Lemma head_of_victim s pid a vpid vaddr vframe n :
  swaps_out s pid a vpid vaddr vframe n ->
  service_wf s /\ a < 2 ^ 64 /\ vaddr < 2 ^ 64 /\ Mmu.wf (mmu s) /\ Mmu.page_size (mmu s) = 4096 /\ Mmu.page_tables (mmu s) !! vpid <> None.
Proof.
  intros (Hs & Ha & Hva & _ & _ & Hv & _). pose proof Hs as (_ & _ & _ & Hu & Hps & _).
  destruct (find_victim_page_mapped _ _ _ _ _ Hv) as (t & e & Ht & _). rewrite Ht. by split_and!.
Qed.

(** The outcome of the handler whatever the CPUs store meanwhile. *)
Lemma swaps_out_outcome connected s pid a vpid vaddr vframe n rs env :
  swaps_out s pid a vpid vaddr vframe n -> vframe mod 4096 = 0 -> bytes_only env ->
  exists s' f', page_fault_accesses connected pid a ((s, rs), env) =
      Done (((s', if connected then rs ++ [Ok (PhysicalAddr vframe)] else rs), drop 4099 env), Ok tt) /\
    service_wf s' /\
    Swap.swap_in (swap_manager s') n = Ok (page_read (mmu s) env 2 vpid vaddr) /\
    swapped_pages s' !! vpid ≫= (.!! vaddr) = Some n /\
    FrameAlloc.frames (FrameAlloc.allocator (memory_manager s')) !! N.to_nat (vframe / 4096) = Some f' /\
    FrameAlloc.owner f' = Some pid /\
    mmu s' = mapped (before (unmapped (before (mmu s) env 4098) vpid vaddr) (drop 4098 env) 1) pid a vframe /\
    (forall acc, Mmu.translate (mmu s') pid a acc = Ok (vframe + a mod 4096)) /\
    (forall acc, vpid <> pid \/ page_base vaddr <> page_base a ->
       Mmu.translate (mmu s') vpid vaddr acc = Err (Mmu.PageNotPresent vpid vaddr)).
Proof.
  intros Hsw Hmod Henv. destruct (swaps_out_run _ _ _ _ _ _ _ Hsw _ (length_page_read (mmu s) env 2 vpid vaddr))
    as (sw & mm & g & Hrun & Hwf & Hin & Hlt & Hg & Hog).
  destruct (head_of_victim _ _ _ _ _ _ _ Hsw) as (Hs & Ha & Hva & Hu & Hps & Htab).
  assert (vframe / 4096 * 4096 = vframe) as Evf by (pose proof (N.div_mod vframe 4096 ltac:(done)); lia).
  rewrite Evf in *. specialize (Hrun connected rs env eq_refl).
  destruct (remapped_translate (before (mmu s) env 4098) pid a vpid vaddr vframe (concat (take 1 (drop 4098 env))))
    as (Hu' & Hps' & Htr & Hun); try done.
  - by apply before_wf.
  - unfold before. by rewrite stores_page_size.
  - apply (bytes_only_drop 4098) in Henv. unfold bytes_only in Henv. rewrite <- (take_drop 1 (drop 4098 env)), concat_app in Henv.
    by apply Forall_app in Henv as [? _].
  - unfold before. by rewrite stores_page_tables.
  - eexists _, g. split_and!; [exact Hrun|by apply Hwf|exact Hin| |exact Hg|exact Hog|done|exact Htr|exact Hun].
    cbn [swapped_pages after_swap_out]. rewrite lookup_insert_eq. cbn [mbind option_bind]. by rewrite lookup_insert_eq.
Qed.

(** a schedule with a single store, before access [k] (from 0) *)
Definition once (k : nat) (x : Store) : Schedule := replicate k [] ++ [[x]].

Lemma before_once u k x j : before u (once k x) j = if (j <=? k)%nat then u else store u x.
Proof.
  unfold before, once. assert (concat (replicate k (@nil Store)) = []) as E by (induction k; done).
  destruct (Nat.leb_spec j k) as [Hj|Hj].
  - rewrite take_app_le by (by rewrite length_replicate). rewrite take_replicate. clear E.
    by assert (concat (replicate (j `min` k) (@nil Store)) = []) as -> by (induction (j `min` k)%nat; done).
  - rewrite take_ge by (rewrite length_app, length_replicate; cbn; lia). by rewrite concat_app, E.
Qed.
Lemma drop_once k x j : (k < j)%nat -> drop j (once k x) = [].
Proof. intros Hj. apply drop_ge. unfold once. rewrite length_app, length_replicate. cbn. lia. Qed.
Lemma once_bytes k x : stored x < 2 ^ 8 -> bytes_only (once k x).
Proof.
  intros Hx. unfold bytes_only, once. assert (concat (replicate k (@nil Store)) = []) as E by (induction k; done).
  rewrite concat_app, E. by repeat constructor.
Qed.

Lemma read_set_byte m p x :
  PhysMem.wf m -> PhysMem.check_bounds m p 1 = Ok tt -> PhysMem.read_u8 (PhysMem.set_byte m p x) p = Ok x.
Proof.
  intros Hm Hb. unfold PhysMem.read_u8.
  change (PhysMem.check_bounds (PhysMem.set_byte m p x) p 1) with (PhysMem.check_bounds m p 1). rewrite Hb. rstep.
  pose proof (PhysMem.range_in_data _ _ _ 0 _ Hm Hb ltac:(lia)) as Hr. rewrite N.add_0_r in Hr.
  by rewrite PhysMem.byte_at_set_byte, N.eqb_refl by done.
Qed.

(** C40: a store is lost.  While the handler copies the victim page to the swap
    device, a CPU stores a byte into it after that byte was read and before the page
    is unmapped: the slot keeps the old byte, the victim no longer has the page, and
    the process that gets the frame reads the new byte.  In no order of the store and
    an indivisible handler does this happen. *)
Theorem late_store_is_lost connected s pid a vpid vaddr vframe n i k x u1 rs :
  swaps_out s pid a vpid vaddr vframe n -> vaddr mod 4096 = 0 -> i < 4096 -> x < 2 ^ 8 ->
  (N.to_nat i + 2 <= k <= 4097)%nat -> Mmu.write_u8 (mmu s) vpid (vaddr + i) x = Ok u1 ->
  vpid <> pid \/ page_base vaddr <> page_base a ->
  let late := {| by_pid := vpid; at_vaddr := vaddr + i; stored := x |} in
  exists s' data, page_fault_accesses connected pid a ((s, rs), once k late) =
      Done (((s', if connected then rs ++ [Ok (PhysicalAddr vframe)] else rs), []), Ok tt) /\
    Swap.swap_in (swap_manager s') n = Ok data /\ data !! N.to_nat i = Some (read_byte vpid (vaddr + i) (mmu s)) /\
    (forall acc, Mmu.translate (mmu s') vpid vaddr acc = Err (Mmu.PageNotPresent vpid vaddr)) /\
    Mmu.read_u8 (mmu s') pid (page_base a + i) = Ok x.
Proof.
  intros Hsw Hal Hi Hx Hk Hw Hd late.
  destruct (Mmu.write_u8_inv _ _ _ _ _ Hw) as (p & Htr & Hb & Eu1).
  destruct (victim_translate _ _ _ _ _ _ _ _ _ _ Hsw Hal Hi Htr) as [Hmod ->].
  destruct (head_of_victim _ _ _ _ _ _ _ Hsw) as (Hs & Ha & Hva & Hu & Hps & Htab).
  destruct (swaps_out_outcome connected _ _ _ _ _ _ _ rs (once k late) Hsw Hmod (once_bytes k late Hx))
    as (s' & f' & Hrun & _ & Hin & _ & _ & _ & Emmu & Htr' & Hun).
  rewrite drop_once in Hrun by lia. exists s', (page_read (mmu s) (once k late) 2 vpid vaddr).
  split_and!; [done|done| |by intros acc; apply Hun|].
  - unfold page_read. rewrite list_lookup_fmap, lookup_seq_lt by lia. cbn [fmap option_fmap option_map].
    rewrite before_once. destruct (Nat.leb_spec (2 + (0 + N.to_nat i)) k); [|lia]. do 2 f_equal.
    rewrite Nat.add_0_l, N2Nat.id. apply wadd64_small. by apply (page_offset_bound (mmu s)).
  - destruct (page_base_offset (mmu s) a i Hu Hps Ha Hi) as (Hb1 & Eb & Em). rewrite Emmu, drop_once by lia.
    rewrite before_once. destruct (Nat.leb_spec 4098 k); [lia|]. unfold store. cbn [by_pid at_vaddr stored late]. rewrite Hw, Eu1.
    set (w := unmapped _ vpid vaddr).
    assert (Hw' : Mmu.wf w).
    { apply unmapped_wf, Mmu.set_memory_wf, PhysMem.set_byte_wf; try done. by destruct Hu as (_ & ? & _). }
    assert (Hpw : Mmu.page_size w = 4096) by (unfold w; by destruct (unmapped_set (Mmu.set_memory (mmu s) (PhysMem.set_byte (Mmu.memory (mmu s)) (vframe + i) x)) vpid vaddr) as [t ->]).
    destruct (Mmu.translate_ok _ _ _ _ _ Hu (page_offset_bound _ _ _ Hu Hps Hva Hal Hi) Htr) as (_ & _ & _ & _ & _ & _ & _ & Hlt).
    destruct (map_fresh_translate w pid (page_base a + i) vframe Hw' Hpw Hb1 ltac:(lia) Hmod) as (_ & _ & Hread & _).
    rewrite Eb, Em in Hread. unfold Mmu.read_u8, mapped. change (before w [] 1) with w. rewrite Hread. rstep.
    change (Mmu.memory (Mmu.map_page w pid (page_base a) vframe (rw_flags true))) with (Mmu.memory w).
    destruct (unmapped_set (Mmu.set_memory (mmu s) (PhysMem.set_byte (Mmu.memory (mmu s)) (vframe + i) x)) vpid vaddr) as [t Et].
    unfold w. rewrite Et. cbn [Mmu.memory Mmu.set_page_tables Mmu.set_memory]. by rewrite read_set_byte by (by destruct Hu as (_ & ? & _)).
Qed.

(** ** Stores that keep off the page that is moved *)

(** the physical byte a store goes to *)
Definition target (u : Mmu.MMU) (x : Store) : option PhysAddr :=
  match Mmu.translate u (by_pid x) (at_vaddr x) Write with Ok p => Some p | Err _ => None end.

Lemma store_target u x : store u x =
  match target u x with
  | Some p => match PhysMem.write_u8 (Mmu.memory u) p (stored x) with Ok mem => Mmu.set_memory u mem | Err _ => u end
  | None => u
  end.
Proof.
  unfold store, target, Mmu.write_u8. destruct (Mmu.translate _ _ _ _) as [p|]; rstep; [|done].
  by destruct (PhysMem.write_u8 _ _ _).
Qed.
Lemma target_stores u l x : target (stores u l) x = target u x.
Proof. unfold target. by rewrite stores_translate. Qed.

(** a store and a change of the page tables that does not concern it *)
Lemma store_set_tables u t x : target (Mmu.set_page_tables u t) x = target u x ->
  store (Mmu.set_page_tables u t) x = Mmu.set_page_tables (store u x) t.
Proof.
  intros E. rewrite !store_target, E. destruct (target u x) as [p|]; [|done]. cbn [Mmu.memory Mmu.set_page_tables].
  by destruct (PhysMem.write_u8 _ _ _).
Qed.
Lemma stores_set_tables t l : forall u, Forall (fun x => target (Mmu.set_page_tables u t) x = target u x) l ->
  stores (Mmu.set_page_tables u t) l = Mmu.set_page_tables (stores u l) t.
Proof.
  induction l as [|x l IH]; intros u Hl; [done|]. inversion Hl as [|? ? Hx Hl']; subst. cbn [stores foldl].
  rewrite store_set_tables by done. apply IH. eapply list.Forall_impl; [exact Hl'|]. intros y Hy. cbn beta.
  destruct (store_memory u x) as [mem ->]. exact Hy.
Qed.

Definition off_page (pid : Pid) (v : VirtAddr) (x : Store) : Prop := by_pid x <> pid \/ page_base (at_vaddr x) <> page_base v.

Lemma target_off_page u t pid v x (f : gmap VirtAddr Mmu.PageTableEntry -> gmap VirtAddr Mmu.PageTableEntry) :
  Mmu.page_size u = 4096 -> off_page pid v x -> t = <[pid := f (default ∅ (Mmu.page_tables u !! pid))]> (Mmu.page_tables u) ->
  (forall m k, k <> page_base v -> f m !! k = m !! k) -> target (Mmu.set_page_tables u t) x = target u x.
Proof.
  intros Hps Hoff -> Hf. unfold target, Mmu.translate. change (Mmu.align_down (Mmu.set_page_tables u _)) with (Mmu.align_down u).
  rewrite page_base_align by done. cbn [Mmu.page_tables Mmu.set_page_tables]. rewrite lookup_insert. case_decide as Hp; [|done].
  subst pid. destruct Hoff as [?|Hne]; [done|]. rstep. rewrite Hf by done.
  destruct (Mmu.page_tables u !! by_pid x) as [m|]; cbn [from_option]; rstep; [done|]. unfold id. by rewrite lookup_empty.
Qed.

Lemma stores_unmapped u pid v l : Mmu.page_size u = 4096 -> Forall (off_page pid v) l ->
  unmapped (stores u l) pid v = stores (unmapped u pid v) l.
Proof.
  intros Hps Hl. unfold unmapped, unmap, Mmu.unmap_page. rewrite stores_page_tables.
  destruct (Mmu.page_tables u !! pid) as [m|] eqn:Em; rstep; cbn [fst]; [|done]. rewrite stores_set_tables.
  - f_equal. by rewrite !page_base_align by (try rewrite stores_page_size; done).
  - eapply list.Forall_impl; [exact Hl|]. intros x Hx. cbn beta.
    apply (target_off_page u _ pid v x (delete (page_base v))); [done|done|by rewrite Em, page_base_align|].
    intros m' k Hk. by apply lookup_delete_ne.
Qed.
Lemma stores_mapped u pid a p l : Mmu.page_size u = 4096 -> page_base (page_base a) = page_base a -> Forall (off_page pid a) l ->
  mapped (stores u l) pid a p = stores (mapped u pid a p) l.
Proof.
  intros Hps Eb Hl. unfold mapped, Mmu.map_page. rewrite stores_page_tables. rewrite stores_set_tables.
  - unfold Mmu.align_down. by rewrite stores_page_size.
  - eapply list.Forall_impl; [exact Hl|]. intros x Hx. cbn beta.
    eapply (target_off_page u _ pid a x (<[page_base a := _]>)); [done|done|by rewrite page_base_align, Eb|].
    intros m' k Hk. by apply lookup_insert_ne.
Qed.

Lemma read_byte_store u pid v x :
  (forall q, Mmu.translate u pid v Read = Ok q -> target u x <> Some q) -> read_byte pid v (store u x) = read_byte pid v u.
Proof.
  intros Hne. rewrite store_target. destruct (target u x) as [p|] eqn:Ex; [|done].
  unfold PhysMem.write_u8. destruct (PhysMem.check_bounds (Mmu.memory u) p 1); rstep; [|done].
  unfold read_byte, Mmu.read_u8. rewrite Mmu.translate_set_memory.
  destruct (Mmu.translate u pid v Read) as [q|]; rstep; [|done]. unfold PhysMem.read_u8. cbn [Mmu.memory Mmu.set_memory].
  change (PhysMem.check_bounds (PhysMem.set_byte (Mmu.memory u) p (stored x)) q 1) with (PhysMem.check_bounds (Mmu.memory u) q 1).
  destruct (PhysMem.check_bounds (Mmu.memory u) q 1); rstep; [|done]. unfold PhysMem.byte_at, PhysMem.set_byte. cbn [PhysMem.data].
  rewrite list_lookup_total_insert_ne; [done|]. intros E%N2Nat.inj. subst p. by apply (Hne q).
Qed.
Lemma read_byte_stores pid v l : forall u,
  (forall q, Mmu.translate u pid v Read = Ok q -> Forall (fun x => target u x <> Some q) l) ->
  read_byte pid v (stores u l) = read_byte pid v u.
Proof.
  induction l as [|x l IH]; intros u Hne; [done|]. cbn [stores foldl].
  transitivity (read_byte pid v (store u x)); [|apply read_byte_store; intros q Hq; specialize (Hne q Hq); by inversion Hne].
  apply IH. intros q Hq. destruct (store_memory u x) as [mem E]. rewrite E in Hq |- *.
  specialize (Hne q Hq). inversion Hne as [|? ? _ Hl]; subst. exact Hl.
Qed.

(** a store that touches neither the page that is swapped out nor the one that comes in *)
Definition keeps_off (s : MemoryService) (pid : Pid) (a : VirtAddr) (vpid : Pid) (vaddr : VirtAddr) (vframe : PhysAddr) (x : Store) : Prop :=
  off_page vpid vaddr x /\ off_page pid a x /\ (forall p, target (mmu s) x = Some p -> p / 4096 <> vframe / 4096).

Lemma concat_take_le {A} (l : list (list A)) m n (P : A -> Prop) :
  (m <= n)%nat -> Forall P (concat (take n l)) -> Forall P (concat (take m l)).
Proof.
  intros Hmn H. rewrite <- (take_drop m (take n l)), take_take, Nat.min_l, concat_app in H by done. by apply Forall_app in H as [? _].
Qed.

Lemma page_read_kept s pid a vpid vaddr vframe n env :
  swaps_out s pid a vpid vaddr vframe n -> vaddr mod 4096 = 0 ->
  Forall (keeps_off s pid a vpid vaddr vframe) (concat (take 4099 env)) ->
  page_read (mmu s) env 2 vpid vaddr = page_bytes (mmu s) vpid vaddr.
Proof.
  intros Hsw Hal Hoff. destruct (head_of_victim _ _ _ _ _ _ _ Hsw) as (_ & _ & Hva & Hu & Hps & _).
  unfold page_read, page_bytes. apply list_fmap_ext. intros k i Hi. apply lookup_seq in Hi as [-> Hk]. cbn [Nat.add] in *.
  apply (read_byte_stores vpid). intros q Hq. apply (concat_take_le env (2 + k) 4099) in Hoff; [|lia].
  eapply list.Forall_impl; [exact Hoff|]. intros x (_ & _ & Hx) E. apply (Hx q E).
  assert (Hk' : N.of_nat k < 4096) by lia.
  pose proof (page_offset_bound _ _ _ Hu Hps Hva Hal Hk') as Hlt. rewrite wadd64_small in Hq by done.
  destruct (victim_translate _ _ _ _ _ _ _ _ _ _ Hsw Hal Hk' Hq) as [Hmod ->].
  pose proof (N.div_mod vframe 4096 ltac:(done)) as Ev. rewrite Hmod, N.add_0_r in Ev.
  symmetry. apply (N.div_unique _ _ _ (N.of_nat k)); lia.
Qed.

Lemma moved_pages_commute u env k vpid vaddr pid a p :
  Mmu.page_size u = 4096 -> page_base (page_base a) = page_base a ->
  Forall (off_page vpid vaddr) (concat (take (S k) env)) -> Forall (off_page pid a) (concat (take (S k) env)) ->
  mapped (before (unmapped (before u env k) vpid vaddr) (drop k env) 1) pid a p =
    stores (mapped (unmapped u vpid vaddr) pid a p) (concat (take (S k) env)).
Proof.
  intros Hps Eb Hv Ha. unfold before at 2. rewrite stores_unmapped by (first [done | by eapply concat_take_le; [|exact Hv]; lia]).
  fold (before (unmapped u vpid vaddr) env k). rewrite before_add, Nat.add_1_r. unfold before. apply stores_mapped; [|done..].
  by destruct (unmapped_set u vpid vaddr) as [t ->].
Qed.

(** C16: linearizability.  While a fault is served by swapping a page out, stores of the
    CPUs that touch neither the page that goes nor the page that comes have the effect
    of the same stores made after the handler: state, answer and memory are those of
    the indivisible handler followed by the stores. *)
Theorem stores_linearize connected s pid a acc vpid vaddr vframe n rs env :
  swaps_out s pid a vpid vaddr vframe n -> vaddr mod 4096 = 0 ->
  Forall (keeps_off s pid a vpid vaddr vframe) (concat (take 4099 env)) ->
  exists s1 rs1, handle_page_fault_with_response connected pid a acc (s, rs) = Done ((s1, rs1), Ok tt) /\
    page_fault_accesses connected pid a ((s, rs), env) =
      Done (((set_mmu (stores (mmu s1) (concat (take 4099 env))) s1, rs1), drop 4099 env), Ok tt).
Proof.
  intros Hsw Hal Hoff. destruct (head_of_victim _ _ _ _ _ _ _ Hsw) as (_ & Ha & _ & Hu & Hps & _).
  destruct (swaps_out_run _ _ _ _ _ _ _ Hsw _ (length_page_bytes (mmu s) vpid vaddr)) as (sw & mm & g & Hrun & _).
  pose proof (Hrun connected rs env (page_read_kept _ _ _ _ _ _ _ _ Hsw Hal Hoff)) as Henv.
  specialize (Hrun connected rs [] (page_read_kept _ _ _ _ _ _ _ _ Hsw Hal ltac:(by rewrite take_nil))).
  rewrite (page_fault_alone connected pid a acc (s, rs)) in Hrun.
  destruct (handle_page_fault_with_response connected pid a acc (s, rs)) as [[[s1 rs1] r]| |]; try done.
  injection Hrun as -> -> ->. eexists _, _. split; [reflexivity|]. rewrite Henv.
  assert (Eb : page_base (page_base a) = page_base a).
  { by destruct (page_base_offset (mmu s) a 0 Hu Hps Ha) as (_ & Eb & _); [|rewrite N.add_0_r in Eb]. }
  rewrite (moved_pages_commute _ env 4098) by (first [done | eapply list.Forall_impl; [exact Hoff|by intros x (? & ? & _)]]).
  reflexivity.
Qed.


(** ** Examples: two frames, both of process 5; process 7 faults *)

Lemma demo_swaps_out mem d s :
  PhysMem.wf mem -> Disk.total_sectors d = 40 -> demo_full_service mem d = Done s ->
  swaps_out s 7 0x3234 5 0x2000 4096 0 /\ Mmu.memory (mmu s) = mem /\
  Mmu.translate (mmu s) 5 0x2007 Write = Ok 0x1007 /\ Mmu.translate (mmu s) 5 0x1003 Write = Ok 3.
Proof.
  intros Hmem Hd E. pose proof (demo_full_service_wf mem d s Hmem E) as Hs. vm_compute in E. injection E as E.
  split; [|by rewrite <- E]. split_and!; try (by rewrite <- E); try done.
  - eexists. split; by rewrite <- E.
  - rewrite <- E. cbn. rewrite Hd. done.
  - rewrite <- E. cbn. rewrite Hd. done.
Qed.

Lemma answered_under_stores_witness :
  exists s s' rs' env' r, demo_full_service demo_memory Swap.demo_swap_disk = Done s /\
    request_accesses true (UnmapPage 5 0x1000)
      ((s, []), [[{| by_pid := 5; at_vaddr := 0x1003; stored := 9 |}]]) = Done (((s', rs'), env'), r) /\
    service_inv s' /\ answers r (length rs').
Proof.
  generalize demo_memory demo_memory_wf Swap.demo_swap_disk. intros mem Hmem d.
  destruct (demo_full_service mem d) as [s| |] eqn:E; [|vm_compute in E; discriminate..].
  pose proof (answered_under_stores (UnmapPage 5 0x1000) s [] [[{| by_pid := 5; at_vaddr := 0x1003; stored := 9 |}]]
    (service_wf_inv s (demo_full_service_wf mem d s Hmem E))) as H.
  destruct (request_accesses true _ _) as [[[[s' rs'] env'] r]| |] eqn:Er; [|destruct H|discriminate H].
  destruct H as (Hs & ex & Eex & Hex). subst rs'. exists s, s', ex, env', r. split_and!; [reflexivity|exact Er|exact Hs|exact Hex].
Defined.

Lemma late_store_is_lost_witness :
  exists s s' data, demo_full_service demo_memory Swap.demo_swap_disk = Done s /\
    page_fault_accesses true 7 0x3234
      ((s, []), once 100 {| by_pid := 5; at_vaddr := 0x2000 + 7; stored := 0xAB |}) =
        Done (((s', [Ok (PhysicalAddr 4096)]), []), Ok tt) /\
    Swap.swap_in (swap_manager s') 0 = Ok data /\ data !! 7%nat = Some (read_byte 5 0x2007 (mmu s)) /\
    Mmu.read_u8 (mmu s') 7 0x3007 = Ok 0xAB.
Proof.
  assert (Hsize : PhysMem.size demo_memory = 8192) by reflexivity. revert Hsize.
  generalize demo_memory demo_memory_wf Swap.demo_swap_disk demo_disk_facts. intros mem Hmem d [Hd _] Hsize.
  destruct (demo_full_service mem d) as [s| |] eqn:E; [|vm_compute in E; discriminate..].
  destruct (demo_swaps_out mem d s Hmem Hd E) as (Hsw & Emem & Htr & _).
  assert (Hw : Mmu.write_u8 (mmu s) 5 (0x2000 + 7) 0xAB =
    Ok (Mmu.set_memory (mmu s) (PhysMem.set_byte mem 0x1007 0xAB))).
  { change (0x2000 + 7) with 0x2007. unfold Mmu.write_u8. rewrite Htr. cbn [mbind result_bind]. rewrite Emem. unfold PhysMem.write_u8, PhysMem.check_bounds.
    rewrite Hsize. reflexivity. }
  destruct (late_store_is_lost true s 7 0x3234 5 0x2000 4096 0 7 100 0xAB
    (Mmu.set_memory (mmu s) (PhysMem.set_byte mem 0x1007 0xAB)) [] Hsw) as (s' & data & H & Hin & Hold & _ & Hnew);
    [reflexivity|reflexivity|reflexivity|cbn; lia|exact Hw|left; discriminate|].
  exists s, s', data. split_and!; [reflexivity|exact H|exact Hin|exact Hold|exact Hnew].
Defined.

Lemma stores_linearize_witness :
  exists s s1 rs1, demo_full_service demo_memory Swap.demo_swap_disk = Done s /\
    handle_page_fault_with_response true 7 0x3234 Read (s, []) = Done ((s1, rs1), Ok tt) /\
    page_fault_accesses true 7 0x3234
      ((s, []), once 2 {| by_pid := 5; at_vaddr := 0x1003; stored := 9 |}) =
      Done (((set_mmu (stores (mmu s1) [{| by_pid := 5; at_vaddr := 0x1003; stored := 9 |}]) s1, rs1), []), Ok tt).
Proof.
  generalize demo_memory demo_memory_wf Swap.demo_swap_disk demo_disk_facts. intros mem Hmem d [Hd _].
  destruct (demo_full_service mem d) as [s| |] eqn:E; [|vm_compute in E; discriminate..].
  destruct (demo_swaps_out mem d s Hmem Hd E) as (Hsw & _ & _ & Htr).
  destruct (stores_linearize true s 7 0x3234 Read 5 0x2000 4096 0 []
    (once 2 {| by_pid := 5; at_vaddr := 0x1003; stored := 9 |}) Hsw) as (s1 & rs1 & H1 & H2); [reflexivity| |].
  - constructor; [|constructor]. split; [right; by vm_compute|]. split; [by left|]. intros p. unfold target.
    cbn [by_pid at_vaddr]. rewrite Htr. intros [= <-]. by vm_compute.
  - exists s, s1, rs1. split_and!; [reflexivity|exact H1|exact H2].
Defined.
