(* ===== verification/HwDevices.v ===== *)
(** * Hardware devices and their registry (src/src/hardware/device.rs)

    The trait that devices implement is the class [HwDevice]; a trait object is
    the record [Dyn], an implementation with a value of it.  Keyboard, serial port
    and network card are its three implementations.  A registered device that a
    handle gives access to is the entry of the registry.  Characters are Unicode
    scalar values, texts their bytes. *)
From Stdlib Require String.
Import (notations) String.
From S2P Require Import Prelude Types Messages Text.
From S2P Require Assembler.

Inductive DeviceType := BlockDevice | CharDevice | NetworkDevice_ | TimerDevice | GraphicsDevice | Unknown.
#[export] Instance hw_type_eq_dec : EqDecision DeviceType.
Proof. solve_decision. Defined.
Inductive DeviceStatus := Online | Offline | Error | Busy | Initializing.
#[export] Instance hw_status_eq_dec : EqDecision DeviceStatus.
Proof. solve_decision. Defined.

Record DeviceSnapshot := {
  snap_device_id : N; snap_device_type : DeviceType; snap_name : str; snap_status : DeviceStatus; state_data : str }.

(** [HardwareError::Device], with the identifier of the device *)
Inductive HwError := DeviceError (i : N).

(** what every device does; [init], [shutdown] and [reset] may fail *)
Class HwDevice (D : Type) := {
  device_id : D -> N;
  device_type : D -> DeviceType;
  device_name : D -> str;
  status : D -> DeviceStatus;
  init : SE D HwError unit;
  shutdown : SE D HwError unit;
  reset : SE D HwError unit;
  snapshot : D -> DeviceSnapshot }.

(** ** Keyboard *)

Record KeyboardDevice := { kbd_id : N; kbd_status : DeviceStatus; kbd_buffer : list N }.
Definition KeyboardDevice_new (i : N) : KeyboardDevice := {| kbd_id := i; kbd_status := Online; kbd_buffer := [] |}.
Definition kbd_set (st : DeviceStatus) (b : list N) (k : KeyboardDevice) : KeyboardDevice :=
  {| kbd_id := kbd_id k; kbd_status := st; kbd_buffer := b |}.
Definition key_press (c : N) (k : KeyboardDevice) : KeyboardDevice := kbd_set (kbd_status k) (kbd_buffer k ++ [c]) k.
Definition read_char (k : KeyboardDevice) : KeyboardDevice * option N :=
  match kbd_buffer k with [] => (k, None) | c :: b => (kbd_set (kbd_status k) b k, Some c) end.
Definition has_key (k : KeyboardDevice) : bool := negb (bool_decide (kbd_buffer k = [])).

#[export] Instance keyboard : HwDevice KeyboardDevice := {
  device_id := kbd_id;
  device_type _ := CharDevice;
  device_name _ := Assembler.B "keyboard";
  status := kbd_status;
  init k := (kbd_set Online (kbd_buffer k) k, Ok tt);
  shutdown k := (kbd_set Offline (kbd_buffer k) k, Ok tt);
  reset k := (kbd_set Online [] k, Ok tt);
  snapshot k := {| snap_device_id := kbd_id k; snap_device_type := CharDevice; snap_name := Assembler.B "keyboard";
                   snap_status := kbd_status k; state_data := Assembler.B "buffer_size: " ++ decimal (len (kbd_buffer k)) |} }.

(** ** Serial port *)

Record SerialDevice := { ser_id : N; ser_status : DeviceStatus; tx_buffer : list N; rx_buffer : list N; baud_rate : N }.
Definition SerialDevice_new (i baud : N) : SerialDevice :=
  {| ser_id := i; ser_status := Online; tx_buffer := []; rx_buffer := []; baud_rate := baud |}.
Definition ser_set (st : DeviceStatus) (tx rx : list N) (s : SerialDevice) : SerialDevice :=
  {| ser_id := ser_id s; ser_status := st; tx_buffer := tx; rx_buffer := rx; baud_rate := baud_rate s |}.
Definition write_byte (b : N) : SE SerialDevice HwError unit := fun s =>
  (ser_set (ser_status s) (tx_buffer s ++ [b]) (rx_buffer s) s, Ok tt).
Definition read_byte (s : SerialDevice) : SerialDevice * option N :=
  match rx_buffer s with [] => (s, None) | b :: rx => (ser_set (ser_status s) (tx_buffer s) rx s, Some b) end.
Definition receive_data (bs : list N) (s : SerialDevice) : SerialDevice :=
  ser_set (ser_status s) (tx_buffer s) (rx_buffer s ++ bs) s.
Definition get_tx_data (s : SerialDevice) : list N := tx_buffer s.

#[export] Instance serial : HwDevice SerialDevice := {
  device_id := ser_id;
  device_type _ := CharDevice;
  device_name _ := Assembler.B "serial";
  status := ser_status;
  init s := (ser_set Online (tx_buffer s) (rx_buffer s) s, Ok tt);
  shutdown s := (ser_set Offline (tx_buffer s) (rx_buffer s) s, Ok tt);
  reset s := (ser_set Online [] [] s, Ok tt);
  snapshot s := {| snap_device_id := ser_id s; snap_device_type := CharDevice;
                   snap_name := Assembler.B "serial@" ++ decimal (baud_rate s); snap_status := ser_status s;
                   state_data := Assembler.B "tx: " ++ decimal (len (tx_buffer s)) ++ Assembler.B " bytes, rx: " ++
                                 decimal (len (rx_buffer s)) ++ Assembler.B " bytes" |} }.

(** ** Network card *)

Record NetworkDevice := {
  nic_id : N; nic_status : DeviceStatus; mac_address : list N; rx_queue : list (list N); tx_queue : list (list N) }.
Definition NetworkDevice_new (i : N) (mac : list N) : NetworkDevice :=
  {| nic_id := i; nic_status := Online; mac_address := mac; rx_queue := []; tx_queue := [] |}.
Definition nic_set (st : DeviceStatus) (rx tx : list (list N)) (n : NetworkDevice) : NetworkDevice :=
  {| nic_id := nic_id n; nic_status := st; mac_address := mac_address n; rx_queue := rx; tx_queue := tx |}.
Definition send_packet (p : list N) : SE NetworkDevice HwError unit := fun n =>
  if bool_decide (nic_status n = Online) then (nic_set (nic_status n) (rx_queue n) (tx_queue n ++ [p]) n, Ok tt)
  else (n, Err (DeviceError (nic_id n))).
Definition receive_packet (n : NetworkDevice) : NetworkDevice * option (list N) :=
  match rx_queue n with [] => (n, None) | p :: rx => (nic_set (nic_status n) rx (tx_queue n) n, Some p) end.
Definition inject_packet (p : list N) (n : NetworkDevice) : NetworkDevice :=
  nic_set (nic_status n) (rx_queue n ++ [p]) (tx_queue n) n.
Definition has_packet (n : NetworkDevice) : bool := negb (bool_decide (rx_queue n = [])).

(** [{:02X}] *)
Definition hex_digit (v : N) : N := if v <? 10 then 48 + v else 55 + v.
Definition hex2 (b : N) : str := [hex_digit (b / 16); hex_digit (b mod 16)].
Fixpoint join_colon (l : list str) : str :=
  match l with [] => [] | [x] => x | x :: l => x ++ [58] ++ join_colon l end.

#[export] Instance network : HwDevice NetworkDevice := {
  device_id := nic_id;
  device_type _ := NetworkDevice_;
  device_name _ := Assembler.B "eth0";
  status := nic_status;
  init n := (nic_set Online (rx_queue n) (tx_queue n) n, Ok tt);
  shutdown n := (nic_set Offline (rx_queue n) (tx_queue n) n, Ok tt);
  reset n := (nic_set Online [] [] n, Ok tt);
  snapshot n := {| snap_device_id := nic_id n; snap_device_type := NetworkDevice_;
                   snap_name := Assembler.B "eth0(" ++ join_colon (hex2 <$> mac_address n) ++ Assembler.B ")";
                   snap_status := nic_status n;
                   state_data := Assembler.B "rx_queue: " ++ decimal (len (rx_queue n)) ++ Assembler.B " packets, tx_queue: " ++
                                 decimal (len (tx_queue n)) ++ Assembler.B " packets" |} }.

(** ** The registry *)

(** a trait object *)
Record Dyn := { carrier : Type; methods : HwDevice carrier; self : carrier }.
Definition dyn {D} `{H : HwDevice D} (d : D) : Dyn := {| carrier := D; methods := H; self := d |}.
(** a method that changes the object *)
Definition dyn_call (f : forall D, HwDevice D -> SE D HwError unit) : SE Dyn HwError unit := fun o =>
  let '(d, r) := f (carrier o) (methods o) (self o) in ({| carrier := carrier o; methods := methods o; self := d |}, r).
Definition dyn_get {A} (f : forall D, HwDevice D -> D -> A) (o : Dyn) : A := f (carrier o) (methods o) (self o).

Record DeviceRegistry := { reg_devices : gmap N Dyn; reg_next_id : N }.
Definition DeviceRegistry_new : DeviceRegistry := {| reg_devices := ∅; reg_next_id := 1 |}.
Definition register_device (d : Dyn) (r : DeviceRegistry) : DeviceRegistry * N :=
  ({| reg_devices := <[reg_next_id r := d]> (reg_devices r); reg_next_id := wadd32 (reg_next_id r) 1 |}, reg_next_id r).
Definition unregister_device (i : N) : SE DeviceRegistry HwError unit := fun r =>
  match reg_devices r !! i with
  | Some _ => ({| reg_devices := delete i (reg_devices r); reg_next_id := reg_next_id r |}, Ok tt)
  | None => (r, Err (DeviceError i))
  end.
Definition get_device (i : N) (r : DeviceRegistry) : option Dyn := reg_devices r !! i.
Definition reg_list_devices (r : DeviceRegistry) : list DeviceSnapshot :=
  (fun e => dyn_get (@snapshot) (snd e)) <$> map_to_list (reg_devices r).
Definition reg_by_type (t : DeviceType) (r : DeviceRegistry) : list DeviceSnapshot :=
  (fun e => dyn_get (@snapshot) (snd e)) <$> filter (fun e => dyn_get (@device_type) (snd e) = t) (map_to_list (reg_devices r)).

(** ** What implementations promise *)

(** The life cycle methods succeed and set the status; the identifier and the type
    never change; a snapshot shows the state. *)
Class HwDeviceOk (D : Type) `{!HwDevice D} := {
  init_online d : exists d', init d = (d', Ok tt) /\ status d' = Online /\ device_id d' = device_id d /\ device_type d' = device_type d;
  shutdown_offline d :
    exists d', shutdown d = (d', Ok tt) /\ status d' = Offline /\ device_id d' = device_id d /\ device_type d' = device_type d;
  reset_online d : exists d', reset d = (d', Ok tt) /\ status d' = Online /\ device_id d' = device_id d /\ device_type d' = device_type d;
  snapshot_shows (d : D) : snap_device_id (snapshot d) = device_id d /\ snap_device_type (snapshot d) = device_type d /\
    snap_status (snapshot d) = status d }.

#[export] Instance keyboard_ok : HwDeviceOk KeyboardDevice.
Proof. split; intros d; try eexists; done. Qed.
#[export] Instance serial_ok : HwDeviceOk SerialDevice.
Proof. split; intros d; try eexists; done. Qed.
#[export] Instance network_ok : HwDeviceOk NetworkDevice.
Proof. split; intros d; try eexists; done. Qed.

(** A device that receives: what arrives is kept in order until it is taken. *)
Class Inbox (D A : Type) := { put : A -> D -> D; take_one : D -> D * option A; pending : D -> list A }.
Class InboxOk (D A : Type) `{!HwDevice D, !Inbox D A} := {
  put_last (x : A) (d : D) : pending (put x d) = pending d ++ [x];
  take_first (d : D) : match pending d with
                       | [] => take_one d = (d, None)
                       | x :: q => exists d', take_one d = (d', Some x) /\ pending d' = q
                       end;
  init_keeps (d : D) : pending (init d).1 = pending d;
  shutdown_keeps (d : D) : pending (shutdown d).1 = pending d;
  reset_empties (d : D) : pending (reset d).1 = [] }.

#[export] Instance keyboard_inbox : Inbox KeyboardDevice N := { put := key_press; take_one := read_char; pending := kbd_buffer }.
#[export] Instance serial_inbox : Inbox SerialDevice N := {
  put b := receive_data [b]; take_one := read_byte; pending := rx_buffer }.
#[export] Instance network_inbox : Inbox NetworkDevice (list N) := {
  put := inject_packet; take_one := receive_packet; pending := rx_queue }.

#[export] Instance keyboard_inbox_ok : InboxOk KeyboardDevice N.
Proof. split; try done. intros [i st b]. cbn. destruct b; [done|by eexists]. Qed.
#[export] Instance serial_inbox_ok : InboxOk SerialDevice N.
Proof. split; try done. intros [i st tx rx b]. cbn. destruct rx; [done|by eexists]. Qed.
#[export] Instance network_inbox_ok : InboxOk NetworkDevice (list N).
Proof. split; try done. intros [i st m rx tx]. cbn. destruct rx; [done|by eexists]. Qed.

Section Inboxes.
Context {D A : Type} `{!HwDevice D, !Inbox D A, !InboxOk D A}.

Inductive InboxOp := Arrive (x : A) | Take | Init_ | Shutdown_.
(** the device, and what was taken *)
Definition inbox_op (st : D * list A) (o : InboxOp) : D * list A :=
  let '(d, got) := st in
  match o with
  | Arrive x => (put x d, got)
  | Take => let '(d, x) := take_one d in (d, got ++ match x with Some x => [x] | None => [] end)
  | Init_ => ((init d).1, got)
  | Shutdown_ => ((shutdown d).1, got)
  end.
Definition arrived (os : list InboxOp) : list A := omap (fun o => match o with Arrive x => Some x | _ => None end) os.

(** Property: input is first in, first out and never lost, on the keyboard, the
    serial port and the network card alike: what was taken and what is still
    there is what was there and what arrived, in that order, whatever starts
    and stops of the device come between; only a reset throws input away. *)
Theorem input_in_order d os :
  let '(d', got) := foldl inbox_op (d, []) os in
  got ++ pending d' = pending d ++ arrived os /\ pending (reset d').1 = [].
Proof.
  assert (H : forall d got, let '(d', got') := foldl inbox_op (d, got) os in got' ++ pending d' = got ++ pending d ++ arrived os).
  { induction os as [|o os IH]; intros d0 got; [by rewrite app_nil_r|]. cbn [foldl]. destruct o as [x| | |]; cbn [inbox_op].
    - specialize (IH (put x d0) got). destruct (foldl _ _ _) as [d' got']. rewrite IH, put_last. cbn. by rewrite <- !app_assoc.
    - pose proof (take_first d0) as Ht. destruct (pending d0) as [|x q] eqn:Ep.
      + rewrite Ht. specialize (IH d0 (got ++ [])). destruct (foldl _ _ _) as [d' got']. rewrite IH, Ep. by rewrite app_nil_r.
      + destruct Ht as (d1 & -> & Hq). specialize (IH d1 (got ++ [x])). destruct (foldl _ _ _) as [d' got']. rewrite IH, Hq.
        by rewrite <- !app_assoc.
    - specialize (IH (init d0).1 got). destruct (foldl _ _ _) as [d' got']. by rewrite IH, init_keeps.
    - specialize (IH (shutdown d0).1 got). destruct (foldl _ _ _) as [d' got']. by rewrite IH, shutdown_keeps. }
  specialize (H d []). destruct (foldl _ _ _) as [d' got]. split; [exact H|apply reset_empties].
Qed.
End Inboxes.

(** ** The registry keeps the life cycle of each device *)

Inductive RegistryOp := Reg (d : Dyn) | Unreg (i : N) | Init (i : N) | Shutdown (i : N) | Reset_ (i : N).
(** a method of a registered device, through its handle *)
Definition on_registered (i : N) (f : SE Dyn HwError unit) (r : DeviceRegistry) : DeviceRegistry :=
  {| reg_devices := alter (fun o => (f o).1) i (reg_devices r); reg_next_id := reg_next_id r |}.
Definition registry_op (r : DeviceRegistry) (o : RegistryOp) : DeviceRegistry :=
  match o with
  | Reg d => (register_device d r).1
  | Unreg i => (unregister_device i r).1
  | Init i => on_registered i (dyn_call (@init)) r
  | Shutdown i => on_registered i (dyn_call (@shutdown)) r
  | Reset_ i => on_registered i (dyn_call (@reset)) r
  end.
(** what the operations do to the statuses under the numbers given out *)
Definition status_op (m : gmap N DeviceStatus * N) (o : RegistryOp) : gmap N DeviceStatus * N :=
  let '(m, next) := m in
  match o with
  | Reg d => (<[next := dyn_get (@status) d]> m, next + 1)
  | Unreg i => (delete i m, next)
  | Init i | Reset_ i => (alter (fun _ => Online) i m, next)
  | Shutdown i => (alter (fun _ => Offline) i m, next)
  end.

Definition dyn_ok (o : Dyn) : Prop := @HwDeviceOk (carrier o) (methods o).
Definition op_ok (o : RegistryOp) : Prop := match o with Reg d => dyn_ok d | _ => True end.

Definition registry_inv (r : DeviceRegistry) (m : gmap N DeviceStatus * N) : Prop :=
  dyn_get (@status) <$> reg_devices r = m.1 /\ reg_next_id r = m.2 /\ map_Forall (fun _ o => dyn_ok o) (reg_devices r) /\
  (forall i, is_Some (m.1 !! i) -> 1 <= i < m.2).

(** a life cycle method sets the status and keeps the object lawful *)
Lemma on_registered_inv i (f : forall D, HwDevice D -> SE D HwError unit) st r m :
  (forall D (H : HwDevice D), HwDeviceOk D -> forall d, exists d', f D H d = (d', Ok tt) /\ status d' = st) ->
  registry_inv r m -> registry_inv (on_registered i (dyn_call f) r) (alter (fun _ => st) i m.1, m.2).
Proof.
  intros Hf (H1 & H2 & H3 & H4). split; [|split; [done|split]]; cbn.
  - rewrite <- H1. apply map_eq. intros j. rewrite lookup_fmap. destruct (decide (i = j)) as [<-|Hne].
    + rewrite !lookup_alter_eq, lookup_fmap. destruct (reg_devices r !! i) as [o|] eqn:Eo; [|done]. cbn. f_equal.
      destruct (Hf _ (methods o) (H3 _ _ Eo) (self o)) as (d' & E & Hst). unfold dyn_call. by rewrite E.
    + by rewrite !lookup_alter_ne, lookup_fmap.
  - intros j o. destruct (decide (i = j)) as [<-|Hne]; [|rewrite lookup_alter_ne by done; apply H3].
    rewrite lookup_alter_eq. intros (o' & Ho & ->)%fmap_Some. unfold dyn_ok, dyn_call. specialize (H3 _ _ Ho).
    by destruct (f _ _ _).
  - intros j Hj. apply H4. destruct (decide (i = j)) as [<-|Hne]; [|by rewrite lookup_alter_ne in Hj].
    rewrite lookup_alter_eq in Hj. by destruct (m.1 !! i).
Qed.

Lemma registry_op_inv r m o : registry_inv r m -> op_ok o -> m.2 + 1 < 2 ^ 32 -> 1 <= m.2 ->
  registry_inv (registry_op r o) (status_op m o) /\ m.2 <= (status_op m o).2 <= m.2 + 1.
Proof.
  intros Hr Ho Hb H1m. destruct m as [m next], o as [d|i|i|i|i]; cbn [registry_op status_op fst snd] in *.
  - destruct Hr as (H1 & H2 & H3 & H4). split; [|lia]. split; [|split; [|split]]; cbn in *.
    + by rewrite fmap_insert, H1, H2.
    + by rewrite wadd32_small, H2 by lia.
    + by apply map_Forall_insert_2.
    + intros j. destruct (decide (next = j)) as [<-|Hne]; [lia|]. rewrite lookup_insert_ne by done. intros Hj%H4. lia.
  - split; [|lia]. pose proof Hr as (H1 & H2 & H3 & H4). cbn in H1, H2, H4. unfold unregister_device.
    destruct (reg_devices r !! i) as [o|] eqn:Eo; cbn [fst].
    + split; [|split; [done|split]]; cbn.
      * by rewrite fmap_delete, H1.
      * by apply map_Forall_delete.
      * intros j (st & [_ Hj]%lookup_delete_Some). apply H4. by eexists.
    + rewrite delete_id; [done|]. by rewrite <- H1, lookup_fmap, Eo.
  - split; [|lia]. apply (on_registered_inv i (@init) Online r (m, next)); [|done].
    intros D H HD d. destruct (init_online d) as (d' & E & Hs & _). by exists d'.
  - split; [|lia]. apply (on_registered_inv i (@shutdown) Offline r (m, next)); [|done].
    intros D H HD d. destruct (shutdown_offline d) as (d' & E & Hs & _). by exists d'.
  - split; [|lia]. apply (on_registered_inv i (@reset) Online r (m, next)); [|done].
    intros D H HD d. destruct (reset_online d) as (d' & E & Hs & _). by exists d'.
Qed.

Lemma registry_run_inv os r m : registry_inv r m -> Forall op_ok os -> m.2 + len os < 2 ^ 32 -> 1 <= m.2 ->
  registry_inv (foldl registry_op r os) (foldl status_op m os).
Proof.
  revert r m. induction os as [|o os IH]; intros r m Hr Hos Hb Hm; [done|]. apply list.Forall_cons in Hos as [Ho Hos].
  cbn [length foldl] in *. destruct (registry_op_inv r m o Hr Ho ltac:(lia) Hm) as [Hr' Hn]. apply IH; [done|done|lia|lia].
Qed.

(** the statuses that a listing shows *)
Lemma listed_statuses r m : registry_inv r m -> snap_status <$> reg_list_devices r ≡ₚ snd <$> map_to_list m.1.
Proof.
  intros (<- & _ & H3 & _). unfold reg_list_devices. rewrite map_to_list_fmap, <- !list_fmap_compose.
  assert (E : forall l : list (N * Dyn), Forall (fun e => dyn_ok e.2) l ->
    (snap_status ∘ (fun e => dyn_get (@snapshot) e.2)) <$> l = (snd ∘ prod_map id (dyn_get (@status))) <$> l).
  { induction 1 as [|[i o] l Ho _ IH]; [done|]. cbn. f_equal; [|exact IH]. by apply (@snapshot_shows _ _ Ho). }
  rewrite E; [done|]. apply list.Forall_forall. intros [i o] Hio%elem_of_map_to_list. by apply (H3 i).
Qed.

(** Property: for any device that keeps the promises of the interface, the registry
    is a map from numbers to life cycle states: numbers are given out in order
    and never again, each device has the status that the last start, stop or
    reset gave it, and the listing shows exactly those statuses. *)
Theorem registry_keeps_life_cycle os :
  Forall op_ok os -> 1 + len os < 2 ^ 32 ->
  let r := foldl registry_op DeviceRegistry_new os in
  let '(m, next) := foldl status_op (∅, 1) os in
  dyn_get (@status) <$> reg_devices r = m /\ reg_next_id r = next /\
  (forall i, is_Some (get_device i r) -> 1 <= i < next) /\
  snap_status <$> reg_list_devices r ≡ₚ snd <$> map_to_list m.
Proof.
  intros Hos Hb. cbn zeta.
  assert (H0 : registry_inv DeviceRegistry_new (∅, 1)).
  { split; [by cbn; rewrite fmap_empty|]. split; [done|]. split; [apply map_Forall_empty|]. intros i. cbn. rewrite lookup_empty.
    by intros [? ?]. }
  pose proof (registry_run_inv os _ _ H0 Hos Hb ltac:(cbn; lia)) as Hr. destruct (foldl status_op (∅, 1) os) as [m next].
  pose proof Hr as (H1 & H2 & H3 & H4). split; [exact H1|]. split; [exact H2|]. split; [|by apply (listed_statuses _ (m, next))].
  intros i Hi. apply H4. cbn in *. rewrite <- H1, lookup_fmap. unfold get_device in Hi. destruct Hi as [o ->]. by eexists.
Qed.

(** Property: the number that the listing shows for a device is the device's own and
    not the one it is registered under: a device is found by the shown number only
    if the two happen to be the same. *)
Theorem listed_id_is_not_registered_id {D} `{!HwDevice D, !HwDeviceOk D} (d : D) r :
  reg_devices r !! device_id d = None -> device_id d <> reg_next_id r ->
  let '(r', i) := register_device (dyn d) r in
  (exists sn, sn ∈ reg_list_devices r' /\ snap_device_id sn = device_id d) /\
  get_device (device_id d) r' = None /\ unregister_device (device_id d) r' = (r', Err (DeviceError (device_id d))) /\
  get_device i r' = Some (dyn d).
Proof.
  intros Hn Hne. unfold register_device, get_device. cbn [reg_devices]. split; [|split; [|split]].
  - exists (snapshot d). split; [|apply snapshot_shows]. unfold reg_list_devices. apply list_elem_of_fmap.
    exists (reg_next_id r, dyn d). split; [done|]. apply elem_of_map_to_list. cbn. by rewrite lookup_insert_eq.
  - by rewrite lookup_insert_ne.
  - unfold unregister_device. cbn [reg_devices]. by rewrite lookup_insert_ne, Hn by done.
  - by rewrite lookup_insert_eq.
Qed.

(** ** Witnesses *)

Lemma input_in_order_witness :
  let '(k, got) := foldl inbox_op (KeyboardDevice_new 7, []) [Arrive 65; Shutdown_; Arrive 66; Take; Take; Arrive 67] in
  got ++ pending k = [] ++ [65; 66; 67] /\ pending (reset k).1 = [].
Proof. exact (input_in_order (KeyboardDevice_new 7) [Arrive 65; Shutdown_; Arrive 66; Take; Take; Arrive 67]). Defined.

Definition demo_ops : list RegistryOp :=
  [Reg (dyn (KeyboardDevice_new 10)); Reg (dyn (SerialDevice_new 11 9600)); Reg (dyn (NetworkDevice_new 12 [82; 84; 0; 18; 52; 86]));
   Shutdown 2; Unreg 1; Init 3; Reset_ 9].
Lemma registry_keeps_life_cycle_witness :
  reg_next_id (foldl registry_op DeviceRegistry_new demo_ops) = 4 /\
  snap_status <$> reg_list_devices (foldl registry_op DeviceRegistry_new demo_ops) ≡ₚ [Offline; Online].
Proof.
  assert (Hok : Forall op_ok demo_ops) by (repeat constructor; try apply keyboard_ok; try apply serial_ok; apply network_ok).
  destruct (registry_keeps_life_cycle demo_ops Hok ltac:(reflexivity)) as (_ & Hn & _ & Hl). split; [exact Hn|].
  rewrite Hl. reflexivity.
Defined.

Lemma listed_id_is_not_registered_id_witness :
  let '(r, i) := register_device (dyn (KeyboardDevice_new 10)) DeviceRegistry_new in
  (exists sn, sn ∈ reg_list_devices r /\ snap_device_id sn = 10) /\ get_device 10 r = None /\
  unregister_device 10 r = (r, Err (DeviceError 10)) /\ get_device i r = Some (dyn (KeyboardDevice_new 10)).
Proof.
  assert (H : 10 <> 1) by done.
  exact (listed_id_is_not_registered_id (KeyboardDevice_new 10) DeviceRegistry_new eq_refl H).
Defined.
