(* ===== verification/Devices.v ===== *)
(** * Devices, drivers and their managers (src/src/services/device/device.rs,
      driver.rs, manager.rs)

    What a driver implements is the class [DeviceOperations], with the state [O]
    behind it.  A device or driver that a map hands out by a handle ([Arc]) is
    the entry of that map.  Descriptions, versions and authors, which are text,
    are left out. *)
From S2P Require Import Prelude Types Messages.
From S2P Require Text.

Inductive DeviceType := Character | Block | Network | Terminal | Graphics | Audio | Input | Clipboard | Unknown.
#[export] Instance DeviceType_eq_dec : EqDecision DeviceType.
Proof. solve_decision. Defined.
Definition type_code (t : DeviceType) : N :=
  match t with Character => 0 | Block => 1 | Network => 2 | Terminal => 3 | Graphics => 4 | Audio => 5 | Input => 6 | Clipboard => 7 | Unknown => 8 end.
Definition type_of_code (n : N) : option DeviceType :=
  match n with 0 => Some Character | 1 => Some Block | 2 => Some Network | 3 => Some Terminal | 4 => Some Graphics | 5 => Some Audio
             | 6 => Some Input | 7 => Some Clipboard | 8 => Some Unknown | _ => None end.
#[export] Instance DeviceType_countable : Countable DeviceType.
Proof. apply (inj_countable type_code type_of_code). by intros []. Defined.

Inductive DeviceStatus := Initializing | Ready | Busy | Error | Disabled | Removed.
#[export] Instance DeviceStatus_eq_dec : EqDecision DeviceStatus.
Proof. solve_decision. Defined.

(** a method changes the state behind the device and may fail; [op_read] fills the
    buffer it gets *)
Class DeviceOperations (O : Type) := {
  op_read : list N -> O -> O * list N * result ServiceError N;
  op_write : list N -> O -> O * result ServiceError N;
  op_status : O -> DeviceStatus;
  op_reset : O -> O * result ServiceError unit }.

Record DeviceInfo := {
  info_name : str; info_type : DeviceType; major : N; minor : N; info_id : N; info_parent : option N; info_status : DeviceStatus;
  io_ports : list N; irq_lines : list N; memory_regions : list (N * N) }.
Definition DeviceInfo_new (nm : str) (ty : DeviceType) (mj mn i : N) : DeviceInfo :=
  {| info_name := nm; info_type := ty; major := mj; minor := mn; info_id := i; info_parent := None; info_status := Initializing;
     io_ports := []; irq_lines := []; memory_regions := [] |}.
Definition with_id (i : N) (n : DeviceInfo) : DeviceInfo :=
  {| info_name := info_name n; info_type := info_type n; major := major n; minor := minor n; info_id := i;
     info_parent := info_parent n; info_status := info_status n; io_ports := io_ports n; irq_lines := irq_lines n;
     memory_regions := memory_regions n |}.

(** [format!("{}:{}")] *)
Definition full_name (n : DeviceInfo) : str := Text.decimal (major n) ++ [58] ++ Text.decimal (minor n).

Section Devices.
Context {O : Type} `{!DeviceOperations O}.

(** ** Devices *)

Record Device := {
  info : DeviceInfo; operations : option O; open_count : N; exclusive : bool; exclusive_owner : option Pid }.
Definition Device_new (i : DeviceInfo) : Device :=
  {| info := i; operations := None; open_count := 0; exclusive := false; exclusive_owner := None |}.
Definition set_operations (o : O) (d : Device) : Device :=
  {| info := info d; operations := Some o; open_count := open_count d; exclusive := exclusive d; exclusive_owner := exclusive_owner d |}.
Definition with_opens (n : N) (ex : bool) (ow : option Pid) (d : Device) : Device :=
  {| info := info d; operations := operations d; open_count := n; exclusive := ex; exclusive_owner := ow |}.

Definition dev_read (buf : list N) (d : Device) : Device * list N * result ServiceError N :=
  match operations d with
  | Some o => let '(o, buf, r) := op_read buf o in (set_operations o d, buf, r)
  | None => (d, buf, Err NotImplemented)
  end.
Definition dev_write (bs : list N) (d : Device) : Device * result ServiceError N :=
  match operations d with
  | Some o => let '(o, r) := op_write bs o in (set_operations o d, r)
  | None => (d, Err NotImplemented)
  end.
Definition dev_status (d : Device) : DeviceStatus :=
  match operations d with Some o => op_status o | None => info_status (info d) end.
Definition dev_reset (d : Device) : Device * result ServiceError unit :=
  match operations d with
  | Some o => let '(o, r) := op_reset o in (set_operations o d, r)
  | None => (d, Err NotImplemented)
  end.
Definition is_ready (d : Device) : bool := bool_decide (dev_status d = Ready).

Definition dev_open (pid : Pid) (excl : bool) : SE Device ServiceError unit := fun d =>
  if negb (is_ready d) then (d, Err InvalidArguments)
  else if exclusive d then
    if bool_decide (exclusive_owner d = Some pid)
    then (with_opens (wadd32 (open_count d) 1) true (exclusive_owner d) d, Ok tt)
    else (d, Err SvcPermissionDenied)
  else if excl then
    if 0 <? open_count d then (d, Err SvcPermissionDenied)
    else (with_opens (wadd32 (open_count d) 1) true (Some pid) d, Ok tt)
  else (with_opens (wadd32 (open_count d) 1) false (exclusive_owner d) d, Ok tt).

Definition dev_close (pid : Pid) : SE Device ServiceError unit := fun d =>
  if open_count d =? 0 then (d, Err InvalidArguments)
  else
    let n := open_count d - 1 in
    if exclusive d && bool_decide (exclusive_owner d = Some pid) && (n =? 0)
    then (with_opens n false None d, Ok tt)
    else (with_opens n (exclusive d) (exclusive_owner d) d, Ok tt).
Definition in_use (d : Device) : bool := 0 <? open_count d.
End Devices.
Arguments Device O : clear implicits.

(** ** Drivers *)

Inductive DriverType := CharacterDriver | BlockDriver | NetworkDriver | Generic.
Record DriverInfo := { driver_name : str; driver_type : DriverType; supported_types : list DeviceType }.
Definition DriverInfo_new (nm : str) (ty : DriverType) (supported : list DeviceType) : DriverInfo :=
  {| driver_name := nm; driver_type := ty; supported_types := supported |}.
Record Driver := { driver_info : DriverInfo; loaded : bool; ref_count : N; managed : list N }.
Definition Driver_new (i : DriverInfo) : Driver := {| driver_info := i; loaded := false; ref_count := 0; managed := [] |}.
Definition with_loaded (b : bool) (d : Driver) : Driver :=
  {| driver_info := driver_info d; loaded := b; ref_count := ref_count d; managed := managed d |}.
Definition with_managed (n : N) (l : list N) (d : Driver) : Driver :=
  {| driver_info := driver_info d; loaded := loaded d; ref_count := n; managed := l |}.

Definition supports (t : DeviceType) (d : Driver) : bool := bool_decide (t ∈ supported_types (driver_info d)).
Definition load : SE Driver ServiceError unit := fun d =>
  if loaded d then (d, Err InvalidArguments) else (with_loaded true d, Ok tt).
Definition unload : SE Driver ServiceError unit := fun d =>
  if negb (loaded d) then (d, Err InvalidArguments)
  else if (0 <? ref_count d) || negb (bool_decide (managed d = [])) then (d, Err InvalidArguments)
  else (with_loaded false d, Ok tt).
Definition add_device (i : N) : SE Driver ServiceError unit := fun d =>
  if bool_decide (i ∈ managed d) then (d, Err InvalidArguments)
  else (with_managed (wadd32 (ref_count d) 1) (managed d ++ [i]) d, Ok tt).
Definition remove_device (i : N) : SE Driver ServiceError unit := fun d =>
  match list_find (fun j => j = i) (managed d) with
  | Some (pos, _) =>
      (with_managed (if 0 <? ref_count d then ref_count d - 1 else ref_count d) (delete pos (managed d)) d, Ok tt)
  | None => (d, Err SvcNotFound)
  end.
Definition device_count (d : Driver) : N := len (managed d).

Abbreviation DriverManager := (gmap str Driver).
Definition drv_register (d : Driver) : SE DriverManager ServiceError str := fun m =>
  let nm := driver_name (driver_info d) in
  if bool_decide (is_Some (m !! nm)) then (m, Err InvalidArguments) else (<[nm := d]> m, Ok nm).
Definition drv_unregister (nm : str) : SE DriverManager ServiceError unit := fun m =>
  match m !! nm with
  | None => (m, Err SvcNotFound)
  | Some d => if loaded d then (m, Err InvalidArguments) else (delete nm m, Ok tt)
  end.
(** a method of the driver with a name *)
Definition on_driver {A} (nm : str) (f : SE Driver ServiceError A) : SE DriverManager ServiceError A := fun m =>
  match m !! nm with
  | None => (m, Err SvcNotFound)
  | Some d => let '(d, r) := f d in (<[nm := d]> m, r)
  end.
Definition drv_load (nm : str) : SE DriverManager ServiceError unit := on_driver nm load.
Definition drv_unload (nm : str) : SE DriverManager ServiceError unit := on_driver nm unload.
Definition find_driver (t : DeviceType) (m : DriverManager) : option str :=
  fst <$> (snd <$> list_find (fun e => loaded (snd e) && supports t (snd e) = true) (map_to_list m)).
Definition list_drivers (m : DriverManager) : list str := fst <$> map_to_list m.
Definition drv_count (m : DriverManager) : N := N.of_nat (length (map_to_list m)).
Definition loaded_drivers (m : DriverManager) : list str :=
  fst <$> filter (fun e => loaded (snd e) = true) (map_to_list m).

(** ** The device manager *)

Section Manager.
Context {O : Type} `{!DeviceOperations O}.

Record DeviceManager := {
  devices : gmap N (Device O); next_device_id : N; driver_manager : DriverManager; name_map : gmap str N;
  type_map : gmap DeviceType (list N) }.
Definition DeviceManager_new : DeviceManager :=
  {| devices := ∅; next_device_id := 1; driver_manager := ∅; name_map := ∅; type_map := ∅ |}.
Definition with_devices ds (m : DeviceManager) : DeviceManager :=
  {| devices := ds; next_device_id := next_device_id m; driver_manager := driver_manager m; name_map := name_map m; type_map := type_map m |}.

Definition with_info (i : DeviceInfo) (d : Device O) : Device O :=
  {| info := i; operations := operations d; open_count := open_count d; exclusive := exclusive d; exclusive_owner := exclusive_owner d |}.
Definition register (d : Device O) (m : DeviceManager) : DeviceManager * N :=
  let i := next_device_id m in
  let d := with_info (with_id i (info d)) d in
  let ty := info_type (info d) in
  ({| devices := <[i := d]> (devices m); next_device_id := wadd32 i 1; driver_manager := driver_manager m;
      name_map := <[info_name (info d) := i]> (name_map m); type_map := <[ty := default [] (type_map m !! ty) ++ [i]]> (type_map m) |}, i).
Definition unregister (i : N) : SE DeviceManager ServiceError unit := fun m =>
  match devices m !! i with
  | None => (m, Err SvcNotFound)
  | Some d =>
      if in_use d then (m, Err InvalidArguments)
      else ({| devices := delete i (devices m); next_device_id := next_device_id m; driver_manager := driver_manager m;
               name_map := delete (info_name (info d)) (name_map m);
               type_map := alter (filter (fun j => j <> i)) (info_type (info d)) (type_map m) |}, Ok tt)
  end.
Definition get (i : N) (m : DeviceManager) : option (Device O) := devices m !! i.
Definition get_by_name (nm : str) (m : DeviceManager) : option (Device O) := name_map m !! nm ≫= fun i => get i m.

(** a method of the device with an id *)
Definition on_device {A} (i : N) (f : SE (Device O) ServiceError A) : SE DeviceManager ServiceError A := fun m =>
  match get i m with
  | None => (m, Err SvcNotFound)
  | Some d => let '(d, r) := f d in (with_devices (<[i := d]> (devices m)) m, r)
  end.
Definition mgr_open (i : N) (pid : Pid) (excl : bool) : SE DeviceManager ServiceError unit := on_device i (dev_open pid excl).
Definition mgr_close (i : N) (pid : Pid) : SE DeviceManager ServiceError unit := on_device i (dev_close pid).
(** with the buffer *)
Definition mgr_read (i : N) (buf : list N) : SE DeviceManager ServiceError (N * list N) :=
  on_device i (fun d => let '(d, buf, r) := dev_read buf d in (d, n ← r; Ok (n, buf))).
Definition mgr_write (i : N) (bs : list N) : SE DeviceManager ServiceError N := on_device i (dev_write bs).
Definition mgr_status (i : N) (m : DeviceManager) : result ServiceError DeviceStatus :=
  dev_status <$> ok_or SvcNotFound (get i m).
Definition get_by_type (t : DeviceType) (m : DeviceManager) : list (Device O) :=
  omap (fun i => get i m) (default [] (type_map m !! t)).

Record DeviceSnapshot := {
  snap_id : N; snap_name : str; snap_type : DeviceType; snap_status : DeviceStatus; snap_opens : N; snap_exclusive : bool }.
Definition snapshot_of (d : Device O) : DeviceSnapshot :=
  {| snap_id := info_id (info d); snap_name := info_name (info d); snap_type := info_type (info d); snap_status := dev_status d;
     snap_opens := open_count d; snap_exclusive := exclusive d |}.
Definition list_devices (m : DeviceManager) : list DeviceSnapshot := (fun e => snapshot_of (snd e)) <$> map_to_list (devices m).
Definition count (m : DeviceManager) : N := N.of_nat (length (map_to_list (devices m))).

(** ** The manager stays consistent *)

(** The maps of types and names lead to devices that are there and have the type
    and the name; every device is under its type. *)
Definition manager_wf (m : DeviceManager) : Prop :=
  (forall i d, devices m !! i = Some d -> info_id (info d) = i /\ i < next_device_id m) /\
  (forall t i, i ∈ default [] (type_map m !! t) <-> exists d, devices m !! i = Some d /\ info_type (info d) = t) /\
  (forall t, NoDup (default [] (type_map m !! t))) /\
  (forall nm i, name_map m !! nm = Some i -> exists d, devices m !! i = Some d /\ info_name (info d) = nm).

Inductive ManagerOp := Register (d : Device O) | Unregister (i : N) | OpenOp (i : N) (pid : Pid) (excl : bool) | CloseOp (i : N) (pid : Pid)
  | ReadOp (i : N) (buf : list N) | WriteOp (i : N) (bs : list N).
Definition manager_op (m : DeviceManager) (o : ManagerOp) : DeviceManager :=
  match o with
  | Register d => fst (register d m)
  | Unregister i => fst (unregister i m)
  | OpenOp i pid excl => fst (mgr_open i pid excl m)
  | CloseOp i pid => fst (mgr_close i pid m)
  | ReadOp i buf => fst (mgr_read i buf m)
  | WriteOp i bs => fst (mgr_write i bs m)
  end.

Lemma manager_new_wf : manager_wf DeviceManager_new.
Proof.
  split_and!; cbn; try done.
  - intros t i. rewrite lookup_empty. cbn. rewrite elem_of_nil. split; [done|]. intros (d & Hd & _). by rewrite lookup_empty in Hd.
  - intros t. rewrite lookup_empty. apply NoDup_nil_2.
Qed.

Lemma register_wf m d : manager_wf m -> next_device_id m + 1 < 2 ^ 32 -> manager_wf (fst (register d m)).
Proof.
  intros (H1 & H2 & H3 & H4) Hb. set (i := next_device_id m) in *.
  assert (Hnew : devices m !! i = None).
  { destruct (devices m !! i) as [d'|] eqn:E; [|done]. destruct (H1 _ _ E) as [_ Hlt]. unfold i in Hlt. lia. }
  unfold register. cbn [fst]. fold i. rewrite wadd32_small by lia. set (d1 := with_info _ d). split_and!.
  - intros j e. cbn. destruct (decide (i = j)) as [<-|Hne].
    + rewrite lookup_insert_eq. intros [= <-]. split; [done|lia].
    + rewrite lookup_insert_ne by done. intros He. destruct (H1 _ _ He) as [Hj Hlt]. split; [done|]. fold i in Hlt. lia.
  - intros t j. cbn [devices type_map]. destruct (decide (info_type (info d1) = t)) as [<-|Hne].
    + rewrite lookup_insert_eq. cbn [default]. unfold id. rewrite elem_of_app, list_elem_of_singleton, H2.
      destruct (decide (i = j)) as [<-|Hj].
      * rewrite lookup_insert_eq. split; [intros _; by exists d1|intros _; by right].
      * rewrite lookup_insert_ne by done. split; [intros [?|?]; [done|congruence]|intros ?; by left].
    + rewrite lookup_insert_ne by done. rewrite H2. destruct (decide (i = j)) as [<-|Hj].
      * rewrite Hnew, lookup_insert_eq. split; [by intros (? & ? & _)|]. intros (e & [= <-] & Ht). congruence.
      * by rewrite lookup_insert_ne.
  - intros t. cbn [type_map]. destruct (decide (info_type (info d1) = t)) as [<-|Hne].
    + rewrite lookup_insert_eq. cbn [default]. unfold id. apply list.NoDup_app. split; [apply H3|]. split; [|apply NoDup_singleton].
      intros j Hj ->%list_elem_of_singleton. apply H2 in Hj as (e & He & _). congruence.
    + rewrite lookup_insert_ne by done. apply H3.
  - intros nm j. cbn [name_map devices]. destruct (decide (info_name (info d1) = nm)) as [<-|Hne].
    + rewrite lookup_insert_eq. intros [= <-]. exists d1. by rewrite lookup_insert_eq.
    + rewrite lookup_insert_ne by done. intros Hj. destruct (H4 _ _ Hj) as (e & He & Hn). exists e. rewrite lookup_insert_ne; [done|].
      intros ->. congruence.
Qed.

Lemma unregister_wf m i : manager_wf m -> manager_wf (fst (unregister i m)).
Proof.
  intros Hm. unfold unregister. destruct (devices m !! i) as [d|] eqn:Ed; [|exact Hm]. destruct (in_use d); [exact Hm|].
  destruct Hm as (H1 & H2 & H3 & H4). cbn [fst]. split_and!.
  - intros j e. cbn. intros [_ He]%lookup_delete_Some. by apply H1.
  - intros t j. cbn [devices type_map]. destruct (decide (info_type (info d) = t)) as [<-|Hne].
    + rewrite lookup_alter_eq. specialize (H2 (info_type (info d)) j).
      destruct (type_map m !! info_type (info d)) as [l|]; cbn in *.
      * rewrite list_elem_of_filter, H2. split; [intros [Hj (e & He & Ht)]; exists e; by rewrite lookup_delete_ne|].
        intros (e & [Hj He]%lookup_delete_Some & Ht). split; [done|]. by exists e.
      * rewrite H2. split; [intros Hx%H2; by apply elem_of_nil in Hx|].
        intros (e & [Hj He]%lookup_delete_Some & Ht). by exists e.
    + rewrite lookup_alter_ne by done. rewrite H2. split; intros (e & He & Ht).
      * exists e. split; [|done]. rewrite lookup_delete_ne; [done|]. intros ->. congruence.
      * apply lookup_delete_Some in He as [_ He]. by exists e.
  - intros t. cbn [type_map]. destruct (decide (info_type (info d) = t)) as [<-|Hne].
    + rewrite lookup_alter_eq. specialize (H3 (info_type (info d))). destruct (type_map m !! _) as [l|]; [|done]. cbn in *.
      by apply list.NoDup_filter.
    + rewrite lookup_alter_ne by done. apply H3.
  - intros nm j. cbn [name_map devices]. intros [Hne Hj]%lookup_delete_Some. destruct (H4 _ _ Hj) as (e & He & Hn).
    exists e. split; [|done]. rewrite lookup_delete_ne; [done|]. intros ->. congruence.
Qed.

Lemma on_device_wf {A} m i (f : SE (Device O) ServiceError A) : manager_wf m ->
  (forall d, info (fst (f d)) = info d) -> manager_wf (fst (on_device i f m)).
Proof.
  intros (H1 & H2 & H3 & H4) Hf. unfold on_device, get. destruct (devices m !! i) as [d|] eqn:Ed; [|by split_and!].
  specialize (Hf d). destruct (f d) as [d' r]. cbn in *.
  assert (Hiff : forall (R : DeviceInfo -> Prop) j, (exists e, <[i:=d']> (devices m) !! j = Some e /\ R (info e)) <->
                   exists e, devices m !! j = Some e /\ R (info e)).
  { intros R j. destruct (decide (i = j)) as [<-|Hj].
    - rewrite lookup_insert_eq, Ed. split; intros (e & [= <-] & HR); eexists; (split; [done|]); by rewrite Hf in *.
    - by rewrite lookup_insert_ne. }
  split_and!; cbn.
  - intros j e He. destruct (proj1 (Hiff (fun x => x = info e) j)) as (e' & He' & Hx); [by exists e|]. rewrite <- Hx. by apply H1.
  - intros t j. rewrite H2. by rewrite (Hiff (fun x => info_type x = t)).
  - done.
  - intros nm j Hj. apply (Hiff (fun x => info_name x = nm)). by apply H4.
Qed.

Lemma dev_open_info pid excl (d : Device O) : info (fst (dev_open pid excl d)) = info d.
Proof.
  unfold dev_open. destruct (negb _); [done|]. destruct (exclusive d); [by case_bool_decide|]. destruct excl; [|done].
  by destruct (_ <? _).
Qed.
Lemma dev_close_info pid (d : Device O) : info (fst (dev_close pid d)) = info d.
Proof. unfold dev_close. destruct (_ =? _); [done|]. by destruct (_ && _). Qed.

Lemma manager_op_wf m o : manager_wf m -> next_device_id m + 1 < 2 ^ 32 ->
  manager_wf (manager_op m o) /\ next_device_id m <= next_device_id (manager_op m o) <= next_device_id m + 1.
Proof.
  intros Hm Hb.
  assert (Hon : forall A i (f : SE (Device O) ServiceError A), next_device_id (fst (on_device i f m)) = next_device_id m).
  { intros A i f. unfold on_device. destruct (get i m) as [d|]; [|done]. by destruct (f d). }
  destruct o as [d|i|i pid excl|i pid|i buf|i bs]; unfold manager_op.
  - split; [by apply register_wf|]. cbn. rewrite wadd32_small by lia. lia.
  - split; [by apply unregister_wf|]. unfold unregister. destruct (_ !! _) as [d|]; [|cbn; lia]. destruct (in_use d); cbn; lia.
  - unfold mgr_open. rewrite Hon. split; [apply on_device_wf; [done|apply dev_open_info]|lia].
  - unfold mgr_close. rewrite Hon. split; [apply on_device_wf; [done|apply dev_close_info]|lia].
  - unfold mgr_read. rewrite Hon. split; [apply on_device_wf; [done|]|lia]. intros d. unfold dev_read.
    destruct (operations d) as [o|]; [|done]. by destruct (op_read buf o) as [[? ?] ?].
  - unfold mgr_write. rewrite Hon. split; [apply on_device_wf; [done|]|lia]. intros d. unfold dev_write.
    destruct (operations d) as [o|]; [|done]. by destruct (op_write bs o).
Qed.

(** C28: after any history of registrations, removals, opens, closes, reads and
    writes the maps of the device manager agree: a name leads to a device that is
    there and has it, the devices under a type are exactly those of that type,
    each once, and identifiers are never given out again. *)
Theorem manager_consistent os : len os + 1 < 2 ^ 32 -> manager_wf (foldl manager_op DeviceManager_new os).
Proof.
  assert (H : forall m, manager_wf m -> next_device_id m + len os < 2 ^ 32 -> manager_wf (foldl manager_op m os)).
  { induction os as [|o os IH]; intros m Hm Hb; [done|]. cbn [length foldl] in *.
    destruct (manager_op_wf m o Hm ltac:(lia)) as [H1 H2]. apply IH; [done|lia]. }
  intros Hb. apply H; [apply manager_new_wf|cbn; lia].
Qed.

(** Property: names are not kept apart: of two devices with one name only the later
    is found by it, and removing the earlier makes the later impossible to find
    by its name, though it is there. *)
Theorem duplicate_name_lost m d1 d2 :
  manager_wf m -> next_device_id m + 2 < 2 ^ 32 -> info_name (info d1) = info_name (info d2) -> in_use d1 = false ->
  let '(m1, i1) := register d1 m in
  let '(m2, i2) := register d2 m1 in
  let '(m3, r) := unregister i1 m2 in
  i1 <> i2 /\ name_map m2 !! info_name (info d1) = Some i2 /\
  r = Ok tt /\ is_Some (get i2 m3) /\ get_by_name (info_name (info d1)) m3 = None.
Proof.
  intros Hm Hb Hn Hu. cbn [register]. unfold register. cbn [next_device_id devices name_map type_map driver_manager].
  rewrite wadd32_small by lia. unfold unregister. cbn [devices].
  rewrite lookup_insert_ne by lia. rewrite lookup_insert_eq. unfold in_use in *. cbn [open_count with_info]. rewrite Hu.
  cbn [name_map info with_info with_id info_name]. split; [lia|]. split; [by rewrite Hn, lookup_insert_eq|]. split; [done|]. split.
  - unfold get. cbn [devices]. rewrite lookup_delete_ne by lia. rewrite lookup_insert_eq. by eexists.
  - unfold get_by_name. cbn [name_map]. by rewrite lookup_delete_eq.
Qed.
End Manager.
Arguments DeviceManager O : clear implicits.

(** ** Exclusive use *)

Section Exclusive.
Context {O : Type} `{!DeviceOperations O}.

(** a history of opens and closes of one device; a process closes only what it
    opened, and has fewer than 2^32 opens at once *)
Inductive use : Device O -> list Pid -> Prop :=
  | use_new d : open_count d = 0 -> exclusive d = false -> exclusive_owner d = None -> use d []
  | use_open d hs pid excl d' : use d hs -> len hs + 1 < 2 ^ 32 -> dev_open pid excl d = (d', Ok tt) -> use d' (hs ++ [pid])
  | use_refused d hs pid excl d' e : use d hs -> dev_open pid excl d = (d', Err e) -> use d' hs
  | use_close d hs1 pid hs2 d' : use d (hs1 ++ pid :: hs2) -> dev_close pid d = (d', Ok tt) -> use d' (hs1 ++ hs2).

Definition use_inv (d : Device O) (hs : list Pid) : Prop :=
  open_count d = len hs /\
  if exclusive d then hs <> [] /\ exists p, exclusive_owner d = Some p /\ Forall (fun h => h = p) hs else exclusive_owner d = None.

Lemma use_spec d hs : use d hs -> use_inv d hs.
Proof.
  induction 1 as [d H0 H1 H2|d hs pid excl d' _ [Hn Hx] Hb Hop|d hs pid excl d' e _ IH Hop|d hs1 pid hs2 d' _ [Hn Hx] Hcl].
  - unfold use_inv. by rewrite H1.
  - unfold dev_open in Hop. destruct (negb (is_ready d)); [done|]. unfold use_inv. rewrite length_app. cbn [length].
    destruct (exclusive d) eqn:Ee.
    + case_bool_decide as Hown; [|done]. injection Hop as <-. cbn. rewrite wadd32_small by lia. split; [lia|].
      destruct Hx as [_ (p & Hp & Hall)]. split; [by destruct hs|]. exists p. split; [done|]. apply Forall_app. split; [done|].
      apply list.Forall_singleton. congruence.
    + destruct excl.
      * destruct (N.ltb_spec 0 (open_count d)) as [|Hz]; [done|]. injection Hop as <-. cbn. rewrite wadd32_small by lia.
        split; [lia|]. assert (hs = []) as -> by (destruct hs; [done|cbn in Hn; lia]). split; [done|]. exists pid.
        split; [done|]. by apply list.Forall_singleton.
      * injection Hop as <-. cbn. rewrite wadd32_small by lia. split; [lia|done].
  - assert (d' = d) as ->; [|done]. unfold dev_open in Hop. destruct (negb (is_ready d)); [by injection Hop|].
    destruct (exclusive d); [case_bool_decide; by injection Hop|]. destruct excl; [|by injection Hop].
    destruct (_ <? _); by injection Hop.
  - assert (Hlen : len (hs1 ++ pid :: hs2) = len (hs1 ++ hs2) + 1) by (rewrite !length_app; cbn; lia).
    unfold dev_close in Hcl. destruct (N.eqb_spec (open_count d) 0) as [|Hnz]; [done|]. unfold use_inv.
    destruct (exclusive d) eqn:Ee; cbn [andb] in Hcl.
    + destruct Hx as [_ (p & Hp & Hall)]. assert (Hpid : pid = p).
      { rewrite list.Forall_forall in Hall. apply Hall, elem_of_app. right. by left. }
      assert (Hall' : Forall (fun h => h = p) (hs1 ++ hs2)).
      { apply Forall_app in Hall as [Ha1 Ha2]. apply list.Forall_cons in Ha2 as [_ Ha2]. by apply Forall_app. }
      rewrite Hp, bool_decide_true in Hcl by congruence. cbn [andb] in Hcl.
      destruct (N.eqb_spec (open_count d - 1) 0) as [Hz|Hz]; injection Hcl as <-; cbn; (split; [lia|]); [done|].
      split; [intros E; rewrite E in Hlen; cbn in Hlen; lia|]. exists p. by split.
    + injection Hcl as <-. cbn. rewrite ?Ee. split; [lia|done].
Qed.

(** C36: as long as each process closes only what it opened, exclusive use is
    exclusive: while a device is held exclusively every open of it is the
    owner's, another process is refused, and the last close frees it. *)
Theorem exclusive_use_excludes d hs :
  use d hs ->
  open_count d = len hs /\
  (exclusive d = true -> exists p, hs <> [] /\ Forall (fun h => h = p) hs /\
     forall q excl, q <> p -> exists e, dev_open q excl d = (d, Err e)) /\
  (hs = [] -> exclusive d = false /\ exclusive_owner d = None).
Proof.
  intros Hu. destruct (use_spec d hs Hu) as [Hn Hx]. split; [done|]. split.
  - intros He. rewrite He in Hx. destruct Hx as [Hne (p & Hp & Hall)]. exists p. split; [done|]. split; [done|]. intros q excl Hq.
    unfold dev_open. destruct (negb (is_ready d)); [by eexists|]. rewrite He, Hp, bool_decide_false by congruence. by eexists.
  - intros ->. destruct (exclusive d); [by destruct Hx|done].
Qed.

(** Property: [close] does not ask who opened: when another process closes the last
    open of a device held exclusively, the device stays reserved with nobody
    using it, and no process but the owner can open it. *)
Theorem foreign_close_locks_device d p q :
  exclusive d = true -> exclusive_owner d = Some p -> open_count d = 1 -> q <> p ->
  exists d', dev_close q d = (d', Ok tt) /\ in_use d' = false /\
    forall r excl, r <> p -> exists e, dev_open r excl d' = (d', Err e).
Proof.
  intros He Hp Hc Hq. unfold dev_close. rewrite Hc, He, Hp, bool_decide_false by congruence. cbn [N.eqb andb].
  eexists. split; [done|]. split; [done|]. intros r excl Hr. unfold dev_open. destruct (negb _); [by eexists|]. cbn.
  rewrite bool_decide_false by congruence. by eexists.
Qed.
End Exclusive.

(** ** A device that does nothing, and witnesses *)

#[export] Instance null_device : DeviceOperations unit := {
  op_read buf o := (o, buf, Ok 0); op_write bs o := (o, Ok (len bs)); op_status _ := Ready; op_reset o := (o, Ok tt) }.
Definition demo_device (nm : N) : Device unit :=
  set_operations tt (Device_new (DeviceInfo_new [nm] Character 4 0 0)).

Lemma manager_consistent_witness :
  manager_wf (foldl manager_op DeviceManager_new
    [Register (demo_device 97); Register (demo_device 98); OpenOp 1 7 true; WriteOp 1 [1]; Unregister 2; CloseOp 1 7; Unregister 1]).
Proof. apply manager_consistent. reflexivity. Defined.

Lemma duplicate_name_lost_witness :
  let '(m1, i1) := register (demo_device 97) DeviceManager_new in
  let '(m2, i2) := register (demo_device 97) m1 in
  let '(m3, r) := unregister i1 m2 in
  i1 <> i2 /\ name_map m2 !! [97] = Some i2 /\ r = Ok tt /\ is_Some (get i2 m3) /\ get_by_name [97] m3 = None.
Proof.
  exact (duplicate_name_lost DeviceManager_new (demo_device 97) (demo_device 97) manager_new_wf eq_refl eq_refl eq_refl).
Defined.

Lemma exclusive_use_excludes_witness :
  exists d, dev_open 7 true (demo_device 97) = (d, Ok tt) /\ forall excl, exists e, dev_open 8 excl d = (d, Err e).
Proof.
  eexists. split; [reflexivity|]. intros excl. set (d := with_opens _ _ _ _).
  assert (Hu : use d ([] ++ [7])) by (apply (use_open (demo_device 97) [] 7 true); [by apply use_new|done|reflexivity]).
  destruct (exclusive_use_excludes d _ Hu) as (_ & H & _). destruct (H eq_refl) as (p & _ & Hall & Href).
  apply (Href 8 excl). intros E. subst p. by inversion_clear Hall.
Defined.

Definition held_device : Device unit := fst (dev_open 7 true (demo_device 97)).
Lemma foreign_close_locks_device_witness :
  exists d, dev_close 8 held_device = (d, Ok tt) /\ exists e, dev_open 8 false d = (d, Err e).
Proof.
  destruct (foreign_close_locks_device held_device 7 8 eq_refl eq_refl eq_refl ltac:(done)) as (d & H1 & _ & H2).
  exists d. split; [exact H1|]. by apply (H2 8 false).
Defined.
