(* ===== verification/DeviceService.v ===== *)
(** * The device service (src/src/services/device/service.rs)

    One thread owns the device manager and the clipboard and runs a handler per
    message.  [answers] is what the requester has received; [connected] says
    whether it still listens.  The texts of errors are left out. *)
From Stdlib Require String.
Import (notations) String.
From S2P Require Import Prelude Types Messages Text.
From S2P Require Devices Assembler.

Section DeviceService.
Context {O : Type} `{!Devices.DeviceOperations O}.

Record DeviceService := { manager : Devices.DeviceManager O; clipboard : str; answers : list Response }.
Definition set_manager m (s : DeviceService) : DeviceService :=
  {| manager := m; clipboard := clipboard s; answers := answers s |}.
Definition set_clipboard c (s : DeviceService) : DeviceService :=
  {| manager := manager s; clipboard := c; answers := answers s |}.
Definition set_answers a (s : DeviceService) : DeviceService :=
  {| manager := manager s; clipboard := clipboard s; answers := a |}.
Definition new : DeviceService := {| manager := Devices.DeviceManager_new; clipboard := []; answers := [] |}.

Notation D := (HM DeviceService).
Definition get : D DeviceService := fun s => Done (s, Ok s).
Definition update (f : DeviceService -> DeviceService) : D unit := fun s => Done (f s, Ok tt).
Definition of_result {A} (r : result ServiceError A) : D A := fun s => Done (s, r).
(** a call of the device manager *)
Definition on_manager {A} (m : SE (Devices.DeviceManager O) ServiceError A) : D A := fun s =>
  let '(d, r) := m (manager s) in Done (set_manager d s, r).
(** [vec![0u8; size]] *)
Definition zeros (size : N) : D (list N) :=
  if 2 ^ 63 <=? size then fun _ => Panicked else mret (replicate (N.to_nat size) 0).

Section Handlers.
Context (connected : bool).

(** [envelope.respond_success], the result ignored *)
Definition respond (r : Response) : D unit :=
  if connected then update (fun s => set_answers (answers s ++ [r]) s) else mret tt.

Definition device_class_to_type (c : DeviceRequest.DeviceClass) : result ServiceError Devices.DeviceType :=
  match c with
  | DeviceRequest.Block => Ok Devices.Block
  | DeviceRequest.Char => Ok Devices.Character
  | DeviceRequest.Network => Ok Devices.Network
  | DeviceRequest.Graphics => Ok Devices.Graphics
  | DeviceRequest.Clipboard => Ok Devices.Clipboard
  | DeviceRequest.Timer => Ok Devices.Unknown
  | DeviceRequest.Unknown => Ok Devices.Unknown
  end.

(** [format!("{:?}", status)] *)
Definition status_name (st : Devices.DeviceStatus) : str :=
  match st with
  | Devices.Initializing => Assembler.B "Initializing"
  | Devices.Ready => Assembler.B "Ready"
  | Devices.Busy => Assembler.B "Busy"
  | Devices.Error => Assembler.B "Error"
  | Devices.Disabled => Assembler.B "Disabled"
  | Devices.Removed => Assembler.B "Removed"
  end.

(** ** Handlers *)

Definition clipboard_set (bs : list N) : D unit := update (set_clipboard (from_utf8_lossy bs)).
Definition clipboard_get (max_size : N) (s : DeviceService) : list N :=
  take (N.to_nat (N.min max_size (len (clipboard s)))) (clipboard s).

Definition handle_register_device (c : DeviceRequest.DeviceClass) (nm : str) : D N :=
  ty ← of_result (device_class_to_type c);
  on_manager (fun m =>
    let '(m, i) := Devices.register (Devices.Device_new (Devices.DeviceInfo_new nm ty 0 0 0)) m in (m, Ok i)).
Definition handle_register_device_with_response (c : DeviceRequest.DeviceClass) (nm : str) : D unit :=
  i ← handle_register_device c nm; respond (Ok (Integer i)).
Definition handle_unregister_device (i : N) : D unit := on_manager (Devices.unregister i).
Definition handle_unregister_device_with_response (i : N) : D unit :=
  _ ← handle_unregister_device i; respond (Ok Void).
Definition handle_list_devices : D N := s ← get; mret (len (Devices.list_devices (manager s))).
Definition handle_list_devices_with_response : D unit :=
  n ← handle_list_devices; respond (Ok (RString (Assembler.B "Device count: " ++ decimal n))).
Definition handle_get_devices_by_type (c : DeviceRequest.DeviceClass) : D (list (Devices.Device O)) :=
  ty ← of_result (device_class_to_type c);
  s ← get; mret (Devices.get_by_type ty (manager s)).

(** the data read is dropped *)
Definition handle_read_device (i size : N) : D N :=
  buf ← zeros size; r ← on_manager (Devices.mgr_read i buf); mret (fst r).
Definition handle_read_device_with_response (i size : N) : D unit :=
  n ← handle_read_device i size; respond (Ok (BytesProcessed n)).
(** what is written are zeros *)
Definition handle_write_device (i size : N) : D N := bs ← zeros size; on_manager (Devices.mgr_write i bs).
Definition handle_write_device_with_response (i size : N) : D unit :=
  n ← handle_write_device i size; respond (Ok (BytesProcessed n)).

Definition handle_get_device_status (i : N) : D Devices.DeviceStatus :=
  s ← get; of_result (Devices.mgr_status i (manager s)).
Definition handle_get_device_status_with_response (i : N) : D unit :=
  st ← handle_get_device_status i; respond (Ok (RString (status_name st))).

(** they only print *)
Definition handle_ioctl (i request : N) : D unit := mret tt.
Definition handle_init_device (i : N) : D unit := mret tt.
Definition handle_shutdown_device (i : N) : D unit := mret tt.
Definition handle_reset_device (i : N) : D unit := mret tt.
Definition handle_enable_interrupt (i irq : N) : D unit := mret tt.
Definition handle_disable_interrupt (i irq : N) : D unit := mret tt.
Definition handle_interrupt (i : Interrupt) : D unit := mret tt.

Definition drop {A} (m : D A) : D unit := _ ← m; mret tt.

Definition handle_device_request (req : DeviceRequest.t) : D unit :=
  match req with
  | DeviceRequest.ClipboardSet bs => clipboard_set bs
  | DeviceRequest.ClipboardGet _ => mret tt
  | DeviceRequest.RegisterDevice c nm => drop (handle_register_device c nm)
  | DeviceRequest.UnregisterDevice i => handle_unregister_device i
  | DeviceRequest.ListDevices => drop handle_list_devices
  | DeviceRequest.GetDevicesByType c => drop (handle_get_devices_by_type c)
  | DeviceRequest.Read i _ size => drop (handle_read_device i size)
  | DeviceRequest.Write i _ size => drop (handle_write_device i size)
  | DeviceRequest.Ioctl i request _ => handle_ioctl i request
  | DeviceRequest.Init i => handle_init_device i
  | DeviceRequest.Shutdown i => handle_shutdown_device i
  | DeviceRequest.Reset_ i => handle_reset_device i
  | DeviceRequest.Status i => drop (handle_get_device_status i)
  | DeviceRequest.EnableInterrupt i irq => handle_enable_interrupt i irq
  | DeviceRequest.DisableInterrupt i irq => handle_disable_interrupt i irq
  | DeviceRequest.SetConfig _ _ | DeviceRequest.GetConfig _ => mret tt
  end.

Definition handle_device_request_with_response (req : DeviceRequest.t) : D unit :=
  match req with
  | DeviceRequest.ClipboardSet bs => _ ← clipboard_set bs; respond (Ok Void)
  | DeviceRequest.ClipboardGet n => s ← get; respond (Ok (Bytes (clipboard_get n s)))
  | DeviceRequest.RegisterDevice c nm => handle_register_device_with_response c nm
  | DeviceRequest.UnregisterDevice i => handle_unregister_device_with_response i
  | DeviceRequest.ListDevices => handle_list_devices_with_response
  | DeviceRequest.Status i => handle_get_device_status_with_response i
  | DeviceRequest.Read i _ size => handle_read_device_with_response i size
  | DeviceRequest.Write i _ size => handle_write_device_with_response i size
  | _ => _ ← handle_device_request req; respond (Ok Void)
  end.

Definition handle_envelope (expects_response : bool) (m : KernelMsg) : D unit := fun s =>
  let r := match m with
           | MsgDevice req =>
               if expects_response then handle_device_request_with_response req s else handle_device_request req s
           | MsgInterrupt i => handle_interrupt i s
           | _ => Done (s, Ok tt)
           end in
  match r with
  | Done (s, Ok _) => Done (s, Ok tt)
  | Done (s, Err _) => if expects_response then respond (Err (RespOther 1)) s else Done (s, Ok tt)
  | Panicked => Panicked
  | Deadlocked => Deadlocked
  end.
End Handlers.

(** ** Queries *)

Definition device_count (s : DeviceService) : N := Devices.count (manager s).
Definition list_devices (s : DeviceService) : list Devices.DeviceSnapshot := Devices.list_devices (manager s).
Definition get_devices_by_type (t : Devices.DeviceType) (s : DeviceService) : list Devices.DeviceSnapshot :=
  Devices.snapshot_of <$> Devices.get_by_type t (manager s).

(** messages in the order they arrive, with whether each expects a response; the
    requesters listen *)
Fixpoint serve (ms : list (bool * KernelMsg)) (s : DeviceService) : outcome DeviceService :=
  match ms with
  | [] => Done s
  | (er, m) :: ms =>
      match handle_envelope true er m s with
      | Done (s, _) => serve ms s
      | Panicked => Panicked
      | Deadlocked => Deadlocked
      end
  end.
End DeviceService.
Arguments DeviceService O : clear implicits.

(** ** What the service promises: a catalogue of names and types, and a text *)

Record Catalogue := { entries : gmap N (str * Devices.DeviceType); next_id : N; text_kept : str }.
Definition catalogue_new : Catalogue := {| entries := ∅; next_id := 1; text_kept := [] |}.
Definition type_of_class (c : DeviceRequest.DeviceClass) : Devices.DeviceType :=
  match device_class_to_type c with Ok t => t | Err _ => Devices.Unknown end.

Definition catalogue_do (req : DeviceRequest.t) (c : Catalogue) : Catalogue * Response :=
  match req with
  | DeviceRequest.ClipboardSet bs =>
      ({| entries := entries c; next_id := next_id c; text_kept := from_utf8_lossy bs |}, Ok Void)
  | DeviceRequest.ClipboardGet n => (c, Ok (Bytes (take (N.to_nat n) (text_kept c))))
  | DeviceRequest.RegisterDevice cl nm =>
      ({| entries := <[next_id c := (nm, type_of_class cl)]> (entries c); next_id := next_id c + 1; text_kept := text_kept c |},
       Ok (Integer (next_id c)))
  | DeviceRequest.UnregisterDevice i =>
      if bool_decide (is_Some (entries c !! i))
      then ({| entries := delete i (entries c); next_id := next_id c; text_kept := text_kept c |}, Ok Void)
      else (c, Err (RespOther 1))
  | DeviceRequest.ListDevices => (c, Ok (RString (Assembler.B "Device count: " ++ decimal (N.of_nat (size (entries c))))))
  | DeviceRequest.Status i =>
      (c, if bool_decide (is_Some (entries c !! i)) then Ok (RString (Assembler.B "Initializing")) else Err (RespOther 1))
  | DeviceRequest.Read _ _ _ | DeviceRequest.Write _ _ _ => (c, Err (RespOther 1))
  | _ => (c, Ok Void)
  end.
(** the catalogue after a message, and what it answers *)
Definition catalogue_step (er : bool) (m : KernelMsg) (c : Catalogue) : Catalogue * list Response :=
  match m with
  | MsgDevice req => let '(c', r) := catalogue_do req c in (c', if er then [r] else [])
  | _ => (c, [])
  end.
Fixpoint catalogue_run (ms : list (bool * KernelMsg)) (c : Catalogue) : Catalogue * list Response :=
  match ms with
  | [] => (c, [])
  | (er, m) :: ms =>
      let '(c, rs) := catalogue_step er m c in
      let '(c, rs') := catalogue_run ms c in (c, rs ++ rs')
  end.

(** a buffer that the machine can allocate *)
Definition small (m : KernelMsg) : bool :=
  match m with
  | MsgDevice (DeviceRequest.Read _ _ n) | MsgDevice (DeviceRequest.Write _ _ n) => n <? 2 ^ 63
  | _ => true
  end.

Section Refinement.
Context {O : Type} `{!Devices.DeviceOperations O}.

(** a device that was never initialised, that nobody has open *)
Definition inert (d : Devices.Device O) : Prop :=
  Devices.operations d = None /\ Devices.info_status (Devices.info d) = Devices.Initializing /\ Devices.open_count d = 0.
Definition entry_of (d : Devices.Device O) : str * Devices.DeviceType :=
  (Devices.info_name (Devices.info d), Devices.info_type (Devices.info d)).
Definition represents (s : DeviceService O) (c : Catalogue) : Prop :=
  entries c = entry_of <$> Devices.devices (manager s) /\ next_id c = Devices.next_device_id (manager s) /\
  text_kept c = clipboard s /\ forall i d, Devices.devices (manager s) !! i = Some d -> inert d.

(** what both forms of a request have to do: the state represents the new catalogue,
    and an answer was sent or an error was returned *)
Definition fits (req : DeviceRequest.t) (s : DeviceService O) (c : Catalogue) : Prop :=
  (exists s1 x, handle_device_request req s = Done (s1, x) /\ represents s1 (catalogue_do req c).1 /\ answers s1 = answers s) /\
  (exists s1 x, handle_device_request_with_response true req s = Done (s1, x) /\ represents s1 (catalogue_do req c).1 /\
     match x with
     | Ok _ => answers s1 = answers s ++ [(catalogue_do req c).2]
     | Err _ => answers s1 = answers s /\ (catalogue_do req c).2 = Err (RespOther 1)
     end).

Lemma lookup_entry s c i : represents s c -> entries c !! i = entry_of <$> Devices.devices (manager s) !! i.
Proof. intros (-> & _). apply lookup_fmap. Qed.

(** requests that succeed and only change what a pure function says *)
Lemma fits_pure req s c s1 :
  handle_device_request req s = Done (s1, Ok tt) -> answers s1 = answers s -> represents s1 (catalogue_do req c).1 ->
  handle_device_request_with_response true req s = Done (set_answers (answers s ++ [(catalogue_do req c).2]) s1, Ok tt) ->
  fits req s c.
Proof. intros H1 Ha Hr H2. split; [by exists s1, (Ok tt)|]. rewrite H2. by eexists _, (Ok tt). Qed.
(** requests that fail and change nothing *)
Lemma fits_error req s c e :
  represents s c -> catalogue_do req c = (c, Err (RespOther 1)) ->
  handle_device_request req s = Done (s, Err e) -> handle_device_request_with_response true req s = Done (s, Err e) -> fits req s c.
Proof. intros Hr Hc H1 H2. unfold fits. rewrite Hc, H1, H2. split; by exists s, (Err e). Qed.

(** a call that fails on a device that was never initialised *)
Lemma on_device_fails {A} i (f : SE (Devices.Device O) ServiceError A) e s c : represents s c ->
  (forall d, inert d -> f d = (d, Err e)) -> exists e', on_manager (Devices.on_device i f) s = Done (s, Err e').
Proof.
  intros (_ & _ & _ & Hin) Hf. unfold on_manager, Devices.on_device, Devices.get.
  destruct (_ !! i) as [d|] eqn:E; [|exists SvcNotFound; by destruct s]. exists e. rewrite (Hf d (Hin _ _ E)).
  cbv beta iota. unfold Devices.with_devices. rewrite insert_id by done. by destruct s as [[] ? ?].
Qed.

Lemma register_fits cl nm s c : represents s c -> next_id c + 1 < 2 ^ 32 -> fits (DeviceRequest.RegisterDevice cl nm) s c.
Proof.
  intros (He & Hn & Hc & Hin) Hb.
  assert (Ht : device_class_to_type cl = Ok (type_of_class cl)) by (by destruct cl).
  destruct (Devices.register (Devices.Device_new (Devices.DeviceInfo_new nm (type_of_class cl) 0 0 0)) (manager s)) as [m i] eqn:E.
  assert (Hh : handle_register_device cl nm s = Done (set_manager m s, Ok i)).
  { unfold handle_register_device. rewrite HM_bind_eq, Ht. unfold of_result, on_manager. by rewrite E. }
  injection E as <- <-. eapply fits_pure.
  - unfold handle_device_request, drop. by rewrite HM_bind_eq, Hh.
  - done.
  - split; [|split; [|split; [done|]]]; cbn.
    + by rewrite fmap_insert, He, Hn.
    + by rewrite wadd32_small, Hn by lia.
    + intros j d. destruct (decide (Devices.next_device_id (manager s) = j)) as [<-|Hne].
      * rewrite lookup_insert_eq. by intros [= <-].
      * rewrite lookup_insert_ne by done. apply Hin.
  - unfold handle_device_request_with_response, handle_register_device_with_response. rewrite HM_bind_eq, Hh. cbn. by rewrite Hn.
Qed.

Lemma unregister_fits i s c : represents s c -> fits (DeviceRequest.UnregisterDevice i) s c.
Proof.
  intros Hr. pose proof (lookup_entry s c i Hr) as Hl. pose proof Hr as (He & Hn & Hc & Hin).
  destruct (Devices.devices (manager s) !! i) as [d|] eqn:Ed; cbn in Hl.
  - pose proof (Hin _ _ Ed) as (_ & _ & Hz).
    destruct (Devices.unregister i (manager s)) as [m x] eqn:E. unfold Devices.unregister, Devices.in_use in E.
    rewrite Ed, Hz in E. injection E as <- <-.
    assert (Hh : handle_unregister_device i s = Done (set_manager (Devices.unregister i (manager s)).1 s, Ok tt)).
    { unfold handle_unregister_device, on_manager, Devices.unregister, Devices.in_use. by rewrite Ed, Hz. }
    eapply fits_pure.
    + exact Hh.
    + done.
    + cbn [catalogue_do]. rewrite bool_decide_true by (rewrite Hl; by eexists). unfold Devices.unregister, Devices.in_use.
      rewrite Ed, Hz. change (0 <? 0) with false. unfold represents. cbn [fst manager set_manager clipboard Devices.devices
        Devices.next_device_id entries next_id text_kept]. split; [by rewrite fmap_delete, He|]. split; [done|]. split; [done|].
      intros j d' [_ Hd']%lookup_delete_Some. by apply (Hin j).
    + unfold handle_device_request_with_response, handle_unregister_device_with_response. rewrite HM_bind_eq, Hh.
      cbn [catalogue_do]. by rewrite bool_decide_true by (rewrite Hl; by eexists).
  - assert (Hh : handle_unregister_device i s = Done (s, Err SvcNotFound)).
    { unfold handle_unregister_device, on_manager, Devices.unregister. rewrite Ed. by destruct s. }
    apply (fits_error _ _ _ SvcNotFound); [done| |done|].
    + cbn. rewrite bool_decide_false; [done|]. rewrite Hl. by intros [? ?].
    + unfold handle_device_request_with_response, handle_unregister_device_with_response. by rewrite HM_bind_eq, Hh.
Qed.

Lemma io_fits i buf n s c : represents s c -> n < 2 ^ 63 -> fits (DeviceRequest.Read i buf n) s c /\ fits (DeviceRequest.Write i buf n) s c.
Proof.
  intros Hr Hn. assert (Hz : zeros (O := O) n s = Done (s, Ok (replicate (N.to_nat n) 0))).
  { unfold zeros. by rewrite (proj2 (N.leb_gt _ _) Hn). }
  split.
  - destruct (on_device_fails i (fun d => let '(d, buf, r) := Devices.dev_read (replicate (N.to_nat n) 0) d in (d, n ← r; Ok (n, buf)))
      NotImplemented s c Hr) as [e He]. { intros d (Ho & _). unfold Devices.dev_read. by rewrite Ho. }
    assert (Hh : handle_read_device i n s = Done (s, Err e)).
    { unfold handle_read_device. rewrite HM_bind_eq, Hz, HM_bind_eq. unfold Devices.mgr_read. by rewrite He. }
    apply (fits_error (DeviceRequest.Read i buf n) s c e Hr eq_refl); cbn [handle_device_request handle_device_request_with_response].
    + unfold drop. by rewrite HM_bind_eq, Hh.
    + unfold handle_read_device_with_response. by rewrite HM_bind_eq, Hh.
  - destruct (on_device_fails i (Devices.dev_write (replicate (N.to_nat n) 0)) NotImplemented s c Hr) as [e He].
    { intros d (Ho & _). unfold Devices.dev_write. by rewrite Ho. }
    assert (Hh : handle_write_device i n s = Done (s, Err e)).
    { unfold handle_write_device. rewrite HM_bind_eq, Hz. unfold Devices.mgr_write. by rewrite He. }
    apply (fits_error (DeviceRequest.Write i buf n) s c e Hr eq_refl); cbn [handle_device_request handle_device_request_with_response].
    + unfold drop. by rewrite HM_bind_eq, Hh.
    + unfold handle_write_device_with_response. by rewrite HM_bind_eq, Hh.
Qed.

Lemma status_fits i s c : represents s c -> fits (DeviceRequest.Status i) s c.
Proof.
  intros Hr. pose proof (lookup_entry s c i Hr) as Hl. pose proof Hr as (_ & _ & _ & Hin).
  assert (Hh : handle_get_device_status i s =
    Done (s, Devices.dev_status <$> ok_or SvcNotFound (Devices.devices (manager s) !! i))) by done.
  destruct (Devices.devices (manager s) !! i) as [d|] eqn:Ed; cbn in Hl, Hh.
  - destruct (Hin _ _ Ed) as (Ho & Hst & _). unfold Devices.dev_status in Hh. rewrite Ho, Hst in Hh. apply (fits_pure _ _ _ s).
    + unfold handle_device_request, drop. by rewrite HM_bind_eq, Hh.
    + done.
    + done.
    + unfold handle_device_request_with_response, handle_get_device_status_with_response. rewrite HM_bind_eq, Hh.
      cbn [catalogue_do snd]. by rewrite bool_decide_true by (rewrite Hl; by eexists).
  - apply (fits_error _ _ _ SvcNotFound); [done| | |].
    + cbn. rewrite bool_decide_false; [done|]. rewrite Hl. by intros [? ?].
    + unfold handle_device_request, drop. by rewrite HM_bind_eq, Hh.
    + unfold handle_device_request_with_response, handle_get_device_status_with_response. by rewrite HM_bind_eq, Hh.
Qed.

Lemma clipboard_get_take n (s : DeviceService O) : clipboard_get n s = take (N.to_nat n) (clipboard s).
Proof.
  unfold clipboard_get. destruct (N.min_spec n (len (clipboard s))) as [[_ ->]|[Hle ->]]; [done|].
  rewrite Nat2N.id, !take_ge by lia. done.
Qed.

Lemma request_fits req s c : represents s c -> small (MsgDevice req) = true -> next_id c + 1 < 2 ^ 32 -> fits req s c.
Proof.
  intros Hr Hs Hb.
  destruct req; try (apply N.ltb_lt in Hs); try (by apply io_fits with (buf := buf)); try (by apply (fits_pure _ _ _ s));
    [by apply status_fits|by apply register_fits|by apply unregister_fits|..].
  - apply (fits_pure _ _ _ s); [done..|]. destruct Hr as (He & _).
    cbn [catalogue_do snd handle_device_request_with_response]. unfold handle_list_devices_with_response, handle_list_devices.
    rewrite !HM_bind_eq. cbn [get mret HM_ret]. unfold Devices.list_devices. rewrite length_fmap, He, map_size_fmap, length_map_to_list. done.
  - destruct device_type; by apply (fits_pure _ _ _ s).
  - destruct Hr as (He & Hn & Hc & Hin). by apply (fits_pure _ _ _ (set_clipboard (from_utf8_lossy data) s)).
  - apply (fits_pure _ _ _ s); [done..|]. destruct Hr as (_ & _ & Hc & _). cbn [catalogue_do snd]. rewrite Hc, <- clipboard_get_take. done.
Qed.

(** one message *)
Lemma envelope_step er m s c : represents s c -> small m = true -> next_id c + 1 < 2 ^ 32 ->
  exists s', handle_envelope true er m s = Done (s', Ok tt) /\ represents s' (catalogue_step er m c).1 /\
    answers s' = answers s ++ (catalogue_step er m c).2.
Proof.
  intros Hr Hs Hb. destruct m as [?|?|?|?|?|req]; try (exists s; by rewrite app_nil_r).
  destruct (request_fits req s c Hr Hs Hb) as [(s1 & x1 & E1 & R1 & A1) (s2 & x2 & E2 & R2 & A2)].
  unfold handle_envelope, catalogue_step. revert R1 R2 A2. destruct (catalogue_do req c) as [c' r]. intros R1 R2 A2. cbn [fst snd] in *. destruct er.
  - rewrite E2. destruct x2 as [u|e]; [exists s2; split; [done|split; [exact R2|exact A2]]|]. destruct A2 as [A2 ->].
    exists (set_answers (answers s2 ++ [Err (RespOther 1)]) s2). split; [done|]. split; [exact R2|]. cbn. by rewrite A2.
  - rewrite E1. exists s1. rewrite A1, app_nil_r. split; [by destruct x1|]. split; [exact R1|done].
Qed.

Lemma catalogue_step_id er m c : next_id (catalogue_step er m c).1 <= next_id c + 1.
Proof. destruct m as [?|?|?|?|?|[]]; cbn; try lia. case_bool_decide; cbn; lia. Qed.

Lemma serve_catalogue ms s c :
  represents s c -> forallb (fun em => small (snd em)) ms = true -> next_id c + len ms < 2 ^ 32 ->
  exists s', serve ms s = Done s' /\ represents s' (catalogue_run ms c).1 /\ answers s' = answers s ++ (catalogue_run ms c).2.
Proof.
  revert s c. induction ms as [|[er m] ms IH]; intros s c Hr Hs Hb; [exists s; by rewrite app_nil_r|].
  cbn [forallb snd length] in *. apply andb_true_iff in Hs as [Hs Hss].
  destruct (envelope_step er m s c Hr Hs ltac:(lia)) as (s1 & E1 & R1 & A1). pose proof (catalogue_step_id er m c) as Hi.
  cbn [serve catalogue_run]. rewrite E1. destruct (catalogue_step er m c) as [c1 rs1]. cbn [fst snd] in *.
  destruct (IH s1 c1 R1 Hss ltac:(lia)) as (s2 & E2 & R2 & A2). destruct (catalogue_run ms c1) as [c2 rs2]. cbn [fst snd] in *.
  exists s2. split; [done|]. split; [done|]. by rewrite A2, A1, app_assoc.
Qed.

(** a buffer that cannot be allocated, in both forms of a request *)
Lemma large_panics er m (s : DeviceService O) : small m = false -> handle_envelope true er m s = Panicked.
Proof.
  assert (Hz : forall n, (n <? 2 ^ 63) = false -> zeros n s = Panicked).
  { intros n Hn. unfold zeros. apply N.ltb_ge, N.leb_le in Hn. by rewrite Hn. }
  destruct m as [?|?|?|?|?|[]]; try done; intros Hs; cbn [small] in Hs; specialize (Hz _ Hs); unfold handle_envelope; destruct er;
    cbn [handle_device_request handle_device_request_with_response];
    unfold drop, handle_read_device_with_response, handle_write_device_with_response, handle_read_device, handle_write_device;
    by rewrite !HM_bind_eq, Hz.
Qed.
Lemma serve_panics ms (s : DeviceService O) c :
  represents s c -> forallb (fun em => small (snd em)) ms = false -> next_id c + len ms < 2 ^ 32 -> serve ms s = Panicked.
Proof.
  revert s c. induction ms as [|[er m] ms IH]; intros s c Hr Hs Hb; [done|]. cbn [forallb snd length serve] in *.
  destruct (small m) eqn:Hm; [|by rewrite large_panics].
  destruct (envelope_step er m s c Hr Hm ltac:(lia)) as (s1 & E1 & R1 & _). pose proof (catalogue_step_id er m c) as Hi.
  rewrite E1. apply (IH s1 _ R1 Hs). lia.
Qed.

Lemma new_represents : represents new catalogue_new.
Proof. split; [cbn; by rewrite fmap_empty|]. split; [done|]. split; [done|]. intros i d. cbn. by rewrite lookup_empty. Qed.
End Refinement.

(** ** What holds of every run *)

Section Runs.
Context {O : Type} `{!Devices.DeviceOperations O}.

(** C9: whatever messages come (fewer than 2^32 - 1 of them, so that the device
    identifiers do not wrap), the device service either panics or is a catalogue
    of names and types with a text: each request that expects a response gets
    exactly one, in order, the one the catalogue gives, whatever the drivers do.
    In particular every read and write of a device is answered with an error,
    since no request ever gives a device operations.  It panics exactly when one
    of the messages is a read or a write of 2^63 bytes or more, for which it
    allocates a buffer before it looks at the device. *)
Theorem device_service_refines_catalogue ms : 1 + len ms < 2 ^ 32 ->
  if forallb (fun em => small (snd em)) ms
  then exists s, serve ms (new (O := O)) = Done s /\ represents s (catalogue_run ms catalogue_new).1 /\
         answers s = (catalogue_run ms catalogue_new).2
  else serve ms (new (O := O)) = Panicked.
Proof.
  intros Hb. destruct (forallb _ ms) eqn:Hs; [by apply (serve_catalogue ms new catalogue_new new_represents Hs)|].
  by apply (serve_panics ms new catalogue_new new_represents Hs).
Qed.

Definition sets_clipboard (m : KernelMsg) : bool :=
  match m with MsgDevice (DeviceRequest.ClipboardSet _) => true | _ => false end.
Lemma text_stays ms c : forallb (fun em => negb (sets_clipboard (snd em))) ms = true ->
  text_kept (catalogue_run ms c).1 = text_kept c.
Proof.
  revert c. induction ms as [|[er m] ms IH]; intros c Hm; [done|]. cbn [forallb snd] in Hm. apply andb_true_iff in Hm as [Hm Hms].
  assert (H1 : text_kept (catalogue_step er m c).1 = text_kept c).
  { destruct m as [?|?|?|?|?|[]]; try done; cbn. by case_bool_decide. }
  cbn [catalogue_run]. destruct (catalogue_step er m c) as [c1 rs1]. specialize (IH c1 Hms).
  destruct (catalogue_run ms c1) as [c2 rs2]. cbn [fst] in *. congruence.
Qed.

Lemma catalogue_run_app ms1 ms2 c :
  catalogue_run (ms1 ++ ms2) c =
  let '(c1, r1) := catalogue_run ms1 c in let '(c2, r2) := catalogue_run ms2 c1 in (c2, r1 ++ r2).
Proof.
  revert c. induction ms1 as [|[er m] ms1 IH]; intros c; cbn [app catalogue_run]; [by destruct (catalogue_run ms2 c)|].
  destruct (catalogue_step er m c) as [c1 rs1]. rewrite IH. destruct (catalogue_run ms1 c1) as [c2 rs2].
  destruct (catalogue_run ms2 c2) as [c3 rs3]. by rewrite app_assoc.
Qed.

(** Property: what a process puts on the clipboard comes back: after any messages, a
    set and any messages that do not set it, a get returns the first bytes of
    the text, which is valid UTF-8, and the very bytes that were set if they
    are. *)
Theorem clipboard_round_trip ms1 er bs ms2 n :
  forallb (fun em => small (snd em)) (ms1 ++ ms2) = true -> 3 + len (ms1 ++ ms2) < 2 ^ 32 ->
  forallb (fun em => negb (sets_clipboard (snd em))) ms2 = true ->
  exists s rs kept,
    serve (ms1 ++ (er, MsgDevice (DeviceRequest.ClipboardSet bs)) :: ms2 ++ [(true, MsgDevice (DeviceRequest.ClipboardGet n))])
      (new (O := O)) = Done s /\
    answers s = rs ++ [Ok (Bytes (take (N.to_nat n) kept))] /\ utf8 kept /\ (utf8 bs -> kept = bs).
Proof.
  intros Hs Hb Hset. set (ms := ms1 ++ _ :: _).
  destruct (serve_catalogue ms new catalogue_new new_represents) as (s & Hrun & _ & Ha).
  - unfold ms. rewrite forallb_app in *. cbn [forallb snd small andb]. rewrite forallb_app. cbn [forallb snd small andb].
    by rewrite andb_true_r.
  - unfold ms. rewrite !length_app in *. cbn [length next_id catalogue_new]. rewrite !length_app. cbn [length]. lia.
  - unfold ms in Ha. rewrite catalogue_run_app in Ha. destruct (catalogue_run ms1 catalogue_new) as [c1 r1]. cbn [catalogue_run] in Ha.
    destruct (catalogue_step er _ c1) as [c2 r2] eqn:E2. assert (Hk : text_kept c2 = from_utf8_lossy bs) by (by injection E2 as <- <-).
    rewrite catalogue_run_app in Ha. pose proof (text_stays ms2 c2 Hset) as Hst. destruct (catalogue_run ms2 c2) as [c3 r3].
    cbn [catalogue_run catalogue_step catalogue_do fst snd app answers new] in *.
    exists s, (r1 ++ r2 ++ r3), (from_utf8_lossy bs). split; [exact Hrun|]. split; [|split; [apply lossy_utf8|apply lossy_id]].
    rewrite Ha, Hst, Hk, <- !app_assoc. done.
Qed.
End Runs.

(** ** Witnesses *)

#[local] Existing Instance Devices.null_device.

Definition demo_messages : list (bool * KernelMsg) :=
  [(true, MsgDevice (DeviceRequest.RegisterDevice DeviceRequest.Timer [116]));
   (true, MsgDevice (DeviceRequest.Read 1 0 4)); (false, MsgDevice (DeviceRequest.Write 1 0 4));
   (true, MsgDevice (DeviceRequest.Status 1)); (true, MsgDevice DeviceRequest.ListDevices);
   (true, MsgDevice (DeviceRequest.UnregisterDevice 1)); (true, MsgDevice (DeviceRequest.UnregisterDevice 1))].

Lemma device_service_refines_catalogue_witness :
  (exists s : DeviceService unit, serve demo_messages new = Done s /\
    answers s = [Ok (Integer 1); Err (RespOther 1); Ok (RString (Assembler.B "Initializing"));
                 Ok (RString (Assembler.B "Device count: 1")); Ok Void; Err (RespOther 1)]) /\
  serve (demo_messages ++ [(false, MsgDevice (DeviceRequest.Read 1 0 (2 ^ 63)))]) (new (O := unit)) = Panicked.
Proof.
  split; [|exact (device_service_refines_catalogue (O := unit) (demo_messages ++
    [(false, MsgDevice (DeviceRequest.Read 1 0 (2 ^ 63)))]) eq_refl)].
  destruct (device_service_refines_catalogue (O := unit) demo_messages eq_refl) as (s & Hrun & _ & Ha).
  exists s. split; [exact Hrun|]. rewrite Ha. reflexivity.
Defined.

Lemma clipboard_round_trip_witness :
  exists (s : DeviceService unit) rs,
    serve (demo_messages ++ (false, MsgDevice (DeviceRequest.ClipboardSet [0xE6; 0x9B; 0xBE])) ::
      demo_messages ++ [(true, MsgDevice (DeviceRequest.ClipboardGet 9))]) new = Done s /\
    answers s = rs ++ [Ok (Bytes [0xE6; 0x9B; 0xBE])].
Proof.
  destruct (clipboard_round_trip (O := unit) demo_messages false [0xE6; 0x9B; 0xBE] demo_messages 9 eq_refl eq_refl eq_refl)
    as (s & rs & kept & Hrun & Ha & _ & Hk).
  exists s, rs. split; [exact Hrun|]. rewrite Ha, Hk; [reflexivity|]. exists [0x66FE]. split; [by constructor|reflexivity].
Defined.
