(* ===== verification/Pcb.v ===== *)
(** * Process and thread control blocks (src/src/services/process/pcb.rs)

    [HashMap::keys().next()] is some key of the map; [first_key] fixes which
    one by [map_to_list], and no theorem depends on the choice.  Creation times
    and the saved MMU state, which is never set, are left out. *)
From Stdlib Require String.
Import (notations) String.
From S2P Require Import Prelude Types.
From S2P Require Cpu Assembler.

(** text as bytes, as in [Assembler] *)
Notation str := (list N) (only parsing).

Inductive ProcessState :=
  | Creating | Ready | Running | Blocked (reason : BlockReason)
  | Terminated (exit_code : Z) | Zombie (exit_code : Z).

#[export] Instance ProcessState_eq_dec : EqDecision ProcessState.
Proof. solve_decision. Defined.

Definition is_alive (s : ProcessState) : bool :=
  match s with Creating | Ready | Running | Blocked _ => true | _ => false end.
Definition is_runnable (s : ProcessState) : bool := match s with Ready => true | _ => false end.
Definition is_blocked (s : ProcessState) : bool := match s with Blocked _ => true | _ => false end.
Definition is_terminated (s : ProcessState) : bool :=
  match s with Terminated _ | Zombie _ => true | _ => false end.

Inductive ThreadState := TCreating | TReady | TRunning | TBlocked (reason : BlockReason) | TTerminated.

#[export] Instance ThreadState_eq_dec : EqDecision ThreadState.
Proof. solve_decision. Defined.

Record ThreadStats := { t_cpu_time : N; t_schedule_count : N; t_context_switches : N }.
Definition ThreadStats_default : ThreadStats :=
  {| t_cpu_time := 0; t_schedule_count := 0; t_context_switches := 0 |}.

Record TCB := {
  tid : Tid; t_state : ThreadState; cpu_state : option Cpu.CPUState; t_priority : N;
  block_reason : option BlockReason; t_stats : ThreadStats; stack_pointer : VirtAddr; entry_point : VirtAddr }.

Definition TCB_new (t : Tid) (entry stack : VirtAddr) : TCB :=
  {| tid := t; t_state := TCreating; cpu_state := None; t_priority := 128; block_reason := None;
     t_stats := ThreadStats_default; stack_pointer := stack; entry_point := entry |}.

Definition with_thread (t : TCB) st cs br : TCB :=
  {| tid := tid t; t_state := st; cpu_state := cs; t_priority := t_priority t; block_reason := br;
     t_stats := t_stats t; stack_pointer := stack_pointer t; entry_point := entry_point t |}.

Definition tcb_set_state (st : ThreadState) (t : TCB) : TCB := with_thread t st (cpu_state t) (block_reason t).
Definition tcb_block (reason : BlockReason) (t : TCB) : TCB :=
  with_thread t (TBlocked reason) (cpu_state t) (Some reason).
Definition tcb_unblock (t : TCB) : TCB :=
  match t_state t with TBlocked _ => with_thread t TReady (cpu_state t) None | _ => t end.
Definition save_cpu_state (s : Cpu.CPUState) (t : TCB) : TCB := with_thread t (t_state t) (Some s) (block_reason t).
Definition take_cpu_state (t : TCB) : TCB * option Cpu.CPUState :=
  (with_thread t (t_state t) None (block_reason t), cpu_state t).
Definition tcb_is_runnable (t : TCB) : bool := bool_decide (t_state t = TReady).
Definition tcb_is_blocked (t : TCB) : bool := match t_state t with TBlocked _ => true | _ => false end.

Inductive FDType := RegularFile | Directory | CharDevice | BlockDevice | Pipe | Socket.
Record FileDescriptor := {
  fd_path : str; fd_flags : N; fd_offset : N; fd_read : bool; fd_write : bool; fd_type : FDType }.

Record ProcessStats := {
  p_cpu_time : N; p_schedule_count : N; voluntary_context_switches : N; involuntary_context_switches : N;
  max_rss : N; peak_memory : N; page_faults : N; signals_received : N }.
Definition ProcessStats_default : ProcessStats :=
  {| p_cpu_time := 0; p_schedule_count := 0; voluntary_context_switches := 0; involuntary_context_switches := 0;
     max_rss := 0; peak_memory := 0; page_faults := 0; signals_received := 0 |}.

Record PCB := {
  pid : Pid; parent_pid : option Pid; state : ProcessState; priority : N;
  threads : gmap Tid TCB; main_tid : option Tid; current_tid : option Tid;
  message_queue : list IPCMessage; shared_memory : gmap N VirtAddr;
  pending_signals : list SignalType; signal_mask : N; exit_code : option Z; stats : ProcessStats;
  name : str; args : list str; working_dir : str;
  env : gmap str str; file_descriptors : gmap N FileDescriptor; next_fd : N }.

Definition PCB_new (p : Pid) (nm : str) (parent : option Pid) : PCB :=
  {| pid := p; parent_pid := parent; state := Creating; priority := 128; threads := ∅;
     main_tid := None; current_tid := None; message_queue := []; shared_memory := ∅;
     pending_signals := []; signal_mask := 0; exit_code := None; stats := ProcessStats_default;
     name := nm; args := []; working_dir := Assembler.B "/"; env := ∅; file_descriptors := ∅; next_fd := 3 |}.

Definition with_state (p : PCB) st ec ts : PCB :=
  {| pid := pid p; parent_pid := parent_pid p; state := st; priority := priority p; threads := ts;
     main_tid := main_tid p; current_tid := current_tid p; message_queue := message_queue p;
     shared_memory := shared_memory p; pending_signals := pending_signals p; signal_mask := signal_mask p;
     exit_code := ec; stats := stats p; name := name p; args := args p; working_dir := working_dir p;
     env := env p; file_descriptors := file_descriptors p; next_fd := next_fd p |}.
Definition with_threads (p : PCB) ts main cur : PCB :=
  {| pid := pid p; parent_pid := parent_pid p; state := state p; priority := priority p; threads := ts;
     main_tid := main; current_tid := cur; message_queue := message_queue p;
     shared_memory := shared_memory p; pending_signals := pending_signals p; signal_mask := signal_mask p;
     exit_code := exit_code p; stats := stats p; name := name p; args := args p; working_dir := working_dir p;
     env := env p; file_descriptors := file_descriptors p; next_fd := next_fd p |}.
Definition with_inbox (p : PCB) ms sg : PCB :=
  {| pid := pid p; parent_pid := parent_pid p; state := state p; priority := priority p; threads := threads p;
     main_tid := main_tid p; current_tid := current_tid p; message_queue := ms;
     shared_memory := shared_memory p; pending_signals := sg; signal_mask := signal_mask p;
     exit_code := exit_code p; stats := stats p; name := name p; args := args p; working_dir := working_dir p;
     env := env p; file_descriptors := file_descriptors p; next_fd := next_fd p |}.
Definition with_fds (p : PCB) fds nx : PCB :=
  {| pid := pid p; parent_pid := parent_pid p; state := state p; priority := priority p; threads := threads p;
     main_tid := main_tid p; current_tid := current_tid p; message_queue := message_queue p;
     shared_memory := shared_memory p; pending_signals := pending_signals p; signal_mask := signal_mask p;
     exit_code := exit_code p; stats := stats p; name := name p; args := args p; working_dir := working_dir p;
     env := env p; file_descriptors := fds; next_fd := nx |}.
Definition with_program (p : PCB) nm ar st : PCB :=
  {| pid := pid p; parent_pid := parent_pid p; state := st; priority := priority p; threads := threads p;
     main_tid := main_tid p; current_tid := current_tid p; message_queue := message_queue p;
     shared_memory := shared_memory p; pending_signals := pending_signals p; signal_mask := signal_mask p;
     exit_code := exit_code p; stats := stats p; name := nm; args := ar; working_dir := working_dir p;
     env := env p; file_descriptors := file_descriptors p; next_fd := next_fd p |}.

(** [self.threads.keys().next().copied()] *)
Definition first_key (m : gmap Tid TCB) : option Tid := fst <$> head (map_to_list m).

Definition add_thread (t : TCB) (p : PCB) : PCB :=
  let main := match main_tid p with None => Some (tid t) | m => m end in
  let cur := match current_tid p with
             | None => if bool_decide (state p = Ready) then Some (tid t) else None
             | c => c
             end in
  with_threads p (<[tid t := t]> (threads p)) main cur.

Definition get_thread (t : Tid) (p : PCB) : option TCB := threads p !! t.

Definition remove_thread (t : Tid) (p : PCB) : PCB * option TCB :=
  let ts := delete t (threads p) in
  let cur := if bool_decide (current_tid p = Some t) then first_key ts else current_tid p in
  let main := if bool_decide (main_tid p = Some t) then first_key ts else main_tid p in
  (with_threads p ts main cur, threads p !! t).

Definition current_thread (p : PCB) : option TCB := current_tid p ≫= fun t => get_thread t p.
Definition set_state (st : ProcessState) (p : PCB) : PCB := with_state p st (exit_code p) (threads p).
Definition block (reason : BlockReason) (p : PCB) : PCB :=
  with_state p (Blocked reason) (exit_code p) (tcb_block reason <$> threads p).
Definition unblock (p : PCB) : PCB :=
  match state p with
  | Blocked _ => with_state p Ready (exit_code p) (tcb_unblock <$> threads p)
  | _ => p
  end.
Definition terminate (code : Z) (p : PCB) : PCB :=
  with_state p (Terminated code) (Some code) (tcb_set_state TTerminated <$> threads p).
Definition pcb_is_runnable (p : PCB) : bool :=
  bool_decide (state p = Ready) && negb (bool_decide (threads p = ∅)).

Definition enqueue_message (m : IPCMessage) (p : PCB) : PCB :=
  with_inbox p (message_queue p ++ [m]) (pending_signals p).
Definition dequeue_message (p : PCB) : PCB * option IPCMessage :=
  match message_queue p with
  | [] => (p, None)
  | m :: ms => (with_inbox p ms (pending_signals p), Some m)
  end.
Definition peek_message (p : PCB) : option IPCMessage := head (message_queue p).
Definition message_count (p : PCB) : N := len (message_queue p).

Definition add_signal (s : SignalType) (p : PCB) : PCB :=
  with_inbox p (message_queue p) (pending_signals p ++ [s]).
(** [Vec::pop] takes the last element. *)
Definition take_signal (p : PCB) : PCB * option SignalType :=
  match rev (pending_signals p) with
  | [] => (p, None)
  | s :: ss => (with_inbox p (message_queue p) (rev ss), Some s)
  end.

Definition allocate_fd (p : PCB) : PCB * N :=
  (with_fds p (file_descriptors p) (wadd32 (next_fd p) 1), next_fd p).
Definition add_fd (fd : N) (d : FileDescriptor) (p : PCB) : PCB :=
  with_fds p (<[fd := d]> (file_descriptors p)) (next_fd p).
Definition get_fd (fd : N) (p : PCB) : option FileDescriptor := file_descriptors p !! fd.
Definition remove_fd (fd : N) (p : PCB) : PCB * option FileDescriptor :=
  (with_fds p (delete fd (file_descriptors p)) (next_fd p), file_descriptors p !! fd).

Definition thread_count (p : PCB) : N := N.of_nat (size (threads p)).
Definition active_thread_count (p : PCB) : N :=
  N.of_nat (size (filter (fun e => t_state (snd e) <> TTerminated) (threads p))).

(** ** Histories of a control block *)

Inductive PcbOp :=
  | OpAddThread (t : TCB) | OpRemoveThread (t : Tid) | OpUpdateThread (t : Tid) (f : TCB -> TCB)
  | OpSetState (s : ProcessState) | OpBlock (r : BlockReason) | OpUnblock | OpTerminate (code : Z)
  | OpEnqueue (m : IPCMessage) | OpDequeue | OpAddSignal (s : SignalType) | OpTakeSignal
  | OpAllocateFd | OpAddFd (fd : N) (d : FileDescriptor) | OpRemoveFd (fd : N).

(** [get_thread_mut] gives the thread out for update; [f] keeps its identifier. *)
Definition pcb_op (p : PCB) (o : PcbOp) : PCB :=
  match o with
  | OpAddThread t => add_thread t p
  | OpRemoveThread t => fst (remove_thread t p)
  | OpUpdateThread t f =>
      with_threads p (alter (fun x => if decide (tid (f x) = tid x) then f x else x) t (threads p))
        (main_tid p) (current_tid p)
  | OpSetState s => set_state s p
  | OpBlock r => block r p
  | OpUnblock => unblock p
  | OpTerminate c => terminate c p
  | OpEnqueue m => enqueue_message m p
  | OpDequeue => fst (dequeue_message p)
  | OpAddSignal s => add_signal s p
  | OpTakeSignal => fst (take_signal p)
  | OpAllocateFd => fst (allocate_fd p)
  | OpAddFd fd d => add_fd fd d p
  | OpRemoveFd fd => fst (remove_fd fd p)
  end.

(** The thread map is keyed by thread identifier; the main and the current
    thread are threads of the process; there is a main thread when there is a
    thread. *)
Definition refs_wf (p : PCB) : Prop :=
  (forall t x, threads p !! t = Some x -> tid x = t) /\
  (forall t, main_tid p = Some t -> is_Some (threads p !! t)) /\
  (forall t, current_tid p = Some t -> is_Some (threads p !! t)) /\
  (main_tid p = None -> threads p = ∅).

Lemma first_key_some m t : first_key m = Some t -> is_Some (m !! t).
Proof.
  unfold first_key. destruct (map_to_list m) as [|[k x] l] eqn:E; [done|]. intros [= <-]. exists x.
  apply elem_of_map_to_list. rewrite E. left.
Qed.

Lemma first_key_none m : first_key m = None -> m = ∅.
Proof.
  unfold first_key. destruct (map_to_list m) as [|e l] eqn:E; [|done]. intros _. by apply map_to_list_empty_iff.
Qed.

Lemma refs_wf_threads_eq p q :
  threads q = threads p -> main_tid q = main_tid p -> current_tid q = current_tid p -> refs_wf p -> refs_wf q.
Proof. unfold refs_wf. by intros -> -> ->. Qed.

(** a change of every thread that keeps the identifiers *)
Lemma refs_wf_fmap p q f :
  (forall t, tid (f t) = tid t) -> threads q = f <$> threads p -> main_tid q = main_tid p ->
  current_tid q = current_tid p -> refs_wf p -> refs_wf q.
Proof.
  intros Hf Ht Hm Hc (Hk & H1 & H2 & H3). unfold refs_wf. rewrite Ht, Hm, Hc. split_and!.
  - intros t x Hx. rewrite lookup_fmap in Hx. apply fmap_Some in Hx as (y & Hy & ->). rewrite Hf. by apply Hk.
  - intros t Ht'. rewrite lookup_fmap. apply fmap_is_Some. by apply H1.
  - intros t Ht'. rewrite lookup_fmap. apply fmap_is_Some. by apply H2.
  - intros Hn. rewrite (H3 Hn). apply fmap_empty.
Qed.

Lemma tcb_unblock_tid t : tid (tcb_unblock t) = tid t.
Proof. unfold tcb_unblock. by destruct (t_state t). Qed.

Lemma add_thread_wf t p : refs_wf p -> refs_wf (add_thread t p).
Proof.
  intros (Hk & H1 & H2 & H3). unfold refs_wf, add_thread. cbn [threads main_tid current_tid with_threads]. split_and!.
  - intros k x Hx. apply lookup_insert_Some in Hx as [[<- <-]|[_ Hx]]; [done|by apply Hk].
  - intros k Hk'. apply lookup_insert_is_Some. destruct (decide (tid t = k)); [by left|right; split; [done|]].
    destruct (main_tid p); [by apply H1|congruence].
  - intros k Hk'. apply lookup_insert_is_Some. destruct (decide (tid t = k)); [by left|right; split; [done|]].
    destruct (current_tid p); [by apply H2|]. case_bool_decide; congruence.
  - by destruct (main_tid p).
Qed.

Lemma remove_thread_wf t p : refs_wf p -> refs_wf (fst (remove_thread t p)).
Proof.
  intros (Hk & H1 & H2 & H3). unfold refs_wf, remove_thread. cbn [fst threads main_tid current_tid with_threads].
  split_and!.
  - intros k x Hx. apply lookup_delete_Some in Hx as [_ Hx]. by apply Hk.
  - intros k. case_bool_decide; [apply first_key_some|]. intros Hm. rewrite lookup_delete_ne by congruence. by apply H1.
  - intros k. case_bool_decide; [apply first_key_some|]. intros Hm. rewrite lookup_delete_ne by congruence. by apply H2.
  - case_bool_decide; [apply first_key_none|]. intros Hm. rewrite (H3 Hm). apply delete_empty.
Qed.

Lemma update_thread_wf t f p : refs_wf p -> refs_wf (pcb_op p (OpUpdateThread t f)).
Proof.
  intros (Hk & H1 & H2 & H3). unfold refs_wf. cbn [pcb_op threads main_tid current_tid with_threads]. split_and!.
  - intros k x Hx. apply lookup_alter_Some in Hx as [[<- (y & Hy & ->)]|[_ Hx]]; [|by apply Hk].
    destruct (decide (tid (f y) = tid y)) as [->|]; by apply Hk.
  - intros k Hm. by apply lookup_alter_is_Some, H1.
  - intros k Hm. by apply lookup_alter_is_Some, H2.
  - intros Hm. rewrite (H3 Hm). apply map_eq. intros k. rewrite lookup_empty. apply eq_None_not_Some.
    rewrite lookup_alter_is_Some, lookup_empty. by intros [? ?].
Qed.

(** Property: after any history the main and the current thread of a process are
    threads of it, a process with a thread has a main thread, and each thread is
    filed under its own identifier. *)
Theorem thread_references_valid p nm parent os : refs_wf (foldl pcb_op (PCB_new p nm parent) os).
Proof.
  assert (H0 : refs_wf (PCB_new p nm parent)) by (unfold refs_wf; cbn; by split_and!).
  revert H0. generalize (PCB_new p nm parent). induction os as [|o os IH]; intros q Hq; [done|]. cbn [foldl].
  apply IH. destruct o; cbn [pcb_op];
    [by apply add_thread_wf|by apply remove_thread_wf|by apply update_thread_wf|..];
    try (by eapply refs_wf_threads_eq; [..|exact Hq]).
  - by apply (refs_wf_fmap q _ (tcb_block r)).
  - unfold unblock. destruct (state q); try done. by apply (refs_wf_fmap q _ tcb_unblock); [apply tcb_unblock_tid|..].
  - by apply (refs_wf_fmap q _ (tcb_set_state TTerminated)).
  - unfold dequeue_message. destruct (message_queue q); [done|]. by eapply refs_wf_threads_eq; [..|exact Hq].
  - unfold take_signal. destruct (rev (pending_signals q)); [done|]. by eapply refs_wf_threads_eq; [..|exact Hq].
Qed.

(** Property: blocking and unblocking a process makes it and all its threads ready
    whatever they were before, so a process that had terminated runs again with
    its exit code still set. *)
Theorem block_unblock_revives p r code :
  let q := unblock (block r (terminate code p)) in
  is_alive (state q) = true /\ is_runnable (state q) = true /\ exit_code q = Some code /\
  (forall t x, threads q !! t = Some x -> tcb_is_runnable x = true) /\
  (forall t, is_Some (threads q !! t) <-> is_Some (threads p !! t)).
Proof.
  cbn [block terminate with_state unblock state is_alive is_runnable exit_code threads]. split_and!; try done.
  - intros t x Hx. rewrite !lookup_fmap in Hx. destruct (threads p !! t); [|done]. cbn in Hx. by injection Hx as <-.
  - intros t. by rewrite !lookup_fmap, !fmap_is_Some.
Qed.
