(* ===== verification/Dumps.v ===== *)
(** * Dumps (src/src/hardware/memory.rs, MemoryState; src/src/hardware/mmu.rs, MMUState;
    src/src/hardware/ivt.rs; src/src/hardware/timer.rs, TimerSnapshot)

    What is shown of the memory and of a page table: the text of a hex dump and
    of a list of mappings.  Reading the text gives back what was shown
    ([hexdump_reads_back], [mappings_read_back]).  A text is the list of its
    bytes. *)
From Stdlib Require String ZifyNat.
Import (notations) String.
From S2P Require Import Prelude Types.
From S2P Require PhysMem Mmu Ivt Timer Assembler.
From S2P Require Import Text.

#[local] Ltac Zify.zify_post_hook ::= Z.to_euclidean_division_equations.

Local Notation B := Assembler.B.
Local Notation str := (list N) (only parsing).

(** ** Numbers in columns *)

(** [{:0w}] after the digits are made *)
Definition pad0 (w : nat) (s : str) : str := replicate (w - length s) 48 ++ s.
(** [{:02x}] *)
Definition hex_pad (w : nat) (v : N) : str := pad0 w (Assembler.hex_digits 15 v).
(** [{:#08x}]: the prefix is part of the width *)
Definition hex_alt (w : nat) (v : N) : str := B "0x" ++ pad0 (w - 2) (Assembler.hex_digits 15 v).

(** ** Interrupt vectors and the timer *)

Definition vector_text (v : Ivt.InterruptVector) : str :=
  match v with
  | Ivt.DivideByZero => B "DivideByZero (0x00)" | Ivt.PageFault => B "PageFault (0x0E)"
  | Ivt.Timer => B "Timer (0x20)" | Ivt.Syscall => B "Syscall (0x80)"
  end.
Definition format_vector (vector : N) : str :=
  match Ivt.from_u8 vector with
  | Some v => vector_text v ++ B " (" ++ hex_alt 4 vector ++ B ")"
  | None => B "Unknown (" ++ hex_alt 4 vector ++ B ")"
  end.

(** The uptime, a floating-point number with two digits, is an argument. *)
Definition format_timer (s : Timer.TimerSnapshot) (uptime : str) : str :=
  B "Timer: " ++ (if Timer.running s then B "Running" else B "Stopped") ++ B " | Interval: " ++ decimal (Timer.snap_interval_ms s)
    ++ B "ms | Ticks: " ++ decimal (Timer.snap_ticks s) ++ B " | Uptime: " ++ uptime ++ B "s".

(** ** The memory *)

Record MemoryState := { size : N; preview : list N }.
Definition dump_state (m : PhysMem.PhysicalMemory) : MemoryState :=
  {| size := PhysMem.size m; preview := PhysMem.dump_preview m |}.

(** [slice.chunks(n)], which panics for 0 *)
Fixpoint chunks_from (fuel n : nat) (l : list N) : list (list N) :=
  match fuel, l with
  | S fuel, _ :: _ => take n l :: chunks_from fuel n (drop n l)
  | _, _ => []
  end.
Definition chunks (n : nat) (l : list N) : list (list N) := chunks_from (length l) n l.

Fixpoint hex_columns (j : nat) (bs : list N) : str :=
  match bs with
  | [] => []
  | b :: bs => (if Nat.eqb (j mod 8) 0 && negb (Nat.eqb j 0) then [32] else []) ++ hex_pad 2 b ++ [32] ++ hex_columns (S j) bs
  end.
Fixpoint padding (k : nat) : str := match k with O => [] | S k => B "   " ++ padding k end.
(** [is_ascii_graphic] or a blank *)
Definition graphic (b : N) : bool := (33 <=? b) && (b <=? 126) || (b =? 32).
Definition ascii_columns (bs : list N) : str := (fun b => if graphic b then b else 46) <$> bs.

Definition left_columns (addr : N) (n : nat) (chunk : list N) : str :=
  hex_alt 8 addr ++ B ": " ++ hex_columns 0 chunk ++ padding (n - length chunk) ++ B " ".
Definition dump_line (addr : N) (n : nat) (chunk : list N) : str :=
  left_columns addr n chunk ++ B "|" ++ ascii_columns chunk ++ B "|" ++ [10].
Definition dump_lines (start_addr : N) (n : nat) (cs : list (list N)) : str :=
  concat (imap (fun i c => dump_line (wadd64 start_addr (wmul64 (N.of_nat i) (N.of_nat n))) n c) cs).
Definition format_hexdump (s : MemoryState) (start_addr bytes_per_line : N) : outcome str :=
  if bytes_per_line =? 0 then Panicked
  else Done (dump_lines start_addr (N.to_nat bytes_per_line) (chunks (N.to_nat bytes_per_line) (preview s))).

(** ** A page table *)

Record MMUState := { page_count : N; mappings : list (VirtAddr * PhysAddr * Mmu.PageFlags) }.
(** the order is that of the hash map *)
Definition mmu_dump_state (m : Mmu.MMU) (pid : Pid) : MMUState :=
  match Mmu.page_tables m !! pid with
  | Some table =>
      let l := (fun e => (fst e, Mmu.frame (snd e), Mmu.flags (snd e))) <$> map_to_list table in
      {| page_count := N.of_nat (length l); mappings := l |}
  | None => {| page_count := 0; mappings := [] |}
  end.

Definition bit (b : bool) : str := if b then B "1" else B "0".
Definition mapping_line (e : VirtAddr * PhysAddr * Mmu.PageFlags) : str :=
  let '(vaddr, paddr, fl) := e in
  hex_alt 16 vaddr ++ B " -> " ++ hex_alt 16 paddr ++ B " | P" ++ bit (Mmu.present fl) ++ B " W" ++ bit (Mmu.writable fl)
    ++ B " U" ++ bit (Mmu.user_accessible fl) ++ [10].
Definition format_mappings (s : MMUState) : str :=
  B "Total pages: " ++ decimal (page_count s) ++ [10]
    ++ B "Virtual Addr    -> Physical Addr    | Flags" ++ [10]
    ++ B "---------------|-------------------|----------" ++ [10]
    ++ concat (mapping_line <$> mappings s).

(** ** Reading a dump *)

Fixpoint before (c : N) (s : str) : str := match s with [] => [] | x :: s => if x =? c then [] else x :: before c s end.
Definition read_line (l : str) : option (N * list N) :=
  match words (before 124 l) with
  | a :: hs => addr ← Assembler.parse_number (removelast a); bs ← mapM (Assembler.digits_from 16 0) hs; Some (addr, bs)
  | [] => None
  end.
Definition read_dump (t : str) : option (list (N * list N)) := mapM read_line (Assembler.lines t).

Definition read_flag (w : str) : bool := bool_decide (drop 1 w = [49]).
Definition read_mapping (l : str) : option (VirtAddr * Mmu.PageTableEntry) :=
  match words l with
  | [v; _; p; _; fp; fw; fu] =>
      v ← Assembler.parse_number v; p ← Assembler.parse_number p;
      Some (v, {| Mmu.frame := p; Mmu.flags := {| Mmu.present := read_flag fp; Mmu.writable := read_flag fw;
                                                  Mmu.user_accessible := read_flag fu |} |})
  | _ => None
  end.
Definition read_mappings (t : str) : option (list (VirtAddr * Mmu.PageTableEntry)) := mapM read_mapping (drop 3 (Assembler.lines t)).

Definition demo_state : MemoryState := {| size := 64; preview := [72; 105; 124; 10; 0; 255; 32; 48; 1; 2; 3] |}.
Example demo_dump : read_dump <$> match format_hexdump demo_state 4096 8 with Done t => Some t | _ => None end =
  Some (Some [(4096, [72; 105; 124; 10; 0; 255; 32; 48]); (4104, [1; 2; 3])]).
Proof. vm_compute. reflexivity. Qed.

(** ** Lemmas *)

(** *** Numbers *)

Lemma zeros_value k : Assembler.digits_from 16 0 (replicate k 48) = Some 0.
Proof. induction k as [|k IH]; [done|exact IH]. Qed.
Lemma pad0_value w v : v < 2 ^ 64 -> Assembler.digits_from 16 0 (pad0 w (Assembler.hex_digits 15 v)) = Some v.
Proof.
  intros Hv. unfold pad0. rewrite Assembler.digits_from_app, zeros_value. cbn [mbind option_bind]. by apply Assembler.hex_digits_value.
Qed.
Lemma pad0_chars w v : pad0 w (Assembler.hex_digits 15 v) <> [] /\ Forall Assembler.hex_char (pad0 w (Assembler.hex_digits 15 v)).
Proof.
  destruct (Assembler.hex_digits_chars 15 v) as [Hn Hc]. unfold pad0. split; [by intros [_ ?]%app_eq_nil|].
  apply Forall_app. split; [|done]. apply Forall_replicate. left. lia.
Qed.
Lemma hex_alt_value w v : v < 2 ^ 64 -> Assembler.parse_number (hex_alt w v) = Some v.
Proof.
  intros Hv. destruct (pad0_chars (w - 2) v) as [Hn Hc]. pose proof (pad0_value (w - 2) v Hv) as E.
  unfold Assembler.parse_number, Assembler.strip_hex, hex_alt. set (p := pad0 _ _) in *.
  change (Assembler.strip_prefix (B "0x") (B "0x" ++ p)) with (Some p). cbv iota. unfold Assembler.from_str_radix.
  destruct p as [|c r]; [done|]. apply Forall_cons_1 in Hc as [Hc _]. destruct (N.eqb_spec c 43) as [->|]; [|done].
  unfold Assembler.hex_char in Hc. lia.
Qed.

(** *** Words and lines *)

(** printable and neither a blank nor a bar *)
Definition column_char (c : N) : Prop := 33 <= c <= 123.
Lemma hex_char_column c : Assembler.hex_char c -> column_char c.
Proof. unfold Assembler.hex_char, column_char. lia. Qed.
Lemma column_char_space c : column_char c -> is_space c = false.
Proof.
  unfold column_char, is_space. intros H.
  repeat (apply orb_false_iff; split); first [apply N.eqb_neq; lia|apply within_false; lia].
Qed.

Lemma column_chars t : forallb (fun c => (33 <=? c) && (c <=? 123)) t = true -> Forall column_char t.
Proof.
  rewrite forallb_forall. intros H. apply list.Forall_forall. intros c Hc%list_elem_of_In%H.
  apply andb_true_iff in Hc as [H1%N.leb_le H2%N.leb_le]. by split.
Qed.

Definition column (t : str) : Prop := t <> [] /\ Forall column_char t.
Lemma words_column t s : column t -> words (t ++ 32 :: s) = t :: words s.
Proof.
  intros [Hn Ht]. rewrite words_space by done. rewrite words_token; [done..|].
  eapply list.Forall_impl; [exact Ht|]. apply column_char_space.
Qed.
Lemma column_pad0 w v : column (pad0 w (Assembler.hex_digits 15 v)).
Proof.
  destruct (pad0_chars w v) as [Hn Hc]. split; [done|]. eapply list.Forall_impl; [exact Hc|]. apply hex_char_column.
Qed.
Lemma column_app t s : column t -> Forall column_char s -> column (t ++ s).
Proof. intros [Hn Ht] Hs. split; [by intros [? _]%app_eq_nil|by apply Forall_app]. Qed.
Lemma column_hex_alt w v : column (hex_alt w v).
Proof.
  destruct (column_pad0 (w - 2) v) as [_ Hc]. unfold hex_alt. apply column_app; [|exact Hc].
  split; [done|]. by apply column_chars.
Qed.

Lemma before_bar s t : Forall (fun c => c <> 124) s -> before 124 (s ++ 124 :: t) = s.
Proof. induction 1 as [|c s Hc _ IH]; [done|]. cbn. destruct (N.eqb_spec c 124); [done|]. by rewrite IH. Qed.

Lemma lines_imap {A} (f : nat -> A -> str) l : (forall i x, Forall Assembler.no_break (f i x)) ->
  Assembler.lines (concat (imap (fun i x => f i x ++ [10]) l)) = imap f l.
Proof.
  revert f. induction l as [|x l IH]; intros f Hf; [done|]. cbn [imap concat]. rewrite <- app_assoc. cbn [app].
  unfold Assembler.lines at 1. rewrite Assembler.lines_from_line by apply Hf. cbn [rev app].
  rewrite Assembler.chop_cr_none by apply Hf. f_equal. exact (IH (f ∘ S) (fun i x => Hf (S i) x)).
Qed.
Lemma mapM_imap {A C D} (f : nat -> A -> C) (g : C -> option D) (h : nat -> A -> D) l :
  (forall i x, l !! i = Some x -> g (f i x) = Some (h i x)) -> mapM g (imap f l) = Some (imap h l).
Proof.
  revert f h. induction l as [|x l IH]; intros f h Hf; [done|]. cbn [imap mapM]. rewrite (Hf 0%nat x eq_refl). cbn [mbind option_bind].
  rewrite (IH (f ∘ S) (h ∘ S)); [done|]. intros i y Hy. exact (Hf (S i) y Hy).
Qed.

(** *** The hex dump *)

Lemma words_hex_columns bs t : forall j, words (hex_columns j bs ++ t) = (hex_pad 2 <$> bs) ++ words t.
Proof.
  induction bs as [|b bs IH]; intros j; [done|]. cbn [hex_columns]. rewrite <- !app_assoc.
  assert (E : words ((if Nat.eqb (j mod 8) 0 && negb (Nat.eqb j 0) then [32] else []) ++ hex_pad 2 b ++ [32] ++ hex_columns (S j) bs ++ t) =
              words (hex_pad 2 b ++ [32] ++ hex_columns (S j) bs ++ t)).
  { destruct (_ && _); [|done]. exact (words_pad 1 _). }
  rewrite E. cbn [app]. rewrite words_column by apply column_pad0. by rewrite IH.
Qed.
Lemma words_padding k t : words (padding k ++ t) = words t.
Proof. induction k as [|k IH]; [done|]. cbn [padding]. rewrite <- app_assoc. change (B "   ") with (replicate 3 32). by rewrite words_pad. Qed.

Definition blank_or_column (c : N) : Prop := c = 32 \/ column_char c.
Lemma left_columns_chars addr n chunk : Forall blank_or_column (left_columns addr n chunk).
Proof.
  assert (Hcol : forall s, Forall column_char s -> Forall blank_or_column s).
  { intros s Hs. eapply list.Forall_impl; [exact Hs|]. by right. }
  assert (Hblank : Forall blank_or_column [32]) by (constructor; [by left|constructor]).
  unfold left_columns. apply Forall_app. split; [apply Hcol, column_hex_alt|]. apply Forall_app. split.
  { change (B ": ") with ([58] ++ [32]). apply Forall_app. split; [by apply Hcol, column_chars|exact Hblank]. }
  apply Forall_app. split; [|apply Forall_app; split; [|exact Hblank]].
  - generalize 0%nat. induction chunk as [|b bs IH]; intros j; [constructor|]. cbn [hex_columns]. apply Forall_app. split.
    { destruct (_ && _); [exact Hblank|constructor]. }
    apply Forall_app. split; [apply Hcol, column_pad0|]. apply Forall_app. by split.
  - induction (n - length chunk)%nat as [|k IH]; [constructor|]. cbn [padding]. apply Forall_app. split; [|exact IH].
    change (B "   ") with (replicate 3 32). apply Forall_replicate. by left.
Qed.

Definition text_line (addr : N) (n : nat) (chunk : list N) : str := left_columns addr n chunk ++ B "|" ++ ascii_columns chunk ++ B "|".
Lemma dump_line_text addr n chunk : dump_line addr n chunk = text_line addr n chunk ++ [10].
Proof. unfold dump_line, text_line. by rewrite <- !app_assoc. Qed.
Lemma text_line_no_break addr n chunk : Forall Assembler.no_break (text_line addr n chunk).
Proof.
  assert (Hb : Forall Assembler.no_break (B "|")) by (constructor; [done|constructor]).
  unfold text_line. apply Forall_app. split.
  - eapply list.Forall_impl; [apply left_columns_chars|]. intros c H. unfold Assembler.no_break. unfold blank_or_column, column_char in H. lia.
  - apply Forall_app. split; [exact Hb|]. apply Forall_app. split; [|exact Hb]. apply list.Forall_forall.
    intros c (b & -> & _)%list_elem_of_fmap. unfold Assembler.no_break. destruct (graphic b) eqn:E; [|by split].
    unfold graphic in E. apply orb_true_iff in E as [[H1%N.leb_le H2%N.leb_le]%andb_true_iff|H%N.eqb_eq]; lia.
Qed.

Lemma read_text_line addr n chunk : addr < 2 ^ 64 -> Forall (fun b => b < 2 ^ 8) chunk ->
  read_line (text_line addr n chunk) = Some (addr, chunk).
Proof.
  intros Ha Hc. unfold read_line, text_line. change (B "|") with [124]. cbn [app]. rewrite before_bar.
  2: { eapply list.Forall_impl; [apply left_columns_chars|]. intros c H. unfold blank_or_column, column_char in H. lia. }
  unfold left_columns. change (B ": ") with ([58] ++ [32]). rewrite <- app_assoc, (app_assoc (hex_alt 8 addr)). cbn [app].
  rewrite words_column by (apply column_app; [apply column_hex_alt|by apply column_chars]).
  rewrite words_hex_columns, words_padding. change (words (B " ")) with (@nil (list N)). rewrite app_nil_r.
  rewrite removelast_last, hex_alt_value by done. cbn [mbind option_bind].
  assert (E : mapM (Assembler.digits_from 16 0) (hex_pad 2 <$> chunk) = Some chunk); [|by rewrite E].
  induction Hc as [|b bs Hb _ IH]; [done|]. rewrite fmap_cons. cbn [mapM].
  assert (E : Assembler.digits_from 16 0 (hex_pad 2 b) = Some b) by (apply pad0_value; lia). rewrite E.
  cbn [mbind option_bind]. by rewrite IH.
Qed.

Lemma chunks_from_spec fuel n : forall l, (0 < n)%nat -> (length l <= fuel)%nat ->
  concat (chunks_from fuel n l) = l /\
  forall i c, chunks_from fuel n l !! i = Some c -> (0 < length c <= n)%nat /\ (i * n + length c <= length l)%nat.
Proof.
  induction fuel as [|fuel IH]; intros l Hn Hl; [destruct l; [by split|cbn in Hl; lia]|].
  destruct l as [|x l]; [by split|]. cbn [chunks_from concat]. set (l0 := x :: l) in *.
  assert (Hl0 : (0 < length l0)%nat) by (cbn; lia). destruct (IH (drop n l0) Hn) as [H1 H2]; [rewrite length_drop; lia|].
  split; [by rewrite H1, take_drop|]. intros [|i] c.
  - intros [= <-]. rewrite length_take. cbn [Nat.mul Nat.add]. lia.
  - intros Hc. apply H2 in Hc as [H3 H4]. rewrite length_drop in H4. rewrite Nat.mul_succ_l. lia.
Qed.
Lemma chunks_spec n l : (0 < n)%nat -> concat (chunks n l) = l /\
  forall i c, chunks n l !! i = Some c -> (0 < length c <= n)%nat /\ (i * n + length c <= length l)%nat.
Proof. intros Hn. by apply chunks_from_spec. Qed.

(** Property: a hex dump can be read back: its lines give the addresses and the bytes of
    the consecutive pieces of the memory, whatever characters the bytes are,
    and the pieces together are what was shown.  A line length of 0 panics. *)
Theorem hexdump_reads_back s start n :
  Forall (fun b => b < 2 ^ 8) (preview s) -> start + len (preview s) < 2 ^ 64 -> 0 < n < 2 ^ 64 ->
  exists t, format_hexdump s start n = Done t /\
    let cs := chunks (N.to_nat n) (preview s) in
    read_dump t = Some (imap (fun i c => (start + N.of_nat i * n, c)) cs) /\
    concat cs = preview s /\ Forall (fun c => 0 < len c <= n) cs.
Proof.
  intros Hb Hs Hn. unfold format_hexdump. rewrite (proj2 (N.eqb_neq n 0)) by lia. eexists. split; [done|]. cbn zeta.
  destruct (chunks_spec (N.to_nat n) (preview s)) as [Hc Hi]; [lia|]. set (cs := chunks _ _) in *. split; [|split; [exact Hc|]].
  - unfold read_dump, dump_lines. rewrite N2Nat.id.
    set (addr := fun i => wadd64 start (wmul64 (N.of_nat i) n)).
    replace (imap (fun i c => dump_line (wadd64 start (wmul64 (N.of_nat i) n)) (N.to_nat n) c) cs)
      with (imap (fun i c => text_line (addr i) (N.to_nat n) c ++ [10]) cs) by (apply imap_ext; intros; symmetry; apply dump_line_text).
    rewrite lines_imap by (intros; apply text_line_no_break). apply mapM_imap. intros i c H.
    destruct (Hi _ _ H) as [H1 H2].
    assert (Hsmall : N.of_nat i * n < len (preview s)).
    { apply N.lt_le_trans with (N.of_nat (i * N.to_nat n + length c)); [rewrite Nat2N.inj_add, Nat2N.inj_mul, N2Nat.id; lia|lia]. }
    unfold addr, wmul64. rewrite N.mod_small, wadd64_small by lia. apply read_text_line; [lia|].
    apply list.Forall_forall. intros b Hin. rewrite list.Forall_forall in Hb. apply Hb. rewrite <- Hc.
    apply list_elem_of_In, in_concat. exists c. split; [|by apply list_elem_of_In]. apply list_elem_of_In. by eapply list_elem_of_lookup_2.
  - apply list.Forall_forall. intros c [i H]%list_elem_of_lookup. destruct (Hi _ _ H). lia.
Qed.

Lemma hexdump_reads_back_witness :
  exists t, format_hexdump demo_state 4096 8 = Done t /\
    read_dump t = Some [(4096, [72; 105; 124; 10; 0; 255; 32; 48]); (4104, [1; 2; 3])].
Proof.
  destruct (hexdump_reads_back demo_state 4096 8) as (t & E & H & _); [by repeat constructor|reflexivity|by split|].
  exists t. split; [exact E|]. rewrite H. vm_compute. reflexivity.
Defined.

(** *** The column of the characters *)

(** the blanks between groups of eight *)
Definition groups (k : nat) : nat := (k - 1) / 8.
Lemma hex_pad_length b : b < 2 ^ 8 -> length (hex_pad 2 b) = 2%nat.
Proof.
  intros Hb. assert (E : forallb (fun b => Nat.eqb (length (hex_pad 2 b)) 2) (N.of_nat <$> seq 0 256) = true) by (vm_compute; reflexivity).
  rewrite forallb_forall in E. apply Nat.eqb_eq, E, list_elem_of_In, list_elem_of_fmap. exists (N.to_nat b).
  split; [by rewrite N2Nat.id|]. apply elem_of_seq. lia.
Qed.
Lemma hex_columns_length bs : Forall (fun b => b < 2 ^ 8) bs -> forall j,
  length (hex_columns j bs) = (3 * length bs + ((j + length bs - 1) / 8 - (j - 1) / 8))%nat.
Proof.
  induction 1 as [|b bs Hb _ IH]; intros j; [cbn [hex_columns length]; rewrite Nat.add_0_r; lia|].
  cbn [hex_columns]. rewrite !length_app, hex_pad_length, IH by done. cbn [length].
  assert (E : length (if Nat.eqb (j mod 8) 0 && negb (Nat.eqb j 0) then [32] else []) = (j / 8 - (j - 1) / 8)%nat).
  { destruct (Nat.eqb_spec (j mod 8) 0), (Nat.eqb_spec j 0); cbn [andb negb length]; lia. }
  rewrite E. replace (S j + length bs - 1)%nat with (j + length bs)%nat by lia. replace (S j - 1)%nat with j by lia.
  replace (j + S (length bs) - 1)%nat with (j + length bs)%nat by lia. lia.
Qed.
Lemma padding_length k : length (padding k) = (3 * k)%nat.
Proof. induction k as [|k IH]; [done|]. cbn [padding]. rewrite length_app, IH. change (length (B "   ")) with 3%nat. lia. Qed.

(** Where the characters of a line begin: the blanks between the groups are not
    made up for, so a last line with fewer groups than the others has its
    characters further to the left. *)
Lemma characters_column addr n chunk :
  (length (hex_alt 8 addr) = 8)%nat -> Forall (fun b => b < 2 ^ 8) chunk -> (length chunk <= n)%nat ->
  length (left_columns addr n chunk) = (11 + 3 * n + groups (length chunk))%nat.
Proof.
  intros Ha Hc Hn. unfold left_columns. rewrite !length_app, Ha, hex_columns_length, padding_length by done.
  change (length (B ": ")) with 2%nat. change (length (B " ")) with 1%nat. unfold groups. cbn [Nat.sub]. change (0 / 8)%nat with 0%nat. lia.
Qed.
Lemma characters_shifted :
  length (left_columns 0 16 (replicate 16 0)) = 60%nat /\ length (left_columns 16 16 (replicate 8 0)) = 59%nat.
Proof. by split; vm_compute. Qed.

(** *** The mappings *)

Lemma read_bit (b : bool) (c : N) : read_flag (c :: bit b) = b.
Proof. by destruct b. Qed.
Lemma column_bit (c : N) (b : bool) : column_char c -> column (c :: bit b).
Proof. intros Hc. split; [done|]. constructor; [done|]. by destruct b; apply column_chars. Qed.

Definition mapping_text (e : VirtAddr * PhysAddr * Mmu.PageFlags) : str :=
  let '(v, p, fl) := e in
  hex_alt 16 v ++ 32 :: B "->" ++ 32 :: hex_alt 16 p ++ 32 :: B "|" ++ 32 :: (80 :: bit (Mmu.present fl)) ++ 32 ::
    (87 :: bit (Mmu.writable fl)) ++ 32 :: (85 :: bit (Mmu.user_accessible fl)).
Lemma mapping_line_text e : mapping_line e = mapping_text e ++ [10].
Proof. destruct e as [[v p] fl]. unfold mapping_line, mapping_text. rewrite <- ?app_assoc, ?app_comm_cons. by rewrite <- ?app_assoc. Qed.
Lemma mapping_text_no_break e : Forall Assembler.no_break (mapping_text e).
Proof.
  assert (Hcol : forall s, column s -> Forall Assembler.no_break s).
  { intros s [_ Hs]. eapply list.Forall_impl; [exact Hs|]. unfold column_char, Assembler.no_break. lia. }
  assert (Hb : Assembler.no_break 32) by done.
  destruct e as [[v p] fl]. unfold mapping_text.
  assert (Hbar : Forall Assembler.no_break (B "|")) by (constructor; [done|constructor]).
  repeat (apply Forall_app; split; [first [exact Hbar|apply Hcol, column_hex_alt|by apply Hcol, column_bit|by apply Hcol; split; [done|apply column_chars]]|constructor; [exact Hb|]]).
  by apply Hcol, column_bit.
Qed.
Lemma read_mapping_text v p fl : v < 2 ^ 64 -> p < 2 ^ 64 ->
  read_mapping (mapping_text (v, p, fl)) = Some (v, {| Mmu.frame := p; Mmu.flags := fl |}).
Proof.
  intros Hv Hp. unfold read_mapping, mapping_text.
  assert (Hbar : forall s, words (B "|" ++ 32 :: s) = B "|" :: words s) by (intros s; by rewrite words_space).
  do 3 (rewrite words_column by first [apply column_hex_alt|by split; [|apply column_chars]]). rewrite Hbar.
  do 2 (rewrite words_column by by apply column_bit).
  rewrite words_token; [|done|].
  2: { eapply list.Forall_impl; [apply (column_bit 85); by split|]. apply column_char_space. }
  rewrite !hex_alt_value by done. cbn [mbind option_bind]. rewrite !read_bit. by destruct fl.
Qed.

Lemma lines_line l s : Forall Assembler.no_break l -> Assembler.lines (l ++ [10] ++ s) = l :: Assembler.lines s.
Proof.
  intros Hl. unfold Assembler.lines at 1. cbn [app]. rewrite Assembler.lines_from_line by done. cbn [rev app]. by rewrite Assembler.chop_cr_none.
Qed.
Lemma no_breaks t : forallb (fun c => negb (c =? 10) && negb (c =? 13)) t = true -> Forall Assembler.no_break t.
Proof.
  rewrite forallb_forall. intros H. apply list.Forall_forall. intros c Hc%list_elem_of_In%H.
  apply andb_true_iff in Hc as [H1%negb_true_iff%N.eqb_neq H2%negb_true_iff%N.eqb_neq]. by split.
Qed.
Lemma mapping_lines s : drop 3 (Assembler.lines (format_mappings s)) = mapping_text <$> mappings s.
Proof.
  unfold format_mappings. rewrite (app_assoc (B "Total pages: ")). rewrite lines_line.
  2: { apply Forall_app. split; [by apply no_breaks|]. eapply list.Forall_impl; [apply decimal_chars|]. unfold Assembler.no_break. lia. }
  do 2 (rewrite lines_line by by apply no_breaks). rewrite !skipn_cons, skipn_O.
  induction (mappings s) as [|e l IH]; [done|]. rewrite !fmap_cons. cbn [concat]. rewrite mapping_line_text, <- app_assoc.
  rewrite lines_line by apply mapping_text_no_break. by rewrite IH.
Qed.

(** Property: a list of mappings can be read back: it gives the page table of the
    process, and the number in its first line is that of its pages. *)
Theorem mappings_read_back m pid :
  (forall v e, default ∅ (Mmu.page_tables m !! pid) !! v = Some e -> v < 2 ^ 64 /\ Mmu.frame e < 2 ^ 64) ->
  exists l, read_mappings (format_mappings (mmu_dump_state m pid)) = Some l /\
    list_to_map l = default ∅ (Mmu.page_tables m !! pid) /\ page_count (mmu_dump_state m pid) = len l.
Proof.
  intros Hm. set (table := default ∅ _) in *. exists (map_to_list table).
  assert (E : mappings (mmu_dump_state m pid) = (fun e => (fst e, Mmu.frame (snd e), Mmu.flags (snd e))) <$> map_to_list table /\
              page_count (mmu_dump_state m pid) = len (map_to_list table)).
  { unfold mmu_dump_state, table. destruct (Mmu.page_tables m !! pid) as [t|]; cbn; [by rewrite length_fmap|by rewrite map_to_list_empty]. }
  destruct E as [E En]. split; [|split; [apply list_to_map_to_list|exact En]].
  unfold read_mappings. rewrite mapping_lines, E. clear E En.
  assert (Hl : forall v e, (v, e) ∈ map_to_list table -> v < 2 ^ 64 /\ Mmu.frame e < 2 ^ 64).
  { intros v e H. by apply Hm, elem_of_map_to_list. }
  induction (map_to_list table) as [|[v e] l IH]; [done|]. rewrite !fmap_cons. cbn [mapM fst snd].
  destruct (Hl v e ltac:(by left)) as [Hv Hf]. rewrite read_mapping_text by done. cbn [mbind option_bind].
  rewrite IH by (intros; apply Hl; by right). by destruct e.
Qed.
