(* ===== verification/Vfs.v ===== *)
(** * The virtual file system (src/src/services/file/vfs.rs)

    An inode is a node of the map [nodes]; the locked handles of the source are
    taken and given back within one call, so a node is looked up and stored.
    Creation and modification times are always 0 and left out.  serde_json,
    which writes the node list to a file and reads it back, is the pair of
    parameters [to_json] and [from_json].  Names and paths are bytes. *)
From Stdlib Require String.
Import (notations) String.
From S2P Require Import Prelude Types Messages.
From S2P Require Assembler.

Inductive NodeType := File | Directory | SymLink | BlockDevice | CharDevice.
#[export] Instance NodeType_eq_dec : EqDecision NodeType.
Proof. solve_decision. Defined.

Record VFSNode := {
  inode : N; node_type : NodeType; name : str; parent : option N; permissions : N; owner : Pid;
  size : N; blocks : list N; children : gmap str N; ref_count : N; deleted : bool }.

Definition VFSNode_new (i : N) (nm : str) (ty : NodeType) (par : option N) (ow : Pid) : VFSNode :=
  {| inode := i; node_type := ty; name := nm; parent := par; permissions := 420; owner := ow; size := 0;
     blocks := []; children := ∅; ref_count := 0; deleted := false |}.

Definition with_children (n : VFSNode) cs : VFSNode :=
  {| inode := inode n; node_type := node_type n; name := name n; parent := parent n; permissions := permissions n;
     owner := owner n; size := size n; blocks := blocks n; children := cs; ref_count := ref_count n;
     deleted := deleted n |}.
Definition with_refs (n : VFSNode) rc del : VFSNode :=
  {| inode := inode n; node_type := node_type n; name := name n; parent := parent n; permissions := permissions n;
     owner := owner n; size := size n; blocks := blocks n; children := children n; ref_count := rc;
     deleted := del |}.
Definition with_extent (sz : N) (bs : list N) (n : VFSNode) : VFSNode :=
  {| inode := inode n; node_type := node_type n; name := name n; parent := parent n; permissions := permissions n;
     owner := owner n; size := sz; blocks := bs; children := children n; ref_count := ref_count n;
     deleted := deleted n |}.

Definition is_directory (n : VFSNode) : bool := bool_decide (node_type n = Directory).
Definition is_file (n : VFSNode) : bool := bool_decide (node_type n = File).
Definition is_symlink (n : VFSNode) : bool := bool_decide (node_type n = SymLink).

Definition add_child (nm : str) (i : N) (n : VFSNode) : result ServiceError VFSNode :=
  if negb (is_directory n) then Err InvalidArguments
  else match children n !! nm with
       | Some _ => Err InvalidArguments
       | None => Ok (with_children n (<[nm := i]> (children n)))
       end.

Definition remove_child (nm : str) (n : VFSNode) : VFSNode * result ServiceError N :=
  if negb (is_directory n) then (n, Err InvalidArguments)
  else (with_children n (delete nm (children n)), ok_or SvcNotFound (children n !! nm)).

Definition get_child (nm : str) (n : VFSNode) : option N := children n !! nm.
Definition list_children (n : VFSNode) : list str := fst <$> map_to_list (children n).
Definition inc_ref (n : VFSNode) : VFSNode := with_refs n (wadd32 (ref_count n) 1) (deleted n).
Definition dec_ref (n : VFSNode) : VFSNode * bool :=
  let rc := if 0 <? ref_count n then ref_count n - 1 else ref_count n in
  (with_refs n rc (deleted n), (rc =? 0) && deleted n).
Definition mark_deleted (n : VFSNode) : VFSNode := with_refs n (ref_count n) true.
Definition can_delete (n : VFSNode) : bool :=
  (ref_count n =? 0) && negb (is_directory n) || is_directory n && bool_decide (children n = ∅).

Record VirtualFileSystem := {
  nodes : gmap N VFSNode; next_inode : N; root_inode : N; mounts : gmap str N }.

Definition with_nodes (v : VirtualFileSystem) ns : VirtualFileSystem :=
  {| nodes := ns; next_inode := next_inode v; root_inode := root_inode v; mounts := mounts v |}.

Abbreviation V := (HM VirtualFileSystem).

Definition lookup (i : N) (v : VirtualFileSystem) : option VFSNode := nodes v !! i.
#[global] Arguments lookup : simpl never.

(** The new node stays in [nodes] when [add_child] fails. *)
Definition create_node (ty : NodeType) (par : N) (nm : str) (ow : Pid) : V N := fun v =>
  let i := next_inode v in
  let ns := <[i := VFSNode_new i nm ty (Some par) ow]> (nodes v) in
  let v := {| nodes := ns; next_inode := wadd64 i 1; root_inode := root_inode v; mounts := mounts v |} in
  match ns !! par with
  | Some p =>
      match add_child nm i p with
      | Ok p' => Done (with_nodes v (<[par := p']> ns), Ok i)
      | Err e => Done (v, Err e)
      end
  | None => Done (v, Ok i)
  end.
Definition create_file : N -> str -> Pid -> V N := create_node File.
Definition create_directory : N -> str -> Pid -> V N := create_node Directory.

(** *** Paths *)

(** [path.split('/')] *)
Fixpoint split (c : N) (s : str) : list str :=
  match s with
  | [] => [[]]
  | x :: s => if x =? c then [] :: split c s
              else match split c s with w :: ws => (x :: w) :: ws | [] => [[x]] end
  end.
Definition components (path : str) : list str := filter (fun w => w <> []) (split 47 path).

(** the walk from inode [i] along the components *)
Fixpoint walk (v : VirtualFileSystem) (cs : list str) (i : N) : result ServiceError VFSNode :=
  n ← ok_or SvcNotFound (lookup i v);
  match cs with
  | [] => Ok n
  | c :: cs => match get_child c n with Some j => walk v cs j | None => Err SvcNotFound end
  end.
Definition lookup_path (path : str) (v : VirtualFileSystem) : result ServiceError VFSNode :=
  if bool_decide (path = []) || bool_decide (path = [47]) then ok_or SvcNotFound (lookup (root_inode v) v)
  else walk v (components path) (root_inode v).

(** The mutex of the node is held while the one of its parent is taken. *)
Definition delete_node (i : N) : V unit := fun v =>
  match lookup i v with
  | None => Done (v, Err SvcNotFound)
  | Some n =>
      if negb (can_delete n) then Done (v, Err InvalidArguments)
      else
        let ns := match parent n with
                  | Some p => match lookup p v with
                              | Some pn => if p =? i then Deadlocked
                                           else Done (<[p := fst (remove_child (name n) pn)]> (nodes v))
                              | None => Done (nodes v)
                              end
                  | None => Done (nodes v)
                  end in
        ns ← ns;
        Done (with_nodes v (if ref_count n =? 0 then delete i ns else <[i := mark_deleted n]> ns), Ok tt)
  end.

(** the file service writes the size and the blocks of a node itself *)
Definition record (i : N) (sz : N) (bs : list N) (v : VirtualFileSystem) : VirtualFileSystem :=
  with_nodes v (alter (with_extent sz bs) i (nodes v)).
Definition root (v : VirtualFileSystem) : N := root_inode v.
Definition node_count (v : VirtualFileSystem) : N := N.of_nat (Datatypes.length (map_to_list (nodes v))).

(** *** A new file system *)

Definition standard_dirs : list str := Assembler.B <$> ["bin"; "home"; "tmp"; "etc"; "var"; "examples"; "programs"]%string.
Definition asm_files : list str := Assembler.B <$>
  ["add.asm"; "busy.asm"; "cat.asm"; "count.asm"; "divide.asm"; "exec.asm"; "fork.asm"; "hello.asm"; "init.asm";
   "loop.asm"; "ls.asm"; "mkdir.asm"; "multiply.asm"; "pf.asm"; "rm.asm"; "stat.asm"; "sub.asm"; "swaptest.asm";
   "touch.asm"; "tree.asm"; "write.asm"]%string.
Fixpoint create_all (ty : NodeType) (par : N) (nms : list str) : V unit :=
  match nms with [] => mret tt | nm :: nms => _ ← ignore (create_node ty par nm 0); create_all ty par nms end.

Definition empty_vfs : VirtualFileSystem :=
  {| nodes := {[0 := VFSNode_new 0 [47] Directory None 0]}; next_inode := 1; root_inode := 0; mounts := ∅ |}.
Definition add_programs : V unit := fun v =>
  match lookup 0 v ≫= get_child (Assembler.B "programs") with
  | Some prog => create_all File prog asm_files v
  | None => Done (v, Ok tt)
  end.
Definition populate : V unit := _ ← create_all Directory 0 standard_dirs; add_programs.
Definition VirtualFileSystem_new : VirtualFileSystem :=
  match populate empty_vfs with Done (v, _) => v | _ => empty_vfs end.

(** *** Saving and loading *)

(** what is saved of a node *)
Record Saved := {
  s_inode : N; s_type : NodeType; s_name : str; s_parent : option N; s_size : N;
  s_children : gmap str N; s_blocks : list N }.
#[export] Instance Saved_eq_dec : EqDecision Saved.
Proof. solve_decision. Defined.
Definition save_node (n : VFSNode) : Saved :=
  {| s_inode := inode n; s_type := node_type n; s_name := name n; s_parent := parent n; s_size := size n;
     s_children := children n; s_blocks := blocks n |}.
Definition saved_nodes (v : VirtualFileSystem) : list Saved := (fun e => save_node (snd e)) <$> map_to_list (nodes v).

Definition restore_node (v : VirtualFileSystem) (s : Saved) : VirtualFileSystem :=
  if s_inode s =? 0 then v
  else {| nodes := <[s_inode s := {| inode := s_inode s; node_type := s_type s; name := s_name s; parent := s_parent s;
                                     permissions := 420; owner := 0; size := s_size s; blocks := s_blocks s;
                                     children := ∅; ref_count := 0; deleted := false |}]> (nodes v);
          next_inode := if next_inode v <=? s_inode s then wadd64 (s_inode s) 1 else next_inode v;
          root_inode := root_inode v; mounts := mounts v |}.
Definition restore_children (v : VirtualFileSystem) (s : Saved) : VirtualFileSystem :=
  with_nodes v (alter (fun n => with_children n (s_children s)) (s_inode s) (nodes v)).
Definition restore (l : list Saved) : VirtualFileSystem :=
  foldl restore_children (foldl restore_node VirtualFileSystem_new l) l.

Section Json.
Context (to_json : list Saved -> option str) (from_json : str -> option (list Saved)).
(** the text written to the file, which may fail to be written *)
Definition save_to_file (v : VirtualFileSystem) : result ServiceError str :=
  ok_or (Other 98) (to_json (saved_nodes v)).
(** [None] for a file that is not there *)
Definition load_from_file (content : option str) : option VirtualFileSystem :=
  json ← content; l ← from_json json; Some (restore l).
End Json.

(** ** The tree

    Nodes are filed under their inode, below the next one to hand out; an entry
    of a directory names a node that knows its parent and its name; nothing
    counts references.  Nodes that no path reaches may exist. *)
Definition vfs_wf (v : VirtualFileSystem) : Prop :=
  root_inode v < next_inode v /\
  (forall r, nodes v !! root_inode v = Some r -> is_directory r = true /\ parent r = None) /\
  (forall i n, nodes v !! i = Some n -> inode n = i /\ i < next_inode v /\ ref_count n = 0 /\ deleted n = false /\
     forall nm c, children n !! nm = Some c ->
       is_directory n = true /\ exists m, nodes v !! c = Some m /\ parent m = Some i /\ name m = nm).

(** two paths of different lengths *)
Ltac snoc_len :=
  let E := fresh in intros E; apply (f_equal Datatypes.length) in E; rewrite ?length_app in E; cbn in E; lia.

(** the node at the end of a list of components *)
Definition resolve (v : VirtualFileSystem) (cs : list str) : option VFSNode :=
  match walk v cs (root_inode v) with Ok n => Some n | Err _ => None end.

Lemma split_not_nil c s : split c s <> [].
Proof. destruct s as [|x s]; cbn; [done|]. destruct (x =? c); [done|]. by destruct (split c s). Qed.

Lemma components_slash : components [47] = [].
Proof. reflexivity. Qed.

Lemma lookup_path_resolve path v : lookup_path path v = ok_or SvcNotFound (resolve v (components path)).
Proof.
  unfold lookup_path, resolve. case_bool_decide as E1; [subst path|case_bool_decide as E2; [subst path|]]; cbn [orb].
  - change (components []) with (@nil str). cbn. by destruct (lookup (root_inode v) v).
  - rewrite components_slash. cbn. by destruct (lookup (root_inode v) v).
  - generalize (root_inode v). induction (components path) as [|c cs IH]; intros i; cbn [walk].
    + by destruct (lookup i v).
    + destruct (lookup i v) as [n|]; [|done]. cbn. by destruct (get_child c n).
Qed.

Lemma walk_app v cs : forall c i,
  walk v (cs ++ [c]) i =
  n ← walk v cs i; match get_child c n with Some j => ok_or SvcNotFound (lookup j v) | None => Err SvcNotFound end.
Proof.
  induction cs as [|x cs IH]; intros c i; cbn [app walk].
  - destruct (lookup i v) as [n|]; [|done]. cbn. destruct (get_child c n) as [j|]; [|done].
    destruct (lookup j v); done.
  - destruct (lookup i v) as [n|]; [|done]. cbn. destruct (get_child x n) as [j|]; [apply IH|done].
Qed.

Lemma resolve_snoc v cs c :
  resolve v (cs ++ [c]) = n ← resolve v cs; j ← get_child c n; lookup j v.
Proof.
  unfold resolve. rewrite walk_app. destruct (walk v cs _) as [n|]; [|done]. cbn.
  destruct (get_child c n) as [j|]; [|done]. cbn. by destruct (lookup j v).
Qed.

Lemma resolve_nil v : resolve v [] = lookup (root_inode v) v.
Proof. unfold resolve. cbn. by destruct (lookup (root_inode v) v). Qed.

(** A resolved node is in the map; a node below the root knows how it was
    reached. *)
Lemma resolve_lookup v cs n : vfs_wf v -> resolve v cs = Some n -> nodes v !! inode n = Some n.
Proof.
  intros (_ & _ & Hn). destruct cs as [|c cs _] using rev_ind.
  - rewrite resolve_nil. intros H. pose proof (Hn _ _ H) as [-> _]. exact H.
  - rewrite resolve_snoc. destruct (resolve v cs) as [p|]; [|done]. cbn.
    destruct (get_child c p) as [j|]; [|done]. cbn. intros H. pose proof (Hn _ _ H) as [-> _]. exact H.
Qed.

Lemma resolve_parent v cs c n : vfs_wf v -> resolve v (cs ++ [c]) = Some n ->
  exists p, resolve v cs = Some p /\ parent n = Some (inode p) /\ name n = c /\
            children p !! c = Some (inode n) /\ is_directory p = true.
Proof.
  intros Hwf. pose proof Hwf as (_ & _ & Hn). rewrite resolve_snoc.
  destruct (resolve v cs) as [p|] eqn:Hp; [|done]. cbn. unfold get_child.
  destruct (children p !! c) as [j|] eqn:Hj; [|done]. cbn. intros H.
  pose proof (resolve_lookup v cs p Hwf Hp) as Hlp.
  destruct (Hn _ _ Hlp) as (_ & _ & _ & _ & Hch). destruct (Hch _ _ Hj) as (Hd & m & Hm & Hpm & Hnm).
  unfold lookup in H. rewrite Hm in H. injection H as ->. exists p. split_and!; try done.
  rewrite Hj. f_equal. symmetry. apply (Hn _ _ Hm).
Qed.

(** A node is reached along one path only. *)
Lemma resolve_unique v cs1 : vfs_wf v -> forall cs2 n m,
  resolve v cs1 = Some n -> resolve v cs2 = Some m -> inode n = inode m -> cs1 = cs2.
Proof.
  intros Hwf. induction cs1 as [|c1 cs1 IH] using rev_ind; intros cs2 n m H1 H2 E.
  - destruct cs2 as [|c2 cs2 _] using rev_ind; [done|]. exfalso.
    pose proof (resolve_lookup _ _ _ Hwf H2) as Hl. destruct (resolve_parent _ _ _ _ Hwf H2) as (p & _ & Hp & _).
    rewrite resolve_nil in H1. destruct Hwf as (_ & Hr & Hn). destruct (Hr _ H1) as [_ Hpr].
    unfold lookup in H1. destruct (Hn _ _ H1) as [Hi _]. rewrite Hi in E. rewrite <- E in Hl. congruence.
  - destruct (resolve_parent _ _ _ _ Hwf H1) as (p1 & Hp1 & Hpar1 & Hnm1 & _).
    pose proof (resolve_lookup _ _ _ Hwf H1) as Hl1. pose proof (resolve_lookup _ _ _ Hwf H2) as Hl2.
    rewrite E, Hl2 in Hl1. injection Hl1 as ->.
    destruct cs2 as [|c2 cs2 _] using rev_ind.
    + rewrite resolve_nil in H2. destruct Hwf as (_ & Hr & _). destruct (Hr _ H2) as [_ Hpr]. congruence.
    + destruct (resolve_parent _ _ _ _ Hwf H2) as (p2 & Hp2 & Hpar2 & Hnm2 & _).
      f_equal; [|congruence]. eapply IH; [exact Hp1|exact Hp2|congruence].
Qed.

Lemma resolve_inj v cs1 cs2 n m : vfs_wf v ->
  resolve v cs1 = Some n -> resolve v cs2 = Some m -> cs1 <> cs2 -> inode n <> inode m.
Proof. intros Hwf H1 H2 Hne E. apply Hne. by eapply resolve_unique. Qed.

Lemma wf_node v i n : vfs_wf v -> nodes v !! i = Some n ->
  inode n = i /\ i < next_inode v /\ ref_count n = 0 /\ deleted n = false.
Proof. intros (_ & _ & H) Hi. destruct (H _ _ Hi) as (H1 & H2 & H3 & H4 & _). done. Qed.

Lemma wf_child v i n nm c : vfs_wf v -> nodes v !! i = Some n -> children n !! nm = Some c ->
  is_directory n = true /\ exists m, nodes v !! c = Some m /\ parent m = Some i /\ name m = nm.
Proof. intros (_ & _ & H) Hi. destruct (H _ _ Hi) as (_ & _ & _ & _ & Hc). apply Hc. Qed.

(** the children of a resolved node resolve *)
Lemma resolve_child v cs n nm c : vfs_wf v -> resolve v cs = Some n -> children n !! nm = Some c ->
  exists m, nodes v !! c = Some m /\ resolve v (cs ++ [nm]) = Some m.
Proof.
  intros Hwf Hr Hc. pose proof (resolve_lookup _ _ _ Hwf Hr) as Hl.
  destruct (wf_child _ _ _ _ _ Hwf Hl Hc) as (_ & m & Hm & _). exists m. split; [done|].
  rewrite resolve_snoc, Hr. unfold get_child. cbn. rewrite Hc. exact Hm.
Qed.

(** *** Creating a node *)

Definition created (v : VirtualFileSystem) ty (p : VFSNode) nm ow : VirtualFileSystem :=
  {| nodes := <[inode p := with_children p (<[nm := next_inode v]> (children p))]>
                (<[next_inode v := VFSNode_new (next_inode v) nm ty (Some (inode p)) ow]> (nodes v));
     next_inode := next_inode v + 1; root_inode := root_inode v; mounts := mounts v |}.

Lemma create_node_ok v ty p nm ow :
  vfs_wf v -> next_inode v + 1 < 2 ^ 64 -> nodes v !! inode p = Some p -> is_directory p = true ->
  children p !! nm = None ->
  create_node ty (inode p) nm ow v = Done (created v ty p nm ow, Ok (next_inode v)).
Proof.
  intros Hwf Hb Hp Hd Hc. unfold create_node. rewrite lookup_insert_ne.
  - rewrite Hp. unfold add_child. rewrite Hd, Hc. cbn [negb]. by rewrite wadd64_small.
  - destruct (wf_node _ _ _ Hwf Hp). lia.
Qed.

(** The failed creation leaves the new node behind. *)
Definition leaked (v : VirtualFileSystem) ty par nm ow : VirtualFileSystem :=
  {| nodes := <[next_inode v := VFSNode_new (next_inode v) nm ty (Some par) ow]> (nodes v);
     next_inode := next_inode v + 1; root_inode := root_inode v; mounts := mounts v |}.

Lemma create_node_fails v ty p nm ow :
  vfs_wf v -> next_inode v + 1 < 2 ^ 64 -> nodes v !! inode p = Some p ->
  is_directory p = false \/ is_Some (children p !! nm) ->
  create_node ty (inode p) nm ow v = Done (leaked v ty (inode p) nm ow, Err InvalidArguments).
Proof.
  intros Hwf Hb Hp Hc. unfold create_node. rewrite lookup_insert_ne.
  - rewrite Hp. unfold add_child. rewrite wadd64_small by lia.
    destruct Hc as [->|[c Hc]]; [done|]. rewrite Hc. by destruct (is_directory p).
  - destruct (wf_node _ _ _ Hwf Hp). lia.
Qed.

Lemma created_wf v ty p nm ow :
  vfs_wf v -> nodes v !! inode p = Some p -> is_directory p = true -> children p !! nm = None ->
  vfs_wf (created v ty p nm ow).
Proof.
  intros Hwf Hp Hd Hc. pose proof Hwf as (Hr & Hroot & Hn). destruct (wf_node _ _ _ Hwf Hp) as (_ & Hlt & Hrc & Hdel).
  split; [cbn; lia|]. split.
  - cbn. intros r [[E <-]|[_ [[E _]|[_ Hr']]%lookup_insert_Some]]%lookup_insert_Some; [|lia|by apply Hroot].
    rewrite E in Hp. apply Hroot in Hp. done.
  - cbn. intros i n [[<- <-]|[Hi1 [[<- <-]|[Hi2 Hin]]%lookup_insert_Some]]%lookup_insert_Some.
    + cbn. split_and!; try done; [lia|]. intros x c [[<- <-]|[Hx Hxc]]%lookup_insert_Some.
      * split; [done|]. eexists. rewrite lookup_insert_ne, lookup_insert_eq by lia. by split_and!.
      * destruct (wf_child _ _ _ _ _ Hwf Hp Hxc) as (_ & m & Hm & Hpm & Hnm). split; [done|].
        destruct (wf_node _ _ _ Hwf Hm) as (Hcm & Hclt & _).
        destruct (decide (c = inode p)) as [->|]; [exists (with_children p (<[nm := next_inode v]> (children p)))|exists m].
        { rewrite lookup_insert_eq. rewrite Hp in Hm. by injection Hm as <-. }
        rewrite !lookup_insert_ne by (done || lia). done.
    + cbn. split_and!; [done|lia|done|done|]. intros x c Hx. by rewrite lookup_empty in Hx.
    + destruct (Hn _ _ Hin) as (H1 & H2 & H3 & H4 & H5). split_and!; try done; [cbn; lia|]. intros x c Hxc.
      destruct (H5 _ _ Hxc) as (Hdir & m & Hm & Hpm & Hnm). split; [done|].
      destruct (wf_node _ _ _ Hwf Hm) as (Hcm & Hclt & _).
      destruct (decide (c = inode p)) as [->|]; [exists (with_children p (<[nm := next_inode v]> (children p)))|exists m].
      { rewrite lookup_insert_eq. rewrite Hp in Hm. by injection Hm as <-. }
      rewrite !lookup_insert_ne by lia. done.
Qed.

Lemma leaked_wf v ty p nm ow : vfs_wf v -> vfs_wf (leaked v ty p nm ow).
Proof.
  intros Hwf. pose proof Hwf as (Hr & Hroot & Hn). split; [cbn; lia|]. split.
  - cbn. intros r [[E _]|[_ Hr']]%lookup_insert_Some; [lia|by apply Hroot].
  - cbn. intros i n [[<- <-]|[Hi Hin]]%lookup_insert_Some.
    + cbn. split_and!; [done|lia|done|done|]. intros x c Hx. by rewrite lookup_empty in Hx.
    + destruct (Hn _ _ Hin) as (H1 & H2 & H3 & H4 & H5). split_and!; try done; [cbn; lia|]. intros x c Hxc.
      destruct (H5 _ _ Hxc) as (Hdir & m & Hm & Hpm & Hnm). split; [done|]. exists m.
      destruct (wf_node _ _ _ Hwf Hm) as (_ & Hclt & _). rewrite lookup_insert_ne by lia. done.
Qed.

(** Nothing that a path reaches changes. *)
Lemma resolve_leaked v ty p nm ow cs : vfs_wf v -> resolve (leaked v ty p nm ow) cs = resolve v cs.
Proof.
  intros Hwf. induction cs as [|c cs IH] using rev_ind.
  - rewrite !resolve_nil. unfold lookup. cbn. rewrite lookup_insert_ne; [done|]. destruct Hwf as (Hr & _). lia.
  - rewrite !resolve_snoc, IH. destruct (resolve v cs) as [n|] eqn:Hcs; [|done]. cbn.
    destruct (get_child c n) as [j|] eqn:Hj; [|done]. cbn.
    destruct (resolve_child _ _ _ _ _ Hwf Hcs Hj) as (m & Hm & _). destruct (wf_node _ _ _ Hwf Hm) as (_ & Hlt & _).
    unfold lookup. cbn. by rewrite lookup_insert_ne by lia.
Qed.

Lemma resolve_created v ty pp p nm ow cs :
  vfs_wf v -> resolve v pp = Some p -> is_directory p = true -> children p !! nm = None ->
  resolve (created v ty p nm ow) cs =
    if decide (cs = pp ++ [nm]) then Some (VFSNode_new (next_inode v) nm ty (Some (inode p)) ow)
    else if decide (cs = pp) then Some (with_children p (<[nm := next_inode v]> (children p)))
    else resolve v cs.
Proof.
  intros Hwf Hp Hd Hc. pose proof (resolve_lookup _ _ _ Hwf Hp) as Hlp.
  destruct (wf_node _ _ _ Hwf Hlp) as (_ & Hplt & _). pose proof Hwf as (Hr & _).
  induction cs as [|c cs IH] using rev_ind.
  - rewrite decide_False by (intros E; by destruct pp). rewrite resolve_nil. unfold lookup. cbn [created nodes root_inode].
    destruct (decide ([] = pp)) as [<-|Hpp].
    + rewrite resolve_nil in Hp. unfold lookup in Hp. destruct (wf_node _ _ _ Hwf Hp) as [-> _]. apply lookup_insert_eq.
    + rewrite lookup_insert_ne; [rewrite lookup_insert_ne by lia; by rewrite resolve_nil|]. intros E.
      apply Hpp. eapply (resolve_unique v [] Hwf pp p p); [|done..]. rewrite resolve_nil. unfold lookup. congruence.
  - rewrite resolve_snoc, IH. clear IH. destruct (decide (cs = pp ++ [nm])) as [->|H1].
    + cbn. rewrite decide_False by snoc_len.
      rewrite decide_False by snoc_len.
      rewrite !resolve_snoc, Hp. cbn. unfold get_child. by rewrite Hc.
    + destruct (decide (cs = pp)) as [->|H2].
      * rewrite (decide_False (P := pp ++ [c] = pp)) by snoc_len.
        cbn. unfold get_child; cbn. destruct (decide (c = nm)) as [->|Hcn].
        { rewrite decide_True by done. rewrite lookup_insert_eq. cbn. unfold lookup; cbn.
          by rewrite lookup_insert_ne, lookup_insert_eq by lia. }
        rewrite decide_False by (intros E; by apply app_inj_tail in E as [_ ->]).
        rewrite lookup_insert_ne by done. rewrite resolve_snoc, Hp. cbn. unfold get_child.
        destruct (children p !! c) as [j|] eqn:Hj; [|done]. cbn. unfold lookup; cbn.
        destruct (resolve_child _ _ _ _ _ Hwf Hp Hj) as (m & Hm & Hrm). destruct (wf_node _ _ _ Hwf Hm) as (Hmi & Hmlt & _).
        rewrite !lookup_insert_ne; [done|lia|]. subst j. intros E.
        eapply (resolve_inj v pp (pp ++ [c])); [exact Hwf|done..| |exact E].
        snoc_len.
      * rewrite decide_False by (intros E; by apply app_inj_tail in E as [-> _]).
        rewrite resolve_snoc. destruct (resolve v cs) as [q|] eqn:Hq; [|by destruct (decide _); [subst; rewrite resolve_snoc, Hq in Hp|]].
        cbn. destruct (get_child c q) as [j|] eqn:Hj; cbn.
        2: { destruct (decide _) as [E|]; [|done]. subst pp. by rewrite resolve_snoc, Hq in Hp; cbn in Hp; rewrite Hj in Hp. }
        destruct (resolve_child _ _ _ _ _ Hwf Hq Hj) as (m & Hm & Hrm). destruct (wf_node _ _ _ Hwf Hm) as (Hmi & Hmlt & _).
        unfold lookup; cbn. destruct (decide (cs ++ [c] = pp)) as [<-|Hne].
        { rewrite Hrm in Hp. injection Hp as <-. rewrite <- Hmi. apply lookup_insert_eq. }
        rewrite !lookup_insert_ne; [done|lia|]. subst j. intros E. by eapply (resolve_inj v pp (cs ++ [c])).
Qed.

(** creation below an existing node, whether it succeeds or not *)
Lemma create_node_wf v ty par nm ow : vfs_wf v -> is_Some (nodes v !! par) -> next_inode v + 1 < 2 ^ 64 ->
  exists v' r, create_node ty par nm ow v = Done (v', r) /\ vfs_wf v' /\ next_inode v' = next_inode v + 1 /\
    root_inode v' = root_inode v /\ forall i, is_Some (nodes v !! i) -> is_Some (nodes v' !! i).
Proof.
  intros Hwf [p Hp] Hb. destruct (wf_node _ _ _ Hwf Hp) as [<- _].
  destruct (is_directory p) eqn:Hd; [destruct (children p !! nm) eqn:Hc|].
  - eexists _, _. split; [apply create_node_fails; [done..|right; by eexists]|]. split; [by apply leaked_wf|].
    split; [done|]. split; [done|]. intros i Hi. cbn. rewrite lookup_insert_is_Some. destruct (decide (next_inode v = i)); auto.
  - eexists _, _. split; [by apply create_node_ok|]. split; [by apply created_wf|].
    split; [done|]. split; [done|]. intros i Hi. cbn. rewrite !lookup_insert_is_Some.
    destruct (decide (inode p = i)); [auto|]. destruct (decide (next_inode v = i)); auto.
  - eexists _, _. split; [apply create_node_fails; [done..|by left]|]. split; [by apply leaked_wf|].
    split; [done|]. split; [done|]. intros i Hi. cbn. rewrite lookup_insert_is_Some. destruct (decide (next_inode v = i)); auto.
Qed.

Lemma create_all_wf ty par nms : forall v, vfs_wf v -> is_Some (nodes v !! par) -> next_inode v + len nms < 2 ^ 64 ->
  exists v', create_all ty par nms v = Done (v', Ok tt) /\ vfs_wf v' /\ next_inode v' = next_inode v + len nms /\
    root_inode v' = root_inode v /\ forall i, is_Some (nodes v !! i) -> is_Some (nodes v' !! i).
Proof.
  induction nms as [|nm nms IH]; intros v Hwf Hp Hb; [exists v; split; [done|]; split_and!; [done|cbn; lia|done|done]|].
  cbn [length] in Hb. destruct (create_node_wf v ty par nm 0 Hwf Hp ltac:(lia)) as (v1 & r & Hc & Hwf1 & Hn1 & Hr1 & Hk1).
  destruct (IH v1 Hwf1 (Hk1 _ Hp) ltac:(lia)) as (v2 & Hc2 & Hwf2 & Hn2 & Hr2 & Hk2).
  exists v2. split; [cbn [create_all]; rewrite HM_bind_eq; unfold ignore; by rewrite Hc|].
  split; [done|]. split; [cbn [length]; lia|]. split; [congruence|auto].
Qed.

(** the standard tree *)
Lemma empty_vfs_wf : vfs_wf empty_vfs.
Proof.
  split; [done|]. split; cbn; [by intros r [_ <-]%lookup_singleton_Some|].
  intros i n [<- <-]%lookup_singleton_Some. split_and!; try done.
Qed.
Lemma vfs_new_wf : vfs_wf VirtualFileSystem_new /\ root_inode VirtualFileSystem_new = 0 /\
  is_Some (nodes VirtualFileSystem_new !! 0) /\ next_inode VirtualFileSystem_new <= 29.
Proof.
  assert (H0 : is_Some (nodes empty_vfs !! 0)) by by eexists.
  destruct (create_all_wf Directory 0 standard_dirs empty_vfs empty_vfs_wf H0) as (v1 & Hc1 & Hwf1 & Hn1 & Hr1 & Hk1); [done|].
  unfold VirtualFileSystem_new, populate. rewrite HM_bind_eq, Hc1. unfold add_programs.
  change (next_inode empty_vfs + len standard_dirs) with 8 in Hn1.
  destruct (lookup 0 v1 ≫= get_child _) as [prog|] eqn:Hg; [|split_and!; [done..|by apply Hk1|lia]].
  apply bind_Some in Hg as (r & Hr & Hg). destruct (wf_child _ _ _ _ _ Hwf1 Hr Hg) as (_ & m & Hm & _).
  destruct (create_all_wf File prog asm_files v1 Hwf1 (mk_is_Some _ _ Hm)) as (v2 & Hc2 & Hwf2 & Hn2 & Hr2 & Hk2).
  { rewrite Hn1. done. }
  rewrite Hc2. split_and!; [done|by rewrite Hr2, Hr1|by apply Hk2, Hk1|]. rewrite Hn2, Hn1. done.
Qed.

(** *** Deleting a node *)

Definition removed (v : VirtualFileSystem) (p n : VFSNode) : VirtualFileSystem :=
  with_nodes v (delete (inode n) (<[inode p := with_children p (delete (name n) (children p))]> (nodes v))).
Definition removed_root (v : VirtualFileSystem) : VirtualFileSystem := with_nodes v (delete (root_inode v) (nodes v)).

Lemma no_children v n cs : vfs_wf v -> resolve v cs = Some n -> can_delete n = true -> children n = ∅.
Proof.
  intros Hwf Hr Hc. pose proof (resolve_lookup _ _ _ Hwf Hr) as Hl. unfold can_delete in Hc.
  destruct (is_directory n) eqn:Hd.
  - rewrite andb_false_r in Hc. cbn in Hc. by apply bool_decide_eq_true in Hc.
  - apply map_empty. intros nm. destruct (children n !! nm) as [c|] eqn:E; [|done].
    destruct (wf_child _ _ _ _ _ Hwf Hl E) as [? _]. congruence.
Qed.

Lemma delete_node_refused v n : nodes v !! inode n = Some n -> can_delete n = false ->
  delete_node (inode n) v = Done (v, Err InvalidArguments).
Proof. intros Hl Hc. unfold delete_node, lookup. by rewrite Hl, Hc. Qed.

Lemma delete_node_ok v cs c p n :
  vfs_wf v -> resolve v cs = Some p -> resolve v (cs ++ [c]) = Some n -> can_delete n = true ->
  delete_node (inode n) v = Done (removed v p n, Ok tt) /\ name n = c.
Proof.
  intros Hwf Hp Hn Hc. destruct (resolve_parent _ _ _ _ Hwf Hn) as (p' & Hp' & Hpar & Hnm & Hch & Hd).
  rewrite Hp in Hp'. injection Hp' as <-. split; [|done].
  pose proof (resolve_lookup _ _ _ Hwf Hn) as Hl. pose proof (resolve_lookup _ _ _ Hwf Hp) as Hlp.
  unfold delete_node, lookup. rewrite Hl, Hc, Hpar, Hlp. cbn [negb]. destruct (N.eqb_spec (inode p) (inode n)) as [E|].
  - exfalso. eapply (resolve_inj v cs (cs ++ [c])); [done..| |exact E].
    snoc_len.
  - destruct (wf_node _ _ _ Hwf Hl) as (_ & _ & -> & _). cbn. unfold remove_child. by rewrite Hd.
Qed.

Lemma delete_root v r : vfs_wf v -> resolve v [] = Some r -> can_delete r = true ->
  delete_node (inode r) v = Done (removed_root v, Ok tt).
Proof.
  intros Hwf Hr Hc. rewrite resolve_nil in Hr. pose proof (wf_node _ _ _ Hwf Hr) as (Hi & _ & Hrc & _). rewrite Hi.
  destruct Hwf as (_ & Hroot & _). destruct (Hroot _ Hr) as [_ Hp]. unfold delete_node. rewrite Hr, Hc, Hp. cbn.
  by rewrite Hrc.
Qed.

Lemma removed_wf v cs c p n :
  vfs_wf v -> resolve v cs = Some p -> resolve v (cs ++ [c]) = Some n -> can_delete n = true -> vfs_wf (removed v p n).
Proof.
  intros Hwf Hp Hn Hc. destruct (resolve_parent _ _ _ _ Hwf Hn) as (p' & Hp' & Hpar & Hnm & Hch & Hd).
  rewrite Hp in Hp'. injection Hp' as <-. pose proof (resolve_lookup _ _ _ Hwf Hn) as Hl.
  pose proof (resolve_lookup _ _ _ Hwf Hp) as Hlp. pose proof Hwf as (Hr & Hroot & Hall).
  split; [done|]. split.
  - cbn. intros r [_ [[E <-]|[_ Hr']]%lookup_insert_Some]%lookup_delete_Some; [|by apply Hroot].
    rewrite E in Hlp. by apply Hroot in Hlp.
  - assert (Hkeep : forall i q x j, nodes v !! i = Some q -> children q !! x = Some j -> (i, x) <> (inode p, name n) ->
      is_directory q = true /\ exists m, nodes (removed v p n) !! j = Some m /\ parent m = Some i /\ name m = x).
    { intros i q x j Hq Hx Hne. destruct (wf_child _ _ _ _ _ Hwf Hq Hx) as (Hqd & m & Hm & Hpm & Hnmm). split; [done|].
      assert (Hj : inode n <> j). { intros <-. rewrite Hl in Hm. injection Hm as <-. apply Hne. congruence. }
      cbn. rewrite lookup_delete_ne by done. destruct (decide (inode p = j)) as [<-|].
      - eexists. rewrite lookup_insert_eq. split; [done|]. rewrite Hlp in Hm. by injection Hm as <-.
      - exists m. by rewrite lookup_insert_ne. }
    cbn. intros i q [Hi [[<- <-]|[Hip Hq]]%lookup_insert_Some]%lookup_delete_Some.
    + destruct (wf_node _ _ _ Hwf Hlp) as (H1 & H2 & H3 & H4). cbn. split_and!; try done.
      intros x j [Hx Hj]%lookup_delete_Some. apply (Hkeep _ p x j Hlp Hj). intros [=]; congruence.
    + destruct (Hall _ _ Hq) as (H1 & H2 & H3 & H4 & H5). split_and!; try done.
      intros x j Hj. apply (Hkeep i q x j Hq Hj). intros [=]; congruence.
Qed.

Lemma removed_root_wf v r : vfs_wf v -> resolve v [] = Some r -> can_delete r = true -> vfs_wf (removed_root v).
Proof.
  intros Hwf Hrt Hc. pose proof (no_children _ _ _ Hwf Hrt Hc) as He. rewrite resolve_nil in Hrt.
  pose proof Hwf as (Hr & Hroot & Hall). split; [done|]. split.
  - cbn. intros q [? _]%lookup_delete_Some. done.
  - cbn. intros i q [Hi Hq]%lookup_delete_Some. destruct (Hall _ _ Hq) as (H1 & H2 & H3 & H4 & H5). split_and!; try done.
    intros x j Hj. destruct (H5 _ _ Hj) as (Hd & m & Hm & Hpm & Hnm). split; [done|]. exists m. split; [|done].
    cbn. rewrite lookup_delete_ne; [done|]. intros <-. destruct (Hroot _ Hm) as [_ ?]. congruence.
Qed.

Lemma resolve_removed_root v cs : resolve (removed_root v) cs = None.
Proof.
  induction cs as [|c cs IH] using rev_ind.
  - rewrite resolve_nil. unfold lookup. cbn. apply lookup_delete_eq.
  - by rewrite resolve_snoc, IH.
Qed.

Lemma resolve_removed v pp c p n cs :
  vfs_wf v -> resolve v pp = Some p -> resolve v (pp ++ [c]) = Some n -> can_delete n = true ->
  resolve (removed v p n) cs =
    if decide (cs = pp ++ [c]) then None
    else if decide (cs = pp) then Some (with_children p (delete c (children p)))
    else resolve v cs.
Proof.
  intros Hwf Hp Hn Hc. destruct (resolve_parent _ _ _ _ Hwf Hn) as (p' & Hp' & Hpar & Hnm & Hch & Hd).
  rewrite Hp in Hp'. injection Hp' as <-. pose proof (no_children _ _ _ Hwf Hn Hc) as He.
  assert (Hlook : forall cs' q, resolve v cs' = Some q -> cs' <> pp ++ [c] ->
    nodes (removed v p n) !! inode q = if decide (cs' = pp) then Some (with_children p (delete c (children p))) else Some q).
  { intros cs' q Hq Hne. cbn. rewrite lookup_delete_ne by (symmetry; by eapply (resolve_inj v cs' (pp ++ [c]))).
    destruct (decide (cs' = pp)) as [->|Hpp].
    - rewrite Hp in Hq. injection Hq as <-. rewrite lookup_insert_eq. by subst c.
    - rewrite lookup_insert_ne by (symmetry; by eapply (resolve_inj v cs' pp)). by eapply resolve_lookup. }
  induction cs as [|x cs IH] using rev_ind.
  - rewrite decide_False by (intros E; by destruct pp). rewrite resolve_nil. unfold lookup.
    change (root_inode (removed v p n)) with (root_inode v).
    destruct (resolve v []) as [q|] eqn:Hq.
    + pose proof Hq as Hq'. rewrite resolve_nil in Hq'. destruct (wf_node _ _ _ Hwf Hq') as [<- _].
      apply (Hlook [] q Hq). intros E. by destruct pp.
    + assert (Hall : forall cs', resolve v cs' = None).
      { intros cs'. induction cs' as [|y cs' IH'] using rev_ind; [done|]. by rewrite resolve_snoc, IH'. }
      by rewrite Hall in Hp.
  - rewrite resolve_snoc, IH. clear IH. destruct (decide (cs = pp ++ [c])) as [->|H1].
    + cbn. rewrite decide_False by snoc_len.
      rewrite decide_False by snoc_len.
      rewrite (resolve_snoc v (pp ++ [c])), Hn. cbn. unfold get_child. by rewrite He, lookup_empty.
    + destruct (decide (cs = pp)) as [->|H2].
      * rewrite (decide_False (P := pp ++ [x] = pp)) by snoc_len.
        cbn. unfold get_child; cbn. destruct (decide (x = c)) as [->|Hxc].
        { by rewrite decide_True, lookup_delete_eq. }
        rewrite decide_False by (intros E; by apply app_inj_tail in E as [_ ->]).
        rewrite lookup_delete_ne by done. rewrite resolve_snoc, Hp. cbn. unfold get_child.
        destruct (children p !! x) as [j|] eqn:Hj; [|done]. cbn. unfold lookup.
        destruct (resolve_child _ _ _ _ _ Hwf Hp Hj) as (m & Hm & Hrm). destruct (wf_node _ _ _ Hwf Hm) as (Hmi & _).
        rewrite <- Hmi, (Hlook _ _ Hrm) by (intros E; by apply app_inj_tail in E as [_ ->]).
        rewrite decide_False by snoc_len.
        by rewrite Hmi, Hm.
      * rewrite (decide_False (P := cs ++ [x] = pp ++ [c])) by (intros E; by apply app_inj_tail in E as [-> _]).
        rewrite resolve_snoc. destruct (resolve v cs) as [q|] eqn:Hq.
        2: { cbn. destruct (decide (cs ++ [x] = pp)) as [<-|]; [by rewrite resolve_snoc, Hq in Hp|done]. }
        cbn. destruct (get_child x q) as [j|] eqn:Hj; cbn.
        2: { destruct (decide (cs ++ [x] = pp)) as [<-|]; [|done]. rewrite resolve_snoc, Hq in Hp. cbn in Hp. by rewrite Hj in Hp. }
        destruct (resolve_child _ _ _ _ _ Hwf Hq Hj) as (m & Hm & Hrm). destruct (wf_node _ _ _ Hwf Hm) as (Hmi & _).
        unfold lookup. rewrite <- Hmi, (Hlook _ _ Hrm) by (intros E; by apply app_inj_tail in E as [-> _]).
        destruct (decide _); [done|]. by rewrite Hmi, Hm.
Qed.

(** recording the size and the blocks of a node changes nothing else *)
Definition extended (i : N) sz bs (n : VFSNode) : VFSNode := if decide (inode n = i) then with_extent sz bs n else n.

Lemma record_lookup v i sz bs j : vfs_wf v -> nodes (record i sz bs v) !! j = extended i sz bs <$> nodes v !! j.
Proof.
  intros Hwf. unfold record, with_nodes. cbn [nodes]. destruct (decide (i = j)) as [->|Hne].
  - rewrite lookup_alter_eq. destruct (nodes v !! j) as [n|] eqn:E; [|done]. cbn. unfold extended.
    destruct (wf_node _ _ _ Hwf E) as (Hi & _). by rewrite decide_True.
  - rewrite lookup_alter_ne by done. destruct (nodes v !! j) as [n|] eqn:E; [|done]. cbn. unfold extended.
    destruct (wf_node _ _ _ Hwf E) as (Hi & _). rewrite decide_False; [done|congruence].
Qed.
Lemma extended_keeps i sz bs n : let n' := extended i sz bs n in
  inode n' = inode n /\ name n' = name n /\ node_type n' = node_type n /\ parent n' = parent n /\
  children n' = children n /\ ref_count n' = ref_count n /\ deleted n' = deleted n.
Proof. cbn. unfold extended. by destruct (decide _). Qed.

Lemma record_wf v i sz bs : vfs_wf v -> vfs_wf (record i sz bs v).
Proof.
  intros Hwf. pose proof Hwf as (Hr & Hroot & Hn). split; [exact Hr|]. split.
  - intros r. rewrite record_lookup by done. intros (r0 & E & ->)%fmap_Some. destruct (Hroot _ E) as [Hd Hp].
    unfold is_directory, extended in *. by destruct (decide _).
  - intros j n. rewrite record_lookup by done. intros (n0 & E & ->)%fmap_Some.
    destruct (extended_keeps i sz bs n0) as (K1 & K2 & K3 & K4 & K5 & K6 & K7). destruct (Hn _ _ E) as (H1 & H2 & H3 & H4 & H5).
    rewrite K1, K5, K6, K7. split_and!; try done. intros nm c Hc. destruct (H5 nm c Hc) as (Hd & m & Hm & Hmp & Hmn).
    unfold is_directory. rewrite K3. split; [done|]. exists (extended i sz bs m). rewrite record_lookup, Hm by done.
    destruct (extended_keeps i sz bs m) as (_ & L2 & _ & L4 & _). by rewrite L2, L4.
Qed.

Lemma resolve_record v i sz bs cs : vfs_wf v -> resolve (record i sz bs v) cs = extended i sz bs <$> resolve v cs.
Proof.
  intros Hwf. induction cs as [|c cs IH] using rev_ind; [by rewrite !resolve_nil; unfold lookup; rewrite <- record_lookup|].
  rewrite !resolve_snoc, IH. destruct (resolve v cs) as [n|]; [|done]. cbn. unfold get_child.
  destruct (extended_keeps i sz bs n) as (_ & _ & _ & _ & -> & _). destruct (children n !! c) as [j|]; [|done]. cbn.
  unfold lookup. by rewrite record_lookup.
Qed.

(** ** The tree of paths

    What a file system is to its users: a map from paths to the kind of what is
    there. *)
Abbreviation Tree := (gmap (list str) NodeType).
Definition abstracts (v : VirtualFileSystem) (t : Tree) : Prop := forall cs, node_type <$> resolve v cs = t !! cs.

Definition tree_create (ty : NodeType) (pp : list str) (nm : str) (t : Tree) : Tree * bool :=
  if bool_decide (t !! pp = Some Directory) && bool_decide (t !! (pp ++ [nm]) = None)
  then (<[pp ++ [nm] := ty]> t, true) else (t, false).
Definition child_of (cs : list str) (p : list str) : bool := bool_decide (p <> [] /\ removelast p = cs).
Definition has_child (cs : list str) (t : Tree) : bool := existsb (fun e => child_of cs (fst e)) (map_to_list t).
Definition tree_delete (cs : list str) (t : Tree) : Tree * bool :=
  match t !! cs with
  | None => (t, false)
  | Some ty => if bool_decide (ty = Directory) && has_child cs t then (t, false) else (delete cs t, true)
  end.

Lemma abstracts_resolve v t cs n : abstracts v t -> resolve v cs = Some n -> t !! cs = Some (node_type n).
Proof. intros Ha Hr. by rewrite <- Ha, Hr. Qed.

Lemma has_child_spec v t cs n : vfs_wf v -> abstracts v t -> resolve v cs = Some n ->
  has_child cs t = negb (bool_decide (children n = ∅)).
Proof.
  intros Hwf Ha Hr. apply eq_true_iff_eq. rewrite negb_true_iff, bool_decide_eq_false. unfold has_child.
  rewrite existsb_exists. split.
  - intros ([p ty] & Hin & Hc). apply list_elem_of_In, elem_of_map_to_list in Hin.
    unfold child_of in Hc. apply bool_decide_eq_true in Hc as [Hne Hp]. cbn in Hne, Hp.
    destruct p as [|c p _] using rev_ind; [done|]. rewrite removelast_last in Hp. subst p.
    rewrite <- Ha, resolve_snoc, Hr in Hin. cbn in Hin. intros He. unfold get_child in Hin.
    by rewrite He, lookup_empty in Hin.
  - intros Hne. apply map_choose in Hne as (nm & c & Hc).
    destruct (resolve_child _ _ _ _ _ Hwf Hr Hc) as (m & _ & Hm). exists (cs ++ [nm], node_type m). split.
    + apply list_elem_of_In, elem_of_map_to_list. rewrite <- Ha. by rewrite Hm.
    + apply bool_decide_eq_true. cbn. rewrite removelast_last. split; [by destruct cs|done].
Qed.

Lemma create_refines v t ty pp p nm ow :
  vfs_wf v -> abstracts v t -> next_inode v + 1 < 2 ^ 64 -> resolve v pp = Some p ->
  exists v' r, create_node ty (inode p) nm ow v = Done (v', r) /\ vfs_wf v' /\ next_inode v' = next_inode v + 1 /\
    abstracts v' (fst (tree_create ty pp nm t)) /\ is_ok r = snd (tree_create ty pp nm t).
Proof.
  intros Hwf Ha Hb Hp. pose proof (resolve_lookup _ _ _ Hwf Hp) as Hl. unfold tree_create.
  assert (Hdir : bool_decide (t !! pp = Some Directory) = is_directory p).
  { rewrite (abstracts_resolve _ _ _ _ Ha Hp). unfold is_directory. apply bool_decide_ext. split; congruence. }
  assert (Hnew : bool_decide (t !! (pp ++ [nm]) = None) = bool_decide (children p !! nm = None)).
  { apply bool_decide_ext. rewrite <- Ha, resolve_snoc, Hp. cbn. unfold get_child.
    destruct (children p !! nm) as [c|] eqn:Hc; [|done]. cbn.
    destruct (resolve_child _ _ _ _ _ Hwf Hp Hc) as (m & Hm & _). unfold lookup. rewrite Hm. by split. }
  rewrite Hdir, Hnew. clear Hdir Hnew. destruct (is_directory p) eqn:Hd; [case_bool_decide as Hc|]; cbn [andb fst snd].
  - eexists _, _. split; [by apply create_node_ok|]. split; [by apply created_wf|]. split; [done|]. split; [|done].
    intros cs. erewrite resolve_created by done. destruct (decide (cs = pp ++ [nm])) as [->|H1].
    { by rewrite lookup_insert_eq. }
    rewrite lookup_insert_ne by done. destruct (decide (cs = pp)) as [->|]; [|apply Ha]. by rewrite <- Ha, Hp.
  - eexists _, _. split; [apply create_node_fails; [done..|right]; by destruct (children p !! nm)|].
    split; [by apply leaked_wf|]. split; [done|]. split; [|done]. intros cs. by rewrite resolve_leaked.
  - eexists _, _. split; [apply create_node_fails; [done..|by left]|].
    split; [by apply leaked_wf|]. split; [done|]. split; [|done]. intros cs. by rewrite resolve_leaked.
Qed.

Lemma can_delete_kind v cs n : vfs_wf v -> resolve v cs = Some n ->
  can_delete n = negb (is_directory n && negb (bool_decide (children n = ∅))).
Proof.
  intros Hwf Hr. pose proof (resolve_lookup _ _ _ Hwf Hr) as Hl. destruct (wf_node _ _ _ Hwf Hl) as (_ & _ & Hrc & _).
  unfold can_delete. rewrite Hrc. by destruct (is_directory n), (bool_decide _).
Qed.

Lemma delete_refines v t cs n :
  vfs_wf v -> abstracts v t -> resolve v cs = Some n ->
  exists v' r, delete_node (inode n) v = Done (v', r) /\ vfs_wf v' /\ next_inode v' = next_inode v /\
    abstracts v' (fst (tree_delete cs t)) /\ is_ok r = snd (tree_delete cs t).
Proof.
  intros Hwf Ha Hr. unfold tree_delete. rewrite (abstracts_resolve _ _ _ _ Ha Hr).
  rewrite (has_child_spec _ _ _ _ Hwf Ha Hr). change (bool_decide (node_type n = Directory)) with (is_directory n).
  pose proof (can_delete_kind _ _ _ Hwf Hr) as Hk. destruct (is_directory n && _); cbn in Hk.
  - exists v, (Err InvalidArguments). split; [|done]. apply delete_node_refused; [by eapply resolve_lookup|done].
  - destruct cs as [|c cs _] using rev_ind.
    + exists (removed_root v), (Ok tt). split; [by apply delete_root|]. split; [by eapply removed_root_wf|].
      split; [done|]. split; [|done]. intros cs. rewrite resolve_removed_root. destruct cs as [|c cs] using rev_ind.
      { cbn [fst]. by rewrite lookup_delete_eq. }
      cbn [fst]. rewrite lookup_delete_ne by (by destruct cs). rewrite <- Ha.
      pose proof (no_children _ _ _ Hwf Hr Hk) as He. clear IHcs.
      assert (Hno : forall cs, cs <> [] -> resolve v cs = None).
      { intros cs'. induction cs' as [|y cs' IH] using rev_ind; [done|]. intros _. rewrite resolve_snoc.
        destruct cs' as [|z cs']; [rewrite Hr; cbn; unfold get_child; by rewrite He, lookup_empty|by rewrite IH]. }
      rewrite Hno; [done|]. by destruct cs.
    + destruct (resolve_parent _ _ _ _ Hwf Hr) as (p & Hp & _).
      destruct (delete_node_ok _ _ _ _ _ Hwf Hp Hr Hk) as [Hdel _].
      exists (removed v p n), (Ok tt). split; [done|]. split; [by eapply removed_wf|]. split; [done|]. split; [|done].
      intros cs'. erewrite resolve_removed by done. destruct (decide (cs' = cs ++ [c])) as [->|H1].
      { cbn [fst]. by rewrite lookup_delete_eq. }
      cbn [fst]. rewrite lookup_delete_ne by done. destruct (decide (cs' = cs)) as [->|]; [|apply Ha]. by rewrite <- Ha, Hp.
Qed.

(** ** Saving and loading *)

Definition restored (s : Saved) : VFSNode :=
  {| inode := s_inode s; node_type := s_type s; name := s_name s; parent := s_parent s; permissions := 420; owner := 0;
     size := s_size s; blocks := s_blocks s; children := ∅; ref_count := 0; deleted := false |}.

Lemma restore_nodes_lookup l : forall v i, NoDup (s_inode <$> l) ->
  nodes (foldl restore_node v l) !! i =
    match list_find (fun s => s_inode s = i) l with
    | Some (_, s) => if i =? 0 then nodes v !! i else Some (restored s)
    | None => nodes v !! i
    end.
Proof.
  induction l as [|s l IH]; intros v i Hnd; [done|]. cbn [foldl]. rewrite fmap_cons in Hnd.
  apply list.NoDup_cons in Hnd as [Hs Hnd]. rewrite IH by done. cbn [list_find].
  unfold restore_node. destruct (decide (s_inode s = i)) as [<-|Hne].
  - rewrite (proj2 (list_find_None _ l)).
    + destruct (N.eqb_spec (s_inode s) 0); [done|]. cbn. by rewrite lookup_insert_eq.
    + apply list.Forall_forall. intros x Hx E. apply Hs. rewrite <- E. by apply list_elem_of_fmap_2.
  - destruct (list_find _ l) as [[k x]|]; cbn; destruct (s_inode s =? 0); try done; cbn; by rewrite lookup_insert_ne.
Qed.

Lemma restore_children_lookup l : forall v i, NoDup (s_inode <$> l) ->
  nodes (foldl restore_children v l) !! i =
    match list_find (fun s => s_inode s = i) l with
    | Some (_, s) => (fun n => with_children n (s_children s)) <$> nodes v !! i
    | None => nodes v !! i
    end.
Proof.
  induction l as [|s l IH]; intros v i Hnd; [done|]. cbn [foldl]. rewrite fmap_cons in Hnd.
  apply list.NoDup_cons in Hnd as [Hs Hnd]. rewrite IH by done. cbn [list_find].
  unfold restore_children. cbn. destruct (decide (s_inode s = i)) as [<-|Hne].
  - rewrite (proj2 (list_find_None _ l)); [by rewrite lookup_alter_eq|].
    apply list.Forall_forall. intros x Hx E. apply Hs. rewrite <- E. by apply list_elem_of_fmap_2.
  - destruct (list_find _ l) as [[k x]|]; cbn; by rewrite lookup_alter_ne.
Qed.

Lemma saved_keys v : vfs_wf v -> s_inode <$> saved_nodes v = fst <$> map_to_list (nodes v).
Proof.
  intros Hwf. unfold saved_nodes. rewrite <- list_fmap_compose. apply list_fmap_ext. intros k [i n] Hin. cbn.
  apply list_elem_of_lookup_2, elem_of_map_to_list in Hin. by destruct (wf_node _ _ _ Hwf Hin).
Qed.

Lemma saved_find v i n : vfs_wf v -> nodes v !! i = Some n ->
  exists k, list_find (fun s => s_inode s = i) (saved_nodes v) = Some (k, save_node n).
Proof.
  intros Hwf Hi. destruct (list_find _ _) as [[k s]|] eqn:E.
  - exists k. do 2 f_equal. apply list_find_Some in E as (Hk & Hs & _). unfold saved_nodes in Hk.
    rewrite list_lookup_fmap in Hk. destruct (_ !! k) as [[j m]|] eqn:Hm; [|done]. cbn in Hk. injection Hk as <-.
    apply list_elem_of_lookup_2, elem_of_map_to_list in Hm. destruct (wf_node _ _ _ Hwf Hm) as (Hj & _). cbn in Hs. congruence.
  - exfalso. apply list_find_None in E. rewrite list.Forall_forall in E. apply (E (save_node n)).
    + unfold saved_nodes. apply list_elem_of_fmap. exists (i, n). split; [done|]. by apply elem_of_map_to_list.
    + by destruct (wf_node _ _ _ Hwf Hi).
Qed.

Lemma foldl_root {A} (f : VirtualFileSystem -> A -> VirtualFileSystem) l :
  (forall v a, root_inode (f v a) = root_inode v) -> forall v, root_inode (foldl f v l) = root_inode v.
Proof. intros Hf. induction l as [|a l IH]; intros v; [done|]. cbn. by rewrite IH. Qed.

(** what comes back for an inode that was saved *)
Lemma restore_lookup v i n : vfs_wf v -> i <> 0 -> nodes v !! i = Some n ->
  nodes (restore (saved_nodes v)) !! i = Some (with_children (restored (save_node n)) (children n)).
Proof.
  intros Hwf Hi Hn. unfold restore.
  assert (Hnd : NoDup (s_inode <$> saved_nodes v)) by (rewrite saved_keys by done; apply NoDup_fst_map_to_list).
  rewrite restore_children_lookup, restore_nodes_lookup by done. destruct (saved_find v i n Hwf Hn) as [k ->].
  by rewrite (proj2 (N.eqb_neq i 0)).
Qed.

Lemma restore_root v n : vfs_wf v -> nodes v !! 0 = Some n ->
  exists r, nodes (restore (saved_nodes v)) !! 0 = Some r /\ node_type r = Directory /\ children r = children n.
Proof.
  intros Hwf Hn. unfold restore.
  assert (Hnd : NoDup (s_inode <$> saved_nodes v)) by (rewrite saved_keys by done; apply NoDup_fst_map_to_list).
  rewrite restore_children_lookup, restore_nodes_lookup by done. destruct (saved_find v 0 n Hwf Hn) as [k ->].
  rewrite N.eqb_refl.
  assert (Hr : exists r, nodes VirtualFileSystem_new !! 0 = Some r /\ node_type r = Directory).
  { destruct (nodes VirtualFileSystem_new !! 0) as [r|] eqn:E; [exists r; split; [done|]|].
    - assert (H : (node_type <$> nodes VirtualFileSystem_new !! 0) = Some Directory) by (vm_compute; reflexivity).
      rewrite E in H. by injection H.
    - exfalso. assert (H : is_Some (node_type <$> nodes VirtualFileSystem_new !! 0)) by (vm_compute; by eexists).
      rewrite E in H. by destruct H. }
  destruct Hr as (r & -> & Ht). by exists (with_children r (children n)).
Qed.

(** A path leads to the same node as before the file system was saved. *)
Definition same_node (cs : list str) (n n' : VFSNode) : Prop :=
  children n' = children n /\ node_type n' = node_type n /\ (cs <> [] -> save_node n' = save_node n).

Lemma restore_resolve v cs : vfs_wf v -> root_inode v = 0 -> is_Some (nodes v !! 0) ->
  match resolve v cs with
  | Some n => exists n', resolve (restore (saved_nodes v)) cs = Some n' /\ same_node cs n n'
  | None => resolve (restore (saved_nodes v)) cs = None
  end.
Proof.
  intros Hwf Hr0 [r Hr]. assert (Hroot : root_inode (restore (saved_nodes v)) = 0).
  { unfold restore. rewrite !foldl_root; [done|..]; [|done]. intros w s. unfold restore_node. by destruct (_ =? 0). }
  induction cs as [|c cs IH] using rev_ind.
  - rewrite !resolve_nil, Hroot, Hr0. unfold lookup. rewrite Hr.
    destruct (restore_root v r Hwf Hr) as (r' & -> & Ht & Hc). exists r'. split; [done|]. split; [done|]. split; [|done].
    destruct Hwf as (_ & Hrt & _). rewrite Hr0 in Hrt. destruct (Hrt _ Hr) as [Hd _]. unfold is_directory in Hd.
    apply bool_decide_eq_true in Hd. congruence.
  - rewrite !resolve_snoc. destruct (resolve v cs) as [p|] eqn:Hp; cbn; [|by rewrite IH].
    destruct IH as (p' & -> & Hch & _). cbn. unfold get_child. rewrite Hch.
    destruct (children p !! c) as [j|] eqn:Hj; [|done]. cbn.
    destruct (resolve_child _ _ _ _ _ Hwf Hp Hj) as (m & Hm & Hrm). unfold lookup. rewrite Hm.
    destruct (resolve_parent _ _ _ _ Hwf Hrm) as (q & _ & Hpar & _).
    assert (Hj0 : j <> 0).
    { intros ->. destruct Hwf as (_ & Hrt & _). rewrite Hr0 in Hrt. destruct (Hrt _ Hm) as [_ ?]. congruence. }
    eexists. rewrite (restore_lookup v j m Hwf Hj0 Hm). split; [done|]. by split_and!.
Qed.

Section JsonRoundTrip.
Context (to_json : list Saved -> option str) (from_json : str -> option (list Saved)).

(** Property: a file system that is written to its file and loaded at the next
    start has the same tree: a path that led to a file or directory leads to one
    with the same inode, name, size, blocks and entries, and no path appears or
    disappears - if the reader of serde_json gives back what its writer wrote. *)
Theorem save_load_same_tree v json :
  (forall l s, to_json l = Some s -> from_json s = Some l) ->
  vfs_wf v -> root_inode v = 0 -> is_Some (nodes v !! 0) ->
  save_to_file to_json v = Ok json ->
  exists v', load_from_file from_json (Some json) = Some v' /\ forall path,
    match lookup_path path v with
    | Ok n => exists n', lookup_path path v' = Ok n' /\ same_node (components path) n n'
    | Err e => lookup_path path v' = Err e
    end.
Proof.
  intros Hjson Hwf Hr0 Hr Hs. unfold save_to_file in Hs. apply ok_or_ok, Hjson in Hs. unfold load_from_file. cbn.
  rewrite Hs. cbn. eexists. split; [done|]. intros path. rewrite !lookup_path_resolve.
  pose proof (restore_resolve v (components path) Hwf Hr0 Hr) as H.
  destruct (resolve v _) as [n|]; cbn; [|by rewrite H]. destruct H as (n' & -> & Hn). by exists n'.
Qed.
End JsonRoundTrip.

(** the writer and the reader of one file *)
Definition demo_vfs : VirtualFileSystem :=
  match create_file 2 (Assembler.B "notes.txt") 0 VirtualFileSystem_new with Done (v, _) => v | _ => empty_vfs end.
Lemma demo_vfs_wf : vfs_wf demo_vfs /\ root_inode demo_vfs = 0 /\ is_Some (nodes demo_vfs !! 0).
Proof.
  destruct vfs_new_wf as (Hwf & Hr & H0 & Hn). unfold demo_vfs, create_file.
  destruct (create_node_wf VirtualFileSystem_new File 2 (Assembler.B "notes.txt") 0 Hwf) as (v' & r & -> & Hwf' & _ & Hr' & Hk).
  - destruct (nodes VirtualFileSystem_new !! 2) eqn:E; [done|]. exfalso.
    assert (H : is_Some (node_type <$> nodes VirtualFileSystem_new !! 2)) by (vm_compute; by eexists). rewrite E in H. by destruct H.
  - lia.
  - split_and!; [done|congruence|by apply Hk].
Qed.
Lemma save_load_same_tree_witness :
  exists v', load_from_file (fun _ => Some (saved_nodes demo_vfs)) (Some (Assembler.B "x")) = Some v' /\
    is_ok (lookup_path (Assembler.B "/home/notes.txt") v') = true.
Proof.
  destruct demo_vfs_wf as (Hwf & Hr & H0).
  assert (E : is_ok (lookup_path (Assembler.B "/home/notes.txt") demo_vfs) = true) by (vm_compute; reflexivity).
  destruct (save_load_same_tree
     (fun l => if decide (l = saved_nodes demo_vfs) then Some (Assembler.B "x") else None)
     (fun _ => Some (saved_nodes demo_vfs)) demo_vfs (Assembler.B "x")) as (v' & Hv & H); [|done..| |].
  - intros l s. by destruct (decide _) as [->|].
  - unfold save_to_file. by rewrite decide_True.
  - exists v'. split; [exact Hv|]. specialize (H (Assembler.B "/home/notes.txt")).
    destruct (lookup_path _ demo_vfs); [|discriminate E]. destruct H as (n' & -> & _). reflexivity.
Defined.
