(* ===== verification/Restart.v ===== *)
(** * The file system across restarts (src/src/services/file/vfs.rs, save_to_file and load_from_file)

    Loading puts the saved nodes over those of a new file system, so a standard
    node that was deleted is back among the nodes after a restart, although the
    entries of its parent do not name it.  [over] is what the nodes of a file
    system keep of the standard ones whatever was created, deleted and reloaded:
    a standard inode is given to no other node.  With it a reload keeps the tree of
    paths; only when the root itself was deleted does the standard tree come
    back. *)
From S2P Require Import Prelude Types Messages.
From S2P Require Assembler.
From S2P Require Import Vfs.

#[local] Existing Instance NodeType_eq_dec.

(** ** Lemmas *)

(** an entry of a directory and the node it names *)
Lemma entry_place v i n nm c : vfs_wf v -> root_inode v = 0 -> nodes v !! i = Some n -> children n !! nm = Some c ->
  c <> 0 /\ is_directory n = true /\ exists m, nodes v !! c = Some m /\ parent m = Some i /\ name m = nm.
Proof.
  intros Hwf Hr Hi Hc. destruct (wf_child _ _ _ _ _ Hwf Hi Hc) as (Hd & m & Hm & Hpar & Hnm). split; [|by split; [|exists m]].
  intros ->. destruct Hwf as (_ & Hroot & _). rewrite Hr in Hroot. destruct (Hroot _ Hm). congruence.
Qed.

Lemma restore_next l b : b < 2 ^ 64 -> Forall (fun s => s_inode s < b) l -> forall w, next_inode w <= b ->
  let w' := foldl restore_node w l in
  next_inode w <= next_inode w' <= b /\ Forall (fun s => s_inode s = 0 \/ s_inode s < next_inode w') l.
Proof.
  intros Hb. induction 1 as [|s l Hs _ IH]; intros w Hw; [by repeat constructor|]. cbn [foldl].
  assert (H1 : next_inode w <= next_inode (restore_node w s) <= b /\ (s_inode s = 0 \/ s_inode s < next_inode (restore_node w s))).
  { unfold restore_node. destruct (N.eqb_spec (s_inode s) 0); [by split; [lia|left]|]. cbn [next_inode].
    destruct (N.leb_spec (next_inode w) (s_inode s)); [rewrite wadd64_small by lia|]; lia. }
  destruct (IH (restore_node w s)) as [H2 H3]; [lia|]. split; [lia|]. constructor; [|done].
  destruct H1 as [_ [?|?]]; [by left|right; lia].
Qed.

(** ** Over a first file system *)

Section Over.
#[local] Set Default Proof Using "Type*".
Context (v0 : VirtualFileSystem) (Hwf0 : vfs_wf v0) (Hroot0 : root_inode v0 = 0) (Hr0 : is_Some (nodes v0 !! 0)).

(** the directory of a node names it *)
Definition linked (v : VirtualFileSystem) (i : N) (n : VFSNode) : Prop :=
  exists p pn, parent n = Some p /\ nodes v !! p = Some pn /\ children pn !! name n = Some i.

Definition same_place (n n0 : VFSNode) : Prop := node_type n = node_type n0 /\ parent n = parent n0 /\ name n = name n0.

(** A node under an inode of [v0] is what and where it was; if no directory names
    it, it has the entries it had. *)
Definition over (v : VirtualFileSystem) : Prop :=
  root_inode v = 0 /\ next_inode v0 <= next_inode v /\
  forall i n n0, nodes v !! i = Some n -> nodes v0 !! i = Some n0 ->
    same_place n n0 /\ (i = 0 \/ linked v i n \/ children n = children n0).

Lemma over_first : over v0.
Proof. split; [done|]. split; [done|]. intros i n n0 Hn Hn0. rewrite Hn in Hn0. injection Hn0 as ->. split; [done|by do 2 right]. Qed.

(** *** Operations keep it *)

(** a node of the new state is a new one or an old one in its place *)
Lemma over_step v v' : over v -> root_inode v' = root_inode v -> next_inode v <= next_inode v' ->
  (forall i n', nodes v' !! i = Some n' ->
     next_inode v <= i \/
     exists n, nodes v !! i = Some n /\ same_place n' n /\
       (i = 0 \/ (linked v i n -> linked v' i n') /\ (linked v i n \/ children n' = children n))) ->
  over v'.
Proof.
  intros (Hr & Hn & Ho) Hr' Hn' Hs. split; [congruence|]. split; [lia|]. intros i n' n0 Hi Hi0.
  destruct (Hs _ _ Hi) as [Hnew|(n & Hin & (E1 & E2 & E3) & Hk)].
  { destruct (wf_node _ _ _ Hwf0 Hi0) as (_ & Hlt & _). lia. }
  destruct (Ho _ _ _ Hin Hi0) as ((F1 & F2 & F3) & Hc). split; [split_and!; congruence|].
  destruct Hk as [->|[Hl Hch]]; [by left|]. destruct Hc as [->|[Hc|Hc]]; [by left|right; left; auto|].
  destruct Hch as [Hch|Hch]; [right; left; auto|right; right; congruence].
Qed.

(** a node that a path reaches *)
Lemma reached_linked v cs n : vfs_wf v -> root_inode v = 0 -> resolve v cs = Some n -> inode n = 0 \/ linked v (inode n) n.
Proof.
  intros Hwf Hr H. destruct cs as [|c cs _] using rev_ind.
  - left. rewrite resolve_nil in H. destruct (wf_node _ _ _ Hwf H) as [-> _]. done.
  - right. destruct (resolve_parent _ _ _ _ Hwf H) as (p & Hp & Hpar & Hnm & Hch & _). exists (inode p), p.
    split; [done|]. split; [by eapply resolve_lookup|]. by rewrite Hnm.
Qed.

Lemma over_created v ty pp p nm ow :
  over v -> vfs_wf v -> resolve v pp = Some p -> children p !! nm = None -> over (created v ty p nm ow).
Proof.
  intros Ho Hwf Hp Hc. pose proof (resolve_lookup _ _ _ Hwf Hp) as Hlp. destruct (wf_node _ _ _ Hwf Hlp) as (_ & Hplt & _).
  assert (Hlink : forall i n n', linked v i n -> same_place n' n -> linked (created v ty p nm ow) i n').
  { intros i n n' (q & qn & Hq & Hqn & Hl) (_ & Ep & En). exists q. destruct (decide (q = inode p)) as [->|Hne].
    - eexists. split; [congruence|]. cbn. rewrite lookup_insert_eq. split; [done|]. rewrite Hlp in Hqn. injection Hqn as <-.
      cbn. rewrite En, lookup_insert_ne; [done|]. intros E. rewrite <- E in Hl. congruence.
    - exists qn. split; [congruence|]. cbn. destruct (wf_node _ _ _ Hwf Hqn) as (_ & Hqlt & _).
      rewrite !lookup_insert_ne by (done || lia). by rewrite En. }
  apply (over_step v); [done|done|cbn; lia|].
  cbn. intros i n' [[<- <-]|[Hi1 [[<- <-]|[Hi2 Hin]]%lookup_insert_Some]]%lookup_insert_Some.
  - right. exists p. split; [done|]. split; [done|]. destruct Ho as (Hr & _).
    destruct (reached_linked _ _ _ Hwf Hr Hp) as [?|Hl]; [by left|right]. split; [intros _; by apply (Hlink _ p)|by left].
  - left. lia.
  - right. exists n'. split; [done|]. split; [done|]. right. split; [intros Hl; by apply (Hlink _ n')|by right].
Qed.

Lemma over_leaked v ty par nm ow : over v -> vfs_wf v -> over (leaked v ty par nm ow).
Proof.
  intros Ho Hwf. apply (over_step v); [done|done|cbn; lia|]. cbn. intros i n' [[<- <-]|[Hi Hin]]%lookup_insert_Some; [by left|].
  right. exists n'. split; [done|]. split; [done|]. right. split; [|by right].
  intros (q & qn & Hq & Hqn & Hl). exists q, qn. split; [done|]. destruct (wf_node _ _ _ Hwf Hqn) as (_ & Hqlt & _).
  cbn. by rewrite lookup_insert_ne by lia.
Qed.

Lemma over_removed v cs c p n :
  over v -> vfs_wf v -> resolve v cs = Some p -> resolve v (cs ++ [c]) = Some n -> can_delete n = true -> over (removed v p n).
Proof.
  intros Ho Hwf Hp Hn Hc. pose proof (no_children _ _ _ Hwf Hn Hc) as He.
  pose proof (resolve_lookup _ _ _ Hwf Hp) as Hlp. pose proof (resolve_lookup _ _ _ Hwf Hn) as Hln.
  destruct (resolve_parent _ _ _ _ Hwf Hn) as (p' & Hp' & _ & Hnm & Hch & _). rewrite Hp in Hp'. injection Hp' as <-.
  assert (Hlink : forall i m m', i <> inode n -> linked v i m -> same_place m' m -> linked (removed v p n) i m').
  { intros i m m' Hi (q & qn & Hq & Hqn & Hl) (_ & Ep & En). exists q.
    assert (Hqn' : q <> inode n) by (intros ->; rewrite Hln in Hqn; injection Hqn as <-; by rewrite He, lookup_empty in Hl).
    destruct (decide (q = inode p)) as [->|Hne].
    - eexists. split; [congruence|]. cbn. rewrite lookup_delete_ne, lookup_insert_eq by done. split; [done|]. cbn.
      rewrite Hlp in Hqn. injection Hqn as <-. rewrite En, lookup_delete_ne; [done|]. intros E. rewrite <- E, Hnm in Hl. congruence.
    - exists qn. split; [congruence|]. cbn. rewrite lookup_delete_ne, lookup_insert_ne by done. by rewrite En. }
  apply (over_step v); [done|done|cbn; lia|].
  cbn. intros i m' [Hi [[<- <-]|[Hip Hm]]%lookup_insert_Some]%lookup_delete_Some; right.
  - exists p. split; [done|]. split; [done|]. destruct Ho as (Hr & _).
    destruct (reached_linked _ _ _ Hwf Hr Hp) as [?|Hl]; [by left|right]. split; [intros _; by apply (Hlink _ p)|by left].
  - exists m'. split; [done|]. split; [done|]. right. split; [intros Hl; by apply (Hlink _ m')|by right].
Qed.

Lemma over_removed_root v r : over v -> vfs_wf v -> resolve v [] = Some r -> can_delete r = true -> over (removed_root v).
Proof.
  intros Ho Hwf Hr Hc. pose proof (no_children _ _ _ Hwf Hr Hc) as He. rewrite resolve_nil in Hr.
  apply (over_step v); [done|done|cbn; lia|]. cbn. intros i n [Hi Hn]%lookup_delete_Some. right. exists n.
  split; [done|]. split; [done|]. right. split; [|by right]. intros (q & qn & Hq & Hqn & Hl). exists q, qn. split; [done|].
  split; [|done]. cbn. rewrite lookup_delete_ne; [done|]. intros <-. unfold lookup in Hr. rewrite Hr in Hqn. injection Hqn as <-.
  by rewrite He, lookup_empty in Hl.
Qed.

Lemma over_record v i sz bs : over v -> vfs_wf v -> over (record i sz bs v).
Proof.
  intros Ho Hwf. apply (over_step v); [done|done|cbn; lia|]. intros j n'. rewrite record_lookup by done.
  intros (n & Hn & ->)%fmap_Some. right. exists n. destruct (extended_keeps i sz bs n) as (_ & K2 & K3 & K4 & K5 & _).
  split; [done|]. split; [done|]. right. split; [|by right]. intros (q & qn & Hq & Hqn & Hl). exists q, (extended i sz bs qn).
  rewrite K4, K2. split; [done|]. rewrite record_lookup, Hqn by done. split; [done|].
  destruct (extended_keeps i sz bs qn) as (_ & _ & _ & _ & -> & _). done.
Qed.

Lemma create_over v ty pp p nm ow v' r :
  over v -> vfs_wf v -> next_inode v + 1 < 2 ^ 64 -> resolve v pp = Some p ->
  create_node ty (inode p) nm ow v = Done (v', r) -> over v'.
Proof.
  intros Ho Hwf Hb Hp. pose proof (resolve_lookup _ _ _ Hwf Hp) as Hl.
  destruct (is_directory p) eqn:Hd; [destruct (children p !! nm) eqn:Hc|].
  - rewrite create_node_fails by (done || by right; eexists). intros [= <- <-]. by apply over_leaked.
  - rewrite create_node_ok by done. intros [= <- <-]. by eapply over_created.
  - rewrite create_node_fails by (done || by left). intros [= <- <-]. by apply over_leaked.
Qed.

Lemma delete_over v cs n v' r :
  over v -> vfs_wf v -> resolve v cs = Some n -> delete_node (inode n) v = Done (v', r) -> over v'.
Proof.
  intros Ho Hwf Hn. destruct (can_delete n) eqn:Hc.
  - destruct cs as [|c cs _] using rev_ind.
    + rewrite (delete_root v n) by done. intros [= <- <-]. by eapply over_removed_root.
    + destruct (resolve_parent _ _ _ _ Hwf Hn) as (p & Hp & _). destruct (delete_node_ok _ _ _ _ _ Hwf Hp Hn Hc) as [-> _].
      intros [= <- <-]. by eapply over_removed.
  - rewrite delete_node_refused; [by intros [= <- <-]|by eapply resolve_lookup|done].
Qed.

(** *** Reloading *)

Definition reload (l : list Saved) : VirtualFileSystem := foldl restore_children (foldl restore_node v0 l) l.

Lemma reload_lookup v i : vfs_wf v ->
  nodes (reload (saved_nodes v)) !! i =
    match nodes v !! i with
    | Some n => (fun m => with_children m (children n)) <$> (if i =? 0 then nodes v0 !! i else Some (restored (save_node n)))
    | None => nodes v0 !! i
    end.
Proof.
  intros Hwf. unfold reload.
  assert (Hnd : NoDup (s_inode <$> saved_nodes v)) by (rewrite saved_keys by done; apply NoDup_fst_map_to_list).
  rewrite restore_children_lookup, restore_nodes_lookup by done. destruct (nodes v !! i) as [n|] eqn:E.
  - by destruct (saved_find v i n Hwf E) as [k ->].
  - rewrite (proj2 (list_find_None _ _)); [done|]. apply list.Forall_forall. intros s Hs Ei.
    apply (list_elem_of_fmap_2 s_inode) in Hs. rewrite saved_keys, Ei in Hs by done.
    apply list_elem_of_fmap in Hs as ([j m] & -> & Hm). apply elem_of_map_to_list in Hm. cbn in E. congruence.
Qed.

Lemma reload_frame v : vfs_wf v -> over v -> next_inode v < 2 ^ 64 ->
  let r := reload (saved_nodes v) in
  root_inode r = 0 /\ next_inode v0 <= next_inode r <= next_inode v /\
  forall i n, nodes v !! i = Some n -> i < next_inode r.
Proof.
  intros Hwf (_ & Hn & _) Hb. cbn zeta.
  assert (Hnext : forall l w, next_inode (foldl restore_children w l) = next_inode w).
  { induction l as [|s l IH]; intros w; [done|]. cbn. by rewrite IH. }
  assert (Hl : Forall (fun s => s_inode s < next_inode v) (saved_nodes v)).
  { apply list.Forall_forall. intros s (e & -> & He)%list_elem_of_fmap. destruct e as [i n]. apply elem_of_map_to_list in He.
    destruct (wf_node _ _ _ Hwf He) as (Hi & Hlt & _). cbn. by rewrite Hi. }
  destruct (restore_next _ _ Hb Hl v0 Hn) as [H1 H2]. unfold reload. rewrite Hnext, !foldl_root.
  2, 3: intros w s; try (unfold restore_node; destruct (_ =? 0)); done.
  split; [done|]. split; [lia|]. intros i n Hi. destruct (saved_find _ _ _ Hwf Hi) as [k Hk]. apply list_find_Some in Hk as (Hk & Hs & _).
  apply list_elem_of_lookup_2 in Hk. rewrite list.Forall_forall in H2. apply H2 in Hk. cbn in Hk, Hs.
  destruct Hwf0 as (H0 & _). lia.
Qed.

Lemma reload_wf v : vfs_wf v -> over v -> next_inode v < 2 ^ 64 -> vfs_wf (reload (saved_nodes v)).
Proof.
  intros Hwf Hov Hb. destruct (reload_frame v Hwf Hov Hb) as (Hr & Hnx & Hlt). set (r := reload _) in *.
  pose proof Hwf0 as (H00 & Hrt0 & _). rewrite Hroot0 in H00, Hrt0.
  assert (Hplace : forall c m m0 i nm, nodes v0 !! c = Some m0 -> nodes v !! c = Some m -> parent m0 = Some i -> name m0 = nm ->
    parent m = Some i /\ name m = nm).
  { intros c m m0 i nm H0 H <- <-. destruct Hov as (_ & _ & Ho). by destruct (Ho _ _ _ H H0) as ((_ & -> & ->) & _). }
  split; [rewrite Hr; lia|]. split.
  - rewrite Hr. intros q. unfold r. rewrite reload_lookup by done. rewrite N.eqb_refl.
    destruct (nodes v !! 0); [|apply Hrt0]. intros (q0 & Hq0 & ->)%fmap_Some. by destruct (Hrt0 _ Hq0).
  - intros i q. unfold r at 1. rewrite reload_lookup by done. destruct (nodes v !! i) as [n|] eqn:Hi.
    + intros (q0 & Hq0 & ->)%fmap_Some.
      assert (Hq : inode q0 = i /\ ref_count q0 = 0 /\ deleted q0 = false /\ (is_directory n = true -> is_directory q0 = true)).
      { destruct (N.eqb_spec i 0) as [->|].
        - destruct (wf_node _ _ _ Hwf0 Hq0) as (-> & _ & -> & ->). destruct (Hrt0 _ Hq0). done.
        - injection Hq0 as <-. cbn. destruct (wf_node _ _ _ Hwf Hi) as (-> & _). done. }
      destruct Hq as (Q1 & Q2 & Q3 & Q4). split; [exact Q1|]. split; [by eapply Hlt|]. split; [exact Q2|]. split; [exact Q3|]. cbn [with_children children]. intros nm c Hc.
      destruct Hov as (Hvr & _). destruct (entry_place _ _ _ _ _ Hwf Hvr Hi Hc) as (Hc0 & Hd & m & Hm & Hpar & Hnm).
      split; [by apply Q4|]. eexists. unfold r. rewrite reload_lookup, Hm, (proj2 (N.eqb_neq c 0)) by done. by split.
    + intros Hq. destruct (wf_node _ _ _ Hwf0 Hq) as (Q1 & Hi0 & Q2 & Q3). split; [exact Q1|]. split; [lia|]. split; [exact Q2|]. split; [exact Q3|].
      intros nm c Hc.
      destruct (entry_place _ _ _ _ _ Hwf0 Hroot0 Hq Hc) as (Hc0 & Hd & m0 & Hm0 & Hpar & Hnm). split; [done|].
      unfold r. rewrite reload_lookup by done. destruct (nodes v !! c) as [m|] eqn:Hm; [|by exists m0].
      rewrite (proj2 (N.eqb_neq c 0)) by done. eexists. split; [done|]. cbn. by eapply Hplace.
Qed.

Lemma reload_over v : vfs_wf v -> over v -> next_inode v < 2 ^ 64 -> over (reload (saved_nodes v)).
Proof.
  intros Hwf Hov Hb. destruct (reload_frame v Hwf Hov Hb) as (Hr & Hnx & _). split; [done|]. split; [lia|].
  intros i q n0. rewrite reload_lookup by done. destruct (nodes v !! i) as [n|] eqn:Hi.
  - intros (q0 & Hq0 & ->)%fmap_Some Hn0. destruct (N.eqb_spec i 0) as [->|Hi0].
    + rewrite Hn0 in Hq0. injection Hq0 as <-. split; [done|by left].
    + injection Hq0 as <-. destruct Hov as (_ & _ & Ho). destruct (Ho _ _ _ Hi Hn0) as [Hs Hl]. split; [done|]. right.
      destruct Hl as [?|[(p & pn & Hp & Hpn & Hl)|Hl]]; [done| |by right].
      left. destruct (decide (p = 0)) as [->|Hp0].
      * destruct Hr0 as [r0 Er0]. exists 0, (with_children r0 (children pn)). split; [done|].
        rewrite reload_lookup, Hpn by done. rewrite N.eqb_refl, Er0. done.
      * exists p, (with_children (restored (save_node pn)) (children pn)). split; [done|].
        by rewrite reload_lookup, Hpn, (proj2 (N.eqb_neq p 0)).
  - intros Hq Hn0. rewrite Hq in Hn0. injection Hn0 as ->. split; [done|by do 2 right].
Qed.

(** Without a root the first tree comes back, if it has no directory in a
    directory. *)
Lemma reload_without_root v cs :
  (forall i n, nodes v0 !! i = Some n -> is_directory n = true -> i = 0 \/ parent n = Some 0) ->
  vfs_wf v -> over v -> next_inode v < 2 ^ 64 -> nodes v !! 0 = None ->
  match resolve v0 cs with
  | Some n0 => exists n, resolve (reload (saved_nodes v)) cs = Some n /\ node_type n = node_type n0 /\ children n = children n0
  | None => resolve (reload (saved_nodes v)) cs = None
  end.
Proof.
  intros Hflat Hwf Hov Hb Hno. destruct (reload_frame v Hwf Hov Hb) as (Hr & _).
  induction cs as [|c cs IH] using rev_ind.
  - rewrite !resolve_nil, Hr, Hroot0. unfold lookup. rewrite reload_lookup, Hno by done. destruct (nodes v0 !! 0) as [r|]; [|done]. by exists r.
  - rewrite !resolve_snoc. destruct (resolve v0 cs) as [p0|] eqn:Hp0; cbn; [|by rewrite IH].
    destruct IH as (p & -> & _ & Hch). cbn. unfold get_child. rewrite Hch. destruct (children p0 !! c) as [j|] eqn:Hj; [|done]. cbn.
    pose proof (resolve_lookup _ _ _ Hwf0 Hp0) as Hlp.
    destruct (entry_place _ _ _ _ _ Hwf0 Hroot0 Hlp Hj) as (Hj0 & _ & m0 & Hm0 & Hpar & Hnm).
    unfold lookup. rewrite reload_lookup, Hm0 by done. destruct (nodes v !! j) as [m|] eqn:Hm; [|by exists m0].
    rewrite (proj2 (N.eqb_neq j 0)) by done. cbn. eexists. split; [done|]. cbn.
    destruct Hov as (_ & _ & Ho). destruct (Ho _ _ _ Hm Hm0) as ((Hty & Hpm & _) & Hl). split; [done|].
    assert (Hd : is_directory m = is_directory m0) by (unfold is_directory; by rewrite Hty).
    destruct Hl as [?|[(q & qn & Hq & Hqn & Hl)|Hl]]; [done| |done]. destruct (is_directory m0) eqn:Hd0.
    + destruct (Hflat _ _ Hm0 Hd0) as [?|Hp]; [done|]. rewrite <- Hpm, Hq in Hp. injection Hp as ->. congruence.
    + transitivity (∅ : gmap str N); [|symmetry]; apply map_empty; intros x.
      * destruct (children m !! x) as [k|] eqn:E; [|done]. destruct (wf_child _ _ _ _ _ Hwf Hm E). congruence.
      * destruct (children m0 !! x) as [k|] eqn:E; [|done]. destruct (wf_child _ _ _ _ _ Hwf0 Hm0 E). congruence.
Qed.
End Over.

(** ** Over the standard file system *)

(** sealed, so that automation does not evaluate the standard file system *)
Definition over_standard_aux : seal (over VirtualFileSystem_new).
Proof. by eexists. Qed.
Definition over_standard : VirtualFileSystem -> Prop := over_standard_aux.(unseal).
Lemma over_standard_eq : over_standard = over VirtualFileSystem_new.
Proof. apply over_standard_aux.(seal_eq). Qed.

Lemma standard_first : over_standard VirtualFileSystem_new.
Proof. rewrite ?over_standard_eq. destruct vfs_new_wf as (Hwf & Hr & H0 & _). by apply over_first. Qed.

Lemma standard_created v ty pp p nm ow v' r :
  over_standard v -> vfs_wf v -> next_inode v + 1 < 2 ^ 64 -> resolve v pp = Some p ->
  create_node ty (inode p) nm ow v = Done (v', r) -> over_standard v'.
Proof. rewrite ?over_standard_eq. destruct vfs_new_wf as (Hwf & Hr & H0 & _). by apply create_over. Qed.
Lemma standard_deleted v cs n v' r :
  over_standard v -> vfs_wf v -> resolve v cs = Some n -> delete_node (inode n) v = Done (v', r) -> over_standard v'.
Proof. rewrite ?over_standard_eq. destruct vfs_new_wf as (Hwf & Hr & H0 & _). by apply delete_over. Qed.
Lemma standard_recorded v i sz bs : over_standard v -> vfs_wf v -> over_standard (record i sz bs v).
Proof. rewrite ?over_standard_eq. destruct vfs_new_wf as (Hwf & Hr & H0 & _). by apply over_record. Qed.

Lemma standard_flat i n : nodes VirtualFileSystem_new !! i = Some n -> is_directory n = true -> i = 0 \/ parent n = Some 0.
Proof.
  intros Hn Hd.
  assert (E : forallb (fun e => implb (is_directory (snd e)) ((fst e =? 0) || bool_decide (parent (snd e) = Some 0)))
                (map_to_list (nodes VirtualFileSystem_new)) = true) by (vm_compute; reflexivity).
  rewrite forallb_forall in E. apply elem_of_map_to_list, list_elem_of_In in Hn. apply E in Hn. cbn [fst snd] in Hn.
  rewrite Hd in Hn. cbn [implb] in Hn. apply orb_true_iff in Hn as [Hn|Hn]; [left; by apply N.eqb_eq|right; by apply bool_decide_eq_true in Hn].
Qed.

Lemma standard_restored v : over_standard v -> vfs_wf v -> next_inode v < 2 ^ 64 ->
  let r := restore (saved_nodes v) in vfs_wf r /\ over_standard r /\ root_inode r = 0 /\ next_inode r <= next_inode v.
Proof.
  rewrite ?over_standard_eq. intros Ho Hwf Hb. destruct vfs_new_wf as (Hwf0 & Hr & H0 & _). cbn zeta.
  change (restore (saved_nodes v)) with (reload VirtualFileSystem_new (saved_nodes v)).
  destruct (reload_frame VirtualFileSystem_new Hwf0 Hr H0 v Hwf Ho Hb) as (H1 & [_ H2] & _).
  split; [by apply reload_wf|]. split; [by apply reload_over|]. by split.
Qed.

(** the tree after a restart *)
Definition tree_restart (first t : Tree) : Tree := if decide (t !! [] = None) then first else t.

Lemma restored_tree v t first : over_standard v -> vfs_wf v -> next_inode v < 2 ^ 64 ->
  abstracts v t -> abstracts VirtualFileSystem_new first ->
  abstracts (restore (saved_nodes v)) (tree_restart first t).
Proof.
  rewrite over_standard_eq. intros Ho Hwf Hb Ha Hf cs. destruct vfs_new_wf as (Hwf0 & Hr & H0 & _). pose proof Ho as (Hvr & _).
  unfold tree_restart. specialize (Ha []) as Hroot. rewrite resolve_nil, Hvr in Hroot. unfold lookup in Hroot.
  destruct (nodes v !! 0) as [q|] eqn:Hq; cbn in Hroot; rewrite <- Hroot; [rewrite decide_False by done|rewrite decide_True by done].
  - pose proof (restore_resolve v cs Hwf Hvr ltac:(by rewrite Hq)) as H. rewrite <- Ha.
    destruct (resolve v cs) as [n|]; [|by rewrite H]. destruct H as (n' & -> & _ & Ht & _). cbn. by rewrite Ht.
  - pose proof (reload_without_root VirtualFileSystem_new Hwf0 Hr H0 v cs standard_flat Hwf Ho Hb Hq) as H.
    change (restore (saved_nodes v)) with (reload VirtualFileSystem_new (saved_nodes v)).
    rewrite <- Hf. destruct (resolve VirtualFileSystem_new cs) as [n|]; [|by rewrite H]. destruct H as (n' & -> & Ht & _). cbn. by rewrite Ht.
Qed.
