(* ===== verification/Files.v ===== *)
(** * Open files and descriptors (src/src/services/file/file.rs, descriptor.rs)

    A [File] that several descriptors share is one object of a store; a handle is
    its place in the store.  Time stamps are always 0 and left out.  A vector
    that would exceed [isize::MAX] bytes panics; memory is never exhausted. *)
From S2P Require Import Prelude Types Messages.
From S2P Require Disk.

(** ** Files *)

Record FilePermissions := { owner_bits : N; group_bits : N; other_bits : N }.
Definition FilePermissions_new (o g t : N) : FilePermissions :=
  {| owner_bits := o; group_bits := g; other_bits := t |}.
Definition FilePermissions_default : FilePermissions := FilePermissions_new 6 4 4.
Definition to_u16 (p : FilePermissions) : N :=
  N.lor (N.lor (N.shiftl (owner_bits p) 6 mod 2 ^ 16) (N.shiftl (group_bits p) 3 mod 2 ^ 16)) (other_bits p).
Definition owner_can_read (p : FilePermissions) : bool := negb (N.land (owner_bits p) 4 =? 0).
Definition owner_can_write (p : FilePermissions) : bool := negb (N.land (owner_bits p) 2 =? 0).
Definition owner_can_execute (p : FilePermissions) : bool := negb (N.land (owner_bits p) 1 =? 0).

Inductive FileType := RegularFile | FDirectory | FSymLink | FBlockDevice | FCharDevice | FIFO | FSocket.
Record FileMetadata := { size : N; meta_owner : Pid; meta_permissions : FilePermissions; file_type : FileType }.
Definition with_size (n : N) (m : FileMetadata) : FileMetadata :=
  {| size := n; meta_owner := meta_owner m; meta_permissions := meta_permissions m; file_type := file_type m |}.

Inductive OpenMode := Read | Write | ReadWrite | Append.
#[export] Instance OpenMode_eq_dec : EqDecision OpenMode.
Proof. solve_decision. Defined.

Record File := {
  inode : N; name : str; metadata : FileMetadata; position : N; mode : OpenMode; data : list N;
  dirty : bool; eof : bool; start_sector : option N; sector_count : N }.

Definition File_new (i : N) (nm : str) (ow : Pid) (m : OpenMode) : File :=
  {| inode := i; name := nm;
     metadata := {| size := 0; meta_owner := ow; meta_permissions := FilePermissions_default; file_type := RegularFile |};
     position := 0; mode := m; data := []; dirty := false; eof := false; start_sector := None; sector_count := 0 |}.

Definition with_cursor (p : N) (e : bool) (f : File) : File :=
  {| inode := inode f; name := name f; metadata := metadata f; position := p; mode := mode f; data := data f;
     dirty := dirty f; eof := e; start_sector := start_sector f; sector_count := sector_count f |}.
Definition with_mode (m : OpenMode) (f : File) : File :=
  {| inode := inode f; name := name f; metadata := metadata f; position := position f; mode := m; data := data f;
     dirty := dirty f; eof := eof f; start_sector := start_sector f; sector_count := sector_count f |}.
Definition with_data (d : list N) (dt : bool) (f : File) : File :=
  {| inode := inode f; name := name f; metadata := metadata f; position := position f; mode := mode f; data := d;
     dirty := dt; eof := eof f; start_sector := start_sector f; sector_count := sector_count f |}.
Definition with_meta (n : N) (f : File) : File :=
  {| inode := inode f; name := name f; metadata := with_size n (metadata f); position := position f; mode := mode f;
     data := data f; dirty := dirty f; eof := eof f; start_sector := start_sector f; sector_count := sector_count f |}.
Definition with_extent (st : option N) (c : N) (f : File) : File :=
  {| inode := inode f; name := name f; metadata := metadata f; position := position f; mode := mode f; data := data f;
     dirty := dirty f; eof := eof f; start_sector := st; sector_count := c |}.

Definition read (count : N) : HM File (list N) := fun f =>
  if bool_decide (mode f = Write) then Done (f, Err SvcPermissionDenied)
  else
    let start := position f in
    let end_ := N.min (wadd64 start count) (len (data f)) in
    if len (data f) <=? start then Done (with_cursor (position f) true f, Ok [])
    else if end_ <? start then Panicked
    else
      let bs := take (N.to_nat (end_ - start)) (drop (N.to_nat start) (data f)) in
      Done (with_cursor (wadd64 start (len bs)) (end_ =? len (data f)) f, Ok bs).

(** [Vec::resize] *)
Definition resize (n : N) (l : list N) : outcome (list N) :=
  if n <=? len l then Done (take (N.to_nat n) l)
  else if 2 ^ 63 <=? n then Panicked else Done (l ++ replicate (N.to_nat n - length l) 0).

(** [l[a..a + b.len()].copy_from_slice(b)] *)
Definition copy_into (l : list N) (a : N) (b : list N) : outcome (list N) :=
  let e := wadd64 a (len b) in
  if (e <? a) || (len l <? e) then Panicked
  else Done (take (N.to_nat a) l ++ b ++ drop (N.to_nat a + length b) l).

Definition write_pos (f : File) : N := if bool_decide (mode f = Append) then len (data f) else position f.
Definition write (bs : list N) : HM File N := fun f =>
  if bool_decide (mode f = Read) then Done (f, Err SvcPermissionDenied)
  else
    let required := wadd64 (write_pos f) (len bs) in
    d ← (if len (data f) <? required then resize required (data f) else Done (data f));
    d ← copy_into d (write_pos f) bs;
    Done (with_meta (len d) (with_data d true (with_cursor required (eof f) f)), Ok (len bs)).

Definition seek (p : N) (f : File) : File * N := (with_cursor p false f, position f).
Definition file_size (f : File) : N := size (metadata f).
Definition truncate (n : N) (f : File) : outcome File :=
  d ← resize n (data f); Done (with_meta n (with_data d true f)).

(** *** Sectors *)

(** the bytes of sector [i] of a file, padded with zeros *)
Definition sector_of (d : list N) (i : N) : list N :=
  let c := take 512 (drop (N.to_nat i * 512) d) in c ++ replicate (512 - length c) 0.
Definition sectors_needed (d : list N) : N := to_u32 ((len d + 511) / 512).

Fixpoint write_sectors (disk : Disk.VirtualDisk) (start : N) (d : list N) (idx : list N)
    : Disk.VirtualDisk * result ServiceError unit :=
  match idx with
  | [] => (disk, Ok tt)
  | i :: idx =>
      match Disk.write_sector disk (wadd32 start i) (sector_of d i) with
      | Ok disk => write_sectors disk start d idx
      | Err _ => (disk, Err SvcIo)
      end
  end.

(** The old sectors are freed first; the file forgets them when the new ones
    are written. *)
Definition sync_to_disk (f : File) (disk : Disk.VirtualDisk) : File * Disk.VirtualDisk * result ServiceError unit :=
  if negb (dirty f) && bool_decide (is_Some (start_sector f)) then (f, disk, Ok tt)
  else
    let needed := sectors_needed (data f) in
    let disk := match start_sector f with
                | Some old => if 0 <? sector_count f then fst (Disk.free_sectors disk old (sector_count f)) else disk
                | None => disk
                end in
    if needed =? 0 then (with_data (data f) false (with_extent None 0 f), disk, Ok tt)
    else
      match Disk.allocate_sectors disk needed with
      | (disk, Err _) => (f, disk, Err SvcIo)
      | (disk, Ok start) =>
          match write_sectors disk start (data f) (Disk.range 0 needed) with
          | (disk, Err e) => (f, disk, Err e)
          | (disk, Ok _) => (with_data (data f) false (with_extent (Some start) needed f), disk, Ok tt)
          end
      end.

Fixpoint read_sectors (disk : Disk.VirtualDisk) (ss : list N) : result ServiceError (list N) :=
  match ss with
  | [] => Ok []
  | s :: ss => b ← map_err (fun _ => SvcIo) (Disk.read_sector disk s); rest ← read_sectors disk ss; Ok (b ++ rest)
  end.
Definition load_from_disk (f : File) (disk : Disk.VirtualDisk) : File * result ServiceError unit :=
  match start_sector f with
  | None => (with_data [] (dirty f) f, Ok tt)
  | Some start =>
      if sector_count f =? 0 then (with_data [] (dirty f) f, Ok tt)
      else
        match read_sectors disk (wadd32 start <$> Disk.range 0 (sector_count f)) with
        | Err e => (f, Err e)
        | Ok d => (with_cursor 0 false (with_data (take (N.to_nat (size (metadata f))) d) false f), Ok tt)
        end
  end.
Definition sync (f : File) : File := with_data (data f) false f.
Definition is_dirty (f : File) : bool := dirty f.
Definition is_eof (f : File) : bool := eof f.

(** ** Directories *)

Record Directory := { d_inode : N; d_name : str; entries : gmap str N; d_metadata : FileMetadata }.
Definition Directory_new (i : N) (nm : str) (ow : Pid) : Directory :=
  {| d_inode := i; d_name := nm; entries := ∅;
     d_metadata := {| size := 0; meta_owner := ow; meta_permissions := FilePermissions_new 7 5 5; file_type := FDirectory |} |}.
Definition with_entries (es : gmap str N) (d : Directory) : Directory :=
  {| d_inode := d_inode d; d_name := d_name d; entries := es; d_metadata := d_metadata d |}.
Definition add_entry (nm : str) (i : N) (d : Directory) : result ServiceError Directory :=
  match entries d !! nm with
  | Some _ => Err InvalidArguments
  | None => Ok (with_entries (<[nm := i]> (entries d)) d)
  end.
Definition remove_entry (nm : str) (d : Directory) : Directory * result ServiceError N :=
  (with_entries (delete nm (entries d)) d, ok_or SvcNotFound (entries d !! nm)).
Definition dir_lookup (nm : str) (d : Directory) : option N := entries d !! nm.
Definition dir_list (d : Directory) : list str := fst <$> map_to_list (entries d).
Definition entry_count (d : Directory) : N := N.of_nat (length (map_to_list (entries d))).

(** ** Descriptors *)

Record OpenFile := { fd : N; of_owner : Pid; file : nat; flags : N; close_on_exec : bool }.
Definition OpenFile_new (n : N) (ow : Pid) (h : nat) (fl : N) : OpenFile :=
  {| fd := n; of_owner := ow; file := h; flags := fl; close_on_exec := false |}.

(** a method of the file behind a handle, which always denotes one *)
Definition on_file {A} (h : nat) (m : HM File A) : HM (list File) A := fun fs =>
  match fs !! h with
  | Some f =>
      match m f with
      | Done (f', r) => Done (<[h := f']> fs, r)
      | Panicked => Panicked
      | Deadlocked => Deadlocked
      end
  | None => Panicked
  end.
Definition of_read (o : OpenFile) (count : N) : HM (list File) (list N) := on_file (file o) (read count).
Definition of_write (o : OpenFile) (bs : list N) : HM (list File) N := on_file (file o) (write bs).
Definition of_seek (o : OpenFile) (p : N) : HM (list File) N :=
  on_file (file o) (fun f => let '(f, old) := seek p f in Done (f, Ok old)).
Definition of_sync (o : OpenFile) : HM (list File) unit := on_file (file o) (fun f => Done (sync f, Ok tt)).
Definition of_size (o : OpenFile) : HM (list File) N := on_file (file o) (fun f => Done (f, Ok (file_size f))).

Record FileTable := { descriptors : gmap N OpenFile; next_fd : N; max_fds : N }.
Definition FileTable_new (m : N) : FileTable := {| descriptors := ∅; next_fd := 3; max_fds := m |}.
Definition with_fds (ds : gmap N OpenFile) (nx : N) (t : FileTable) : FileTable :=
  {| descriptors := ds; next_fd := nx; max_fds := max_fds t |}.

(** both [allocate] and [dup] take the next number and never an old one *)
Definition table_allocate (ow : Pid) (h : nat) (fl : N) : SE FileTable ServiceError N := fun t =>
  let n := next_fd t in
  if max_fds t <=? n then (t, Err (ResourceExhausted 0 1))
  else (with_fds (<[n := OpenFile_new n ow h fl]> (descriptors t)) (wadd32 n 1) t, Ok n).
Definition table_get (n : N) (t : FileTable) : option OpenFile := descriptors t !! n.
Definition table_close (n : N) : SE FileTable ServiceError unit := fun t =>
  match descriptors t !! n with
  | Some _ => (with_fds (delete n (descriptors t)) (next_fd t) t, Ok tt)
  | None => (t, Err SvcNotFound)
  end.
Definition table_dup (old : N) : SE FileTable ServiceError N := fun t =>
  match table_get old t with
  | None => (t, Err SvcNotFound)
  | Some o =>
      let n := next_fd t in
      if max_fds t <=? n then (t, Err (ResourceExhausted 0 1))
      else (with_fds (<[n := o]> (descriptors t)) (wadd32 n 1) t, Ok n)
  end.
Definition list_fds (t : FileTable) : list N := fst <$> map_to_list (descriptors t).
Definition table_count (t : FileTable) : N := N.of_nat (length (map_to_list (descriptors t))).
Definition table_contains (n : N) (t : FileTable) : bool := bool_decide (is_Some (descriptors t !! n)).

Record FileDescriptorManager := {
  process_tables : gmap Pid FileTable; max_fds_per_process : N;
  stdin : option nat; stdout : option nat; stderr : option nat }.
Definition FileDescriptorManager_new (m : N) : FileDescriptorManager :=
  {| process_tables := ∅; max_fds_per_process := m; stdin := None; stdout := None; stderr := None |}.
Definition with_tables (ts : gmap Pid FileTable) (m : FileDescriptorManager) : FileDescriptorManager :=
  {| process_tables := ts; max_fds_per_process := max_fds_per_process m; stdin := stdin m; stdout := stdout m; stderr := stderr m |}.

(** the table of a process, made if there is none *)
Definition get_table (pid : Pid) (m : FileDescriptorManager) : FileTable :=
  default (FileTable_new (max_fds_per_process m)) (process_tables m !! pid).
Definition set_table (pid : Pid) (t : FileTable) (m : FileDescriptorManager) : FileDescriptorManager :=
  with_tables (<[pid := t]> (process_tables m)) m.

Definition allocate (pid : Pid) (h : nat) (fl : N) : SE FileDescriptorManager ServiceError N := fun m =>
  let '(t, r) := table_allocate pid h fl (get_table pid m) in (set_table pid t m, r).
Definition get (pid : Pid) (n : N) (m : FileDescriptorManager) : option OpenFile :=
  process_tables m !! pid ≫= table_get n.
(** a method of the table of a process that must have one *)
Definition on_table {A} (pid : Pid) (k : SE FileTable ServiceError A) : SE FileDescriptorManager ServiceError A := fun m =>
  match process_tables m !! pid with
  | None => (m, Err SvcNotFound)
  | Some t => let '(t, r) := k t in (set_table pid t m, r)
  end.
Definition close (pid : Pid) (n : N) : SE FileDescriptorManager ServiceError unit := on_table pid (table_close n).
Definition dup (pid : Pid) (old : N) : SE FileDescriptorManager ServiceError N := on_table pid (table_dup old).
Definition remove_process (pid : Pid) : SE FileDescriptorManager ServiceError unit := fun m =>
  match process_tables m !! pid with
  | None => (m, Err SvcNotFound)
  | Some _ => (with_tables (delete pid (process_tables m)) m, Ok tt)
  end.

Definition clone_fd (from to_ : Pid) (m : FileDescriptorManager) (n : N) : FileDescriptorManager :=
  match get from n m, process_tables m !! to_ with
  | Some src, Some t =>
      let t' := with_fds (<[n := OpenFile_new n to_ (file src) (flags src)]> (descriptors t))
                  (if next_fd t <=? n then wadd32 n 1 else next_fd t) t in
      set_table to_ t' m
  | _, _ => m
  end.
Definition clone_fds (from to_ : Pid) (m : FileDescriptorManager) : FileDescriptorManager :=
  let m := set_table to_ (get_table to_ m) m in
  match process_tables m !! from with
  | None => m
  | Some t => foldl (clone_fd from to_) m (list_fds t)
  end.
Definition count (pid : Pid) (m : FileDescriptorManager) : N :=
  match process_tables m !! pid with Some t => table_count t | None => 0 end.
Definition set_std (i o e : option nat) (m : FileDescriptorManager) : FileDescriptorManager :=
  {| process_tables := process_tables m; max_fds_per_process := max_fds_per_process m; stdin := i; stdout := o; stderr := e |}.
Definition set_stdin (h : nat) (m : FileDescriptorManager) := set_std (Some h) (stdout m) (stderr m) m.
Definition set_stdout (h : nat) (m : FileDescriptorManager) := set_std (stdin m) (Some h) (stderr m) m.
Definition set_stderr (h : nat) (m : FileDescriptorManager) := set_std (stdin m) (stdout m) (Some h) m.

(** ** Reading and writing *)

Lemma copy_into_ok l a b : a + len b <= len l -> len l < 2 ^ 64 ->
  copy_into l a b = Done (take (N.to_nat a) l ++ b ++ drop (N.to_nat a + length b) l).
Proof.
  intros H1 H2. unfold copy_into. rewrite wadd64_small by lia.
  rewrite (proj2 (N.ltb_ge _ _)) by lia. by rewrite (proj2 (N.ltb_ge _ _)) by lia.
Qed.

(** the content after a write of [bs] at [p]: zeros fill a gap *)
Definition overwritten (d : list N) (p : N) (bs : list N) : list N :=
  (take (N.to_nat p) d ++ replicate (N.to_nat p - length d) 0) ++ bs ++ drop (N.to_nat p + length bs) d.

Lemma overwritten_length d p bs : len (overwritten d p bs) = N.max (len d) (p + len bs).
Proof. unfold overwritten. rewrite !length_app, length_take, length_replicate, length_drop. lia. Qed.

Lemma write_spec f bs : mode f <> Read -> write_pos f + len bs < 2 ^ 63 -> len (data f) < 2 ^ 63 ->
  write bs f = Done (with_meta (len (overwritten (data f) (write_pos f) bs))
                       (with_data (overwritten (data f) (write_pos f) bs) true
                          (with_cursor (write_pos f + len bs) (eof f) f)), Ok (len bs)).
Proof.
  intros Hm Hb Hd. unfold write. rewrite bool_decide_false by done. set (p := write_pos f) in *.
  rewrite wadd64_small by lia.
  assert (E : (d ← (if len (data f) <? p + len bs then resize (p + len bs) (data f) else Done (data f)); copy_into d p bs)
              = Done (overwritten (data f) p bs)).
  { unfold overwritten. destruct (N.ltb_spec (len (data f)) (p + len bs)) as [Hlt|Hge].
    - unfold resize. rewrite (proj2 (N.leb_gt _ _)) by lia. rewrite (proj2 (N.leb_gt _ _)) by lia. cbn [mbind outcome_bind].
      rewrite copy_into_ok by (rewrite length_app, length_replicate; lia). f_equal.
      rewrite take_app, take_replicate, (drop_ge (_ ++ _)) by (rewrite length_app, length_replicate; lia).
      rewrite (drop_ge (data f)) by lia. do 3 f_equal. lia.
    - cbn [mbind outcome_bind]. rewrite copy_into_ok by lia. f_equal.
      replace (N.to_nat p - length (data f))%nat with 0%nat by lia. cbn [replicate]. by rewrite app_nil_r. }
  destruct (if _ <? _ then _ else _) as [d| |]; try done. cbn [mbind outcome_bind] in *. by rewrite E.
Qed.

Lemma read_spec f count : mode f <> Write -> position f + count < 2 ^ 64 -> len (data f) < 2 ^ 64 ->
  read count f =
    Done (with_cursor (N.min (position f + count) (N.max (position f) (len (data f))))
            (len (data f) <=? position f + count) f,
          Ok (take (N.to_nat count) (drop (N.to_nat (position f)) (data f)))).
Proof.
  intros Hm Hb Hd. unfold read. rewrite bool_decide_false by done. rewrite wadd64_small by done.
  destruct (N.leb_spec (len (data f)) (position f)) as [Hle|Hlt].
  - rewrite drop_ge by lia. rewrite take_nil. rewrite (proj2 (N.leb_le _ _)) by lia.
    rewrite N.max_l, N.min_r by lia. done.
  - rewrite (proj2 (N.ltb_ge _ _)) by lia.
    assert (E : take (N.to_nat (N.min (position f + count) (len (data f)) - position f)) (drop (N.to_nat (position f)) (data f))
                = take (N.to_nat count) (drop (N.to_nat (position f)) (data f))).
    { destruct (N.le_gt_cases (position f + count) (len (data f))); [f_equal; lia|].
      rewrite !take_ge; [done|rewrite length_drop; lia..]. }
    rewrite E. f_equal. f_equal. unfold with_cursor. f_equal.
    + rewrite length_take, length_drop, wadd64_small by lia. lia.
    + destruct (N.eqb_spec (N.min (position f + count) (len (data f))) (len (data f))),
        (N.leb_spec (len (data f)) (position f + count)); lia || done.
Qed.

(** C26: a write stores its bytes at the cursor, or at the end of a file open
    for appending, fills a gap before them with zeros and keeps every other byte;
    read back from there they are the same.  It fails on a file open for reading
    only, and changes nothing. *)
Theorem write_read_back f bs :
  let p := if bool_decide (mode f = Append) then len (data f) else position f in
  p + len bs < 2 ^ 63 -> len (data f) < 2 ^ 63 ->
  (mode f = Read -> write bs f = Done (f, Err SvcPermissionDenied)) /\
  (mode f <> Read -> exists f',
     write bs f = Done (f', Ok (len bs)) /\ data f' = overwritten (data f) p bs /\
     position f' = p + len bs /\ file_size f' = len (data f') /\ dirty f' = true /\
     (mode f <> Write -> exists f'', read (len bs) (fst (seek p f')) = Done (f'', Ok bs))).
Proof.
  change (if bool_decide (mode f = Append) then len (data f) else position f) with (write_pos f). cbv zeta.
  intros Hb Hd. split; [intros Hm; unfold write; by rewrite bool_decide_true|]. intros Hm.
  eexists. split; [by apply write_spec|]. split_and!; try done. intros Hw. eexists.
  rewrite read_spec; [|done|cbn; lia|cbn; rewrite overwritten_length; lia]. cbn.
  do 3 f_equal. unfold overwritten. rewrite drop_app_length'; [apply take_app_length'; lia|].
  rewrite length_app, length_take, length_replicate. lia.
Qed.

Definition demo_file : File := fst (seek 6 (with_data [1; 2; 3] false (File_new 5 [97] 0 ReadWrite))).
Lemma write_read_back_witness : exists f', write [7; 8] demo_file = Done (f', Ok 2) /\ data f' = [1; 2; 3; 0; 0; 0; 7; 8].
Proof.
  destruct (write_read_back demo_file [7; 8] eq_refl eq_refl) as [_ H].
  destruct (H ltac:(done)) as (f' & Hf & Hd & _). exists f'. split; [exact Hf|]. rewrite Hd. reflexivity.
Defined.

(** ** Files on the disk *)

Lemma file_sector_length d i : len (sector_of d i) = 512.
Proof. unfold sector_of. rewrite length_app, length_replicate, length_take. lia. Qed.

(** the sectors of a file one after the other begin with its content *)
Lemma sectors_concat n : forall d, (length d <= n * 512)%nat ->
  take (length d) (mjoin ((fun i => sector_of d (N.of_nat i)) <$> seq 0 n)) = d.
Proof.
  induction n as [|n IH]; intros d Hd.
  - by destruct d; [|cbn in Hd; lia].
  - cbn [seq fmap list_fmap mjoin list_join].
    rewrite <- fmap_S_seq, <- list_fmap_compose.
    assert (E : ((fun i => sector_of d (N.of_nat i)) ∘ S) <$> seq 0 n
                = (fun i => sector_of (drop 512 d) (N.of_nat i)) <$> seq 0 n).
    { apply list_fmap_ext. intros _ i _. cbn [compose]. unfold sector_of. rewrite drop_drop.
      replace (N.to_nat (N.of_nat (S i)) * 512)%nat with (512 + N.to_nat (N.of_nat i) * 512)%nat by lia. done. }
    rewrite E. change (sector_of d (N.of_nat 0)) with (take 512 d ++ replicate (512 - length (take 512 d)) 0).
    destruct (Nat.le_gt_cases (length d) 512) as [Hs|Hl].
    + rewrite (take_ge d 512) by done. rewrite <- app_assoc. by rewrite take_app_length.
    + rewrite length_take, Nat.min_l, Nat.sub_diag by lia. rewrite app_nil_r.
      rewrite take_app, length_take, Nat.min_l by lia. rewrite (take_ge (take 512 d)) by (rewrite length_take; lia).
      rewrite <- (length_drop d 512). rewrite IH by (rewrite length_drop; lia). apply take_drop.
Qed.

Lemma write_sectors_spec d start total n : forall (disk : Disk.VirtualDisk) i0,
  Disk.disk_wf disk -> Disk.total_sectors disk = total -> start + i0 + N.of_nat n <= total ->
  exists disk', write_sectors disk start d (Disk.range i0 (i0 + N.of_nat n)) = (disk', Ok tt) /\
    Disk.disk_wf disk' /\ Disk.total_sectors disk' = total /\ Disk.bitmap disk' = Disk.bitmap disk /\
    (forall i, i0 <= i < i0 + N.of_nat n -> Disk.read_sector disk' (start + i) = Ok (sector_of d i)) /\
    (forall t x, (t < start + i0 \/ start + i0 + N.of_nat n <= t) -> Disk.read_sector disk t = Ok x ->
       Disk.read_sector disk' t = Ok x).
Proof.
  induction n as [|n IH]; intros disk i0 Hw Ht Hb.
  - exists disk. rewrite Disk.range_nil by lia. split_and!; try done. intros i Hi. lia.
  - rewrite Disk.range_cons by lia. cbn [write_sectors]. pose proof Hw as (H8 & H32 & Hl & Hws & Hf).
    rewrite wadd32_small by lia.
    assert (Hs0 : start + i0 < Disk.total_sectors disk) by lia.
    assert (Hwr := proj2 (Disk.write_sector_ok disk (start + i0) (sector_of d i0) _)
                     (conj Hs0 (conj (file_sector_length d i0) eq_refl))). rewrite Hwr.
    destruct (Disk.write_sector_read _ _ _ _ Hwr) as (Hr & Ho & Hbm & Htot).
    destruct (IH (Disk.with_file disk (Disk.file_write (Disk.file disk) ((start + i0) * Disk.SECTOR_SIZE) (sector_of d i0))) (i0 + 1))
      as (disk' & Hs & Hw' & Ht' & Hb' & Hin & Hout); [|done|lia|].
    { split_and!; try done. cbn. rewrite Disk.file_write_length. lia. }
    replace (i0 + 1 + N.of_nat n) with (i0 + N.of_nat (S n)) in * by lia.
    exists disk'. split; [exact Hs|]. split_and!; try done.
    + intros i Hi. destruct (N.eq_dec i i0) as [->|]; [|apply Hin; lia]. apply Hout; [lia|exact Hr].
    + intros t x Hx Hrd. apply Hout; [lia|]. apply Ho; [lia|exact Hrd].
Qed.

Lemma read_sectors_ok disk start d n : forall i0,
  start + i0 + N.of_nat n < 2 ^ 32 ->
  (forall i, i0 <= i < i0 + N.of_nat n -> Disk.read_sector disk (start + i) = Ok (sector_of d i)) ->
  read_sectors disk (wadd32 start <$> Disk.range i0 (i0 + N.of_nat n)) =
    Ok (mjoin ((fun i => sector_of d (i0 + N.of_nat i)) <$> seq 0 n)).
Proof.
  induction n as [|n IH]; intros i0 Hb Hr.
  - by rewrite Disk.range_nil by lia.
  - rewrite Disk.range_cons by lia. cbn [fmap list_fmap read_sectors]. rewrite wadd32_small by lia.
    rewrite Hr by lia. cbn [map_err mbind result_bind].
    replace (i0 + N.of_nat (S n)) with (i0 + 1 + N.of_nat n) by lia.
    change (list_fmap N N (wadd32 start)) with (fmap (M := list) (wadd32 start)).
    rewrite IH by (lia || intros i Hi; apply Hr; lia). cbn [mbind result_bind]. f_equal.
    cbn [seq fmap list_fmap mjoin list_join]. rewrite <- fmap_S_seq, <- list_fmap_compose. f_equal; [f_equal; lia|].
    f_equal. apply list_fmap_ext. intros _ i _. cbn [compose]. f_equal. lia.
Qed.

(** the extent of a file on the disk *)
Definition in_extent (f : File) (s : N) : Prop :=
  match start_sector f with Some st => st <= s < st + sector_count f | None => False end.
(** what holds of a file and the disk it is on *)
Definition on_disk (f : File) (disk : Disk.VirtualDisk) : Prop :=
  match start_sector f with Some st => 4 <= st /\ st + sector_count f <= Disk.total_sectors disk | None => True end.

Lemma sectors_needed_small d : len d < 2 ^ 40 -> sectors_needed d = (len d + 511) / 512.
Proof. intros H. unfold sectors_needed, to_u32. apply N.mod_small. apply N.Div0.div_lt_upper_bound. lia. Qed.

Lemma sectors_needed_covers d : len d < 2 ^ 40 -> (length d <= N.to_nat (sectors_needed d) * 512)%nat.
Proof.
  intros H. rewrite sectors_needed_small by done. pose proof (N.div_mod' (len d + 511) 512).
  pose proof (N.mod_lt (len d + 511) 512 ltac:(done)). lia.
Qed.

(** the disk after the old sectors are freed *)
Definition freed (f : File) (disk : Disk.VirtualDisk) : Disk.VirtualDisk :=
  match start_sector f with
  | Some old => if 0 <? sector_count f then fst (Disk.free_sectors disk old (sector_count f)) else disk
  | None => disk
  end.
Lemma freed_spec f disk : Disk.disk_wf disk -> on_disk f disk ->
  Disk.disk_wf (freed f disk) /\ Disk.total_sectors (freed f disk) = Disk.total_sectors disk /\
  (forall t, Disk.is_free (Disk.bitmap (freed f disk)) t = true <->
     Disk.is_free (Disk.bitmap disk) t = true \/ in_extent f t) /\
  (forall t x, t <> 0 -> Disk.read_sector disk t = Ok x -> Disk.read_sector (freed f disk) t = Ok x).
Proof.
  intros Hw. unfold on_disk, freed, in_extent. pose proof Hw as (_ & H32 & _).
  destruct (start_sector f) as [st|]; [|intros _; split_and!; try done; intuition].
  intros [H4 Hb]. destruct (N.ltb_spec 0 (sector_count f)) as [Hp|Hz].
  - destruct (Disk.free_sectors_spec disk st (sector_count f) Hw ltac:(lia)) as (d' & -> & Hw' & Ht & Hfree & Hrd).
    cbn [fst]. split_and!; try done. intros t. rewrite Hfree, orb_true_iff, !andb_true_iff, !N.leb_le, N.ltb_lt.
    intuition lia.
  - split_and!; try done. intros t. split; [by left|]. intros [?|?]; [done|lia].
Qed.

(** What a sync does, on each of its outcomes. *)
Lemma sync_spec f disk :
  Disk.disk_wf disk -> on_disk f disk -> len (data f) < 2 ^ 40 -> negb (dirty f) && bool_decide (is_Some (start_sector f)) = false ->
  match sync_to_disk f disk with
  | (f', disk', Ok _) =>
      Disk.disk_wf disk' /\ Disk.total_sectors disk' = Disk.total_sectors disk /\ on_disk f' disk' /\
      data f' = data f /\ dirty f' = false /\ sector_count f' = sectors_needed (data f) /\
      (is_Some (start_sector f') <-> data f <> []) /\ inode f' = inode f /\ mode f' = mode f /\
      (forall s, in_extent f' s -> Disk.is_free (Disk.bitmap disk) s = true \/ in_extent f s) /\
      (forall i, i < sectors_needed (data f) ->
         exists st, start_sector f' = Some st /\ Disk.read_sector disk' (st + i) = Ok (sector_of (data f) i)) /\
      (forall t, Disk.is_free (Disk.bitmap disk') t = true <->
         (Disk.is_free (Disk.bitmap disk) t = true \/ in_extent f t) /\ ~ in_extent f' t) /\
      (forall t x, t <> 0 -> ~ in_extent f' t -> Disk.read_sector disk t = Ok x -> Disk.read_sector disk' t = Ok x)
  | (f', disk', Err e) => f' = f /\ e = SvcIo /\ disk' = freed f disk
  end.
Proof.
  intros Hw Hon Hlen Hdirty. unfold sync_to_disk. rewrite Hdirty. fold (freed f disk).
  destruct (freed_spec f disk Hw Hon) as (Hw1 & Ht1 & Hfree1 & Hrd1).
  destruct (N.eqb_spec (sectors_needed (data f)) 0) as [Hz|Hnz].
  - assert (Hnil : data f = []). { pose proof (sectors_needed_covers _ Hlen). rewrite Hz in *. destruct (data f); [done|cbn in *; lia]. }
    cbn. unfold in_extent; cbn. rewrite Hnil. split_and!; try done.
    + intros i Hi. exfalso. revert Hi. change (sectors_needed []) with 0. lia.
    + intros t. rewrite Hfree1. intuition.
    + intros t x Ht _. by apply Hrd1.
  - assert (Hpos : 0 < sectors_needed (data f)) by lia.
    pose proof (Disk.allocate_sectors_spec (freed f disk) _ Hw1 Hpos) as Ha.
    destruct (Disk.allocate_sectors _ _) as [disk2 [st|e]]; [|by destruct Ha as (-> & _)].
    destruct Ha as (H4 & Hin & Hrun & _ & Hfree2 & Hrd2 & Hw2 & Ht2). pose proof Hw2 as (_ & H32 & _).
    destruct (write_sectors_spec (data f) st (Disk.total_sectors disk) (N.to_nat (sectors_needed (data f))) disk2 0 Hw2)
      as (disk3 & Hwr & Hw3 & Ht3 & Hb3 & Hget & Hkeep); [congruence|lia|].
    replace (0 + N.of_nat (N.to_nat (sectors_needed (data f)))) with (sectors_needed (data f)) in * by lia.
    rewrite Hwr. cbn. unfold in_extent, on_disk; cbn. split_and!; try done.
    + lia.
    + split; [|done]. intros _ E. rewrite E in Hnz. done.
    + intros s Hs. apply Hfree1. apply Hrun. lia.
    + intros i Hi. exists st. split; [done|]. apply Hget. lia.
    + intros t. rewrite Hb3, Hfree2, andb_true_iff, Hfree1, negb_true_iff, andb_false_iff, N.leb_gt, N.ltb_ge. intuition lia.
    + intros t x Ht Hout Hrd. apply Hkeep; [lia|]. apply Hrd2; [done|]. by apply Hrd1.
Qed.

(** A file whose extent holds its content loads it back. *)
Definition stored (f : File) (disk : Disk.VirtualDisk) : Prop :=
  on_disk f disk /\ sector_count f = sectors_needed (data f) /\ len (data f) < 2 ^ 40 /\
  (is_Some (start_sector f) <-> data f <> []) /\
  forall i st, start_sector f = Some st -> i < sector_count f -> Disk.read_sector disk (st + i) = Ok (sector_of (data f) i).

Lemma stored_load f g disk :
  stored f disk -> Disk.total_sectors disk < 2 ^ 32 ->
  start_sector g = start_sector f -> sector_count g = sector_count f -> size (metadata g) = len (data f) ->
  exists g', load_from_disk g disk = (g', Ok tt) /\ data g' = data f /\ inode g' = inode g /\ mode g' = mode g /\
    start_sector g' = start_sector f /\ sector_count g' = sector_count f /\
    (is_Some (start_sector f) -> dirty g' = false /\ position g' = 0).
Proof.
  intros (Hon & Hc & Hlen & Hst & Hrd) H32 Hgs Hgc Hsz. unfold load_from_disk, on_disk in *. rewrite Hgs, Hgc.
  destruct (start_sector f) as [st|].
  - destruct (N.eqb_spec (sector_count f) 0) as [Hz|Hnz].
    + exfalso. assert (Hd : data f <> []) by (apply Hst; by eexists). pose proof (sectors_needed_covers _ Hlen) as Hcov.
      rewrite <- Hc, Hz in Hcov. by destruct (data f); [|cbn in Hcov; lia].
    + pose proof (read_sectors_ok disk st (data f) (N.to_nat (sector_count f)) 0 ltac:(lia)) as E.
      replace (0 + N.of_nat (N.to_nat (sector_count f))) with (sector_count f) in E by lia. rewrite E.
      2: { intros i Hi. apply Hrd; [done|lia]. }
      eexists. split; [done|]. cbn. rewrite Hgs, Hgc, Hsz. split_and!; try done. rewrite Nat2N.id.
      assert (E2 : (fun i => sector_of (data f) (0 + N.of_nat i)) <$> seq 0 (N.to_nat (sector_count f))
                 = (fun i => sector_of (data f) (N.of_nat i)) <$> seq 0 (N.to_nat (sector_count f))) by done.
      rewrite E2. apply sectors_concat. rewrite Hc. by apply sectors_needed_covers.
  - assert (Hnil : data f = []) by (destruct (data f); [done|destruct Hst as [_ Hst]; by destruct Hst]).
    eexists. split; [done|]. cbn. rewrite Hgs, Hgc, Hnil. by split_and!.
Qed.

Lemma sync_stored f disk f' disk' :
  Disk.disk_wf disk -> on_disk f disk -> len (data f) < 2 ^ 40 -> negb (dirty f) && bool_decide (is_Some (start_sector f)) = false ->
  sync_to_disk f disk = (f', disk', Ok tt) -> stored f' disk' /\ data f' = data f.
Proof.
  intros Hw Hon Hlen Hd E. pose proof (sync_spec f disk Hw Hon Hlen Hd) as H. rewrite E in H.
  destruct H as (_ & _ & Hon' & Hdata & _ & Hc & Hst & _ & _ & _ & Hrd & _). split; [|done]. unfold stored. rewrite Hdata.
  split_and!; try done; [apply Hst..|]. intros i st Hs Hi. rewrite Hc in Hi. destruct (Hrd i Hi) as (st' & Hs' & Hr). congruence.
Qed.

(** C25: a file synchronised to the disk is loaded back with the same content
    by any file object with its extent and size; the extent was free, or the
    file's own before, and no other used sector changes, is freed or taken. *)
Theorem sync_load_roundtrip f disk f' disk' :
  Disk.disk_wf disk -> on_disk f disk -> len (data f) < 2 ^ 40 -> dirty f = true ->
  sync_to_disk f disk = (f', disk', Ok tt) ->
  (forall g, start_sector g = start_sector f' -> sector_count g = sector_count f' -> size (metadata g) = len (data f) ->
     exists g', load_from_disk g disk' = (g', Ok tt) /\ data g' = data f) /\
  (forall s, in_extent f' s -> Disk.is_free (Disk.bitmap disk) s = true \/ in_extent f s) /\
  (forall s x, s <> 0 -> Disk.is_free (Disk.bitmap disk) s = false -> ~ in_extent f s -> Disk.read_sector disk s = Ok x ->
     Disk.read_sector disk' s = Ok x /\ Disk.is_free (Disk.bitmap disk') s = false).
Proof.
  intros Hw Hon Hlen Hdirty E. assert (Hd : negb (dirty f) && bool_decide (is_Some (start_sector f)) = false) by by rewrite Hdirty.
  destruct (sync_stored f disk f' disk' Hw Hon Hlen Hd E) as [Hstored Hdata].
  pose proof (sync_spec f disk Hw Hon Hlen Hd) as H. rewrite E in H.
  destruct H as (Hw' & Ht & _ & _ & _ & _ & _ & _ & _ & Hin & _ & Hfree & Hkeep). split; [|split; [exact Hin|]].
  - intros g Hs Hc Hsz. pose proof Hw' as (_ & H32 & _).
    destruct (stored_load f' g disk' Hstored H32 Hs Hc ltac:(congruence)) as (g' & Hl & Hg & _). exists g'. split; congruence.
  - intros s x Hs Hused Hext Hr. split.
    + apply Hkeep; [done| |done]. intros Hi. destruct (Hin _ Hi); congruence.
    + apply not_true_iff_false. intros Hf. apply Hfree in Hf as [[?|?] _]; congruence.
Qed.

(** Property: a sync that finds no room has already freed the old sectors of the
    file, but the file keeps its extent: sectors that the next allocation may
    give to another file. *)
Theorem failed_sync_loses_extent f disk e :
  Disk.disk_wf disk -> on_disk f disk -> len (data f) < 2 ^ 40 -> dirty f = true ->
  snd (sync_to_disk f disk) = Err e ->
  fst (fst (sync_to_disk f disk)) = f /\
  forall s, in_extent f s -> Disk.is_free (Disk.bitmap (snd (fst (sync_to_disk f disk)))) s = true.
Proof.
  intros Hw Hon Hlen Hdirty E. assert (Hd : negb (dirty f) && bool_decide (is_Some (start_sector f)) = false) by by rewrite Hdirty.
  pose proof (sync_spec f disk Hw Hon Hlen Hd) as H. destruct (sync_to_disk f disk) as [[f' disk'] [[]|e']]; [done|].
  destruct H as (-> & _ & ->). split; [done|]. intros s Hs. cbn. destruct (freed_spec f disk Hw Hon) as (_ & _ & Hf & _).
  apply Hf. by right.
Qed.

(** a disk of 12 sectors, and a file of one sector on it that has grown *)
Definition demo_disk : Disk.VirtualDisk :=
  match Disk.new 12 [] with Done d => fst (Disk.allocate_sectors d 3) | _ => Disk.Build_VirtualDisk [] 0 [] end.
Definition demo_grown (n : nat) : File :=
  with_extent (Some 4) 3 (with_data (replicate n 7) true (File_new 5 [97] 0 ReadWrite)).
Lemma demo_disk_wf : Disk.disk_wf demo_disk /\ forall n, on_disk (demo_grown n) demo_disk.
Proof.
  assert (H : bool_decide (8 <= Disk.total_sectors demo_disk /\ Disk.total_sectors demo_disk < 2 ^ 32 /\
     len (Disk.bitmap demo_disk) = Disk.bitmap_words (Disk.total_sectors demo_disk) /\
     Forall (fun w => w < 2 ^ 64) (Disk.bitmap demo_disk) /\ Disk.SECTOR_SIZE <= len (Disk.file demo_disk)) = true)
    by (vm_compute; reflexivity).
  split; [by apply bool_decide_eq_true in H|]. intros n.
  assert (H2 : Disk.total_sectors demo_disk = 12) by (vm_compute; reflexivity). unfold on_disk. cbn [demo_grown with_extent start_sector sector_count].
  rewrite H2. by split.
Qed.

Lemma sync_load_roundtrip_witness :
  exists f' disk', sync_to_disk (demo_grown 600) demo_disk = (f', disk', Ok tt) /\
    exists g', load_from_disk (with_meta 600 f') disk' = (g', Ok tt) /\ data g' = replicate 600 7.
Proof.
  destruct demo_disk_wf as [Hw Hon].
  assert (E : match snd (sync_to_disk (demo_grown 600) demo_disk) with Ok _ => true | Err _ => false end = true)
    by (vm_compute; reflexivity).
  destruct (sync_to_disk (demo_grown 600) demo_disk) as [[f' disk'] [[]|e]] eqn:Hs; [|discriminate E].
  exists f', disk'. split; [reflexivity|].
  destruct (sync_load_roundtrip (demo_grown 600) demo_disk f' disk' Hw (Hon _) eq_refl eq_refl Hs) as [H _].
  exact (H (with_meta 600 f') eq_refl eq_refl eq_refl).
Defined.

Lemma failed_sync_loses_extent_witness :
  Disk.is_free (Disk.bitmap demo_disk) 4 = false /\
  Disk.is_free (Disk.bitmap (snd (fst (sync_to_disk (demo_grown 5000) demo_disk)))) 4 = true.
Proof.
  destruct demo_disk_wf as [Hw Hon].
  assert (E : match snd (sync_to_disk (demo_grown 5000) demo_disk) with Ok _ => true | Err _ => false end = false)
    by (vm_compute; reflexivity).
  destruct (snd (sync_to_disk (demo_grown 5000) demo_disk)) as [|e] eqn:Hs; [discriminate E|].
  destruct (failed_sync_loses_extent (demo_grown 5000) demo_disk e Hw (Hon _) eq_refl eq_refl Hs) as [_ H].
  split; [vm_compute; reflexivity|]. apply H. split; vm_compute; done.
Defined.

(** ** Descriptor numbers *)

Inductive FdOp := OpAllocate (h : nat) (fl : N) | OpClose (n : N) | OpDup (n : N).
(** the number handed out, if any *)
Definition fd_op (ow : Pid) (t : FileTable) (o : FdOp) : FileTable * option N :=
  match o with
  | OpAllocate h fl => let '(t, r) := table_allocate ow h fl t in (t, match r with Ok n => Some n | Err _ => None end)
  | OpClose n => (fst (table_close n t), None)
  | OpDup n => let '(t, r) := table_dup n t in (t, match r with Ok n => Some n | Err _ => None end)
  end.
Fixpoint fd_ops (ow : Pid) (t : FileTable) (os : list FdOp) : FileTable * list N :=
  match os with
  | [] => (t, [])
  | o :: os =>
      let '(t, n) := fd_op ow t o in
      let '(t, ns) := fd_ops ow t os in
      (t, match n with Some n => n :: ns | None => ns end)
  end.

Lemma fd_op_step ow t o : next_fd t <= max_fds t -> max_fds t < 2 ^ 32 ->
  let '(t', n) := fd_op ow t o in
  max_fds t' = max_fds t /\ next_fd t' <= max_fds t /\
  match n with
  | Some n => n = next_fd t /\ next_fd t' = next_fd t + 1 /\ is_Some (descriptors t' !! n)
  | None => next_fd t' = next_fd t
  end.
Proof.
  intros Hle Hb. destruct o as [h fl|n|n]; cbn [fd_op].
  - unfold table_allocate. destruct (N.leb_spec (max_fds t) (next_fd t)); cbn; [done|].
    rewrite wadd32_small, lookup_insert_eq by lia. split_and!; try done; lia.
  - unfold table_close. by destruct (descriptors t !! n).
  - unfold table_dup, table_get. destruct (descriptors t !! n); cbn; [|done].
    destruct (N.leb_spec (max_fds t) (next_fd t)); cbn; [done|].
    rewrite wadd32_small, lookup_insert_eq by lia. split_and!; try done; lia.
Qed.

Lemma fd_ops_run ow os : forall t, next_fd t <= max_fds t -> max_fds t < 2 ^ 32 ->
  let '(t', ns) := fd_ops ow t os in
  max_fds t' = max_fds t /\ next_fd t' <= max_fds t /\ next_fd t' = next_fd t + len ns /\
  forall i n, ns !! i = Some n -> n = next_fd t + N.of_nat i.
Proof.
  induction os as [|o os IH]; intros t Hle Hb; cbn [fd_ops].
  - split_and!; try done; cbn; lia.
  - pose proof (fd_op_step ow t o Hle Hb) as H. destruct (fd_op ow t o) as [t1 n]. destruct H as (Hm & Hn & H).
    specialize (IH t1 ltac:(lia) ltac:(lia)). destruct (fd_ops ow t1 os) as [t2 ns]. destruct IH as (Hm2 & Hn2 & Hc & Hi).
    destruct n as [n|].
    + destruct H as (-> & Hs & _). split_and!; [congruence|lia|cbn [length]; lia|].
      intros [|i] n; cbn; [intros [= <-]; lia|]. intros Hx. rewrite (Hi i n Hx). lia.
    + rewrite H in *. split_and!; try done; [congruence|lia].
Qed.

(** Property: the descriptors of a process are handed out in the order 3, 4, ..,
    closed ones included, and there are fewer than [m] of them: after [m - 3]
    successful calls every [allocate] and [dup] fails, whatever was closed. *)
Theorem descriptors_never_reused ow m os :
  3 <= m -> m < 2 ^ 32 ->
  let '(t, ns) := fd_ops ow (FileTable_new m) os in
  (forall i n, ns !! i = Some n -> n = 3 + N.of_nat i) /\ len ns <= m - 3 /\
  (len ns = m - 3 -> forall o, snd (fd_op ow t o) = None).
Proof.
  intros H3 Hb. pose proof (fd_ops_run ow os (FileTable_new m) H3 Hb) as H.
  destruct (fd_ops _ _ os) as [t ns]. cbn in H. destruct H as (Hm & Hn & Hc & Hi). split; [exact Hi|]. split; [lia|].
  intros Hfull o. assert (Hle : max_fds t <= next_fd t) by lia. apply N.leb_le in Hle.
  destruct o as [h fl|n|n]; cbn; [unfold table_allocate; by rewrite Hle|done|].
  unfold table_dup. destruct (table_get n t); [by rewrite Hle|done].
Qed.

Lemma descriptors_never_reused_witness :
  snd (fd_ops 0 (FileTable_new 5) [OpAllocate 0 0; OpClose 3; OpAllocate 0 0; OpClose 4; OpAllocate 0 0]) = [3; 4] /\
  snd (fd_op 0 (fst (fd_ops 0 (FileTable_new 5) [OpAllocate 0 0; OpClose 3; OpAllocate 0 0; OpClose 4; OpAllocate 0 0]))
         (OpAllocate 0 0)) = None.
Proof.
  pose proof (descriptors_never_reused 0 5 [OpAllocate 0 0; OpClose 3; OpAllocate 0 0; OpClose 4; OpAllocate 0 0]
    ltac:(done) eq_refl) as H.
  destruct (fd_ops _ _ _) as [t ns] eqn:E. destruct H as (_ & _ & H). vm_compute in E. injection E as <- <-.
  split; [reflexivity|]. exact (H eq_refl (OpAllocate 0 0)).
Defined.

(** *** Descriptors after a fork *)

Lemma clone_fd_get from to_ m n pid k : from <> to_ -> is_Some (process_tables m !! to_) ->
  is_Some (process_tables (clone_fd from to_ m n) !! to_) /\
  get from k (clone_fd from to_ m n) = get from k m /\
  get pid k (clone_fd from to_ m n) =
    if bool_decide (pid = to_ /\ k = n) then
      match get from n m with Some o => Some (OpenFile_new n to_ (file o) (flags o)) | None => get pid k m end
    else get pid k m.
Proof.
  intros Hne [t Ht]. unfold clone_fd. rewrite Ht. destruct (get from n m) as [o|] eqn:Ho.
  2: { split; [by eexists|]. split; [done|]. by case_bool_decide. }
  split; [cbn; by rewrite lookup_insert_eq|]. unfold get, set_table; cbn.
  split; [by rewrite lookup_insert_ne by done|]. case_bool_decide as Hd.
  - destruct Hd as [-> ->]. rewrite lookup_insert_eq. cbn. unfold table_get; cbn. by rewrite lookup_insert_eq.
  - destruct (decide (pid = to_)) as [->|]; [|by rewrite lookup_insert_ne by done].
    rewrite lookup_insert_eq, Ht. cbn. unfold table_get; cbn. rewrite lookup_insert_ne; [done|]. intros ->. by apply Hd.
Qed.

Lemma clone_fds_loop from to_ ns : from <> to_ -> forall m, is_Some (process_tables m !! to_) ->
  let m' := foldl (clone_fd from to_) m ns in
  (forall k, get from k m' = get from k m) /\
  forall pid k, get pid k m' =
    if bool_decide (pid = to_ /\ k ∈ ns) then
      match get from k m with Some o => Some (OpenFile_new k to_ (file o) (flags o)) | None => get pid k m end
    else get pid k m.
Proof.
  intros Hne. induction ns as [|n ns IH]; intros m Ht; cbn [foldl].
  - split; [done|]. intros pid k. by rewrite bool_decide_false by (by intros [_ ?%not_elem_of_nil]).
  - destruct (clone_fd_get from to_ m n 0 0 Hne Ht) as (Ht1 & _).
    destruct (IH _ Ht1) as [Hf Hg]. split.
    + intros k. rewrite Hf. by apply (clone_fd_get from to_ m n 0 k).
    + intros pid k. rewrite Hg. destruct (clone_fd_get from to_ m n pid k Hne Ht) as (_ & -> & ->).
      destruct (decide (k = n)) as [->|Hkn]; destruct (get from _ m) eqn:E;
        repeat case_bool_decide; try done; exfalso; set_solver.
Qed.

(** Property: after [clone_fds] the child has every descriptor of the parent under
    the same number and on the same open file, the rest of its own, and nobody
    else's change. *)
Theorem clone_fds_inherits from to_ m pid n :
  from <> to_ ->
  get pid n (clone_fds from to_ m) =
    if bool_decide (pid = to_) then
      match get from n m with
      | Some o => Some (OpenFile_new n to_ (file o) (flags o))
      | None => get to_ n m
      end
    else get pid n m.
Proof.
  intros Hne. unfold clone_fds.
  set (m1 := set_table to_ (get_table to_ m) m).
  assert (Hg1 : forall p k, get p k m1 = get p k m).
  { intros p k. unfold get, m1, set_table, get_table; cbn. destruct (decide (p = to_)) as [->|]; [|by rewrite lookup_insert_ne].
    rewrite lookup_insert_eq. cbn. destruct (process_tables m !! to_); [done|]. cbn. apply lookup_empty. }
  assert (Ht1 : is_Some (process_tables m1 !! to_)) by (cbn; by rewrite lookup_insert_eq).
  assert (Hf1 : process_tables m1 !! from = process_tables m !! from) by (cbn; by rewrite lookup_insert_ne).
  rewrite Hf1. destruct (process_tables m !! from) as [t|] eqn:Hfrom.
  - destruct (clone_fds_loop from to_ (list_fds t) Hne m1 Ht1) as [_ ->]. rewrite !Hg1.
    assert (Hin : n ∈ list_fds t <-> is_Some (get from n m)).
    { unfold list_fds, get. rewrite Hfrom. cbn. unfold table_get. rewrite list_elem_of_fmap. split.
      - intros ([k o] & -> & Ho%elem_of_map_to_list). by eexists.
      - intros [o Ho]. exists (n, o). split; [done|]. by apply elem_of_map_to_list. }
    destruct (get from n m) as [o|]; repeat case_bool_decide; try naive_solver.
  - rewrite Hg1. assert (E : get from n m = None) by (unfold get; by rewrite Hfrom). rewrite E.
    case_bool_decide; by subst.
Qed.

Lemma clone_fds_inherits_witness :
  let m := fst (allocate 1 7 0 (FileDescriptorManager_new 256)) in
  get 2 3 (clone_fds 1 2 m) = Some (OpenFile_new 3 2 7 0).
Proof. intros m. rewrite (clone_fds_inherits 1 2 m 2 3) by done. reflexivity. Defined.
