(* ===== verification/FileService.v ===== *)
(** * The file service (src/src/services/file/service.rs)

    One thread owns the virtual file system, the descriptors, the open files and
    the disk.  The files that handles share are the list [files].  Requests carry
    no process, and process 0 stands for all of them.  [connected] says whether
    the requester still listens.  The texts of answers and the permissions of
    mkdir, which the source ignores, are left out. *)
From Stdlib Require String.
Import (notations) String.
From S2P Require Import Prelude Types Messages.
From S2P Require Assembler Disk Vfs Files.

#[local] Existing Instance Vfs.NodeType_eq_dec.
#[local] Existing Instance Files.OpenMode_eq_dec.

Record FileService := {
  vfs : Vfs.VirtualFileSystem; fd_manager : Files.FileDescriptorManager; open_files : gmap N nat;
  disk : Disk.VirtualDisk; files : list Files.File; answers : list Response }.

Definition set_vfs v (s : FileService) : FileService :=
  {| vfs := v; fd_manager := fd_manager s; open_files := open_files s; disk := disk s; files := files s; answers := answers s |}.
Definition set_fds m (s : FileService) : FileService :=
  {| vfs := vfs s; fd_manager := m; open_files := open_files s; disk := disk s; files := files s; answers := answers s |}.
Definition set_open o (s : FileService) : FileService :=
  {| vfs := vfs s; fd_manager := fd_manager s; open_files := o; disk := disk s; files := files s; answers := answers s |}.
Definition set_disk d (s : FileService) : FileService :=
  {| vfs := vfs s; fd_manager := fd_manager s; open_files := open_files s; disk := d; files := files s; answers := answers s |}.
Definition set_files f (s : FileService) : FileService :=
  {| vfs := vfs s; fd_manager := fd_manager s; open_files := open_files s; disk := disk s; files := f; answers := answers s |}.
Definition set_answers a (s : FileService) : FileService :=
  {| vfs := vfs s; fd_manager := fd_manager s; open_files := open_files s; disk := disk s; files := files s; answers := a |}.

Abbreviation F := (HM FileService).
Definition get : F FileService := fun s => Done (s, Ok s).
Definition update (f : FileService -> FileService) : F unit := fun s => Done (f s, Ok tt).
Definition of_result {A} (r : result ServiceError A) : F A := fun s => Done (s, r).

(** the parts of the state as states of their own *)
Definition on_vfs {A} (m : HM Vfs.VirtualFileSystem A) : F A := fun s =>
  match m (vfs s) with
  | Done (v, r) => Done (set_vfs v s, r)
  | Panicked => Panicked
  | Deadlocked => Deadlocked
  end.
Definition on_fds {A} (m : SE Files.FileDescriptorManager ServiceError A) : F A := fun s =>
  let '(d, r) := m (fd_manager s) in Done (set_fds d s, r).
Definition on_files {A} (m : HM (list Files.File) A) : F A := fun s =>
  match m (files s) with
  | Done (fs, r) => Done (set_files fs s, r)
  | Panicked => Panicked
  | Deadlocked => Deadlocked
  end.

(** [json]: the saved file system, if there is one; [image]: the host file of the disk *)
Definition new (saved : option Vfs.VirtualFileSystem) (max_fds disk_size : N) (image : list N) : outcome FileService :=
  d ← Disk.new (to_u32 (disk_size / 512)) image;
  Done {| vfs := default Vfs.VirtualFileSystem_new saved; fd_manager := Files.FileDescriptorManager_new max_fds;
          open_files := ∅; disk := d; files := []; answers := [] |}.

(** ** Paths *)

(** [path.rfind('/')]: what is before and after the last slash *)
Fixpoint rfind_slash (s : str) : option (str * str) :=
  match s with
  | [] => None
  | x :: s =>
      match rfind_slash s with
      | Some (a, b) => Some (x :: a, b)
      | None => if x =? 47 then Some ([], s) else None
      end
  end.
Definition parent_and_name (path : str) : option (str * str) :=
  match rfind_slash path with
  | Some ([], nm) => Some ([47], nm)
  | r => r
  end.

(** [parts.join("/")] *)
Fixpoint join_slash (l : list str) : str :=
  match l with [] => [] | [x] => x | x :: l => x ++ [47] ++ join_slash l end.
Definition split_path (path : str) : result ServiceError (str * str) :=
  if bool_decide (path = []) then Err InvalidArguments
  else
    let parts := Vfs.components path in
    match rev parts with
    | [] => Ok ([47], [47])
    | nm :: _ => Ok (if (1 <? length parts)%nat then [47] ++ join_slash (removelast parts) else [47], nm)
    end.

Definition open_flags_to_mode (fl : FileRequest.OpenFlags) : Files.OpenMode :=
  if FileRequest.read fl && FileRequest.write fl then Files.ReadWrite
  else if FileRequest.write fl then Files.Write
  else if FileRequest.append fl then Files.Append
  else Files.Read.

(** ** File operations *)

Section Handlers.
Context (connected : bool).

Definition respond (r : Response) : F unit :=
  if connected then update (fun s => set_answers (answers s ++ [r]) s) else mret tt.
Definition silent (_ : ResponseError) : F unit := mret tt.
Definition tell (e : ResponseError) : F unit := respond (Err e).

(** Both open handlers do the same; one of them answers, by [say], before it
    fails. *)
Section Open.
Context (say : ResponseError -> F unit).

Definition create_missing (pid : Pid) (path : str) : F Vfs.VFSNode :=
  match parent_and_name path with
  | None => _ ← say RespInvalidArguments; throw InvalidArguments
  | Some (parent_path, nm) =>
      s ← get;
      match Vfs.lookup_path parent_path (vfs s) with
      | Err _ => _ ← say RespNotFound; throw SvcNotFound
      | Ok p =>
          s ← get;
          match Vfs.create_file (Vfs.inode p) nm pid (vfs s) with
          | Done (v, Err e) => _ ← update (set_vfs v); _ ← say (RespOther 21); throw e
          | Done (v, Ok _) =>
              _ ← update (set_vfs v);
              match Vfs.lookup_path path v with
              | Ok n => mret n
              | Err e => _ ← say RespNotFound; throw e
              end
          | Panicked => fun _ => Panicked
          | Deadlocked => deadlock
          end
      end
  end.

Definition find_or_create (pid : Pid) (path : str) (fl : FileRequest.OpenFlags) : F Vfs.VFSNode :=
  s ← get;
  match Vfs.lookup_path path (vfs s) with
  | Ok n => mret n
  | Err e => if FileRequest.create fl then create_missing pid path else _ ← say RespNotFound; throw e
  end.

(** a file object for an inode that is not open, with what is on the disk *)
Definition fresh_file (s : FileService) (i : N) (path : str) (pid : Pid) (m : Files.OpenMode) : Files.File :=
  let f := Files.File_new i path pid m in
  match Vfs.lookup i (vfs s) with
  | Some vn =>
      match Vfs.blocks vn with
      | [] => f
      | b :: _ =>
          let f := Files.with_meta (Vfs.size vn) (Files.with_extent (Some (to_u32 b)) (to_u32 (len (Vfs.blocks vn))) f) in
          fst (Files.load_from_disk f (disk s))
      end
  | None => f
  end.

(** the handle of the file of an inode *)
Definition file_of_inode (i : N) (path : str) (pid : Pid) (m : Files.OpenMode) : F nat :=
  s ← get;
  match open_files s !! i with
  | Some h =>
      _ ← update (fun s => set_files (alter (fun f => Files.with_cursor 0 false (Files.with_mode m f)) h (files s)) s);
      mret h
  | None =>
      let h := length (files s) in
      _ ← update (fun s => set_files (files s ++ [fresh_file s i path pid m]) s);
      _ ← update (fun s => set_open (<[i := h]> (open_files s)) s);
      mret h
  end.

Definition open_path (pid : Pid) (path : str) (fl : FileRequest.OpenFlags) : F N :=
  n ← find_or_create pid path fl;
  if negb (Vfs.is_file n) then _ ← say RespInvalidArguments; throw InvalidArguments
  else
    h ← file_of_inode (Vfs.inode n) path pid (open_flags_to_mode fl);
    on_fds (Files.allocate pid h 0).
End Open.

Definition handle_open (pid : Pid) (path : str) (fl : FileRequest.OpenFlags) : F unit :=
  _ ← open_path silent pid path fl; mret tt.
Definition handle_open_with_response (pid : Pid) (path : str) (fl : FileRequest.OpenFlags) : F unit :=
  fd ← open_path tell pid path fl; respond (Ok (Fd fd)).

Definition handle_close (pid : Pid) (fd : N) : F unit := on_fds (Files.close pid fd).

(** [sync_to_disk] of the file behind a handle; whether it succeeded *)
Definition sync_handle (h : nat) : F bool := fun s =>
  match files s !! h with
  | Some f =>
      let '(f, d, r) := Files.sync_to_disk f (disk s) in
      Done (set_disk d (set_files (<[h := f]> (files s)) s), Ok (is_ok r))
  | None => Panicked
  end.

Definition handle_close_with_response (pid : Pid) (fd : N) : F unit :=
  s ← get;
  _ ← match Files.get pid fd (fd_manager s) with
      | Some o =>
          match files s !! Files.file o with
          | Some f => if Files.is_dirty f then _ ← sync_handle (Files.file o); mret tt else mret tt
          | None => mret tt
          end
      | None => mret tt
      end;
  _ ← on_fds (Files.close pid fd);
  respond (Ok Void).

Definition read_fd (say : ResponseError -> F unit) (pid : Pid) (fd count : N) : F (list N) :=
  s ← get;
  match Files.get pid fd (fd_manager s) with
  | None => _ ← say RespNotFound; throw SvcNotFound
  | Some o => on_files (Files.of_read o count)
  end.
Definition handle_read (pid : Pid) (fd count : N) : F unit := _ ← read_fd silent pid fd count; mret tt.
Definition handle_read_with_response (pid : Pid) (fd count : N) : F unit :=
  bs ← read_fd tell pid fd count; respond (Ok (Bytes bs)).

(** size and blocks of the inode after a sync *)
Definition record_extent (h : nat) : F unit :=
  s ← get;
  match files s !! h with
  | Some f =>
      match Files.start_sector f with
      | Some start =>
          update (fun s => set_vfs (Vfs.record (Files.inode f) (len (Files.data f))
            (wadd32 start <$> Disk.range 0 (Files.sector_count f)) (vfs s)) s)
      | None => mret tt
      end
  | None => mret tt
  end.
Definition write_fd (say : ResponseError -> F unit) (pid : Pid) (fd : N) (bs : list N) : F N :=
  s ← get;
  match Files.get pid fd (fd_manager s) with
  | None => _ ← say RespNotFound; throw SvcNotFound
  | Some o =>
      written ← on_files (Files.of_write o bs);
      synced ← sync_handle (Files.file o);
      _ ← (if synced : bool then record_extent (Files.file o) else mret tt);
      mret written
  end.
Definition handle_write (pid : Pid) (fd : N) (bs : list N) : F unit := _ ← write_fd silent pid fd bs; mret tt.
Definition handle_write_with_response (pid : Pid) (fd : N) (bs : list N) : F unit :=
  n ← write_fd tell pid fd bs; respond (Ok (BytesProcessed n)).

(** [offset] is an [i64] *)
Definition to_u64_of_i64 (x : Z) : N := Z.to_N (x mod 2 ^ 64).
Definition handle_seek (pid : Pid) (fd : N) (offset : Z) (whence : FileRequest.SeekWhence) : F unit :=
  s ← get;
  match Files.get pid fd (fd_manager s) with
  | None => throw SvcNotFound
  | Some o =>
      match files s !! Files.file o with
      | Some f =>
          let p := match whence with
                   | FileRequest.Set_ => to_u64_of_i64 offset
                   | FileRequest.Cur => to_u64_of_i64 (Z.of_N (Files.position f) + offset)
                   | FileRequest.End_ => to_u64_of_i64 (Z.of_N (Files.file_size f) + offset)
                   end in
          _ ← on_files (Files.of_seek o p); mret tt
      | None => mret tt
      end
  end.

(** ** Names *)

Definition handle_create_node (ty : Vfs.NodeType) (pid : Pid) (path : str) : F unit :=
  s ← get;
  '(parent_path, nm) ← of_result (split_path path);
  p ← of_result (Vfs.lookup_path parent_path (vfs s));
  if negb (Vfs.is_directory p) then throw InvalidArguments
  else _ ← on_vfs (Vfs.create_node ty (Vfs.inode p) nm pid); mret tt.
Definition handle_create : Pid -> str -> F unit := handle_create_node Vfs.File.
Definition handle_mkdir : Pid -> str -> F unit := handle_create_node Vfs.Directory.

Definition handle_delete (path : str) : F unit :=
  s ← get;
  n ← of_result (Vfs.lookup_path path (vfs s));
  on_vfs (Vfs.delete_node (Vfs.inode n)).

Definition handle_stat (path : str) : F unit :=
  s ← get; _ ← of_result (Vfs.lookup_path path (vfs s)); mret tt.

Definition handle_rmdir (path : str) : F unit :=
  s ← get;
  n ← of_result (Vfs.lookup_path path (vfs s));
  if negb (Vfs.is_directory n) then throw InvalidArguments
  else if negb (bool_decide (Vfs.children n = ∅)) then throw InvalidArguments
  else on_vfs (Vfs.delete_node (Vfs.inode n)).

Definition handle_listdir_with_response (path : str) : F (list str) :=
  s ← get;
  n ← of_result (Vfs.lookup_path path (vfs s));
  if negb (Vfs.is_directory n) then throw InvalidArguments else mret (sort_strings (Vfs.list_children n)).
Definition handle_listdir (path : str) : F unit :=
  s ← get;
  n ← of_result (Vfs.lookup_path path (vfs s));
  if negb (Vfs.is_directory n) then throw InvalidArguments else mret tt.

Definition handle_dup (pid : Pid) (old_fd : N) : F unit := _ ← on_fds (Files.dup pid old_fd); mret tt.

Definition vfs_stats (s : FileService) : N := Vfs.node_count (vfs s).
Definition fd_count (pid : Pid) (s : FileService) : N := Files.count pid (fd_manager s).

(** ** Requests *)

(** [vec![0u8; size]] *)
Definition zeros (size : N) : F (list N) :=
  if 2 ^ 63 <=? size then fun _ => Panicked else mret (replicate (N.to_nat size) 0).

Definition clone (from_pid to_pid : Pid) : F unit :=
  update (fun s => set_fds (Files.clone_fds from_pid to_pid (fd_manager s)) s).

Definition handle_file_request (req : FileRequest.t) : F unit :=
  match req with
  | FileRequest.Open path fl => handle_open 0 path fl
  | FileRequest.Close fd => handle_close 0 fd
  | FileRequest.Read fd _ _ size => handle_read 0 fd size
  | FileRequest.Write fd _ _ size => bs ← zeros size; handle_write 0 fd bs
  | FileRequest.WriteData fd bs => handle_write 0 fd bs
  | FileRequest.Unlink path => handle_delete path
  | FileRequest.Stat path => handle_stat path
  | FileRequest.CreateDirectory path => handle_mkdir 0 path
  | FileRequest.RemoveDirectory path => handle_rmdir path
  | FileRequest.OpenDirectory path => handle_listdir path
  | FileRequest.CloneFds from_pid to_pid => clone from_pid to_pid
  | _ => mret tt
  end.

Definition void_after (m : F unit) : F unit := _ ← m; respond (Ok Void).

Definition handle_file_request_with_response (req : FileRequest.t) : F unit :=
  match req with
  | FileRequest.Open path fl => handle_open_with_response 0 path fl
  | FileRequest.Close fd => handle_close_with_response 0 fd
  | FileRequest.Read fd _ _ size => handle_read_with_response 0 fd size
  | FileRequest.Write fd _ _ size => bs ← zeros size; handle_write_with_response 0 fd bs
  | FileRequest.WriteData fd bs => handle_write_with_response 0 fd bs
  | FileRequest.Unlink path => void_after (handle_delete path)
  | FileRequest.Stat path => void_after (handle_stat path)
  | FileRequest.CreateDirectory path => void_after (handle_mkdir 0 path)
  | FileRequest.RemoveDirectory path => void_after (handle_rmdir path)
  | FileRequest.OpenDirectory path => void_after (handle_listdir path)
  | FileRequest.DiskInfo =>
      s ← get;
      respond (Ok (DiskStats (Disk.total_sectors (disk s)) (Disk.used_sectors_count (disk s)) (Disk.size_bytes (disk s))))
  | FileRequest.ListDir path => fun s =>
      match handle_listdir_with_response path s with
      | Done (s, Ok l) => respond (Ok (StringList l)) s
      | Done (s, Err _) => respond (Err (RespOther 50)) s
      | Panicked => Panicked
      | Deadlocked => Deadlocked
      end
  | FileRequest.CloneFds from_pid to_pid => void_after (clone from_pid to_pid)
  | _ => respond (Ok Void)
  end.

Definition handle_envelope (expects_response : bool) (req : FileRequest.t) : F unit := fun s =>
  match (if expects_response then handle_file_request_with_response req else handle_file_request req) s with
  | Done (s, Ok _) => Done (s, Ok tt)
  | Done (s, Err _) => if expects_response then respond (Err (RespOther 1)) s else Done (s, Ok tt)
  | Panicked => Panicked
  | Deadlocked => Deadlocked
  end.

(** the main loop over the requests that come *)
Fixpoint run (reqs : list (bool * FileRequest.t)) : F unit :=
  match reqs with
  | [] => mret tt
  | (b, r) :: reqs => _ ← handle_envelope b r; run reqs
  end.
End Handlers.

(** ** Host files

    [import_host_files]: [host] lists the directory, with the files that can be
    read as text. *)
Definition imports (fname : str) : bool :=
  match Assembler.strip_suffix (Assembler.B ".asm") fname, Assembler.strip_suffix (Assembler.B ".txt") fname with
  | None, None => false
  | _, _ => true
  end.

(** the inode to fill, if the file is not there or has no blocks *)
Definition import_target (vfs_dir fname : str) (v : Vfs.VirtualFileSystem) : outcome (Vfs.VirtualFileSystem * option N) :=
  let path := vfs_dir ++ [47] ++ fname in
  match Vfs.lookup_path path v with
  | Ok n => Done (v, match Vfs.blocks n with [] => Some (Vfs.inode n) | _ => None end)
  | Err _ =>
      match Vfs.lookup_path vfs_dir v with
      | Err _ => Done (v, None)
      | Ok p =>
          '(v, r) ← Vfs.create_file (Vfs.inode p) fname 0 v;
          Done (v, match r, Vfs.lookup_path path v with Ok _, Ok n => Some (Vfs.inode n) | _, _ => None end)
      end
  end.

Definition import_file (vfs_dir : str) (e : str * list N) (s : FileService) : outcome FileService :=
  let '(fname, content) := e in
  if negb (imports fname) then Done s
  else
    '(v, target) ← import_target vfs_dir fname (vfs s);
    let s := set_vfs v s in
    match target with
    | None => Done s
    | Some i =>
        '(f, _) ← Files.write content (Files.File_new i (vfs_dir ++ [47] ++ fname) 0 Files.Write);
        let '(f, d, _) := Files.sync_to_disk f (disk s) in
        let s := set_disk d s in
        match Files.start_sector f with
        | Some start =>
            Done (set_vfs (Vfs.record i (len content) (wadd32 start <$> Disk.range 0 (Files.sector_count f)) (vfs s)) s)
        | None => Done s
        end
    end.
Fixpoint import_host_files (vfs_dir : str) (host : list (str * list N)) (s : FileService) : outcome FileService :=
  match host with
  | [] => Done s
  | e :: host => s ← import_file vfs_dir e s; import_host_files vfs_dir host s
  end.
