(* ===== verification/FileInv.v ===== *)
(** * The file service: what holds of it

    The service refines a map from paths to kinds of nodes ([requests_refine_tree]);
    [FileRestart] has what holds across restarts.  Each
    handler has a lemma that it keeps the invariant [service_inv], changes the
    tree as [tree_request] says and answers as expected; the lemmas compose by
    [fs_spec_bind]. *)
From Stdlib Require String.
Import (notations) String.
From S2P Require Import Prelude Types Messages.
From S2P Require Assembler Disk Vfs Restart Files.
From S2P Require Import FileService.

#[local] Existing Instance Vfs.NodeType_eq_dec.
#[local] Existing Instance Files.OpenMode_eq_dec.

(** ** Lemmas: paths *)

Lemma split_app c a b : Vfs.split c (a ++ c :: b) = Vfs.split c a ++ Vfs.split c b.
Proof.
  induction a as [|x a IH]; cbn [app Vfs.split]; [by rewrite N.eqb_refl|].
  destruct (x =? c); [by rewrite IH|]. rewrite IH. pose proof (Vfs.split_not_nil c a). by destruct (Vfs.split c a).
Qed.

Lemma split_no_slash c s : c ∉ s -> Vfs.split c s = [s].
Proof.
  induction s as [|x s IH]; intros H; [done|]. cbn. apply not_elem_of_cons in H as [Hx Hs].
  rewrite (proj2 (N.eqb_neq x c)) by congruence. by rewrite IH.
Qed.

Lemma split_parts c s w : w ∈ Vfs.split c s -> c ∉ w.
Proof.
  revert w. induction s as [|x s IH]; intros w; cbn.
  - intros ->%list_elem_of_singleton. apply not_elem_of_nil.
  - destruct (N.eqb_spec x c) as [->|Hne].
    + intros [->|H]%elem_of_cons; [apply not_elem_of_nil|by apply IH].
    + pose proof (Vfs.split_not_nil c s). destruct (Vfs.split c s) as [|v vs]; [done|].
      intros [->|H']%elem_of_cons; [|apply IH; by right].
      apply not_elem_of_cons. split; [congruence|apply IH; by left].
Qed.

Lemma components_app a b : Vfs.components (a ++ 47 :: b) = Vfs.components a ++ Vfs.components b.
Proof. unfold Vfs.components. by rewrite split_app, list.filter_app. Qed.

Lemma components_name nm : nm <> [] -> 47 ∉ nm -> Vfs.components nm = [nm].
Proof. intros Hn Hs. unfold Vfs.components. rewrite split_no_slash by done. by rewrite list.filter_cons_True. Qed.

Lemma components_parts path w : w ∈ Vfs.components path -> w <> [] /\ 47 ∉ w.
Proof. unfold Vfs.components. rewrite list_elem_of_filter. intros [H1 H2]. split; [done|by apply split_parts in H2]. Qed.

Lemma components_join cs : Forall (fun w => w <> [] /\ 47 ∉ w) cs -> Vfs.components (join_slash cs) = cs.
Proof.
  induction 1 as [|w cs [Hw Hs] _ IH]; [done|]. cbn [join_slash]. destruct cs as [|v cs]; [by apply components_name|].
  change (w ++ [47] ++ join_slash (v :: cs)) with (w ++ 47 :: join_slash (v :: cs)).
  by rewrite components_app, components_name, IH.
Qed.

(** [split_path] takes the last component off. *)
Lemma split_path_spec path cs nm : Vfs.components path = cs ++ [nm] ->
  exists pp, split_path path = Ok (pp, nm) /\ Vfs.components pp = cs.
Proof.
  intros E. unfold split_path. rewrite bool_decide_false by (intros ->; by destruct cs).
  rewrite E, rev_app_distr. cbn [rev app]. eexists. split; [done|]. rewrite removelast_last, length_app. cbn [length].
  destruct cs as [|w cs]; [done|]. rewrite (proj2 (Nat.ltb_lt _ _)) by (cbn; lia).
  change (Vfs.components ([] ++ 47 :: join_slash (w :: cs)) = w :: cs). rewrite components_app. apply components_join. apply list.Forall_forall. intros v Hv.
  apply (components_parts path). rewrite E. apply elem_of_app. by left.
Qed.

(** [mkdir] of a path without components is the directory "/" in the root. *)
Lemma split_path_root path : path <> [] -> Vfs.components path = [] -> split_path path = Ok ([47], [47]).
Proof. intros Hn E. unfold split_path. by rewrite bool_decide_false, E. Qed.

(** ** The tree behind the requests *)

(** the parent and the name that a request to create a directory makes *)
Definition mkdir_at (path : str) : option (list str * str) :=
  match rev (Vfs.components path) with
  | nm :: rcs => Some (rev rcs, nm)
  | [] => if bool_decide (path = []) then None else Some ([], [47])
  end.
Definition open_at (path : str) : option (list str * str) :=
  match parent_and_name path with Some (pp, nm) => Some (Vfs.components pp, nm) | None => None end.

Definition tree_create_at (ty : Vfs.NodeType) (at_ : option (list str * str)) (t : Vfs.Tree) : Vfs.Tree * bool :=
  match at_ with Some (pp, nm) => Vfs.tree_create ty pp nm t | None => (t, false) end.

(** what a request does to the tree of paths, and whether a request about names
    succeeds *)
Definition tree_request (req : FileRequest.t) (t : Vfs.Tree) : Vfs.Tree * bool :=
  match req with
  | FileRequest.CreateDirectory path =>
      tree_create_at Vfs.Directory (mkdir_at path) t
  | FileRequest.Unlink path => Vfs.tree_delete (Vfs.components path) t
  | FileRequest.RemoveDirectory path =>
      if bool_decide (t !! Vfs.components path = Some Vfs.Directory)
      then Vfs.tree_delete (Vfs.components path) t else (t, false)
  | FileRequest.Stat path => (t, bool_decide (is_Some (t !! Vfs.components path)))
  | FileRequest.ListDir path | FileRequest.OpenDirectory path =>
      (t, bool_decide (t !! Vfs.components path = Some Vfs.Directory))
  | FileRequest.Open path fl =>
      if FileRequest.create fl && bool_decide (t !! Vfs.components path = None)
      then tree_create_at Vfs.File (open_at path) t
      else (t, true)
  | _ => (t, true)
  end.
(** requests about names: whether they succeed depends on the tree alone *)
Definition about_names (req : FileRequest.t) : bool :=
  match req with
  | FileRequest.CreateDirectory _ | FileRequest.Unlink _ | FileRequest.RemoveDirectory _ | FileRequest.Stat _
  | FileRequest.ListDir _ | FileRequest.OpenDirectory _ => true
  | _ => false
  end.

(** ** The invariant

    [B] bounds the sizes of files and the inodes handed out. *)
Definition service_inv (B : N) (t : Vfs.Tree) (s : FileService) : Prop :=
  (Vfs.vfs_wf (vfs s) /\ Vfs.abstracts (vfs s) t /\ Vfs.next_inode (vfs s) <= B /\ 2 ^ 41 <= B /\
   Restart.over_standard (vfs s)) /\
  (forall i h, open_files s !! i = Some h -> (h < length (files s))%nat) /\
  (forall pid n o, Files.get pid n (fd_manager s) = Some o -> (Files.file o < length (files s))%nat) /\
  Forall (fun f => len (Files.data f) <= B /\ Files.position f <= B) (files s).

(** an outcome with the invariant, whose result and new answers are as [Q] says *)
Definition leads {A : Type} (B : N) (t : Vfs.Tree) (before : list Response)
    (Q : result ServiceError A -> list Response -> Prop) (o : outcome (FileService * result ServiceError A)) : Prop :=
  match o with
  | Done (s, r) => service_inv B t s /\ exists l, answers s = before ++ l /\ Q r l
  | _ => False
  end.
(** what [m] does from a state with the invariant: it returns, with [k] more for
    the bound and a new tree *)
Definition spec {A : Type} (k : N) (t t' : Vfs.Tree) (m : F A) (Q : result ServiceError A -> list Response -> Prop) : Prop :=
  forall B s, service_inv B t s -> B + k < 2 ^ 63 -> leads (B + k) t' (answers s) Q (m s).

Lemma inv_mono B B' t s : service_inv B t s -> B <= B' -> service_inv B' t s.
Proof.
  intros ((H1 & H2 & H3 & H4 & H8) & H5 & H6 & H7) Hle. split; [split_and!; [exact H1|exact H2|lia|lia|exact H8]|]. split; [done|]. split; [done|].
  eapply list.Forall_impl; [exact H7|]. cbn. lia.
Qed.

Lemma leads_done {A : Type} B B' t s (r : result ServiceError A) Q :
  service_inv B t s -> B <= B' -> Q r [] -> leads B' t (answers s) Q (Done (s, r)).
Proof. intros Hs Hle HQ. split; [by eapply inv_mono|]. exists []. by rewrite app_nil_r. Qed.

Lemma fs_spec_weaken {A : Type} k k' t t' (m : F A) (Q R : result ServiceError A -> list Response -> Prop) :
  spec k t t' m Q -> k <= k' -> (forall r l, Q r l -> R r l) -> spec k' t t' m R.
Proof.
  intros Hm Hk HQ B s Hs Hb. specialize (Hm B s Hs ltac:(lia)). unfold leads in *. destruct (m s) as [[s' r]| |]; try done.
  destruct Hm as [Hi (l & Hl & Hq)]. split; [by eapply inv_mono; [exact Hi|lia]|]. exists l. split; [done|by apply HQ].
Qed.

Lemma fs_spec_bind {A C : Type} k1 k2 t t1 t2 (m : F A) (f : A -> F C) Q R :
  spec k1 t t1 m Q ->
  (forall a l1, Q (Ok a) l1 -> spec k2 t1 t2 (f a) (fun r l => R r (l1 ++ l))) ->
  (forall e l, Q (Err e) l -> t1 = t2 /\ R (Err e) l) ->
  spec (k1 + k2) t t2 (m ≫= f) R.
Proof.
  intros Hm Hf He B s Hs Hb. specialize (Hm B s Hs ltac:(lia)). rewrite HM_bind_eq. unfold leads in Hm |- *.
  destruct (m s) as [[s' [a|e]]| |]; try done; destruct Hm as [Hi (l & Hl & Hq)].
  - specialize (Hf a l Hq (B + k1) s' Hi ltac:(lia)). unfold leads in Hf. destruct (f a s') as [[s2 r]| |]; try done.
    destruct Hf as [Hi2 (l2 & Hl2 & Hr)]. split; [by rewrite N.add_assoc|]. exists (l ++ l2).
    rewrite Hl2, Hl. split; [by rewrite app_assoc|done].
  - destruct (He e l Hq) as [-> Hr]. split; [by eapply inv_mono; [exact Hi|lia]|]. by exists l.
Qed.

Lemma fs_spec_get {A : Type} k t t' (f : FileService -> F A) R :
  (forall B s, service_inv B t s -> B + k < 2 ^ 63 -> leads (B + k) t' (answers s) R (f s s)) -> spec k t t' (get ≫= f) R.
Proof. intros Hf B s Hs Hb. exact (Hf B s Hs Hb). Qed.
Lemma spec_done {A : Type} k t (r : result ServiceError A) (R : result ServiceError A -> list Response -> Prop) :
  R r [] -> spec k t t (fun s => Done (s, r)) R.
Proof. intros HR B s Hs Hb. by apply (leads_done B); [|lia|]. Qed.
Lemma fs_spec_respond k t r (R : result ServiceError unit -> list Response -> Prop) : R (Ok tt) [r] -> spec k t t (respond true r) R.
Proof. intros HR B s Hs Hb. split; [by eapply inv_mono; [exact Hs|lia]|]. by exists [r]. Qed.

(** ** The operations on names *)

Lemma inv_set_vfs B B' t t' s v :
  service_inv B t s -> B <= B' -> Vfs.vfs_wf v -> Vfs.abstracts v t' -> Vfs.next_inode v <= B' -> Restart.over_standard v ->
  service_inv B' t' (set_vfs v s).
Proof.
  intros Hs Hle Hw Ha Hn Ho. destruct (inv_mono _ _ _ _ Hs Hle) as ((_ & _ & _ & H4 & _) & H5 & H6 & H7).
  split; [by split_and!|]. by split_and!.
Qed.

Lemma inv_lookup B t s path : service_inv B t s ->
  match Vfs.lookup_path path (vfs s) with
  | Ok n => Vfs.resolve (vfs s) (Vfs.components path) = Some n /\ t !! Vfs.components path = Some (Vfs.node_type n)
  | Err _ => t !! Vfs.components path = None
  end.
Proof.
  intros ((Hw & Ha & _) & _). rewrite Vfs.lookup_path_resolve.
  destruct (Vfs.resolve _ _) as [n|] eqn:E; cbn; [split; [done|by eapply Vfs.abstracts_resolve]|]. by rewrite <- Ha, E.
Qed.

Lemma is_directory_tree n : Vfs.is_directory n = bool_decide (Some (Vfs.node_type n) = Some Vfs.Directory).
Proof. unfold Vfs.is_directory. apply bool_decide_ext. split; congruence. Qed.

(** a node is made under the node of a path *)
Lemma create_spec B t s ty pp p nm ow :
  service_inv B t s -> B + 1 < 2 ^ 63 -> Vfs.resolve (vfs s) pp = Some p ->
  exists v r, Vfs.create_node ty (Vfs.inode p) nm ow (vfs s) = Done (v, r)  /\
    service_inv (B + 1) (fst (Vfs.tree_create ty pp nm t)) (set_vfs v s) /\ is_ok r = snd (Vfs.tree_create ty pp nm t).
Proof.
  intros Hs Hb Hp. pose proof Hs as ((Hw & Ha & Hn & _ & Ho) & _).
  destruct (Vfs.create_refines _ _ ty _ _ nm ow Hw Ha ltac:(lia) Hp) as (v & r & Hc & Hw' & Hn' & Ha' & Hr).
  exists v, r. split; [done|]. split; [|done]. apply (inv_set_vfs B _ t); [done|lia|done|done|lia|].
  by eapply (Restart.standard_created (vfs s)); [..|lia|exact Hp|exact Hc].
Qed.

(** of a request about names: no answer, and it succeeds as the tree says *)
Definition names_post {A : Type} (b : bool) (r : result ServiceError A) (l : list Response) : Prop := is_ok r = b /\ l = [].

Lemma split_path_at path :
  match split_path path with
  | Ok (pp, nm) => mkdir_at path = Some (Vfs.components pp, nm)
  | Err _ => mkdir_at path = None
  end.
Proof.
  unfold mkdir_at. destruct (Vfs.components path) as [|nm cs _] eqn:E using rev_ind.
  - unfold split_path. rewrite E. by case_bool_decide.
  - destruct (split_path_spec _ _ _ E) as (pp & -> & <-). rewrite rev_app_distr. cbn [rev app]. by rewrite rev_involutive.
Qed.

Lemma create_node_spec ty pid path t :
  spec 1 t (fst (tree_create_at ty (mkdir_at path) t)) (handle_create_node ty pid path)
    (names_post (snd (tree_create_at ty (mkdir_at path) t))).
Proof.
  unfold handle_create_node. apply fs_spec_get. intros B s Hs Hb. rewrite HM_bind_eq. cbn [of_result].
  pose proof (split_path_at path) as Hat. unfold of_result. destruct (split_path path) as [[pp nm]|e]; rewrite Hat; cbn [tree_create_at].
  2: { by apply (leads_done B); [|lia|]. }
  rewrite HM_bind_eq. pose proof (inv_lookup _ _ _ pp Hs) as Hl. destruct (Vfs.lookup_path pp (vfs s)) as [p|e].
  2: { unfold Vfs.tree_create. rewrite Hl. by apply (leads_done B); [|lia|]. }
  destruct Hl as [Hp Ht]. destruct (Vfs.is_directory p) eqn:Hd; cbn [negb].
  - destruct (create_spec _ _ _ ty _ _ nm pid Hs Hb Hp) as (v & r & Hc & Hi & Hr). rewrite HM_bind_eq. unfold on_vfs.
    rewrite Hc. destruct r; (split; [exact Hi|]); exists []; by rewrite app_nil_r, <- Hr.
  - unfold Vfs.tree_create. rewrite Ht, <- is_directory_tree, Hd. by apply (leads_done B); [|lia|].
Qed.

(** the node of a path is deleted *)
Lemma delete_spec B t s path n :
  service_inv B t s -> Vfs.resolve (vfs s) (Vfs.components path) = Some n ->
  leads B (fst (Vfs.tree_delete (Vfs.components path) t)) (answers s) (names_post (snd (Vfs.tree_delete (Vfs.components path) t)))
    (on_vfs (Vfs.delete_node (Vfs.inode n)) s).
Proof.
  intros Hs Hn. pose proof Hs as ((Hw & Ha & Hx & _ & Ho) & _).
  destruct (Vfs.delete_refines _ _ _ _ Hw Ha Hn) as (v & r & Hd & Hw' & Hn' & Ha' & Hr). unfold on_vfs. rewrite Hd.
  split; [|exists []; by rewrite app_nil_r]. apply (inv_set_vfs B _ t); [done|lia|done|done|lia|].
  by eapply (Restart.standard_deleted (vfs s)); [..|exact Hn|exact Hd].
Qed.

Lemma handle_delete_spec k t path :
  spec k t (fst (Vfs.tree_delete (Vfs.components path) t)) (handle_delete path)
    (names_post (snd (Vfs.tree_delete (Vfs.components path) t))).
Proof.
  unfold handle_delete. apply fs_spec_get. intros B s Hs Hb. rewrite HM_bind_eq. unfold of_result.
  pose proof (inv_lookup _ _ _ path Hs) as Hl. destruct (Vfs.lookup_path path (vfs s)) as [n|e].
  - apply delete_spec; [by eapply inv_mono; [exact Hs|lia]|apply Hl].
  - unfold Vfs.tree_delete. rewrite Hl. by apply (leads_done B); [|lia|].
Qed.

Lemma handle_rmdir_spec k t path :
  spec k t (fst (tree_request (FileRequest.RemoveDirectory path) t)) (handle_rmdir path)
    (names_post (snd (tree_request (FileRequest.RemoveDirectory path) t))).
Proof.
  unfold handle_rmdir. apply fs_spec_get. intros B s Hs Hb. rewrite HM_bind_eq. unfold of_result. cbn [tree_request].
  pose proof (inv_lookup _ _ _ path Hs) as Hl. pose proof Hs as ((Hw & Ha & _) & _).
  destruct (Vfs.lookup_path path (vfs s)) as [n|e].
  - destruct Hl as [Hr Ht]. rewrite Ht, <- is_directory_tree. destruct (Vfs.is_directory n) eqn:Hd; cbn [negb].
    + case_bool_decide as He; cbn [negb].
      * apply delete_spec; [by eapply inv_mono; [exact Hs|lia]|done].
      * unfold Vfs.tree_delete. rewrite Ht. change (bool_decide (Vfs.node_type n = Vfs.Directory)) with (Vfs.is_directory n).
        rewrite Hd, (Vfs.has_child_spec _ _ _ _ Hw Ha Hr), bool_decide_false by done.
        by apply (leads_done B); [|lia|].
    + by apply (leads_done B); [|lia|].
  - rewrite Hl. by apply (leads_done B); [|lia|].
Qed.

(** the requests that only look a path up *)
Lemma lookup_spec {A : Type} k t path (f : Vfs.VFSNode -> F A) (b : bool) (R : result ServiceError A -> list Response -> Prop) :
  (forall B s n, service_inv B t s -> t !! Vfs.components path = Some (Vfs.node_type n) ->
     exists r, f n s = Done (s, r) /\ R r []) ->
  (t !! Vfs.components path = None -> forall e, R (Err e) []) ->
  spec k t t (s ← get; n ← of_result (Vfs.lookup_path path (vfs s)); f n) R.
Proof.
  intros Hf He. apply fs_spec_get. intros B s Hs Hb. rewrite HM_bind_eq. unfold of_result.
  pose proof (inv_lookup _ _ _ path Hs) as Hl. destruct (Vfs.lookup_path path (vfs s)) as [n|e].
  - destruct (Hf B s n Hs (proj2 Hl)) as (r & -> & HR). by apply (leads_done B); [|lia|].
  - apply (leads_done B); [done|lia|by apply He].
Qed.

Lemma handle_stat_spec k t path : spec k t t (handle_stat path) (names_post (bool_decide (is_Some (t !! Vfs.components path)))).
Proof.
  unfold handle_stat. eapply (lookup_spec _ _ _ (fun _ => mret tt) true).
  - intros B s n Hs Ht. eexists. split; [done|]. split; [|done]. by rewrite bool_decide_true by (by eexists).
  - intros Ht e. split; [|done]. rewrite bool_decide_false; [done|]. rewrite Ht. by intros [].
Qed.

Lemma listing_spec {A : Type} k t path (l : Vfs.VFSNode -> A) :
  spec k t t (s ← get; n ← of_result (Vfs.lookup_path path (vfs s));
              if negb (Vfs.is_directory n) then throw InvalidArguments else mret (l n))
    (names_post (bool_decide (t !! Vfs.components path = Some Vfs.Directory))).
Proof.
  eapply (lookup_spec _ _ _ (fun n => if negb (Vfs.is_directory n) then throw InvalidArguments else mret (l n)) true).
  - intros B s n Hs ->. rewrite <- is_directory_tree. destruct (Vfs.is_directory n); by eexists.
  - by intros ->.
Qed.

(** ** The operations on files *)

(** at most one answer, that tells of a failure, if the operation tells *)
Definition told (b : bool) (l : list Response) : Prop := l = [] \/ b = true /\ exists e, l = [Err e].
Definition fd_post {A : Type} (b : bool) (r : result ServiceError A) (l : list Response) : Prop :=
  match r with Ok _ => l = [] | Err _ => told b l end.
Definition says (b : bool) (say : ResponseError -> F unit) : Prop :=
  forall k t e, spec k t t (say e) (fun r l => r = Ok tt /\ told b l).

Lemma silent_says : says false silent.
Proof. intros k t e. apply spec_done. by split; [|left]. Qed.
Lemma tell_says : says true (tell true).
Proof. intros k t e. apply fs_spec_respond. split; [done|]. right. split; [done|]. by exists e. Qed.

(** an error that is told before the operation fails *)
Lemma say_throw {A : Type} b say e e' B B' t s :
  says b say -> service_inv B t s -> B <= B' -> B' < 2 ^ 63 ->
  leads B' t (answers s) (fd_post (A := A) b) ((_ ← say e; throw e') s).
Proof.
  intros Hsay Hs Hle Hb. rewrite HM_bind_eq. pose proof (Hsay (B' - B) t e B s Hs ltac:(lia)) as H. unfold leads in H.
  destruct (say e s) as [[s' r]| |]; try done. destruct H as [Hi (l & Hl & -> & Ht)].
  replace (B + (B' - B)) with B' in Hi by lia. split; [done|]. by exists l.
Qed.

Lemma rfind_slash_split s : match rfind_slash s with Some (a, b) => s = a ++ 47 :: b | None => True end.
Proof.
  induction s as [|x s IH]; [done|]. cbn. destruct (rfind_slash s) as [[a b]|]; [by rewrite IH|].
  by destruct (N.eqb_spec x 47) as [->|].
Qed.
Lemma rfind_slash_last s : match rfind_slash s with Some (a, b) => 47 ∉ b | None => 47 ∉ s end.
Proof.
  induction s as [|x s IH]; [by apply not_elem_of_nil|]. cbn. destruct (rfind_slash s) as [[a b]|]; [done|].
  destruct (N.eqb_spec x 47) as [->|]; [done|]. apply not_elem_of_cons. by split.
Qed.

Lemma parent_and_name_spec path pp nm : parent_and_name path = Some (pp, nm) ->
  Vfs.components path = Vfs.components pp ++ (if bool_decide (nm = []) then [] else [nm]).
Proof.
  unfold parent_and_name. pose proof (rfind_slash_split path) as H1. pose proof (rfind_slash_last path) as H2.
  destruct (rfind_slash path) as [[a b]|]; [|done]. intros E.
  assert (Hnm : b = nm /\ Vfs.components pp = Vfs.components a).
  { destruct a; injection E as <- <-; by split. }
  destruct Hnm as [-> ->]. rewrite H1, components_app. f_equal. case_bool_decide as Hn; [by subst nm|by apply components_name].
Qed.

Lemma create_missing_spec b say pid path t :
  says b say -> t !! Vfs.components path = None ->
  spec 1 t (fst (tree_create_at Vfs.File (open_at path) t)) (create_missing say pid path) (fd_post b).
Proof.
  intros Hsay Ht B s Hs Hb. unfold create_missing, open_at. destruct (parent_and_name path) as [[pp nm]|] eqn:E.
  2: { by apply (say_throw _ _ _ _ B); [| |lia|]. }
  pose proof (parent_and_name_spec _ _ _ E) as Hc. pose proof (inv_lookup _ _ _ pp Hs) as Hl. cbn [tree_create_at fst].
  rewrite HM_bind_eq. cbn [get]. unfold get. destruct (Vfs.lookup_path pp (vfs s)) as [p|e].
  2: { unfold Vfs.tree_create. rewrite Hl. by apply (say_throw _ _ _ _ B); [| |lia|]. }
  destruct Hl as [Hp Hpt]. rewrite HM_bind_eq.
  destruct (create_spec _ _ _ Vfs.File _ _ nm pid Hs Hb Hp) as (v & r & Hcr & Hi & Hr). unfold Vfs.create_file. rewrite Hcr.
  destruct r as [i|e]; rewrite HM_bind_eq; unfold update;
    change (answers s) with (answers (set_vfs v s)).
  - destruct (Vfs.lookup_path path v) as [n|e]; [|by apply (say_throw _ _ _ _ (B + 1)); [| |lia|]].
    by apply (leads_done (B + 1)); [|lia|].
  - by apply (say_throw _ _ _ _ (B + 1)); [| |lia|].
Qed.

Definition tree_open (path : str) (fl : FileRequest.OpenFlags) (t : Vfs.Tree) : Vfs.Tree :=
  fst (tree_request (FileRequest.Open path fl) t).

Lemma find_or_create_spec b say pid path fl t : says b say -> spec 1 t (tree_open path fl t) (find_or_create say pid path fl) (fd_post b).
Proof.
  intros Hsay. unfold find_or_create, tree_open. cbn [tree_request]. apply fs_spec_get. intros B s Hs Hb.
  pose proof (inv_lookup _ _ _ path Hs) as Hl. destruct (Vfs.lookup_path path (vfs s)) as [n|e].
  - rewrite (bool_decide_false (t !! _ = None)), andb_false_r by (rewrite (proj2 Hl); done). by apply (leads_done B); [|lia|].
  - rewrite bool_decide_true, andb_true_r by done. destruct (FileRequest.create fl).
    + by apply create_missing_spec.
    + by apply (say_throw _ _ _ _ B); [| |lia|].
Qed.

Lemma read_sectors_length d : forall ss bs, Files.read_sectors d ss = Ok bs -> len bs <= len ss * 512.
Proof.
  induction ss as [|x ss IH]; cbn [Files.read_sectors]; intros bs E; [by injection E as <-|].
  destruct (Disk.read_sector d x) as [b|] eqn:Hb; [|done]. cbn in E. destruct (Files.read_sectors d ss) as [rest|]; [|done].
  cbn in E. injection E as <-. specialize (IH _ eq_refl). apply Disk.read_sector_ok in Hb as [_ Hb].
  unfold Disk.file_read in Hb. destruct (_ <=? _); [|done]. injection Hb as <-. rewrite length_app, length_take. cbn [length].
  unfold Disk.SECTOR_SIZE. lia.
Qed.

(** what an inode not open before loads is at most what 2^32 sectors hold *)
Lemma fresh_file_bound s i path pid m :
  len (Files.data (fresh_file s i path pid m)) <= 2 ^ 41 /\ Files.position (fresh_file s i path pid m) = 0.
Proof.
  unfold fresh_file. destruct (Vfs.lookup _ _) as [n|]; [|done]. destruct (Vfs.blocks n) as [|b bs]; [done|].
  unfold Files.load_from_disk. cbn [Files.start_sector Files.with_meta Files.with_extent Files.sector_count].
  destruct (_ =? 0); [done|]. destruct (Files.read_sectors _ _) as [d|e] eqn:E; [|done]. cbn. split; [|done].
  apply read_sectors_length in E. rewrite length_fmap, length_take in *. rewrite Disk.range_map in E. rewrite length_fmap, length_seq in E.
  assert (to_u32 (len (b :: bs)) < 2 ^ 32) by (apply N.mod_lt; done). cbn [length] in *. lia.
Qed.

Lemma inv_files B B' t s fs : service_inv B t s -> B <= B' -> (length (files s) <= length fs)%nat ->
  Forall (fun f => len (Files.data f) <= B' /\ Files.position f <= B') fs -> service_inv B' t (set_files fs s).
Proof.
  intros Hs Hle Hlen Hfs. destruct (inv_mono _ _ _ _ Hs Hle) as (H1 & H5 & H6 & _). split; [exact H1|]. split; [|split; [|done]].
  - intros i h Hh. specialize (H5 i h Hh). cbn. lia.
  - intros p n o Ho. specialize (H6 p n o Ho). cbn. lia.
Qed.
Lemma inv_file B t s h f : service_inv B t s -> files s !! h = Some f -> len (Files.data f) <= B /\ Files.position f <= B.
Proof. intros (_ & _ & _ & H) Hf. by eapply (list.Forall_lookup_1 _ _ _ _ H). Qed.

Lemma file_of_inode_spec B t s i path pid m : service_inv B t s ->
  exists h s', file_of_inode i path pid m s = Done (s', Ok h) /\ service_inv B t s' /\ answers s' = answers s /\
    (h < length (files s'))%nat.
Proof.
  intros Hs. unfold file_of_inode. rewrite HM_bind_eq. unfold get. pose proof Hs as ((_ & _ & _ & H4) & H5 & H6 & H7).
  destruct (open_files s !! i) as [h|] eqn:Eh; eexists _, _; (split; [done|]).
  - pose proof (H5 _ _ Eh). split; [|split; [done|cbn; by rewrite length_alter]].
    apply (inv_files B); [done|lia|by rewrite length_alter|]. apply Forall_alter; [done|]. intros f Hf Hb. cbn in *. lia.
  - assert (Hi : service_inv B t (set_files (files s ++ [fresh_file s i path pid m]) s)).
    { apply (inv_files B); [done|lia|rewrite length_app; lia|]. apply Forall_app. split; [done|]. apply list.Forall_singleton.
      pose proof (fresh_file_bound s i path pid m). lia. }
    destruct Hi as (G1 & G5 & G6 & G7). split; [|cbn; rewrite length_app; cbn; split; [done|lia]].
    split; [exact G1|]. split; [|split; [exact G6|exact G7]]. intros j h Hh. cbn in *.
    destruct (decide (i = j)) as [->|]; [rewrite lookup_insert_eq in Hh|rewrite lookup_insert_ne in Hh by done; by apply (G5 j)].
    injection Hh as <-. rewrite length_app. cbn. lia.
Qed.

(** *** Descriptors *)

Definition fds_in (L : nat) (m : Files.FileDescriptorManager) : Prop :=
  forall pid n o, Files.get pid n m = Some o -> (Files.file o < L)%nat.

Lemma fds_in_table L m pid : fds_in L m -> forall n o, Files.descriptors (Files.get_table pid m) !! n = Some o -> (Files.file o < L)%nat.
Proof.
  intros Hm n o. unfold Files.get_table. destruct (Files.process_tables m !! pid) as [t|] eqn:E; cbn; [|by rewrite lookup_empty].
  intros Ho. apply (Hm pid n). unfold Files.get. by rewrite E.
Qed.
Lemma fds_in_set L m pid t : fds_in L m -> (forall n o, Files.descriptors t !! n = Some o -> (Files.file o < L)%nat) ->
  fds_in L (Files.set_table pid t m).
Proof.
  intros Hm Ht p n o. unfold Files.get, Files.set_table. cbn. destruct (decide (pid = p)) as [->|].
  - rewrite lookup_insert_eq. apply Ht.
  - rewrite lookup_insert_ne by done. apply Hm.
Qed.
Lemma fds_in_allocate L m pid h fl : fds_in L m -> (h < L)%nat -> fds_in L (fst (Files.allocate pid h fl m)).
Proof.
  intros Hm Hh. unfold Files.allocate, Files.table_allocate. pose proof (fds_in_table _ _ pid Hm) as Ht.
  destruct (_ <=? _); cbn; (apply fds_in_set; [done|]); [done|]. intros n o. cbn.
  destruct (decide (Files.next_fd (Files.get_table pid m) = n)) as [->|]; [rewrite lookup_insert_eq; by intros [= <-]|].
  rewrite lookup_insert_ne by done. apply Ht.
Qed.
Lemma fds_in_close L m pid n : fds_in L m -> fds_in L (fst (Files.close pid n m)).
Proof.
  intros Hm. unfold Files.close, Files.on_table. destruct (Files.process_tables m !! pid) as [t|] eqn:E; [|done].
  assert (Ht : forall k o, Files.descriptors t !! k = Some o -> (Files.file o < L)%nat).
  { intros k o Ho. apply (Hm pid k). unfold Files.get. by rewrite E. }
  unfold Files.table_close. destruct (Files.descriptors t !! n); cbn; (apply fds_in_set; [done|]); [|done].
  intros k o'. cbn. intros [_ Ho]%lookup_delete_Some. by apply Ht in Ho.
Qed.
Lemma fds_in_clone_fd L from to_ m n : fds_in L m -> fds_in L (Files.clone_fd from to_ m n).
Proof.
  intros Hm. unfold Files.clone_fd. destruct (Files.get from n m) as [src|] eqn:Es; [|done].
  destruct (Files.process_tables m !! to_) as [t|] eqn:E; [|done]. apply fds_in_set; [done|]. intros k o. cbn.
  destruct (decide (n = k)) as [->|]; [rewrite lookup_insert_eq; intros [= <-]; exact (Hm from k src Es)|].
  rewrite lookup_insert_ne by done. intros Ho. apply (Hm to_ k). unfold Files.get. by rewrite E.
Qed.
Lemma fds_in_clone_fds L from to_ m : fds_in L m -> fds_in L (Files.clone_fds from to_ m).
Proof.
  intros Hm. unfold Files.clone_fds.
  assert (H : fds_in L (Files.set_table to_ (Files.get_table to_ m) m)) by (apply fds_in_set; [done|by apply fds_in_table]).
  destruct (_ !! from) as [t|]; [|done]. generalize (Files.list_fds t). intros ns. revert H.
  generalize (Files.set_table to_ (Files.get_table to_ m) m). induction ns as [|n ns IH]; intros m' H; [done|].
  cbn. by apply IH, fds_in_clone_fd.
Qed.

Lemma inv_fds B t s m : service_inv B t s -> fds_in (length (files s)) m -> service_inv B t (set_fds m s).
Proof. intros (H1 & H5 & _ & H7) Hm. done. Qed.

Lemma open_path_spec b say pid path fl t : says b say -> spec 1 t (tree_open path fl t) (open_path say pid path fl) (fd_post b).
Proof.
  intros Hsay. unfold open_path. change 1 with (1 + 0) at 1.
  eapply fs_spec_bind; [by apply find_or_create_spec| |done]. intros n ? ->. intros B s Hs Hb. cbn [app].
  destruct (negb (Vfs.is_file n)); [by apply (say_throw _ _ _ _ B); [| |lia|lia]|].
  destruct (file_of_inode_spec _ _ _ (Vfs.inode n) path pid (open_flags_to_mode fl) Hs) as (h & s' & E & Hi & Ha & Hh).
  rewrite HM_bind_eq, E. unfold on_fds. pose proof Hi as (_ & _ & Hf & _).
  pose proof (fds_in_allocate _ _ pid h 0 Hf Hh) as Hm. destruct (Files.allocate _ _ _ _) as [m r].
  split; [apply inv_mono with B; [by apply inv_fds|lia]|]. exists []. cbn. rewrite Ha, app_nil_r. split; [done|].
  destruct r; [done|by left].
Qed.

Lemma clone_spec k from to_ t : spec k t t (clone from to_) (fun r l => r = Ok tt /\ l = []).
Proof.
  intros B s Hs Hb. split; [|exists []; by rewrite app_nil_r]. apply inv_mono with B; [|lia]. apply inv_fds; [done|].
  apply fds_in_clone_fds. exact (proj1 (proj2 (proj2 Hs))).
Qed.

Lemma close_spec k pid n t : spec k t t (on_fds (Files.close pid n)) (fun r l => l = []).
Proof.
  intros B s Hs Hb. unfold on_fds. pose proof Hs as (_ & _ & Hf & _). pose proof (fds_in_close _ _ pid n Hf) as Hm.
  destruct (Files.close _ _ _) as [m r]. split; [apply inv_mono with B; [by apply inv_fds|lia]|]. exists [].
  by rewrite app_nil_r.
Qed.

(** *** Content *)

(** a read or a write of one file *)
Lemma on_files_spec {A : Type} (m : HM Files.File A) h B B' t s :
  service_inv B t s -> B <= B' -> (h < length (files s))%nat ->
  (forall f, len (Files.data f) <= B /\ Files.position f <= B ->
     exists f' r, m f = Done (f', r) /\ len (Files.data f') <= B' /\ Files.position f' <= B') ->
  exists f f' r, files s !! h = Some f /\ m f = Done (f', r) /\
    on_files (Files.on_file h m) s = Done (set_files (<[h := f']> (files s)) s, r) /\
    service_inv B' t (set_files (<[h := f']> (files s)) s).
Proof.
  intros Hs Hle Hh Hm. destruct (lookup_lt_is_Some_2 _ _ Hh) as [f Hf]. destruct (Hm f (inv_file _ _ _ _ _ Hs Hf)) as (f' & r & E & Hb).
  exists f, f', r. split; [done|]. split; [done|]. split; [unfold on_files, Files.on_file; by rewrite Hf, E|].
  apply (inv_files B); [done|done|by rewrite length_insert|]. apply Forall_insert; [|done].
  pose proof Hs as (_ & _ & _ & H7). eapply list.Forall_impl; [exact H7|]. cbn. lia.
Qed.

Lemma read_fd_spec b say pid n count t : says b say -> spec count t t (read_fd say pid n count) (fd_post b).
Proof.
  intros Hsay. unfold read_fd. apply fs_spec_get. intros B s Hs Hb. destruct (Files.get pid n (fd_manager s)) as [o|] eqn:Eo.
  2: { by apply (say_throw _ _ _ _ B); [| |lia|]. }
  assert (Hh : (Files.file o < length (files s))%nat) by (pose proof Hs as (_ & _ & H & _); by eapply H).
  destruct (on_files_spec (Files.read count) (Files.file o) B (B + count) t s Hs ltac:(lia) Hh) as (f & f' & r & _ & _ & E & Hi).
  - intros f [H1 H2]. destruct (decide (Files.mode f = Files.Write)) as [Hm|Hm].
    + unfold Files.read. rewrite bool_decide_true by done. eexists _, _. split; [done|]. lia.
    + rewrite Files.read_spec by (done || lia). eexists _, _. split; [done|]. cbn. lia.
  - unfold Files.of_read. rewrite E. split; [done|]. exists []. rewrite app_nil_r. split; [done|]. destruct r; [done|by left].
Qed.

Lemma with_data_sync f d : let '(f', d', _) := Files.sync_to_disk f d in
  Files.data f' = Files.data f /\ Files.position f' = Files.position f.
Proof.
  unfold Files.sync_to_disk. destruct (_ && _); [done|]. destruct (_ =? 0); [done|].
  destruct (Disk.allocate_sectors _ _) as [d2 [st|e]]; [|done]. destruct (Files.write_sectors _ _ _ _) as [d3 [u|e]]; done.
Qed.

Lemma sync_handle_spec k h t : forall B s, service_inv B t s -> (h < length (files s))%nat ->
  exists b s', sync_handle h s = Done (s', Ok b) /\ service_inv (B + k) t s' /\ answers s' = answers s /\
    length (files s') = length (files s).
Proof.
  intros B s Hs Hh. destruct (lookup_lt_is_Some_2 _ _ Hh) as [f Hf]. unfold sync_handle. rewrite Hf.
  pose proof (with_data_sync f (disk s)) as Hd. destruct (Files.sync_to_disk f (disk s)) as [[f' d'] r]. destruct Hd as [Hd Hp].
  eexists _, _. split; [done|]. split; [|cbn; by rewrite length_insert].
  assert (Hi : service_inv (B + k) t (set_files (<[h := f']> (files s)) s)); [|exact Hi].
  pose proof (inv_file _ _ _ _ _ Hs Hf). apply (inv_files B); [done|lia|by rewrite length_insert|].
  apply Forall_insert; [|rewrite Hd, Hp; lia]. pose proof Hs as (_ & _ & _ & H7). eapply list.Forall_impl; [exact H7|]. cbn. lia.
Qed.

Lemma record_spec B t s i sz bs : service_inv B t s -> service_inv B t (set_vfs (Vfs.record i sz bs (vfs s)) s).
Proof.
  intros Hs. pose proof Hs as ((Hw & Ha & Hn & _ & Ho) & _).
  apply (inv_set_vfs B _ t); [done|lia|by apply Vfs.record_wf| |done|by apply Restart.standard_recorded].
  intros cs. rewrite Vfs.resolve_record, <- Ha by done. destruct (Vfs.resolve _ _) as [n|]; [|done]. cbn.
  destruct (Vfs.extended_keeps i sz bs n) as (_ & _ & -> & _). done.
Qed.

Lemma record_extent_spec B t s h : service_inv B t s ->
  exists s', record_extent h s = Done (s', Ok tt) /\ service_inv B t s' /\ answers s' = answers s.
Proof.
  intros Hs. unfold record_extent. rewrite HM_bind_eq. unfold get. destruct (files s !! h) as [f|]; [|by exists s].
  destruct (Files.start_sector f) as [st|]; [|by exists s]. eexists. split; [done|]. split; [by apply record_spec|done].
Qed.

Lemma write_within f bs B :
  len (Files.data f) <= B /\ Files.position f <= B -> B + len bs < 2 ^ 63 ->
  exists f' r, Files.write bs f = Done (f', r) /\ len (Files.data f') <= B + len bs /\ Files.position f' <= B + len bs.
Proof.
  intros [H1 H2] Hb. assert (Hp : Files.write_pos f <= B) by (unfold Files.write_pos; by case_bool_decide).
  destruct (decide (Files.mode f = Files.Read)) as [Hm|Hm].
  - unfold Files.write. rewrite bool_decide_true by done. eexists _, _. split; [done|]. lia.
  - rewrite Files.write_spec by (done || lia). eexists _, _. split; [done|]. cbn. rewrite Files.overwritten_length. lia.
Qed.

(** *** Files of the host *)

Definition tree_import (vfs_dir fname : str) (t : Vfs.Tree) : Vfs.Tree :=
  if imports fname && bool_decide (t !! Vfs.components (vfs_dir ++ [47] ++ fname) = None)
  then fst (Vfs.tree_create Vfs.File (Vfs.components vfs_dir) fname t) else t.
Definition tree_imports (vfs_dir : str) (host : list (str * list N)) (t : Vfs.Tree) : Vfs.Tree :=
  foldl (fun t e => tree_import vfs_dir (fst e) t) t host.
Definition import_cost (host : list (str * list N)) : N := foldr (fun e n => 1 + len (snd e) + n) 0 host.

Lemma import_target_spec B t s vfs_dir fname :
  service_inv B t s -> B + 1 < 2 ^ 63 -> imports fname = true ->
  exists v target, import_target vfs_dir fname (vfs s) = Done (v, target) /\
    service_inv (B + 1) (tree_import vfs_dir fname t) (set_vfs v s).
Proof.
  intros Hs Hb Hi. unfold import_target, tree_import. rewrite Hi. cbv zeta. cbn [andb].
  assert (Hsame : service_inv (B + 1) t (set_vfs (vfs s) s)).
  { pose proof Hs as ((Hw & Ha & Hn & _ & Ho) & _). apply (inv_set_vfs B _ t); [done|lia|done|done|lia|done]. }
  set (path := vfs_dir ++ [47] ++ fname). pose proof (inv_lookup _ _ _ path Hs) as Hl.
  destruct (Vfs.lookup_path path (vfs s)) as [n|e].
  { destruct Hl as [_ ->]. rewrite bool_decide_false by done. by eexists _, _. }
  rewrite bool_decide_true by done. pose proof (inv_lookup _ _ _ vfs_dir Hs) as Hd.
  destruct (Vfs.lookup_path vfs_dir (vfs s)) as [p|e'].
  2: { unfold Vfs.tree_create. rewrite Hd. cbn. by eexists _, _. }
  destruct Hd as [Hp _]. destruct (create_spec _ _ _ Vfs.File _ _ fname 0 Hs Hb Hp) as (v & r & Hc & Hv & _).
  unfold Vfs.create_file. rewrite Hc. cbn [mbind outcome_bind]. by eexists _, _.
Qed.

Lemma import_file_spec B t s vfs_dir e :
  service_inv B t s -> B + (1 + len e.2) < 2 ^ 63 ->
  exists s', import_file vfs_dir e s = Done s' /\ service_inv (B + (1 + len e.2)) (tree_import vfs_dir e.1 t) s' /\ answers s' = answers s.
Proof.
  intros Hs Hb. destruct e as [fname content]. cbn [fst snd] in *. unfold import_file. destruct (imports fname) eqn:Hi; cbn [negb].
  2: { unfold tree_import. rewrite Hi. cbn. exists s. split; [done|]. split; [eapply inv_mono; [exact Hs|lia]|done]. }
  destruct (import_target_spec _ _ _ vfs_dir fname Hs ltac:(lia) Hi) as (v & target & Ht & Hv).
  rewrite Ht. cbn [mbind outcome_bind]. apply (inv_mono _ (B + (1 + len content))) in Hv; [|lia].
  destruct target as [i|]; [|by eexists]. destruct (write_within (Files.File_new i (vfs_dir ++ [47] ++ fname) 0 Files.Write) content 0)
    as (f & r & Hw & _); [done|lia|]. rewrite Hw. cbn [mbind outcome_bind].
  destruct (Files.sync_to_disk f (disk (set_vfs v s))) as [[f' d] r']. destruct (Files.start_sector f') as [start|]; [|by eexists].
  eexists. split; [done|]. split; [|done]. by apply record_spec.
Qed.

Lemma import_host_files_spec vfs_dir host : forall B t s,
  service_inv B t s -> B + import_cost host < 2 ^ 63 ->
  exists s', import_host_files vfs_dir host s = Done s' /\
    service_inv (B + import_cost host) (tree_imports vfs_dir host t) s' /\ answers s' = answers s.
Proof.
  induction host as [|e host IH]; intros B t s Hs Hb; cbn [import_host_files tree_imports foldl import_cost foldr] in *.
  { exists s. by rewrite N.add_0_r. }
  fold (import_cost host) in *. destruct (import_file_spec _ _ _ vfs_dir e Hs ltac:(lia)) as (s1 & -> & H1 & A1).
  cbn [mbind outcome_bind]. destruct (IH _ _ _ H1 ltac:(lia)) as (s2 & -> & H2 & A2). exists s2. split; [done|].
  rewrite A2, A1. split; [|done]. by rewrite (N.add_assoc B (1 + len e.2)).
Qed.

Lemma write_fd_spec b say pid n bs t : says b say -> spec (len bs) t t (write_fd say pid n bs) (fd_post b).
Proof.
  intros Hsay. unfold write_fd. apply fs_spec_get. intros B s Hs Hb. destruct (Files.get pid n (fd_manager s)) as [o|] eqn:Eo.
  2: { by apply (say_throw _ _ _ _ B); [| |lia|]. }
  assert (Hh : (Files.file o < length (files s))%nat) by (pose proof Hs as (_ & _ & H & _); by eapply H).
  destruct (on_files_spec (Files.write bs) (Files.file o) B (B + len bs) t s Hs ltac:(lia) Hh) as (f & f' & r & _ & _ & E & Hi).
  { intros f Hf. by apply write_within. }
  rewrite HM_bind_eq. unfold Files.of_write. rewrite E. destruct r as [w|e].
  2: { split; [done|]. exists []. rewrite app_nil_r. split; [done|by left]. }
  rewrite HM_bind_eq.
  destruct (sync_handle_spec 0 (Files.file o) t _ _ Hi) as (bs' & s2 & E2 & Hi2 & Ha2 & _); [cbn; by rewrite length_insert|].
  rewrite E2. rewrite N.add_0_r in Hi2. rewrite HM_bind_eq. destruct bs'.
  - destruct (record_extent_spec _ _ _ (Files.file o) Hi2) as (s3 & -> & Hi3 & Ha3). split; [done|]. exists [].
    rewrite app_nil_r. by rewrite Ha3, Ha2.
  - split; [done|]. exists []. rewrite app_nil_r. by rewrite Ha2.
Qed.

(** [vec![0u8; size]], then the write *)
Lemma zeros_write_spec size t (m : list N -> F unit) (R : result ServiceError unit -> list Response -> Prop) :
  (forall bs, len bs = size -> spec size t t (m bs) R) -> spec size t t (bs ← zeros size; m bs) R.
Proof.
  intros Hm B s Hs Hb. unfold zeros. rewrite HM_bind_eq, (proj2 (N.leb_gt _ _)) by lia.
  apply Hm; [rewrite length_replicate; lia|done|done].
Qed.

Lemma close_with_response_spec k pid n t :
  spec k t t (handle_close_with_response true pid n) (fun r l => match r with Ok _ => l = [Ok Void] | Err _ => l = [] end).
Proof.
  unfold handle_close_with_response. apply fs_spec_get. intros B s Hs Hb. rewrite HM_bind_eq.
  assert (Hsync : exists s', (match Files.get pid n (fd_manager s) with
                  | Some o => match files s !! Files.file o with
                              | Some f => if Files.is_dirty f then _ ← sync_handle (Files.file o); mret tt else mret tt
                              | None => mret tt
                              end
                  | None => mret tt
                  end) s = Done (s', Ok tt) /\ service_inv B t s' /\ answers s' = answers s).
  { destruct (Files.get pid n (fd_manager s)) as [o|]; [|by exists s]. destruct (files s !! Files.file o) as [f|] eqn:Ef; [|by exists s].
    destruct (Files.is_dirty f); [|by exists s]. apply lookup_lt_Some in Ef.
    destruct (sync_handle_spec 0 _ _ _ _ Hs Ef) as (b & s' & E & Hi & Ha & _). exists s'. rewrite HM_bind_eq, E.
    by rewrite N.add_0_r in Hi. }
  destruct Hsync as (s' & -> & Hi & Ha). rewrite <- Ha.
  refine (fs_spec_bind 0 k t t t _ (fun _ => respond true (Ok Void)) (fun _ l => l = []) _ (close_spec 0 pid n t) _ _ B s' Hi Hb).
  - intros a l ->. by apply fs_spec_respond.
  - by intros e l ->.
Qed.

(** ** Requests *)

(** how far a request may move the bounds *)
Definition cost (req : FileRequest.t) : N :=
  match req with
  | FileRequest.Open _ _ | FileRequest.CreateDirectory _ => 1
  | FileRequest.Read _ _ _ size | FileRequest.Write _ _ _ size => size
  | FileRequest.WriteData _ bs => len bs
  | _ => 0
  end.

(** an operation whose result is dropped, or handed to an answer *)
Lemma finish_spec {A C : Type} k t t' (m : F A) (f : A -> F C) Q R :
  spec k t t' m Q -> (forall a l, Q (Ok a) l -> spec 0 t' t' (f a) (fun r l' => R r (l ++ l'))) ->
  (forall e l, Q (Err e) l -> R (Err e) l) -> spec k t t' (m ≫= f) R.
Proof. intros Hm Hf He. replace k with (k + 0) by lia. eapply fs_spec_bind; [exact Hm|exact Hf|]. intros e l H. by split; [|apply He]. Qed.

Lemma spec_skip {A : Type} k t (a : A) (R : result ServiceError A -> list Response -> Prop) : R (Ok a) [] -> spec k t t (mret a) R.
Proof. by apply spec_done. Qed.

Ltac drop_result H := eapply finish_spec; [by apply H, silent_says|by intros a l ->; apply spec_skip|by intros e l [->|[? _]]].

(** the handlers that do not answer *)
Lemma silent_request_spec req t :
  spec (cost req) t (fst (tree_request req t)) (handle_file_request req) (fun _ l => l = []).
Proof.
  assert (Hn : forall (A : Type) k t1 t2 b (m : F A), spec k t1 t2 m (names_post b) -> spec k t1 t2 m (fun _ l => l = [])).
  { intros A k t1 t2 b m Hm. eapply fs_spec_weaken; [exact Hm|done|]. by intros r l [_ H]. }
  destruct req; try by apply spec_skip.
  - drop_result open_path_spec.
  - apply close_spec.
  - drop_result read_fd_spec.
  - apply zeros_write_spec. intros bs <-. drop_result write_fd_spec.
  - drop_result write_fd_spec.
  - eapply Hn, handle_delete_spec.
  - eapply Hn, handle_stat_spec.
  - eapply Hn, create_node_spec.
  - eapply Hn, handle_rmdir_spec.
  - eapply Hn, (listing_spec 0 t path (fun _ => tt)).
  - eapply (fs_spec_weaken 0); [apply clone_spec|done|by intros r l []].
Qed.

(** the answers of a handler that answers: one, and if it fails none or an error *)
Definition answered (r : result ServiceError unit) (l : list Response) : Prop :=
  match r with Ok _ => exists x, l = [x] | Err _ => told true l end.
(** of a request about names: one answer that is a success as the tree says *)
Definition names_answered (b : bool) (r : result ServiceError unit) (l : list Response) : Prop :=
  match r with Ok _ => exists x, l = [x] /\ is_ok x = b | Err _ => b = false /\ l = [] end.
Definition response_post (req : FileRequest.t) (b : bool) : result ServiceError unit -> list Response -> Prop :=
  if about_names req then names_answered b else answered.

Ltac give_result H := eapply finish_spec;
  [by apply H, tell_says|by intros a l ->; apply fs_spec_respond; eexists|by intros e l Hl].

Lemma void_after_spec k t t' m b : spec k t t' m (names_post b) -> spec k t t' (void_after true m) (names_answered b).
Proof.
  intros Hm. eapply finish_spec; [exact Hm| |].
  - intros a l [Hb ->]. apply fs_spec_respond. by eexists.
  - intros e l [Hb ->]. by split.
Qed.

Lemma response_request_spec req t :
  spec (cost req) t (fst (tree_request req t)) (handle_file_request_with_response true req)
    (response_post req (snd (tree_request req t))).
Proof.
  destruct req; try (by apply fs_spec_respond; eexists).
  - give_result open_path_spec.
  - eapply fs_spec_weaken; [apply close_with_response_spec|done|]. intros [|] l ->; [by eexists|by left].
  - give_result read_fd_spec.
  - apply zeros_write_spec. intros bs <-. give_result write_fd_spec.
  - give_result write_fd_spec.
  - apply void_after_spec, handle_delete_spec.
  - apply void_after_spec, handle_stat_spec.
  - apply void_after_spec, create_node_spec.
  - apply void_after_spec, handle_rmdir_spec.
  - apply void_after_spec, (listing_spec 0 t path (fun _ => tt)).
  - intros B s Hs Hb.
    assert (H : leads (B + 0) t (answers s) (names_post (bool_decide (t !! Vfs.components path = Some Vfs.Directory)))
                  (handle_listdir_with_response path s)) by by apply (listing_spec 0 t path).
    cbn [handle_file_request_with_response]. unfold leads in H |- *.
    destruct (handle_listdir_with_response path s) as [[s' r]| |]; try done. destruct H as (Hi & l & Hl & Hr & ->).
    destruct r; cbn in *; (split; [exact Hi|]); eexists; (split; [rewrite Hl, app_nil_r; done|]); eexists; by rewrite <- Hr.
  - apply fs_spec_get. intros B s Hs Hb. eapply fs_spec_respond; [by eexists|done|done].
  - eapply finish_spec; [apply clone_spec| |by intros e l []]. intros a l [_ ->]. apply fs_spec_respond. by eexists.
Qed.

(** what an envelope gets: nothing, if it expects nothing; else one answer, or
    the error of the handler and the error of the loop *)
Definition envelope_answers (expects : bool) (req : FileRequest.t) (b : bool) (l : list Response) : Prop :=
  if expects
  then if about_names req then exists x, l = [x] /\ is_ok x = b
       else exists x, l = [x] \/ exists e, x = Err e /\ l = [x; Err (RespOther 1)]
  else l = [].

Lemma envelope_spec expects req t :
  spec (cost req) t (fst (tree_request req t)) (handle_envelope true expects req)
    (fun r l => r = Ok tt /\ envelope_answers expects req (snd (tree_request req t)) l).
Proof.
  intros B s Hs Hb. unfold handle_envelope, envelope_answers. destruct expects.
  - pose proof (response_request_spec req t B s Hs Hb) as H. unfold leads in H.
    destruct (handle_file_request_with_response true req s) as [[s' [u|e]]| |]; try done; destruct H as (Hi & l & Hl & Hr);
      unfold response_post in Hr.
    + split; [done|]. exists l. split; [done|]. split; [done|]. destruct (about_names req); [done|]. destruct Hr as [x ->]. exists x. by left.
    + unfold respond, update. split; [exact Hi|]. exists (l ++ [Err (RespOther 1)]). cbn. rewrite Hl, app_assoc. split; [done|].
      split; [done|]. destruct (about_names req).
      * destruct Hr as [-> ->]. by eexists.
      * destruct Hr as [->|[_ [e' ->]]]; [eexists; by left|]. eexists. right. by exists e'.
  - pose proof (silent_request_spec req t B s Hs Hb) as H. unfold leads in H.
    destruct (handle_file_request req s) as [[s' [u|e]]| |]; try done; destruct H as (Hi & l & Hl & ->);
      (split; [exact Hi|]); by exists [].
Qed.

(** what the requests do to the tree, and the answers they get, in order *)
Fixpoint transcript (reqs : list (bool * FileRequest.t)) (t t' : Vfs.Tree) (l : list Response) : Prop :=
  match reqs with
  | [] => t' = t /\ l = []
  | (expects, req) :: reqs => exists l1 l2, l = l1 ++ l2 /\
      envelope_answers expects req (snd (tree_request req t)) l1 /\ transcript reqs (fst (tree_request req t)) t' l2
  end.
Definition total_cost (reqs : list (bool * FileRequest.t)) : N := foldr (fun r c => cost (snd r) + c) 0 reqs.
Definition final_tree (t : Vfs.Tree) (reqs : list (bool * FileRequest.t)) : Vfs.Tree :=
  foldl (fun t r => fst (tree_request (snd r) t)) t reqs.

Lemma run_spec reqs : forall t, spec (total_cost reqs) t (final_tree t reqs) (run true reqs)
  (fun r l => r = Ok tt /\ transcript reqs t (final_tree t reqs) l).
Proof.
  induction reqs as [|[b r] reqs IH]; intros t; [by apply spec_done|]. cbn [total_cost foldr snd run]. fold (total_cost reqs).
  eapply fs_spec_bind; [apply envelope_spec| |by intros e l []].
  intros a l1 [_ H1]. eapply fs_spec_weaken; [apply IH|done|]. intros r' l [-> H2]. split; [done|]. cbn. by exists l1, l.
Qed.

(** the tree of a new file system *)
Definition standard_tree : Vfs.Tree :=
  list_to_map (([], Vfs.Directory) :: ((fun d => ([d], Vfs.Directory)) <$> Vfs.standard_dirs)
               ++ ((fun f => ([Assembler.B "programs"; f], Vfs.File)) <$> Vfs.asm_files)).

(** a check that a tree is that of a file system *)
Definition tree_matches (v : Vfs.VirtualFileSystem) (t : Vfs.Tree) : bool :=
  bool_decide (is_Some (t !! [])) &&
  forallb (fun e => match Vfs.resolve v (fst e) with
                    | Some n => bool_decide (Vfs.node_type n = snd e) &&
                        forallb (fun c => bool_decide (is_Some (t !! (fst e ++ [fst c])))) (map_to_list (Vfs.children n))
                    | None => false
                    end) (map_to_list t).

Lemma tree_matches_abstracts v t : tree_matches v t = true -> Vfs.abstracts v t.
Proof.
  unfold tree_matches. rewrite andb_true_iff, bool_decide_eq_true, forallb_forall. intros [Hroot Hall].
  assert (Hkey : forall cs ty, t !! cs = Some ty -> exists n, Vfs.resolve v cs = Some n /\ Vfs.node_type n = ty /\
    forall c j, Vfs.children n !! c = Some j -> is_Some (t !! (cs ++ [c]))).
  { intros cs ty E. specialize (Hall (cs, ty)). rewrite <- list_elem_of_In, elem_of_map_to_list in Hall. specialize (Hall E). cbn in Hall.
    destruct (Vfs.resolve v cs) as [n|]; [|done]. apply andb_true_iff in Hall as [H1 H2]. exists n. split; [done|].
    split; [by apply bool_decide_eq_true in H1|]. intros c j Hc. rewrite forallb_forall in H2. specialize (H2 (c, j)).
    rewrite <- list_elem_of_In, elem_of_map_to_list in H2. apply H2 in Hc. by apply bool_decide_eq_true in Hc. }
  intros cs. destruct (t !! cs) as [ty|] eqn:E; [destruct (Hkey _ _ E) as (n & -> & <- & _); done|].
  induction cs as [|c cs IH] using rev_ind; [rewrite E in Hroot; by destruct Hroot|].
  rewrite Vfs.resolve_snoc. destruct (t !! cs) as [ty|] eqn:Ep.
  - destruct (Hkey _ _ Ep) as (n & -> & _ & Hch). cbn. unfold Vfs.get_child. destruct (Vfs.children n !! c) as [j|] eqn:Hc; [|done].
    destruct (Hch _ _ Hc). congruence.
  - specialize (IH eq_refl). by destruct (Vfs.resolve v cs).
Qed.

Lemma standard_tree_abstracts : Vfs.abstracts Vfs.VirtualFileSystem_new standard_tree.
Proof. apply tree_matches_abstracts. vm_compute. reflexivity. Qed.

Lemma new_inv max_fds disk_size image s : new None max_fds disk_size image = Done s ->
  service_inv (2 ^ 41) standard_tree s /\ answers s = [].
Proof.
  unfold new. destruct (Disk.new _ _) as [d| |]; [|done..]. cbn. intros [= <-]. split; [|done].
  destruct Vfs.vfs_new_wf as (Hw & _ & _ & Hn). split; [|split; [by intros i h|split; [|by constructor]]].
  - split; [exact Hw|]. split; [exact standard_tree_abstracts|]. cbn. split; [lia|]. split; [lia|]. exact Restart.standard_first.
  - intros pid n o. by unfold Files.get.
Qed.

(** a write that the service has no buffer for ends it, whatever it served before *)
Lemma large_write_panics expects fd offset buf size s :
  2 ^ 63 <= size -> handle_envelope true expects (FileRequest.Write fd offset buf size) s = Panicked.
Proof.
  intros Hn. assert (Hz : zeros size s = Panicked) by (unfold zeros; apply N.leb_le in Hn; by rewrite Hn).
  unfold handle_envelope. destruct expects; cbn [handle_file_request handle_file_request_with_response]; by rewrite HM_bind_eq, Hz.
Qed.
Lemma run_then_panics reqs b req more : (forall s, handle_envelope true b req s = Panicked) ->
  forall s s', run true reqs s = Done (s', Ok tt) -> run true (reqs ++ (b, req) :: more) s = Panicked.
Proof.
  intros Hp. induction reqs as [|[b1 r1] reqs IH]; intros s s'; cbn [app run]; rewrite !HM_bind_eq; [by rewrite Hp|].
  destruct (handle_envelope true b1 r1 s) as [[s1 [u|e]]| |]; try done. apply IH.
Qed.

(** C4: the file service refines a map from paths to kinds of nodes.  Whatever
    requests a new service gets, as long as the sizes of all its reads and writes,
    and the number of its opens and new directories, are together below 2^62, it
    serves them all without a panic or a deadlock; the paths that lead somewhere
    are those of the map, each request to create, delete, stat or list a name gets
    exactly one answer, which is a success if and only if the map says so, and
    every other request that expects an answer gets one, or an error twice.  The
    bound keeps out what the service cannot serve: a single write without data of
    2^63 bytes or more, which comes after such requests, panics, since the service
    allocates a buffer of that size before it looks at the descriptor. *)
Theorem requests_refine_tree max_fds disk_size image s0 reqs :
  new None max_fds disk_size image = Done s0 -> total_cost reqs < 2 ^ 62 ->
  (exists s, run true reqs s0 = Done (s, Ok tt) /\ Vfs.abstracts (vfs s) (final_tree standard_tree reqs) /\
    transcript reqs standard_tree (final_tree standard_tree reqs) (answers s)) /\
  forall expects fd offset buf size more, 2 ^ 63 <= size ->
    run true (reqs ++ (expects, FileRequest.Write fd offset buf size) :: more) s0 = Panicked.
Proof.
  intros Hnew Hc. destruct (new_inv _ _ _ _ Hnew) as [Hi Ha].
  pose proof (run_spec reqs standard_tree (2 ^ 41) s0 Hi ltac:(lia)) as H. unfold leads in H.
  destruct (run true reqs s0) as [[s r]| |] eqn:Er; try done. destruct H as (((_ & Hab & _) & _) & l & Hl & -> & Ht). split.
  - exists s. split; [done|]. split; [done|]. by rewrite Hl, Ha.
  - intros expects fd offset buf size more Hn. eapply run_then_panics; [|exact Er]. intros s1. by apply large_write_panics.
Qed.

Definition demo_requests : list (bool * FileRequest.t) :=
  [(true, FileRequest.CreateDirectory (Assembler.B "/home/a"));
   (true, FileRequest.Open (Assembler.B "/home/a/f") FileRequest.create_flags);
   (true, FileRequest.RemoveDirectory (Assembler.B "/home/a"));
   (true, FileRequest.CreateDirectory (Assembler.B "/home/a"));
   (false, FileRequest.Unlink (Assembler.B "/home/a/f"));
   (true, FileRequest.RemoveDirectory (Assembler.B "/home/a"))].
Definition demo_service : FileService :=
  match new None 64 8192 [] with Done s => s | _ => {| vfs := Vfs.empty_vfs; fd_manager := Files.FileDescriptorManager_new 0;
    open_files := ∅; disk := {| Disk.file := []; Disk.total_sectors := 0; Disk.bitmap := [] |}; files := []; answers := [] |} end.

Lemma demo_service_new : new None 64 8192 [] = Done demo_service.
Proof.
  unfold demo_service, new. assert (E : match Disk.new (to_u32 (8192 / 512)) [] with Done _ => true | _ => false end = true) by reflexivity.
  by destruct (Disk.new _ _).
Qed.

Lemma requests_refine_tree_witness :
  exists s, run true demo_requests demo_service = Done (s, Ok tt) /\
    Vfs.abstracts (vfs s) (final_tree standard_tree demo_requests) /\
    (is_ok <$> answers s) = [true; true; false; false; true].
Proof.
  assert (Hnew : new None 64 8192 [] = Done demo_service) by exact demo_service_new.
  assert (Hc : total_cost demo_requests < 2 ^ 62) by reflexivity.
  destruct (requests_refine_tree 64 8192 [] demo_service demo_requests Hnew Hc) as [(s & Hr & Ha & _) _].
  exists s. split; [exact Hr|]. split; [exact Ha|].
  assert (E : match run true demo_requests demo_service with
              | Done (s, _) => bool_decide ((is_ok <$> answers s) = [true; true; false; false; true])
              | _ => false
              end = true) by (vm_compute; reflexivity).
  rewrite Hr in E. by apply bool_decide_eq_true in E.
Defined.
