(* ===== verification/FileRestart.v ===== *)
(** * The file service across restarts (src/src/services/file/service.rs, new and run)

    The tree is saved after every request and loaded at the next start, over the
    same disk image.  The service refines one map from paths to kinds of nodes
    through all its runs ([restarts_refine_tree]), and the bytes of a file come
    back ([write_survives_restart]).  serde_json and the file that holds its text
    are the parameters [to_json] and [from_json]. *)
From Stdlib Require String.
Import (notations) String.
From S2P Require Import Prelude Types Messages.
From S2P Require Assembler Disk Vfs Restart Files.
From S2P Require Import FileService FileInv.

#[local] Existing Instance Vfs.NodeType_eq_dec.
#[local] Existing Instance Files.OpenMode_eq_dec.
#[local] Existing Instance Vfs.Saved_eq_dec.

(** ** What was written *)

Lemma stored_same f d d' : Disk.file d' = Disk.file d -> Disk.total_sectors d' = Disk.total_sectors d ->
  Files.stored f d -> Files.stored f d'.
Proof.
  intros Hf Ht (Hon & Hc & Hl & Hs & Hr). unfold Files.stored, Files.on_disk. rewrite Ht. split; [exact Hon|]. split; [exact Hc|].
  split; [exact Hl|]. split; [exact Hs|]. intros i st H1 H2. specialize (Hr i st H1 H2). unfold Disk.read_sector, Disk.check_sector in *.
  by rewrite Hf, Ht.
Qed.

(** a write that reaches the disk, and what it records *)
Lemma write_reaches_disk s n bs o f s1 f1 r :
  Files.get 0 n (fd_manager s) = Some o -> files s !! Files.file o = Some f ->
  Disk.disk_wf (disk s) -> Files.on_disk f (disk s) -> Files.mode f <> Files.Read -> bs <> [] ->
  Files.write_pos f + len bs < 2 ^ 40 -> len (Files.data f) < 2 ^ 40 ->
  handle_write 0 n bs s = Done (s1, r) -> files s1 !! Files.file o = Some f1 -> Files.dirty f1 = false ->
  Files.stored f1 (disk s1) /\ Files.data f1 = Files.overwritten (Files.data f) (Files.write_pos f) bs /\ Files.data f1 <> [] /\
  Disk.total_sectors (disk s1) = Disk.total_sectors (disk s) /\ Disk.disk_wf (disk s1) /\
  exists st, Files.start_sector f1 = Some st /\
    vfs s1 = Vfs.record (Files.inode f) (len (Files.data f1)) (wadd32 st <$> Disk.range 0 (Files.sector_count f1)) (vfs s).
Proof.
  intros Ho Hf Hw Hon Hm Hbs Hb Hd Hrun Hf1 Hdirty. unfold handle_write, write_fd in Hrun. rewrite !HM_bind_eq in Hrun.
  unfold get in Hrun. rewrite Ho, HM_bind_eq in Hrun. unfold on_files, Files.of_write, Files.on_file in Hrun.
  rewrite Hf, Files.write_spec in Hrun by (done || lia). cbn [set_files files] in Hrun.
  set (d2 := Files.overwritten (Files.data f) (Files.write_pos f) bs) in *.
  set (fw := Files.with_meta _ _) in Hrun. unfold sync_handle in Hrun. rewrite HM_bind_eq in Hrun. cbn [files disk set_files] in Hrun.
  rewrite list_lookup_insert_eq in Hrun by (by eapply lookup_lt_Some).
  assert (Hlen : len d2 < 2 ^ 40) by (unfold d2; rewrite Files.overwritten_length; lia).
  assert (Hne : d2 <> []).
  { intros E. apply (f_equal (fun l => len l)) in E. unfold d2 in E. rewrite Files.overwritten_length in E. destruct bs; [done|cbn in E; lia]. }
  pose proof (Files.sync_spec fw (disk s) Hw Hon Hlen eq_refl) as Hsync. pose proof (Files.sync_stored fw (disk s)) as Hstored.
  destruct (Files.sync_to_disk fw (disk s)) as [[f2 d] [u|e]].
  - destruct Hsync as (Hw2 & Ht & _ & Hdata & _ & _ & Hst & Hi & _). destruct u.
    destruct (Hstored _ _ Hw Hon Hlen eq_refl eq_refl) as [Hs _]. destruct (proj2 Hst Hne) as [st Hstart].
    cbn [is_ok] in Hrun. rewrite HM_bind_eq in Hrun. unfold record_extent in Hrun. rewrite HM_bind_eq in Hrun. unfold get in Hrun.
    cbn [files set_disk set_files] in Hrun. rewrite list_lookup_insert_eq in Hrun by (rewrite length_insert; by eapply lookup_lt_Some).
    rewrite Hstart in Hrun. unfold update, mret, HM_ret in Hrun. injection Hrun as <- <-. cbn in Hf1.
    rewrite list_lookup_insert_eq in Hf1 by (rewrite length_insert; by eapply lookup_lt_Some). injection Hf1 as <-.
    rewrite Hdata. cbn. split; [exact Hs|]. split; [done|]. split; [exact Hne|]. split; [exact Ht|]. split; [exact Hw2|].
    exists st. split; [done|]. by rewrite Hi.
  - exfalso. destruct Hsync as (-> & _). cbn in Hrun. injection Hrun as <- _. cbn in Hf1.
    rewrite list_lookup_insert_eq in Hf1 by (rewrite length_insert; by eapply lookup_lt_Some). by injection Hf1 as <-.
Qed.

(** an inode whose node has the extent of a stored file loads its content *)
Lemma fresh_file_stored s i path pid m n f st :
  Vfs.lookup i (vfs s) = Some n -> Vfs.size n = len (Files.data f) -> Files.start_sector f = Some st ->
  Vfs.blocks n = wadd32 st <$> Disk.range 0 (Files.sector_count f) ->
  Files.stored f (disk s) -> Disk.total_sectors (disk s) < 2 ^ 32 -> Files.data f <> [] ->
  let g := fresh_file s i path pid m in
  Files.data g = Files.data f /\ Files.position g = 0 /\ Files.mode g = m /\ Files.inode g = i.
Proof.
  intros Hn Hsz Hst Hbl Hs H32 Hne g. pose proof Hs as (Hon & Hc & Hl & _). unfold Files.on_disk in Hon. rewrite Hst in Hon.
  pose proof (Files.sectors_needed_covers _ Hl) as Hcov.
  assert (Hpos : 0 < Files.sector_count f) by (rewrite Hc; destruct (Files.data f); [done|cbn in Hcov; lia]).
  unfold g, fresh_file. rewrite Hn, Hsz. destruct (Vfs.blocks n) as [|b bs] eqn:Eb.
  { rewrite Disk.range_cons in Hbl by lia. done. }
  assert (Hlen : len (b :: bs) = Files.sector_count f).
  { rewrite Hbl. rewrite Disk.range_map, !length_fmap, length_seq. lia. }
  assert (Hb : b = st). { rewrite Disk.range_cons in Hbl by lia. injection Hbl as -> _. rewrite wadd32_small by lia. lia. }
  rewrite Hlen, Hb. unfold to_u32. rewrite !N.mod_small by lia.
  set (h := Files.with_meta _ _). destruct (Files.stored_load f h (disk s) Hs H32) as (g' & E & Hd & Hi & Hm & _ & _ & Hp);
    [by rewrite Hst|done..|]. rewrite E. cbn [fst]. rewrite Hd, Hi, Hm. destruct Hp as [_ ->]; [by eexists|]. done.
Qed.

Lemma resolve_root v cs n : Vfs.resolve v cs = Some n -> is_Some (Vfs.nodes v !! Vfs.root_inode v).
Proof.
  unfold Vfs.resolve. destruct cs as [|c cs]; cbn; unfold Vfs.lookup; destruct (Vfs.nodes v !! Vfs.root_inode v); done.
Qed.

(** opening a path in a service with no open file, and reading from a descriptor *)
Lemma open_first s path fl n :
  open_files s = ∅ -> fd_manager s = Files.FileDescriptorManager_new (Files.max_fds_per_process (fd_manager s)) ->
  3 < Files.max_fds_per_process (fd_manager s) -> files s = [] ->
  Vfs.lookup_path path (vfs s) = Ok n -> Vfs.is_file n = true ->
  exists s3, open_path silent 0 path fl s = Done (s3, Ok 3) /\
    Files.get 0 3 (fd_manager s3) = Some (Files.OpenFile_new 3 0 0 0) /\
    files s3 = [fresh_file s (Vfs.inode n) path 0 (open_flags_to_mode fl)].
Proof.
  intros Ho Hm Hmax Hf Hn Hfile. unfold open_path, find_or_create. rewrite !HM_bind_eq. unfold get.
  rewrite Hn. unfold mret, HM_ret. rewrite Hfile. cbn [negb]. rewrite HM_bind_eq. unfold file_of_inode. rewrite HM_bind_eq. unfold get.
  rewrite Ho, lookup_empty, HM_bind_eq. unfold update. rewrite HM_bind_eq. unfold mret, HM_ret, on_fds. cbn [fd_manager set_open set_files].
  rewrite Hm. set (M := Files.max_fds_per_process (fd_manager s)) in *. unfold Files.allocate, Files.get_table, Files.FileDescriptorManager_new.
  cbn [Files.process_tables Files.max_fds_per_process]. rewrite lookup_empty. cbn [default]. unfold Files.table_allocate.
  cbn [Files.FileTable_new Files.next_fd Files.max_fds Files.descriptors]. rewrite (proj2 (N.leb_gt _ _)) by lia.
  eexists. split; [by rewrite Hf|]. split; [|done]. cbn. unfold Files.get. cbn. rewrite lookup_insert_eq. cbn.
  unfold Files.table_get. cbn. by rewrite lookup_insert_eq.
Qed.

Lemma read_open s n o f count :
  Files.get 0 n (fd_manager s) = Some o -> files s !! Files.file o = Some f -> Files.mode f <> Files.Write ->
  Files.position f = 0 -> count < 2 ^ 64 -> len (Files.data f) < 2 ^ 64 ->
  exists s', read_fd silent 0 n count s = Done (s', Ok (take (N.to_nat count) (Files.data f))).
Proof.
  intros Ho Hf Hm Hp Hc Hl. unfold read_fd. rewrite HM_bind_eq. unfold get. rewrite Ho. unfold on_files, Files.of_read, Files.on_file.
  rewrite Hf, Files.read_spec by (rewrite ?Hp; done || lia). eexists. by rewrite Hp.
Qed.

(** descriptor [n] of process 0 is open on the file [f] that [path] leads to *)
Definition open_at_path (s : FileService) (n : N) (o : Files.OpenFile) (f : Files.File) (path : str) (node : Vfs.VFSNode) : Prop :=
  Files.get 0 n (fd_manager s) = Some o /\ files s !! Files.file o = Some f /\
  Vfs.lookup_path path (vfs s) = Ok node /\ Vfs.is_file node = true /\ Vfs.inode node = Files.inode f.

(** C12: what a write put on the disk survives a restart.  A service writes to
    an open file, and the write reaches the disk.  Then a new service, on the
    saved tree and the image of the disk, opens the path of the file and reads
    the whole content back, with the bytes written where they were written. *)
Theorem write_survives_restart s n bs o f path node s1 f1 r max_fds disk_size fl count :
  Vfs.vfs_wf (vfs s) -> Vfs.root_inode (vfs s) = 0 -> Disk.disk_wf (disk s) -> Files.on_disk f (disk s) ->
  open_at_path s n o f path node -> Files.mode f <> Files.Read -> bs <> [] -> Files.write_pos f + len bs < 2 ^ 40 -> len (Files.data f) < 2 ^ 40 ->
  handle_write 0 n bs s = Done (s1, r) -> files s1 !! Files.file o = Some f1 -> Files.dirty f1 = false ->
  to_u32 (disk_size / 512) = Disk.total_sectors (disk s) -> 3 < max_fds ->
  open_flags_to_mode fl <> Files.Write -> len (Files.data f1) <= count < 2 ^ 64 ->
  exists s2 s3 s4,
    new (Some (Vfs.restore (Vfs.saved_nodes (vfs s1)))) max_fds disk_size (Disk.file (disk s1)) = Done s2 /\
    open_path silent 0 path fl s2 = Done (s3, Ok 3) /\
    read_fd silent 0 3 count s3 = Done (s4, Ok (Files.overwritten (Files.data f) (Files.write_pos f) bs)).
Proof.
  intros Hv Hr0 Hd Hon (Ho & Hf & Hp & Hfile & Hinode) Hm Hbs Hb Hl Hw Hf1 Hdirty Hsize Hmax Hfl Hcount.
  destruct (write_reaches_disk _ _ _ _ _ _ _ _ Ho Hf Hd Hon Hm Hbs Hb Hl Hw Hf1 Hdirty) as (Hs & Hdata & Hne & Ht & Hd1 & st & Hst & Hvfs).
  pose proof Hd1 as (H8 & H32 & _ & _ & Himg). rewrite Vfs.lookup_path_resolve in Hp. apply ok_or_ok in Hp.
  set (v1 := vfs s1) in *. assert (Hv1 : Vfs.vfs_wf v1) by (rewrite Hvfs; by apply Vfs.record_wf).
  assert (Hn1 : Vfs.resolve v1 (Vfs.components path) =
                Some (Vfs.with_extent (len (Files.data f1)) (wadd32 st <$> Disk.range 0 (Files.sector_count f1)) node)).
  { rewrite Hvfs, Vfs.resolve_record, Hp by done. cbn. unfold Vfs.extended. by rewrite decide_True. }
  assert (Hr1 : Vfs.root_inode v1 = 0) by by rewrite Hvfs.
  pose proof (Vfs.restore_resolve v1 (Vfs.components path) Hv1 Hr1) as Hres. rewrite Hn1 in Hres.
  destruct Hres as (n2 & Hn2 & _ & Hty & Hsave); [rewrite <- Hr1; by eapply resolve_root|].
  assert (Hcs : Vfs.components path <> []).
  { intros E. rewrite E, Vfs.resolve_nil in Hp. destruct Hv as (_ & Hrt & _). destruct (Hrt _ Hp) as [Hdir _].
    unfold Vfs.is_file, Vfs.is_directory in *. apply bool_decide_eq_true in Hfile, Hdir. congruence. }
  specialize (Hsave Hcs). pose proof (f_equal Vfs.s_inode Hsave) as Hi2. pose proof (f_equal Vfs.s_size Hsave) as Hsz.
  pose proof (f_equal Vfs.s_blocks Hsave) as Hbl. cbn in Hi2, Hsz, Hbl, Hty. clear Hsave.
  unfold new. rewrite Hsize, <- Ht, Disk.new_existing by (unfold Disk.SECTOR_SIZE in *; lia). cbn [mbind outcome_bind default].
  eexists. set (s2 := {| vfs := _ |}).
  assert (Hs2 : Files.stored f1 (disk s2)) by by apply (stored_same f1 (disk s1)).
  assert (Hi0 : Vfs.inode node <> 0).
  { intros E. apply Hcs. pose proof (Vfs.resolve_lookup _ _ _ Hv Hp) as Hl0. destruct Hv as (_ & Hrt & _).
    rewrite E, <- Hr0 in Hl0. destruct (Hrt _ Hl0) as [Hdir _]. unfold Vfs.is_file, Vfs.is_directory in *.
    apply bool_decide_eq_true in Hfile, Hdir. congruence. }
  pose proof (Vfs.restore_lookup v1 (Vfs.inode node) _ Hv1 Hi0 (Vfs.resolve_lookup _ _ _ Hv1 Hn1)) as Hlk.
  destruct (open_first s2 path fl n2) as (s3 & Ho3 & Hg3 & Hf3); try done.
  { rewrite Vfs.lookup_path_resolve. unfold s2. cbn [vfs id]. by rewrite Hn2. }
  { unfold Vfs.is_file in *. by rewrite Hty. }
  match type of Hlk with _ = Some ?n =>
    destruct (fresh_file_stored s2 (Vfs.inode n2) path 0 (open_flags_to_mode fl) n f1 st) as (Gd & Gp & Gm & _)
  end; [unfold Vfs.lookup; rewrite Hi2; exact Hlk|done..|].
  destruct (read_open s3 3 _ _ count Hg3 ltac:(by rewrite Hf3)) as [s4 Hr4]; [by rewrite Gm|done|lia|rewrite Gd; lia|].
  exists s3, s4. split; [done|]. split; [done|]. by rewrite Hr4, Gd, take_ge, Hdata by lia.
Qed.

(** a file of two bytes at "/home/a" that is open for reading and writing *)
Definition rw_create : FileRequest.OpenFlags :=
  {| FileRequest.read := true; FileRequest.write := true; FileRequest.create := true; FileRequest.truncate := false;
     FileRequest.append := false |}.
Definition demo_open : FileService :=
  match open_path silent 0 (Assembler.B "/home/a") rw_create demo_service with Done (s, _) => s | _ => demo_service end.
Definition demo_file : Files.File := Files.File_new 29 (Assembler.B "/home/a") 0 Files.ReadWrite.
Definition demo_written : FileService :=
  match handle_write 0 3 [7; 8] demo_open with Done (s, _) => s | _ => demo_service end.

Lemma done_state {A : Type} (o : outcome (FileService * A)) (d : FileService) :
  match o with Done _ => true | _ => false end = true -> exists r, o = Done (match o with Done (s, _) => s | _ => d end, r).
Proof. destruct o as [[s r]| |]; [by exists r|done..]. Qed.
Lemma small_disk_wf d : Disk.bitmap d = [7] -> Disk.total_sectors d = 16 -> len (Disk.file d) = 8192 -> Disk.disk_wf d.
Proof.
  intros Hb Ht Hl. unfold Disk.disk_wf. rewrite Hb, Ht, Hl. split; [lia|]. split; [lia|]. split; [done|].
  split; [by repeat constructor|]. unfold Disk.SECTOR_SIZE. lia.
Qed.
Lemma demo_open_wf : Vfs.vfs_wf (vfs demo_open) /\ Vfs.root_inode (vfs demo_open) = 0 /\ Disk.disk_wf (disk demo_open).
Proof.
  destruct (new_inv _ _ _ _ demo_service_new) as [Hi _].
  pose proof (open_path_spec _ _ 0 (Assembler.B "/home/a") rw_create _ silent_says _ _ Hi ltac:(done)) as H. unfold leads in H.
  split; [unfold demo_open; by destruct (open_path _ _ _ _ _) as [[s r]| |]; [destruct H as [[[? _] _] _]|..]|].
  split; [vm_compute; reflexivity|].
  assert (Hl : len (Disk.file (disk demo_open)) = 8192) by (vm_compute; reflexivity).
  assert (Hb : bool_decide (Disk.bitmap (disk demo_open) = [7]) = true) by (vm_compute; reflexivity).
  apply bool_decide_eq_true in Hb. assert (Ht : Disk.total_sectors (disk demo_open) = 16) by (vm_compute; reflexivity).
  exact (small_disk_wf _ Hb Ht Hl).
Qed.

Lemma write_survives_restart_witness :
  exists s2 s3 s4 v image,
    new (Some v) 64 8192 image = Done s2 /\
    open_path silent 0 (Assembler.B "/home/a") FileRequest.read_only s2 = Done (s3, Ok 3) /\
    read_fd silent 0 3 100 s3 = Done (s4, Ok [7; 8]).
Proof.
  destruct demo_open_wf as (Hv & Hr & Hd).
  assert (E : match handle_write 0 3 [7; 8] demo_open with Done _ => true | _ => false end = true) by (vm_compute; reflexivity).
  assert (E1 : match files demo_written !! 0%nat with
               | Some f => negb (Files.dirty f) && (len (Files.data f) =? 2) | None => false end = true) by (vm_compute; reflexivity).
  destruct (files demo_written !! 0%nat) as [f1|] eqn:Hf1; [|done]. apply andb_true_iff in E1 as [Hdirty Hlen].
  apply negb_true_iff in Hdirty. apply N.eqb_eq in Hlen.
  destruct (done_state (handle_write 0 3 [7; 8] demo_open) demo_service E) as [r Hw]. fold demo_written in Hw.
  clear E. assert (G1 : Files.get 0 3 (fd_manager demo_open) = Some (Files.OpenFile_new 3 0 0 0)) by (vm_compute; reflexivity).
  assert (G2 : files demo_open !! 0%nat = Some demo_file) by (vm_compute; reflexivity).
  assert (G3 : Vfs.lookup_path (Assembler.B "/home/a") (vfs demo_open) = Ok (Vfs.VFSNode_new 29 (Assembler.B "a") Vfs.File (Some 2) 0))
    by (vm_compute; reflexivity).
  assert (G4 : to_u32 (8192 / 512) = Disk.total_sectors (disk demo_open)) by (vm_compute; reflexivity).
  assert (Hcount : len (Files.data f1) <= 100 < 2 ^ 64) by (rewrite Hlen; lia).
  destruct (write_survives_restart demo_open 3 [7; 8] (Files.OpenFile_new 3 0 0 0) demo_file (Assembler.B "/home/a") _ demo_written
    f1 r 64 8192 FileRequest.read_only 100 Hv Hr Hd I
    (conj G1 (conj G2 (conj G3 (conj eq_refl eq_refl)))) ltac:(discriminate) ltac:(discriminate)
    ltac:(reflexivity) ltac:(reflexivity) Hw Hf1 Hdirty G4 ltac:(reflexivity) ltac:(discriminate) Hcount) as (s2 & s3 & s4 & H1 & H2 & H3).
  assert (Hc : Files.overwritten (Files.data demo_file) (Files.write_pos demo_file) [7; 8] = [7; 8]) by reflexivity.
  rewrite Hc in H3. exists s2, s3, s4, (Vfs.restore (Vfs.saved_nodes (vfs demo_written))), (Disk.file (disk demo_written)).
  split; [exact H1|]. split; [exact H2|exact H3].
Defined.

(** ** Runs of the service *)

(** a run: the files of the host's directory at its start, and the requests it gets *)
Record Run := { host_files : list (str * list N); requests : list (bool * FileRequest.t) }.

(** a service on a saved file system *)
Lemma new_restored B t v max_fds disk_size image s :
  Vfs.vfs_wf v -> Restart.over_standard v -> Vfs.abstracts v t -> Vfs.next_inode v <= B -> 2 ^ 41 <= B < 2 ^ 63 ->
  new (Some (Vfs.restore (Vfs.saved_nodes v))) max_fds disk_size image = Done s ->
  service_inv B (Restart.tree_restart standard_tree t) s /\ answers s = [].
Proof.
  intros Hw Ho Ha Hn HB. unfold new. destruct (Disk.new _ _) as [d| |]; [|done..]. cbn [mbind outcome_bind]. intros [= <-]. split; [|done].
  destruct (Restart.standard_restored v Ho Hw ltac:(lia)) as (Hw' & Ho' & _ & Hn').
  split; [|split; [by intros i h|split; [by intros pid n o; unfold Files.get|by constructor]]]. split; [exact Hw'|].
  split; [by apply Restart.restored_tree; [..|lia|exact Ha|exact standard_tree_abstracts]|].
  split; [exact (N.le_trans _ _ _ Hn' Hn)|]. split; [lia|exact Ho'].
Qed.

Section Runs.
Context (to_json : list Vfs.Saved -> option str) (from_json : str -> option (list Vfs.Saved)).

(** [new]; [content] is the text of the file with the tree, if there is one *)
Definition start (content : option str) (max_fds disk_size : N) (image : list N) : outcome FileService :=
  new (Vfs.load_from_file from_json content) max_fds disk_size image.

(** the main loop; a tree that cannot be written leaves the file as it was *)
Definition auto_save (content : option str) (s : FileService) : option str :=
  match Vfs.save_to_file to_json (vfs s) with Ok text => Some text | Err _ => content end.
Fixpoint run_saving (reqs : list (bool * FileRequest.t)) (content : option str) : F (option str) :=
  match reqs with
  | [] => mret content
  | (b, r) :: reqs => _ ← handle_envelope true b r; s ← get; run_saving reqs (auto_save content s)
  end.

(** the service is started again and again on what the run before it left; the
    answers of each run *)
Fixpoint runs (max_fds disk_size : N) (rs : list Run) (content : option str) (image : list N) : outcome (list (list Response)) :=
  match rs with
  | [] => Done []
  | r :: rs =>
      s0 ← start content max_fds disk_size image;
      s1 ← import_host_files (Assembler.B "/programs") (host_files r) s0;
      e ← run_saving (requests r) content s1;
      ls ← runs max_fds disk_size rs (match snd e with Ok c => c | Err _ => content end) (Disk.file (disk (fst e)));
      Done (answers (fst e) :: ls)
  end.

(** *** The tree through the runs *)

Definition start_tree (saved : option Vfs.Tree) : Vfs.Tree :=
  match saved with Some t => Restart.tree_restart standard_tree t | None => standard_tree end.
Definition run_tree (r : Run) (saved : option Vfs.Tree) : Vfs.Tree :=
  tree_imports (Assembler.B "/programs") (host_files r) (start_tree saved).
(** Nothing is saved before the first request. *)
Definition saved_tree (reqs : list (bool * FileRequest.t)) (t : Vfs.Tree) (saved : option Vfs.Tree) : option Vfs.Tree :=
  match reqs with [] => saved | _ => Some (final_tree t reqs) end.
Fixpoint runs_transcript (rs : list Run) (saved : option Vfs.Tree) (ls : list (list Response)) : Prop :=
  match rs, ls with
  | [], [] => True
  | r :: rs, l :: ls =>
      let t := run_tree r saved in
      transcript (requests r) t (final_tree t (requests r)) l /\
      runs_transcript rs (saved_tree (requests r) t saved) ls
  | _, _ => False
  end.
Definition runs_cost (rs : list Run) : N := foldr (fun r c => import_cost (host_files r) + total_cost (requests r) + c) 0 rs.

Context (Hjson : forall l, exists text, to_json l = Some text /\ from_json text = Some l).

(** the text of the file holds a tree *)
Definition saved_as (B : N) (content : option str) (saved : option Vfs.Tree) : Prop :=
  match content, saved with
  | None, None => True
  | Some text, Some t => exists v, from_json text = Some (Vfs.saved_nodes v) /\
      Vfs.vfs_wf v /\ Restart.over_standard v /\ Vfs.abstracts v t /\ Vfs.next_inode v <= B
  | _, _ => False
  end.

Lemma saved_as_mono B B' content saved : saved_as B content saved -> B <= B' -> saved_as B' content saved.
Proof. destruct content, saved; try done. intros (v & H1 & H2 & H3 & H4 & H5) Hle. exists v. split_and!; [done..|lia]. Qed.

Lemma auto_save_spec B t s content : service_inv B t s -> saved_as B (auto_save content s) (Some t).
Proof using Hjson.
  intros ((Hw & Ha & Hn & _ & Ho) & _). unfold auto_save, Vfs.save_to_file.
  destruct (Hjson (Vfs.saved_nodes (vfs s))) as (text & -> & Hf). cbn [ok_or saved_as]. by exists (vfs s).
Qed.

Lemma start_spec B content saved max_fds disk_size image s :
  saved_as B content saved -> 2 ^ 41 <= B < 2 ^ 63 -> start content max_fds disk_size image = Done s ->
  service_inv B (start_tree saved) s /\ answers s = [].
Proof.
  intros Hs HB. unfold start. destruct content as [text|]; destruct saved as [t|]; [|destruct Hs|destruct Hs|].
  - destruct Hs as (v & Hj & Hw & Ho & Ha & Hn). unfold Vfs.load_from_file. cbn [mbind option_bind]. rewrite Hj. cbn [mbind option_bind].
    by apply new_restored.
  - cbn [Vfs.load_from_file mbind option_bind]. intros E. apply new_inv in E as [Hi Ha]. split; [eapply inv_mono; [exact Hi|lia]|done].
Qed.

Lemma run_saving_spec reqs : forall B t s content saved,
  service_inv B t s -> saved_as B content saved -> B + total_cost reqs < 2 ^ 63 ->
  exists s' c l, run_saving reqs content s = Done (s', Ok c) /\ service_inv (B + total_cost reqs) (final_tree t reqs) s' /\
    answers s' = answers s ++ l /\ transcript reqs t (final_tree t reqs) l /\
    saved_as (B + total_cost reqs) c (saved_tree reqs t saved).
Proof using Hjson.
  induction reqs as [|[b r] reqs IH]; intros B t s content saved Hs Hc Hb.
  - exists s, content, []. cbn [total_cost foldr]. rewrite N.add_0_r, app_nil_r. by split_and!.
  - cbn [total_cost foldr snd run_saving] in *. fold (total_cost reqs) in *. rewrite HM_bind_eq.
    pose proof (envelope_spec b r t B s Hs ltac:(lia)) as H. unfold leads in H.
    destruct (handle_envelope true b r s) as [[s1 r1]| |]; try done. destruct H as (Hi & l1 & Hl1 & -> & He).
    rewrite HM_bind_eq. unfold get at 1.
    destruct (IH _ _ s1 (auto_save content s1) (Some (fst (tree_request r t))) Hi) as (s' & c & l & E & Hi' & Hl & Ht & Hsv);
      [by apply auto_save_spec|lia|].
    exists s', c, (l1 ++ l). rewrite N.add_assoc. split; [exact E|]. split; [exact Hi'|]. split; [by rewrite Hl, Hl1, app_assoc|].
    split; [by exists l1, l|]. destruct reqs; exact Hsv.
Qed.

Lemma start_done max_fds disk_size content image : 8 <= to_u32 (disk_size / 512) -> exists s, start content max_fds disk_size image = Done s.
Proof.
  intros H8. unfold start, new. destruct (Disk.disk_new_done (to_u32 (disk_size / 512)) image H8) as [d ->]. by eexists.
Qed.

Lemma runs_spec max_fds disk_size rs : forall content image saved B,
  8 <= to_u32 (disk_size / 512) -> saved_as B content saved -> 2 ^ 41 <= B -> B + runs_cost rs < 2 ^ 62 ->
  exists ls, runs max_fds disk_size rs content image = Done ls /\ runs_transcript rs saved ls.
Proof using Hjson.
  induction rs as [|r rs IH]; intros content image saved B H8 Hs HB Hb; [by exists []|]. cbn [runs_cost foldr] in Hb. fold (runs_cost rs) in Hb.
  cbn [runs runs_transcript]. destruct (start_done max_fds disk_size content image H8) as [s0 E0]. rewrite E0.
  destruct (start_spec _ _ _ _ _ _ _ Hs ltac:(lia) E0) as [Hi0 Ha0]. cbn [mbind outcome_bind].
  destruct (import_host_files_spec (Assembler.B "/programs") (host_files r) _ _ _ Hi0 ltac:(lia)) as (s1 & -> & Hi1 & Ha1).
  cbn [mbind outcome_bind].
  destruct (run_saving_spec (requests r) _ _ _ content saved Hi1 ltac:(eapply saved_as_mono; [exact Hs|lia]) ltac:(lia))
    as (s2 & c & l & -> & _ & Hl & Ht & Hsv). cbn [mbind outcome_bind fst snd].
  destruct (IH c (Disk.file (disk s2)) _ _ H8 Hsv ltac:(lia) ltac:(lia)) as (ls & -> & Hls). cbn [mbind outcome_bind].
  exists (answers s2 :: ls). split; [done|]. rewrite Hl, Ha1, Ha0. by split.
Qed.
(** C24: the file service refines one map from paths to kinds of nodes through all
    its runs, however often it is started again on the tree and the disk that the
    run before it left: as long as the sizes of the reads, writes and imported host
    files and the numbers of opens, new directories and imported files of all the
    runs are together below 2^61, and the disk has eight sectors or more, it never
    fails to start, serves every request without a panic or a deadlock, and
    answers it as the map says, which a restart does not change - unless the root
    itself was deleted, which brings the standard tree back.  serde_json has to
    read back what it wrote.  The bound keeps out the write of 2^63 bytes or more
    on which the service panics. *)
Theorem restarts_refine_tree max_fds disk_size rs image :
  8 <= to_u32 (disk_size / 512) -> runs_cost rs < 2 ^ 61 ->
  exists ls, runs max_fds disk_size rs None image = Done ls /\ runs_transcript rs None ls.
Proof using Hjson. intros H8 Hb. by apply (runs_spec max_fds disk_size rs None image None (2 ^ 41)); [..|lia]. Qed.
End Runs.

(** the replies to requests about names *)
Fixpoint replies (t : Vfs.Tree) (reqs : list (bool * FileRequest.t)) : list bool :=
  match reqs with [] => [] | (_, r) :: reqs => snd (tree_request r t) :: replies (fst (tree_request r t)) reqs end.
Lemma names_replies reqs : Forall (fun e => fst e = true /\ about_names (snd e) = true) reqs ->
  forall t t' l, transcript reqs t t' l -> is_ok <$> l = replies t reqs.
Proof.
  induction 1 as [|[b r] reqs [Hb Hr] _ IH]; intros t t' l; cbn [transcript replies]; [by intros [_ ->]|].
  cbn [fst snd] in Hb, Hr. intros (l1 & l2 & -> & H1 & H2). unfold envelope_answers in H1. rewrite Hb, Hr in H1.
  destruct H1 as (x & -> & Hx). cbn [app]. by rewrite fmap_cons, Hx, (IH _ _ _ H2).
Qed.

(** A writer and a reader: stdpp's code of the list of nodes. *)
Definition type_code (ty : Vfs.NodeType) : nat :=
  match ty with Vfs.File => 0 | Vfs.Directory => 1 | Vfs.SymLink => 2 | Vfs.BlockDevice => 3 | Vfs.CharDevice => 4 end.
Definition code_type (n : nat) : Vfs.NodeType :=
  match n with 0%nat => Vfs.File | 1%nat => Vfs.Directory | 2%nat => Vfs.SymLink | 3%nat => Vfs.BlockDevice | _ => Vfs.CharDevice end.
#[export] Instance NodeType_countable : Countable Vfs.NodeType.
Proof. apply (inj_countable' type_code code_type). by intros []. Defined.
#[export] Instance Saved_countable : Countable Vfs.Saved.
Proof.
  apply (inj_countable'
    (fun s => (Vfs.s_inode s, Vfs.s_type s, Vfs.s_name s, Vfs.s_parent s, Vfs.s_size s, Vfs.s_children s, Vfs.s_blocks s))
    (fun '(i, ty, nm, p, sz, cs, bs) => {| Vfs.s_inode := i; Vfs.s_type := ty; Vfs.s_name := nm; Vfs.s_parent := p; Vfs.s_size := sz;
                                           Vfs.s_children := cs; Vfs.s_blocks := bs |})). by intros [].
Defined.
Definition demo_to_json (l : list Vfs.Saved) : option str := Some [Npos (encode l)].
Definition demo_from_json (s : str) : option (list Vfs.Saved) :=
  match s with [Npos p] => decode p | _ => None end.

(** a directory is made, and after a restart it can be deleted and is then gone *)
Definition demo_runs : list Run :=
  [{| host_files := []; requests := [(true, FileRequest.CreateDirectory (Assembler.B "/home/a"))] |};
   {| host_files := []; requests := [(true, FileRequest.RemoveDirectory (Assembler.B "/home/a"));
                                     (true, FileRequest.Stat (Assembler.B "/home/a"))] |}].
Lemma restarts_refine_tree_witness :
  (forall l, exists text, demo_to_json l = Some text /\ demo_from_json text = Some l) /\
  exists l1 l2, runs demo_to_json demo_from_json 64 8192 demo_runs None [] = Done [l1; l2] /\
    is_ok <$> l1 = [true] /\ is_ok <$> l2 = [true; false].
Proof.
  assert (Hjson : forall l, exists text, demo_to_json l = Some text /\ demo_from_json text = Some l).
  { intros l. eexists. split; [reflexivity|]. cbn. apply decode_encode. }
  split; [exact Hjson|].
  destruct (restarts_refine_tree demo_to_json demo_from_json Hjson 64 8192 demo_runs [] ltac:(done) ltac:(reflexivity)) as (ls & E & H).
  destruct ls as [|l1 [|l2 [|l3 ls]]]; try (exfalso; cbn in H; tauto). destruct H as (H1 & H2 & _). exists l1, l2. split; [exact E|].
  apply names_replies in H1; [|by repeat constructor]. apply names_replies in H2; [|by repeat constructor]. rewrite H1, H2.
  split; vm_compute; reflexivity.
Defined.
