(* ===== verification/Reports.v ===== *)
(** * What the process service reports (src/src/services/process/service.rs)

    The texts of the answers to GetProcessInfo, GetStats, GetMemoryMap and
    ListProcesses: the state of a process in words, the lines of the monitor,
    the frames of a process, and the process tree.  [HashMap]'s order does not
    show, since every report sorts by process identifier.

    The abstract view of the process tree is a forest ([Tree]): [render] writes it
    the way [format_tree] does, and [process_list_forest] says which forest. *)
From Stdlib Require String.
Import (notations) String.
From stdpp Require Import sorting.
From S2P Require Import Prelude Types.
From S2P Require Text Mmu Assembler Pcb.

Notation str := (list N) (only parsing).
Notation "## s" := (Assembler.B s) (at level 1, only parsing).

(** ** Formatting *)

(** [{:>n}] and [{:<n}]: the width counts the characters of the text *)
Definition char_count (s : str) : nat := length (filter (fun b => Text.is_cont b = false) s).
Definition pad_left (n : nat) (s : str) : str := replicate (n - char_count s) 32 ++ s.
Definition pad_right (n : nat) (s : str) : str := s ++ replicate (n - char_count s) 32.
Definition decimal_z (z : Z) : str :=
  if (z <? 0)%Z then ##"-" ++ Text.decimal (Z.to_N (- z)) else Text.decimal (Z.to_N z).
(** [{:04X}] *)
Definition to_upper_digit (c : N) : N := if (97 <=? c) && (c <=? 102) then c - 32 else c.
Definition hex4 (v : N) : str :=
  let ds := to_upper_digit <$> Assembler.hex_digits 15 v in replicate (4 - length ds) 48 ++ ds.
(** [join(sep)] *)
Fixpoint join (sep : str) (ss : list str) : str :=
  match ss with [] => [] | [s] => s | s :: ss => s ++ sep ++ join sep ss end.
(** [str::replace], from the left, without overlaps; [skip]: bytes of a match that are still to drop *)
Fixpoint replace_from (skip : nat) (pat to s : str) : str :=
  match s with
  | [] => []
  | c :: r =>
      match skip with
      | S skip => replace_from skip pat to r
      | O => if Assembler.starts_with pat s then to ++ replace_from (length pat - 1) pat to r
             else c :: replace_from 0 pat to r
      end
  end.
Definition replace (pat to s : str) : str := replace_from 0 pat to s.

(** ** The state of a process *)

(** [{:?}] *)
Definition debug_reason (r : BlockReason) : str :=
  match r with
  | WaitingForIo d => ##"WaitingForIo { device_id: " ++ Text.decimal d ++ ##" }"
  | WaitingForMemory => ##"WaitingForMemory"
  | WaitingForLock a => ##"WaitingForLock { lock_addr: " ++ Text.decimal a ++ ##" }"
  | Sleeping d => ##"Sleeping { duration_ms: " ++ Text.decimal d ++ ##" }"
  | WaitingForChild p => ##"WaitingForChild { pid: " ++ Text.decimal p ++ ##" }"
  end.
Definition debug_state (st : Pcb.ProcessState) : str :=
  match st with
  | Pcb.Creating => ##"Creating"
  | Pcb.Ready => ##"Ready"
  | Pcb.Running => ##"Running"
  | Pcb.Blocked r => ##"Blocked(" ++ debug_reason r ++ ##")"
  | Pcb.Terminated c => ##"Terminated { exit_code: " ++ decimal_z c ++ ##" }"
  | Pcb.Zombie c => ##"Zombie { exit_code: " ++ decimal_z c ++ ##" }"
  end.
Definition state_text (st : Pcb.ProcessState) : str :=
  replace ##"Blocked(" ##"Blocked" (replace ##" }" ##")"
    (replace ##"Zombie { exit_code: " ##"Zombie(" (replace ##"ProcessState::" [] (debug_state st)))).

(** ** Reports *)

Definition process_info (p : Pid) (x : Pcb.PCB) : str :=
  ##"PID: " ++ Text.decimal p ++ ##", Executable: " ++ Pcb.name x ++ ##", State: " ++ debug_state (Pcb.state x) ++
  ##", Threads: " ++ Text.decimal (N.of_nat (size (Pcb.threads x))).

Definition sorted_keys {A} (table : gmap Pid A) : list Pid := merge_sort N.le (map_to_list table).*1.

Definition parent_text (q : option Pid) : str := match q with Some q => Text.decimal q | None => ##"-" end.
Definition stats_line (p : Pid) (x : Pcb.PCB) : str :=
  pad_left 4 (Text.decimal p) ++ ##" " ++ pad_left 12 (state_text (Pcb.state x)) ++ ##" " ++
  pad_right 20 (Pcb.name x) ++ ##" " ++ pad_left 4 (parent_text (Pcb.parent_pid x)).
Definition stats_lines (table : gmap Pid Pcb.PCB) : list str :=
  omap (fun p => stats_line p <$> table !! p) (sorted_keys table).

(** the frames of a process, in the order of its pages *)
Definition page_le (a b : VirtAddr * PhysAddr * Mmu.PageFlags) : Prop := a.1.1 <= b.1.1.
#[export] Instance page_le_dec : RelDecision page_le := fun a b => decide (a.1.1 <= b.1.1).
Definition frame_range (e : VirtAddr * PhysAddr * Mmu.PageFlags) : str :=
  ##"0x" ++ hex4 e.1.2 ++ ##"-0x" ++ hex4 (wadd64 e.1.2 0xFFF).
Definition memory_line (u : Mmu.MMU) (p : Pid) : option str :=
  match Mmu.get_page_entries u p with
  | [] => None
  | es =>
      Some (##"PID " ++ pad_left 3 (Text.decimal p) ++ ##": " ++ join ##", " (frame_range <$> merge_sort page_le es) ++
            ##" (" ++ pad_left 4 (Text.decimal (len es * 4)) ++ ##" KB)")
  end.
Definition memory_map (u : Mmu.MMU) (table : gmap Pid Pcb.PCB) : list str := omap (memory_line u) (sorted_keys table).

(** ** The process tree *)

(** identifier, name, state, parent *)
Notation Entry := (Pid * str * str * option Pid)%type (only parsing).
Definition collect_procs (table : gmap Pid Pcb.PCB) : list (Pid * str * str * option Pid) :=
  omap (fun p => (fun x => (p, Pcb.name x, debug_state (Pcb.state x), Pcb.parent_pid x)) <$> table !! p) (sorted_keys table).

Definition entry_pid (e : Pid * str * str * option Pid) : Pid := e.1.1.1.
Definition children_of (procs : list (Pid * str * str * option Pid)) (p : Pid) : list Pid :=
  entry_pid <$> filter (fun e => e.2 = Some p) procs.
Definition is_root (procs : list (Pid * str * str * option Pid)) (e : Pid * str * str * option Pid) : bool :=
  match e.2 with None => true | Some q => negb (bool_decide (q ∈ entry_pid <$> procs)) end.

Definition tree_line (prefix : str) (is_last : bool) (p : Pid) (state name : str) : str :=
  prefix ++ (if is_last then ##"└── " else ##"├── ") ++ ##"PID " ++ Text.decimal p ++ ##" [" ++ state ++ ##"] " ++ name ++ [10].
Definition indent (is_last : bool) : str := if is_last then ##"    " else ##"│   ".

Fixpoint for_children (f : Pid -> bool -> str -> option str) (cs : list Pid) (output : str) : option str :=
  match cs with
  | [] => Some output
  | c :: cs => output ← f c (match cs with [] => true | _ => false end) output; for_children f cs output
  end.
(** [None]: the recursion is deeper than [fuel] *)
Fixpoint format_tree (fuel : nat) (procs : list (Pid * str * str * option Pid)) (p : Pid) (prefix : str) (is_last : bool) (output : str)
    : option str :=
  match fuel with
  | O => None
  | S fuel =>
      match List.find (fun e => entry_pid e =? p) procs with
      | None => Some output
      | Some (_, name, state, _) =>
          for_children (fun c l o => format_tree fuel procs c (prefix ++ indent is_last) l o) (children_of procs p)
            (output ++ tree_line prefix is_last p state name)
      end
  end.
Fixpoint format_roots (fuel : nat) (procs es : list (Pid * str * str * option Pid)) (output : str) : option str :=
  match es with
  | [] => Some output
  | e :: es =>
      output ← (if is_root procs e then format_tree fuel procs (entry_pid e) [] true output else Some output);
      format_roots fuel procs es output
  end.
(** a path of the tree has at most every process on it *)
Definition process_list (table : gmap Pid Pcb.PCB) : option str :=
  let procs := collect_procs table in
  output ← format_roots (S (length procs)) procs procs [];
  Some (if bool_decide (output = []) then ##"(empty)" else output).

(** ** The forest of the processes *)

#[local] Set Warnings "-register-all".
Inductive Tree := Node (p : Pid) (ts : list Tree).
Definition root_pid (t : Tree) : Pid := let 'Node p _ := t in p.
Fixpoint preorder (t : Tree) : list Pid := let 'Node p ts := t in p :: flat_map preorder ts.

(** every node has the children that the table gives it, in ascending order *)
Inductive family (procs : list (Pid * str * str * option Pid)) : Tree -> Prop :=
  | family_node p ts : root_pid <$> ts = children_of procs p -> Forall (family procs) ts -> family procs (Node p ts).

(** the text of a tree: a line for each node, indented below its parent *)
Definition label (procs : list (Pid * str * str * option Pid)) (p : Pid) : str * str :=
  match List.find (fun e => entry_pid e =? p) procs with Some (_, name, state, _) => (state, name) | None => ([], []) end.
Fixpoint render (procs : list (Pid * str * str * option Pid)) (prefix : str) (is_last : bool) (t : Tree) : str :=
  let 'Node p ts := t in
  tree_line prefix is_last p (label procs p).1 (label procs p).2 ++
  (fix all (ts : list Tree) : str :=
     match ts with
     | [] => []
     | t :: ts => render procs (prefix ++ indent is_last) (match ts with [] => true | _ => false end) t ++ all ts
     end) ts.
Fixpoint render_all (procs : list (Pid * str * str * option Pid)) (prefix : str) (ts : list Tree) : str :=
  match ts with
  | [] => []
  | t :: ts => render procs prefix (match ts with [] => true | _ => false end) t ++ render_all procs prefix ts
  end.
Definition forest_text (procs : list (Pid * str * str * option Pid)) (ts : list Tree) : str :=
  match ts with [] => ##"(empty)" | _ => concat (render procs [] true <$> ts) end.

Lemma render_node procs prefix l p ts :
  render procs prefix l (Node p ts) =
  tree_line prefix l p (label procs p).1 (label procs p).2 ++ render_all procs (prefix ++ indent l) ts.
Proof. cbn [render]. f_equal. induction ts as [|t ts IH]; [done|]. cbn [render_all]. by rewrite IH. Qed.

Lemma tree_ind' (P : Tree -> Prop) : (forall p ts, Forall P ts -> P (Node p ts)) -> forall t, P t.
Proof. intros H. fix IH 1. intros [p ts]. apply H. induction ts; constructor; [apply IH|done]. Qed.

(** how often [x] is in [l] *)
Definition occ (x : Pid) (l : list Pid) : nat := length (filter (fun y => y = x) l).
Lemma occ_app x l k : occ x (l ++ k) = (occ x l + occ x k)%nat.
Proof. unfold occ. by rewrite list.filter_app, length_app. Qed.
Lemma occ_cons x y l : occ x (y :: l) = ((if bool_decide (y = x) then 1 else 0) + occ x l)%nat.
Proof. unfold occ. rewrite filter_cons. case_bool_decide; [by rewrite decide_True|by rewrite decide_False]. Qed.
Lemma occ_notin x l : x ∉ l -> occ x l = 0%nat.
Proof. intros H. induction l as [|y l IH]; [done|]. apply not_elem_of_cons in H as [Hy H]. rewrite occ_cons, IH by done. by rewrite bool_decide_false. Qed.
Lemma occ_in x l : x ∈ l -> (1 <= occ x l)%nat.
Proof. induction l as [|y l IH]; [by intros ?%elem_of_nil|]. rewrite occ_cons. intros [->|H]%elem_of_cons; [rewrite bool_decide_true by done; lia|specialize (IH H); lia]. Qed.
Lemma occ_NoDup x l : NoDup l -> x ∈ l -> occ x l = 1%nat.
Proof.
  induction 1 as [|y l Hn _ IH]; [by intros ?%elem_of_nil|]. intros [->|H]%elem_of_cons; rewrite occ_cons.
  - by rewrite bool_decide_true, occ_notin.
  - rewrite bool_decide_false by (by intros ->). by apply IH.
Qed.
Lemma NoDup_occ l : (forall x, (occ x l <= 1)%nat) -> NoDup l.
Proof.
  induction l as [|y l IH]; [constructor|]. intros H. constructor.
  - intros Hin%occ_in. specialize (H y). rewrite occ_cons, bool_decide_true in H by done. lia.
  - apply IH. intros x. specialize (H x). rewrite occ_cons in H. lia.
Qed.

Lemma NoDup_filtered {A} (f : A -> Pid) (P : A -> Prop) `{!forall x, Decision (P x)} l : NoDup (f <$> l) -> NoDup (f <$> filter P l).
Proof. intros Hn. eapply sublist_NoDup; [exact Hn|]. f_equiv. apply sublist_filter. Qed.

Section Forest.
Context (procs : list (Pid * str * str * option Pid)).
Hypothesis distinct : NoDup (entry_pid <$> procs).
Hypothesis older : forall e q, e ∈ procs -> e.2 = Some q -> q < entry_pid e.

Fixpoint tree_of (fuel : nat) (p : Pid) : option Tree :=
  match fuel with O => None | S fuel => Node p <$> mapM (tree_of fuel) (children_of procs p) end.

Lemma children_spec c p : c ∈ children_of procs p <-> exists e, e ∈ procs /\ entry_pid e = c /\ e.2 = Some p.
Proof.
  unfold children_of. rewrite list_elem_of_fmap. split.
  - intros (e & -> & [? ?]%list_elem_of_filter). by exists e.
  - intros (e & He & <- & Hp). exists e. split; [done|]. by apply list_elem_of_filter.
Qed.
Lemma children_listed c p : c ∈ children_of procs p -> c ∈ entry_pid <$> procs.
Proof. intros (e & He & <- & _)%children_spec. by apply list_elem_of_fmap_2. Qed.
Lemma child_younger c p : c ∈ children_of procs p -> p < c.
Proof. intros (e & He & <- & Hp)%children_spec. by apply older. Qed.
Lemma find_listed p : p ∈ entry_pid <$> procs -> exists n s q, List.find (fun e => entry_pid e =? p) procs = Some (p, n, s, q).
Proof.
  intros (e & -> & He)%list_elem_of_fmap. destruct (List.find _ procs) as [[[[x n] s] q]|] eqn:E.
  - apply List.find_some in E as [_ E%N.eqb_eq]. cbn in E. subst x. by eexists _, _, _.
  - apply list_elem_of_In in He. pose proof (List.find_none _ _ E e He) as H. cbn in H. by rewrite N.eqb_refl in H.
Qed.

(** the recursion of the source builds the text of [tree_of] *)
Lemma format_tree_renders fuel : forall p prefix l out, p ∈ entry_pid <$> procs ->
  format_tree fuel procs p prefix l out = (fun t => out ++ render procs prefix l t) <$> tree_of fuel p.
Proof.
  induction fuel as [|fuel IH]; intros p prefix l out Hp; [done|]. cbn [format_tree tree_of].
  destruct (find_listed p Hp) as (n & s & q & Hf). rewrite Hf.
  assert (Hl : label procs p = (s, n)) by (unfold label; by rewrite Hf).
  transitivity ((fun ts => (out ++ tree_line prefix l p s n) ++ render_all procs (prefix ++ indent l) ts) <$> mapM (tree_of fuel) (children_of procs p)).
  2: { destruct (mapM _ _) as [ts|]; [|done]. cbn [fmap option_fmap option_map]. f_equal. by rewrite render_node, Hl, <- app_assoc. }
  assert (Hc : Forall (fun c => c ∈ entry_pid <$> procs) (children_of procs p)) by (apply list.Forall_forall; intros c; apply children_listed).
  generalize (out ++ tree_line prefix l p s n). clear Hf. induction Hc as [|c cs Hc _ IHc]; intros o; [cbn; by rewrite app_nil_r|].
  cbn [for_children mapM]. rewrite IH by done. destruct (tree_of fuel c) as [t|]; [|done]. cbn [fmap option_fmap option_map mbind option_bind].
  rewrite IHc. destruct (mapM (tree_of fuel) cs) as [ts|] eqn:E; [|done]. cbn [fmap option_fmap option_map mbind option_bind mret option_ret]. f_equal.
  cbn [render_all]. apply length_mapM in E. by destruct cs, ts; try discriminate; rewrite <- app_assoc.
Qed.

(** the processes that are younger than [p] *)
Definition younger (p : Pid) : nat := length (filter (fun e => p < entry_pid e) procs).
Lemma younger_child c p : c ∈ children_of procs p -> (younger c < younger p)%nat.
Proof.
  intros Hc. pose proof (child_younger c p Hc) as Hlt. apply children_spec in Hc as (e & He & Hec & _). unfold younger. clear distinct older.
  assert (Hle : forall l, (length (filter (fun e => (c < entry_pid e)%N) l) <= length (filter (fun e => (p < entry_pid e)%N) l))%nat).
  { intros l. induction l as [|x l IH]; [done|]. rewrite !filter_cons. repeat case_decide; cbn [length]; lia. }
  apply list_elem_of_split in He as (l1 & l2 & ->). rewrite !list.filter_app, !length_app, !filter_cons. pose proof (Hle l1). pose proof (Hle l2).
  rewrite decide_False by lia. rewrite decide_True by lia. cbn [length]. lia.
Qed.
Lemma tree_exists fuel : forall p, (younger p < fuel)%nat -> is_Some (tree_of fuel p).
Proof.
  induction fuel as [|fuel IH]; intros p Hp; [lia|]. cbn [tree_of]. apply fmap_is_Some. apply mapM_is_Some.
  apply list.Forall_forall. intros c Hc. apply IH. pose proof (younger_child c p Hc). lia.
Qed.
Lemma tree_root fuel p t : tree_of fuel p = Some t -> root_pid t = p.
Proof. destruct fuel; [done|]. cbn. destruct (mapM _ _); [|done]. by intros [= <-]. Qed.
Lemma trees_of_root fuel ps ts : mapM (tree_of fuel) ps = Some ts -> root_pid <$> ts = ps.
Proof. intros H%mapM_Some. induction H as [|p t ps ts Ht _ IH]; [done|]. cbn. by rewrite IH, (tree_root fuel p t Ht). Qed.
Lemma tree_family fuel : forall p t, tree_of fuel p = Some t -> family procs t.
Proof.
  induction fuel as [|fuel IH]; intros p t; [done|]. cbn. destruct (mapM _ _) as [ts|] eqn:E; [|done]. intros [= <-].
  constructor; [by eapply trees_of_root|]. apply mapM_Some in E. induction E as [|c t cs ts Ht _ IHt]; constructor; [by eapply IH|done].
Qed.

(** *** Every process is in the forest once *)

Lemma children_NoDup r : NoDup (children_of procs r).
Proof. unfold children_of. by apply NoDup_filtered. Qed.
Lemma entry_unique e e' : e ∈ procs -> e' ∈ procs -> entry_pid e = entry_pid e' -> e = e'.
Proof.
  intros (i & Hi)%list_elem_of_lookup (j & Hj)%list_elem_of_lookup He.
  assert (i = j) as -> by (eapply (NoDup_lookup _ _ _ _ distinct); rewrite list_lookup_fmap; [by rewrite Hi|rewrite Hj; cbn; by rewrite He]).
  congruence.
Qed.
Lemma occ_children e r : e ∈ procs -> occ (entry_pid e) (children_of procs r) = if bool_decide (e.2 = Some r) then 1%nat else 0%nat.
Proof.
  intros He. case_bool_decide as Hr.
  - apply occ_NoDup; [apply children_NoDup|]. apply children_spec. by exists e.
  - apply occ_notin. intros (e' & He' & Hp & Hr')%children_spec. apply Hr. by rewrite (entry_unique e e').
Qed.

(** a node is the root of its tree or comes with its parent *)
Lemma occ_tree e t : e ∈ procs -> family procs t ->
  occ (entry_pid e) (preorder t) =
  ((if bool_decide (root_pid t = entry_pid e) then 1 else 0) + match e.2 with Some q => occ q (preorder t) | None => 0 end)%nat.
Proof.
  intros He. induction t as [r ts IH] using tree_ind'. intros Hf. inversion Hf as [? ? Hr Hts]; subst. cbn [preorder root_pid].
  rewrite occ_cons. f_equal.
  assert (Hs : occ (entry_pid e) (flat_map preorder ts) =
    (occ (entry_pid e) (root_pid <$> ts) + match e.2 with Some q => occ q (flat_map preorder ts) | None => 0 end)%nat).
  { clear Hr Hf. induction Hts as [|t ts Ht _ IHts]; [by destruct (e.2)|]. apply list.Forall_cons in IH as [IHt IH]. cbn [flat_map fmap list_fmap].
    rewrite occ_app, occ_cons, IHts, IHt by done. destruct (e.2); rewrite ?occ_app; lia. }
  rewrite Hs, Hr, occ_children by done. destruct (e.2) as [q|]; [|done]. rewrite occ_cons. f_equal.
  repeat case_bool_decide; congruence.
Qed.
Lemma family_listed t : family procs t -> root_pid t ∈ entry_pid <$> procs -> Forall (fun p => p ∈ entry_pid <$> procs) (preorder t).
Proof.
  induction t as [r ts IH] using tree_ind'. intros Hf Hr. inversion Hf as [? ? Hc Hts]; subst. cbn [preorder]. constructor; [done|].
  assert (Hroots : Forall (fun t => root_pid t ∈ entry_pid <$> procs) ts).
  { apply list.Forall_forall. intros t Ht. apply (children_listed _ r). rewrite <- Hc. by apply list_elem_of_fmap_2. }
  clear Hc Hf Hr. induction Hts as [|t ts Ht _ IHts]; [constructor|]. apply list.Forall_cons in IH as [IHt IH]. apply list.Forall_cons in Hroots as [H1 H2].
  cbn [flat_map]. apply Forall_app. split; [by apply IHt|by apply IHts].
Qed.

Section Roots.
Context (ts : list Tree).
Hypothesis families : Forall (family procs) ts.
Hypothesis roots : root_pid <$> ts = entry_pid <$> filter (fun e => is_root procs e = true) procs.

Lemma forest_listed : Forall (fun p => p ∈ entry_pid <$> procs) (flat_map preorder ts).
Proof.
  assert (H : Forall (fun t => root_pid t ∈ entry_pid <$> procs) ts).
  { apply list.Forall_forall. intros t Ht. assert (Hr : root_pid t ∈ root_pid <$> ts) by by apply list_elem_of_fmap_2.
    rewrite roots in Hr. apply list_elem_of_fmap in Hr as (e & -> & [_ ?]%list_elem_of_filter). by apply list_elem_of_fmap_2. }
  pose proof families as Hfam. clear roots families. induction Hfam as [|t ts' Ht _ IH]; [constructor|]. apply list.Forall_cons in H as [H1 H2]. cbn [flat_map].
  apply Forall_app. split; [by apply family_listed|by apply IH].
Qed.
Lemma occ_roots e : e ∈ procs -> occ (entry_pid e) (root_pid <$> ts) = if is_root procs e then 1%nat else 0%nat.
Proof.
  intros He. rewrite roots. destruct (is_root procs e) eqn:Hr.
  - apply occ_NoDup.
    + by apply NoDup_filtered.
    + apply list_elem_of_fmap_2, list_elem_of_filter. done.
  - apply occ_notin. intros (e' & Hp & [Hr' He']%list_elem_of_filter)%list_elem_of_fmap. by rewrite (entry_unique e e' He He' Hp), Hr' in Hr.
Qed.
Lemma occ_forest e : e ∈ procs ->
  occ (entry_pid e) (flat_map preorder ts) =
  ((if is_root procs e then 1 else 0) + match e.2 with Some q => occ q (flat_map preorder ts) | None => 0 end)%nat.
Proof.
  intros He. rewrite <- (occ_roots e He). pose proof families as Hfam. clear roots families. induction Hfam as [|t ts' Ht _ IH]; [by destruct (e.2)|]. cbn [flat_map fmap list_fmap].
  rewrite occ_app, occ_cons, IH, occ_tree by done. destruct (e.2); rewrite ?occ_app; lia.
Qed.
Lemma forest_once e : e ∈ procs -> occ (entry_pid e) (flat_map preorder ts) = 1%nat.
Proof.
  remember (entry_pid e) as p eqn:Hp. revert e Hp. induction (N.lt_wf_0 p) as [p _ IH]. intros e -> He. rewrite (occ_forest e He).
  unfold is_root. destruct (e.2) as [q|] eqn:Hq; [|done]. case_bool_decide as Hin; cbn [negb].
  - apply list_elem_of_fmap in Hin as (e' & -> & He'). rewrite (IH (entry_pid e')) with (e := e'); [done|by apply older|done|done].
  - rewrite occ_notin; [done|]. intros H. apply Hin. by apply (proj1 (list.Forall_forall _ _) forest_listed).
Qed.
Lemma forest_complete : flat_map preorder ts ≡ₚ entry_pid <$> procs.
Proof.
  assert (Hn : NoDup (flat_map preorder ts)).
  { apply NoDup_occ. intros p. destruct (decide (p ∈ entry_pid <$> procs)) as [(e & -> & He)%list_elem_of_fmap|Hp]; [by rewrite forest_once|].
    rewrite occ_notin; [lia|]. intros H. apply Hp. by apply (proj1 (list.Forall_forall _ _) forest_listed). }
  apply NoDup_Permutation; [done|apply distinct|]. intros p. split.
  - by apply (proj1 (list.Forall_forall _ _) forest_listed).
  - intros (e & -> & He)%list_elem_of_fmap. destruct (decide (entry_pid e ∈ flat_map preorder ts)) as [|H%occ_notin]; [done|].
    rewrite forest_once in H; done.
Qed.
End Roots.
End Forest.

(** ** The process list is that forest *)

Lemma sorted_keys_perm {A} (table : gmap Pid A) : sorted_keys table ≡ₚ (map_to_list table).*1.
Proof. apply merge_sort_Permutation. Qed.
Lemma sorted_keys_spec {A} (table : gmap Pid A) p : p ∈ sorted_keys table <-> is_Some (table !! p).
Proof.
  rewrite sorted_keys_perm, list_elem_of_fmap. split.
  - intros ([q x] & -> & H%elem_of_map_to_list). by exists x.
  - intros [x H]. exists (p, x). by rewrite elem_of_map_to_list.
Qed.
Lemma sorted_keys_NoDup {A} (table : gmap Pid A) : NoDup (sorted_keys table).
Proof. rewrite sorted_keys_perm. apply NoDup_fst_map_to_list. Qed.
(** a list of the entries of a table, in the order of their keys *)
Lemma omap_keys {A B} (f : Pid -> A -> B) (g : B -> Pid) (table : gmap Pid A) ps : (forall p x, g (f p x) = p) ->
  Forall (fun p => is_Some (table !! p)) ps -> g <$> omap (fun p => f p <$> table !! p) ps = ps.
Proof. intros Hg. induction 1 as [|p ps [x Hx] _ IH]; [done|]. cbn. rewrite Hx. cbn. rewrite Hg. by f_equal. Qed.

Definition entry_of (p : Pid) (x : Pcb.PCB) : Pid * str * str * option Pid :=
  (p, Pcb.name x, debug_state (Pcb.state x), Pcb.parent_pid x).
Lemma collect_pids table : entry_pid <$> collect_procs table = sorted_keys table.
Proof.
  apply (omap_keys entry_of entry_pid table); [done|]. apply list.Forall_forall. intros p Hp. by apply sorted_keys_spec.
Qed.
Lemma collect_spec table e : e ∈ collect_procs table <-> exists x, table !! entry_pid e = Some x /\ e = entry_of (entry_pid e) x.
Proof.
  unfold collect_procs. rewrite list_elem_of_omap. split.
  - intros (p & _ & Hp). destruct (table !! p) as [x|] eqn:E; [|done]. injection Hp as <-. by exists x.
  - intros (x & Hx & He). exists (entry_pid e). split; [apply sorted_keys_spec; by eexists|]. rewrite Hx. cbn [fmap option_fmap option_map]. f_equal. symmetry. exact He.
Qed.

(** a child is younger than its parent *)
Definition older_parents (table : gmap Pid Pcb.PCB) : Prop :=
  forall p x q, table !! p = Some x -> Pcb.parent_pid x = Some q -> q < p.

Lemma tree_line_nonempty prefix l p st n : tree_line prefix l p st n <> [].
Proof. unfold tree_line. destruct prefix, l; done. Qed.
Lemma render_nonempty procs prefix l t : render procs prefix l t <> [].
Proof. destruct t. rewrite render_node. intros [H _]%app_eq_nil. by apply tree_line_nonempty in H. Qed.

Lemma process_list_forest table : older_parents table ->
  exists ts, process_list table = Some (forest_text (collect_procs table) ts) /\
    Forall (family (collect_procs table)) ts /\
    root_pid <$> ts = entry_pid <$> filter (fun e => is_root (collect_procs table) e = true) (collect_procs table) /\
    flat_map preorder ts ≡ₚ (map_to_list table).*1.
Proof.
  intros Hold. set (procs := collect_procs table).
  assert (Hd : NoDup (entry_pid <$> procs)) by (unfold procs; rewrite collect_pids; apply sorted_keys_NoDup).
  assert (Ho : forall e q, e ∈ procs -> e.2 = Some q -> q < entry_pid e).
  { intros e q (x & Hx & He)%collect_spec Hq. rewrite He in Hq. by apply (Hold _ x). }
  assert (Hr : forall es, (forall e, e ∈ es -> e ∈ procs) -> forall out,
    exists ts, format_roots (S (length procs)) procs es out = Some (out ++ concat (render procs [] true <$> ts)) /\
      Forall (family procs) ts /\ root_pid <$> ts = entry_pid <$> filter (fun e => is_root procs e = true) es).
  { induction es as [|e es IH]; intros Hes out; [exists []; cbn; by rewrite app_nil_r|]. cbn [format_roots]. rewrite filter_cons.
    assert (He : e ∈ procs) by (apply Hes; left). assert (Hes' : forall e, e ∈ es -> e ∈ procs) by (intros; apply Hes; by right).
    destruct (is_root procs e); cbn [mbind option_bind].
    - rewrite (format_tree_renders procs) by by apply list_elem_of_fmap_2.
      destruct (tree_exists procs Ho (S (length procs)) (entry_pid e)) as [t Ht].
      { unfold younger. apply le_n_S, length_filter. }
      rewrite Ht. cbn [fmap option_fmap option_map mbind option_bind].
      destruct (IH Hes' (out ++ render procs [] true t)) as (ts & -> & Hf & Hr). exists (t :: ts). rewrite decide_True by done. cbn [fmap list_fmap concat].
      rewrite <- app_assoc. split; [done|]. split; [constructor; [by eapply tree_family|done]|]. by rewrite Hr, (tree_root _ _ _ _ Ht).
    - rewrite decide_False by done. by apply IH. }
  destruct (Hr procs (fun e H => H) []) as (ts & Hts & Hf & Hroots). exists ts. split; [|split_and!; [done|done|]].
  - unfold process_list. fold procs. rewrite Hts. cbn [mbind option_bind app]. f_equal. unfold forest_text. destruct ts as [|t ts]; [done|].
    rewrite bool_decide_false; [done|]. cbn [fmap list_fmap concat]. intros [H _]%app_eq_nil. by apply render_nonempty in H.
  - rewrite (forest_complete procs Hd Ho ts Hf Hroots). unfold procs. rewrite collect_pids. apply sorted_keys_perm.
Qed.

(** ** Reading a number back *)

Lemma digits_from_value ds : Forall (fun c => 48 <= c <= 57) ds -> forall acc,
  foldl (fun a d => a * 10 + (d - 48)) acc ds < 2 ^ 64 ->
  Assembler.digits_from 10 acc ds = Some (foldl (fun a d => a * 10 + (d - 48)) acc ds).
Proof.
  assert (Hm : forall ds acc, acc <= foldl (fun a d => a * 10 + (d - 48)) acc ds).
  { clear. induction ds as [|d ds IH]; intros acc; [done|]. cbn. specialize (IH (acc * 10 + (d - 48))). lia. }
  induction 1 as [|d ds Hd _ IH]; intros acc H; [done|]. cbn [foldl Assembler.digits_from] in *.
  assert (Hv : Assembler.digit_value 10 d = Some (d - 48)).
  { unfold Assembler.digit_value. rewrite !(proj2 (N.leb_le _ _)) by lia. cbn [andb]. by rewrite (proj2 (N.ltb_lt _ _)) by lia. }
  rewrite Hv. cbn [mbind option_bind]. specialize (Hm ds (acc * 10 + (d - 48))). rewrite (proj2 (N.ltb_lt _ _)) by lia. by apply IH.
Qed.
Lemma parse_decimal v : v < 2 ^ 64 -> Assembler.from_str_radix 10 (Text.decimal v) = Some v.
Proof.
  intros Hv. pose proof (Text.decimal_chars v) as Hc. pose proof (Text.decimal_nonempty v) as Hn. pose proof (Text.decimal_value v Hv) as Hd.
  unfold Text.digits_value in Hd. unfold Assembler.from_str_radix. destruct (Text.decimal v) as [|c r]; [done|].
  assert (Hb : 48 <= c) by (inversion Hc; lia). rewrite (proj2 (N.eqb_neq c 43)) by lia. rewrite digits_from_value; [by rewrite Hd|done|by rewrite Hd].
Qed.

(** ** The words of a line of the monitor *)

(** characters that are not the first of the pattern stay *)
Lemma replace_keeps p pat to s t : Forall (fun c => c <> p) s -> replace (p :: pat) to (s ++ t) = s ++ replace (p :: pat) to t.
Proof.
  unfold replace. induction 1 as [|c s Hc _ IH]; [done|]. cbn [app replace_from Assembler.starts_with Assembler.strip_prefix].
  unfold Assembler.starts_with. cbn [Assembler.strip_prefix]. rewrite (proj2 (N.eqb_neq _ _)) by congruence. by rewrite IH.
Qed.
Lemma replace_id p pat to s : Forall (fun c => c <> p) s -> replace (p :: pat) to s = s.
Proof. intros H. rewrite <- (app_nil_r s) at 1. rewrite replace_keeps by done. cbn. by rewrite app_nil_r. Qed.
(** a closing brace and the blank before it *)
Lemma brace_parens s t : Forall (fun c => c <> 125) s -> replace ##" }" ##")" (s ++ ##" }" ++ t) = s ++ 41 :: replace ##" }" ##")" t.
Proof.
  unfold replace. induction 1 as [|c s Hc Hs IH]; [done|]. cbn [app replace_from].
  assert (E : Assembler.starts_with ##" }" (c :: s ++ ##" }" ++ t) = false).
  { change ##" }" with [32; 125] at 1. unfold Assembler.starts_with. cbn [Assembler.strip_prefix]. destruct (N.eqb_spec 32 c); [|done].
    destruct Hs as [|d s Hd _]; [done|]. cbn [app]. by rewrite (proj2 (N.eqb_neq _ _)). }
  rewrite E. by f_equal.
Qed.

Lemma brace_at_end s : Forall (fun c => c <> 125) s -> replace ##" }" ##")" (s ++ ##" }") = s ++ ##")".
Proof. intros H. exact (brace_parens s [] H). Qed.

(** what the texts of the states become *)
Definition shown_state (st : Pcb.ProcessState) : str :=
  match st with
  | Pcb.Blocked WaitingForMemory => ##"BlockedWaitingForMemory)"
  | Pcb.Blocked (WaitingForIo d) => ##"BlockedWaitingForIo { device_id: " ++ Text.decimal d ++ ##"))"
  | Pcb.Blocked (WaitingForLock a) => ##"BlockedWaitingForLock { lock_addr: " ++ Text.decimal a ++ ##"))"
  | Pcb.Blocked (Sleeping d) => ##"BlockedSleeping { duration_ms: " ++ Text.decimal d ++ ##"))"
  | Pcb.Blocked (WaitingForChild p) => ##"BlockedWaitingForChild { pid: " ++ Text.decimal p ++ ##"))"
  | Pcb.Terminated c => ##"Terminated { exit_code: " ++ decimal_z c ++ ##")"
  | Pcb.Zombie c => ##"Zombie(" ++ decimal_z c ++ ##")"
  | st => debug_state st
  end.

(** a match, and what follows it *)
Lemma replace_from_skip s pat to t : replace_from (length s) pat to (s ++ t) = replace_from 0 pat to t.
Proof. induction s as [|c s IH]; [by destruct t|exact IH]. Qed.
Lemma starts_with_app pat s : Assembler.starts_with pat (pat ++ s) = true.
Proof. unfold Assembler.starts_with. induction pat as [|c pat IH]; [by destruct s|]. cbn. by rewrite N.eqb_refl. Qed.
Lemma replace_match p pat to s : replace (p :: pat) to ((p :: pat) ++ s) = to ++ replace (p :: pat) to s.
Proof.
  unfold replace. cbn [app replace_from]. change (p :: pat ++ s) with ((p :: pat) ++ s). rewrite starts_with_app.
  cbn [length]. rewrite Nat.sub_succ, Nat.sub_0_r. f_equal. apply replace_from_skip.
Qed.

(** the four replacements *)
Definition four (s : str) : str :=
  replace ##"Blocked(" ##"Blocked" (replace ##" }" ##")" (replace ##"Zombie { exit_code: " ##"Zombie(" (replace ##"ProcessState::" [] s))).
Definition plain_char (c : N) : bool := negb ((c =? 125) || (c =? 80) || (c =? 90) || (c =? 66)).
Definition plain (s : str) : Prop := Forall (fun c => plain_char c = true) s.
Lemma plain_not p s : plain_char p = false -> plain s -> Forall (fun c => c <> p) s.
Proof. intros Hp H. eapply list.Forall_impl; [exact H|]. cbn. intros c Hc ->. congruence. Qed.
Lemma plain_number z : plain (decimal_z z).
Proof.
  assert (Hd : forall v, plain (Text.decimal v)).
  { intros v. eapply list.Forall_impl; [apply Text.decimal_chars|]. cbn. intros c Hc. unfold plain_char.
    by rewrite !(proj2 (N.eqb_neq _ _)) by lia. }
  unfold decimal_z. destruct (z <? 0)%Z; [|apply Hd]. apply Forall_app. split; [by repeat constructor|apply Hd].
Qed.
Lemma plain_decimal v : plain (Text.decimal v).
Proof. pose proof (plain_number (Z.of_N v)) as H. unfold decimal_z in H. destruct (Z.ltb_spec (Z.of_N v) 0); [lia|]. by rewrite N2Z.id in H. Qed.

Lemma state_heads : ##"ProcessState::" = 80 :: ##"rocessState::" /\ ##"Zombie { exit_code: " = 90 :: ##"ombie { exit_code: " /\ ##"Blocked(" = 66 :: ##"locked(".
Proof. done. Qed.
Lemma four_blocked s : plain s -> four (##"Blocked(" ++ (s ++ ##" }") ++ ##")") = ##"Blocked" ++ s ++ ##"))".
Proof.
  intros Hs. unfold four. destruct state_heads as (-> & -> & E3).
  assert (N : forall p, plain_char p = false -> p <> 66 -> p <> 125 -> Forall (fun c => c <> p) (##"Blocked(" ++ (s ++ ##" }") ++ ##")")).
  { intros p Hp H66 H125. assert (Hc : forall c, c <> p <-> bool_decide (c <> p) = true) by (intros; by rewrite bool_decide_eq_true).
    repeat (apply Forall_app; split); [|by apply plain_not| |];
      repeat constructor; intros <-; first [by apply H66|by apply H125|discriminate Hp]. }
  rewrite !replace_id by (by apply N || (rewrite replace_id; by apply N)). clear N.
  replace (##"Blocked(" ++ (s ++ ##" }") ++ ##")") with ((##"Blocked(" ++ s) ++ ##" }" ++ ##")") by by rewrite !app_assoc.
  rewrite brace_parens by (apply Forall_app; split; [by repeat constructor|by apply plain_not]).
  change (replace ##" }" ##")" ##")") with ##")". rewrite <- app_assoc, E3, replace_match. f_equal.
  change (41 :: ##")") with ##"))". rewrite replace_id; [done|]. apply Forall_app. split; [by apply plain_not|by repeat constructor].
Qed.
Lemma four_braces s : plain s -> four (s ++ ##" }") = s ++ ##")".
Proof.
  intros Hs. unfold four. destruct state_heads as (-> & -> & ->).
  assert (N : forall p t, plain_char p = false -> Forall (fun c => c <> p) t -> Forall (fun c => c <> p) (s ++ t)).
  { intros p t Hp Ht. apply Forall_app. split; [by apply plain_not|done]. }
  rewrite (replace_id 80) by (apply N; by repeat constructor). rewrite (replace_id 90) by (apply N; by repeat constructor).
  rewrite brace_at_end by by apply plain_not.
  by rewrite (replace_id 66) by (apply N; by repeat constructor).
Qed.
Lemma four_zombie s : plain s -> four (##"Zombie { exit_code: " ++ s ++ ##" }") = ##"Zombie(" ++ s ++ ##")".
Proof.
  intros Hs. unfold four. destruct state_heads as (-> & E2 & ->).
  assert (N : forall p t, plain_char p = false -> Forall (fun c => c <> p) t -> Forall (fun c => c <> p) (s ++ t)).
  { intros p t Hp Ht. apply Forall_app. split; [by apply plain_not|done]. }
  rewrite (replace_id 80) by (apply Forall_app; split; [by repeat constructor|apply N; by repeat constructor]).
  rewrite E2, replace_match, (replace_id 90) by (apply N; by repeat constructor).
  rewrite app_assoc, brace_at_end by (apply Forall_app; split; [by repeat constructor|by apply plain_not]).
  rewrite <- app_assoc. rewrite (replace_id 66); [done|]. apply Forall_app; split; [by repeat constructor|apply N; by repeat constructor].
Qed.

Lemma state_text_shown st : state_text st = shown_state st.
Proof.
  change (state_text st) with (four (debug_state st)).
  assert (P : forall s v, plain s -> plain (s ++ Text.decimal v)) by (intros; apply Forall_app; split; [done|apply plain_decimal]).
  destruct st as [| | |r|c|c]; try reflexivity; cbn [debug_state shown_state].
  - destruct r as [d| |a|d|q]; try reflexivity; cbn [debug_reason];
      rewrite (app_assoc _ (Text.decimal _) ##" }"), four_blocked by (apply P; by repeat constructor); by rewrite <- !app_assoc.
  - rewrite app_assoc, four_braces; [by rewrite <- app_assoc|]. apply Forall_app. split; [by repeat constructor|apply plain_number].
  - apply four_zombie, plain_number.
Qed.
