(* ===== verification/Errors.v ===== *)
(** * Errors and responses as text (src/src/error.rs, src/src/messaging/response.rs)

    The hierarchy of errors with the text they carry, the conversions between
    its levels, and the [Display] of every type.  The handlers of the services
    are modelled with the kinds of error of [Messages], without their texts.

    [layer_of_text] reads off a text which part of the system an error is from,
    and [display_tells_layer] says that this always works. *)
From Stdlib Require String.
Import (notations) String.
From S2P Require Import Prelude Types.
From S2P Require Text PhysMem Mmu Paging Ipc Assembler Messages Reports.

Notation str := (list N) (only parsing).
Notation "## s" := (Assembler.B s) (at level 1, only parsing).
#[local] Notation dec := Text.decimal.
#[local] Notation hex := Assembler.display_hex.

(** ** error.rs *)

(** *** Hardware *)

Definition access_text (a : AccessType) : str := match a with Read => ##"Read" | Write => ##"Write" | Execute => ##"Execute" end.
Definition flag_text (b : bool) : str := if b then ##"1" else ##"0".
Definition page_flags_text (f : Mmu.PageFlags) : str :=
  ##"P" ++ flag_text (Mmu.present f) ++ ##"W" ++ flag_text (Mmu.writable f) ++ ##"U" ++ flag_text (Mmu.user_accessible f).

Definition memory_error_text (e : PhysMem.MemoryError) : str :=
  match e with
  | PhysMem.OutOfBounds addr sz max => ##"Out of bounds: addr=" ++ hex addr ++ ##", size=" ++ dec sz ++ ##", max_size=" ++ hex max
  | PhysMem.Misaligned addr al => ##"Misaligned: addr=" ++ hex addr ++ ##", must be aligned to " ++ dec al ++ ##" bytes"
  | PhysMem.Locked => ##"Memory region is locked"
  | PhysMem.AllocationFailed sz => ##"Failed to allocate " ++ dec sz ++ ##" bytes"
  end.

Inductive DiskError :=
  | InvalidSector (sector max_sector : N)
  | IoFailed (operation : str) (sector : N)
  | Busy
  | NotReady
  | OutOfSpace.
Definition disk_error_text (e : DiskError) : str :=
  match e with
  | InvalidSector s m => ##"Invalid sector " ++ dec s ++ ##" (max " ++ dec m ++ ##")"
  | IoFailed op s => op ++ ##" failed on sector " ++ dec s
  | Busy => ##"Disk is busy"
  | NotReady => ##"Disk is not ready"
  | OutOfSpace => ##"Disk out of space"
  end.

Definition mmu_error_text (e : Mmu.MMUError) : str :=
  match e with
  | Mmu.PageNotPresent pid v => ##"Page not present: pid=" ++ dec pid ++ ##", vaddr=" ++ hex v
  | Mmu.PermissionDenied pid v a _ => ##"Permission denied: pid=" ++ dec pid ++ ##", vaddr=" ++ hex v ++ ##", access=" ++ access_text a
  | Mmu.InvalidPhysicalAddress p => ##"Invalid physical address: " ++ hex p
  | Mmu.PageTableNotFound pid => ##"Page table not found for pid=" ++ dec pid
  | Mmu.InvalidPageTableEntry pid v => ##"Invalid page table entry: pid=" ++ dec pid ++ ##", vaddr=" ++ hex v
  end.

Inductive CPUError :=
  | InvalidInstruction (pc opcode : N)
  | DivideByZero (pc : N)
  | PageFault (vaddr : VirtAddr) (access_type : AccessType)
  | InvalidRegister (index : N)
  | Halted
  | InvalidMode (current requested : str)
  | StackOverflow (sp : N)
  | StackUnderflow (sp : N).
Definition cpu_error_text (e : CPUError) : str :=
  match e with
  | InvalidInstruction pc op => ##"Invalid instruction at PC=" ++ hex pc ++ ##", opcode=" ++ hex op
  | DivideByZero pc => ##"Divide by zero at PC=" ++ hex pc
  | PageFault v a => ##"Page fault at vaddr=" ++ hex v ++ ##", access=" ++ access_text a
  | InvalidRegister i => ##"Invalid register index: " ++ dec i
  | Halted => ##"CPU is halted"
  | InvalidMode c r => ##"Invalid mode: current=" ++ c ++ ##", requested=" ++ r
  | StackOverflow sp => ##"Stack overflow at SP=" ++ hex sp
  | StackUnderflow sp => ##"Stack underflow at SP=" ++ hex sp
  end.

Inductive TimerError := AlreadyRunning | NotRunning | InvalidInterval (interval_ms min_ms max_ms : N) | InitFailed.
Definition timer_error_text (e : TimerError) : str :=
  match e with
  | AlreadyRunning => ##"Timer is already running"
  | NotRunning => ##"Timer is not running"
  | InvalidInterval i lo hi => ##"Invalid interval " ++ dec i ++ ##"ms (must be " ++ dec lo ++ ##"-" ++ dec hi ++ ##"ms)"
  | InitFailed => ##"Timer initialization failed"
  end.

Inductive HardwareError :=
  | HwMemory (e : PhysMem.MemoryError)
  | HwDisk (e : DiskError)
  | HwMMU (e : Mmu.MMUError)
  | HwCPU (e : CPUError)
  | HwTimer (e : TimerError)
  | HwDevice (device_id : N) (error : str).
Definition hardware_error_text (e : HardwareError) : str :=
  match e with
  | HwMemory e => ##"Memory: " ++ memory_error_text e
  | HwDisk e => ##"Disk: " ++ disk_error_text e
  | HwMMU e => ##"MMU: " ++ mmu_error_text e
  | HwCPU e => ##"CPU: " ++ cpu_error_text e
  | HwTimer e => ##"Timer: " ++ timer_error_text e
  | HwDevice i s => ##"Device " ++ dec i ++ ##": " ++ s
  end.

(** *** Services and the bus *)

Inductive ServiceError :=
  | InvalidArguments (param reason : str)
  | NotFound (resource_type id : str)
  | PermissionDenied (operation reason : str)
  | ResourceExhausted (resource : str) (available requested : N)
  | Io (operation details : str)
  | Timeout (operation : str) (duration_ms timeout_ms : N)
  | NotImplemented (feature : str)
  | OtherService (code : N) (msg : str).
Definition service_error_text (e : ServiceError) : str :=
  match e with
  | InvalidArguments p r => ##"Invalid argument '" ++ p ++ ##"': " ++ r
  | NotFound t i => t ++ ##" not found: " ++ i
  | PermissionDenied o r => ##"Permission denied for '" ++ o ++ ##"': " ++ r
  | ResourceExhausted r a q => ##"Resource exhausted: " ++ r ++ ##" (available: " ++ dec a ++ ##", requested: " ++ dec q ++ ##")"
  | Io o d => ##"I/O error during '" ++ o ++ ##"': " ++ d
  | Timeout o d t => ##"Operation '" ++ o ++ ##"' timed out after " ++ dec d ++ ##"ms (timeout: " ++ dec t ++ ##"ms)"
  | NotImplemented f => ##"Not implemented: " ++ f
  | OtherService c m => ##"Error (code " ++ dec c ++ ##"): " ++ m
  end.

Inductive BusError := Disconnected | Full | NoReceiver (message_type : str) | SendFailed (reason : str).
Definition bus_error_text (e : BusError) : str :=
  match e with
  | Disconnected => ##"Bus disconnected"
  | Full => ##"Bus full"
  | NoReceiver t => ##"No receiver for message type: " ++ t
  | SendFailed r => ##"Send failed: " ++ r
  end.

Inductive GenshinError :=
  | Hardware (e : HardwareError)
  | Service (e : ServiceError)
  | Bus (e : BusError)
  | Other (code : N) (message : str).
Definition display (e : GenshinError) : str :=
  match e with
  | Hardware e => ##"[Hardware] " ++ hardware_error_text e
  | Service e => ##"[Service] " ++ service_error_text e
  | Bus e => ##"[Bus] " ++ bus_error_text e
  | Other c m => ##"[Error " ++ dec c ++ ##"] " ++ m
  end.

(** *** Conversions: the trait [From], which the question mark applies *)

Class From (A B : Type) := from : A -> B.
#[export] Instance from_memory : From PhysMem.MemoryError HardwareError := HwMemory.
#[export] Instance from_disk : From DiskError HardwareError := HwDisk.
#[export] Instance from_mmu : From Mmu.MMUError HardwareError := HwMMU.
#[export] Instance from_cpu : From CPUError HardwareError := HwCPU.
#[export] Instance from_timer : From TimerError HardwareError := HwTimer.
#[export] Instance from_hardware : From HardwareError GenshinError := Hardware.
#[export] Instance from_service : From ServiceError GenshinError := Service.
#[export] Instance from_bus : From BusError GenshinError := Bus.
(** a response that could not be sent; the channel says [why] *)
Definition from_send_error (why : str) : GenshinError := Bus (SendFailed (##"Channel send error: " ++ why)).
(** the question mark *)
Definition question {A E F} `{!From E F} (r : result E A) : result F A := map_err from r.

(** ** response.rs *)

Definition bool_text (b : bool) : str := if b then ##"true" else ##"false".
Definition response_data_text (d : Messages.ResponseData) : str :=
  match d with
  | Messages.Void => ##"Void"
  | Messages.RPid p => ##"Pid(" ++ dec p ++ ##")"
  | Messages.RTid t => ##"Tid(" ++ dec t ++ ##")"
  | Messages.Fd f => ##"Fd(" ++ dec f ++ ##")"
  | Messages.BytesProcessed n => dec n ++ ##" bytes"
  | Messages.PhysicalAddr a => ##"PhysAddr(" ++ hex a ++ ##")"
  | Messages.Bytes bs => ##"Bytes(" ++ dec (len bs) ++ ##" bytes)"
  | Messages.Integer n => dec n
  | Messages.RString s => [34] ++ s ++ [34]
  | Messages.Bool b => bool_text b
  | Messages.StringList l => ##"[" ++ Reports.join ##", " l ++ ##"]"
  | Messages.DiskStats total used _ => ##"Disk(" ++ dec used ++ ##"/" ++ dec total ++ ##" sectors)"
  | Messages.MemoryStats total used free => ##"Mem(" ++ dec used ++ ##"/" ++ dec free ++ ##"/" ++ dec total ++ ##")"
  | Messages.FrameMap m => ##"FrameMap(" ++ dec (len m) ++ ##")"
  end.

Inductive ResponseError :=
  | RInvalidArguments (msg : str)
  | RNotFound (resource id : str)
  | RPermissionDenied (operation : str)
  | RResourceExhausted (resource : str)
  | RIo (details : str)
  | RTimeout (operation : str) (duration_ms : N)
  | RNotImplemented (feature : str)
  | ROther (code : N) (msg : str).
Definition response_error_text (e : ResponseError) : str :=
  match e with
  | RInvalidArguments m => ##"Invalid arguments: " ++ m
  | RNotFound r i => r ++ ##" not found: " ++ i
  | RPermissionDenied o => ##"Permission denied: " ++ o
  | RResourceExhausted r => ##"Resource exhausted: " ++ r
  | RIo d => ##"I/O error: " ++ d
  | RTimeout o d => ##"Operation '" ++ o ++ ##"' timed out after " ++ dec d ++ ##"ms"
  | RNotImplemented f => ##"Not implemented: " ++ f
  | ROther c m => ##"Error (code " ++ dec c ++ ##"): " ++ m
  end.
Inductive Response := Success (request_id : N) (data : Messages.ResponseData) | Error (request_id : N) (error : ResponseError).
Definition response_text (r : Response) : str :=
  match r with
  | Success i d => ##"Request " ++ dec i ++ ##": Success " ++ response_data_text d
  | Error i e => ##"Request " ++ dec i ++ ##": Error " ++ response_error_text e
  end.

(** ** Errors of paging and IPC, messages and signals (paging.rs, ipc.rs, msg.rs) *)

Definition page_error_text (e : Paging.PageError) : str :=
  match e with
  | Paging.AlreadyMapped v => ##"Page already mapped: vpn=" ++ dec v
  | Paging.NotMapped v => ##"Page not mapped: vpn=" ++ dec v
  | Paging.PermissionDenied va a => ##"Permission denied: addr=" ++ hex va ++ ##", access=" ++ access_text a
  | Paging.InvalidOffset va o => ##"Invalid offset: addr=" ++ hex va ++ ##", offset=" ++ dec o
  | Paging.PageFault va a => ##"Page fault: addr=" ++ hex va ++ ##", access=" ++ access_text a
  end.
Definition ipc_error_text (e : Ipc.IPCError) : str :=
  match e with
  | Ipc.RegionNotFound i => ##"Shared memory region " ++ dec i ++ ##" not found"
  | Ipc.Locked => ##"Region is locked"
  | Ipc.IpcPermissionDenied => ##"Permission denied"
  | Ipc.InvalidSize => ##"Invalid size"
  | Ipc.OutOfMemory => ##"Out of memory"
  end.
Definition signal_text (s : SignalType) : str :=
  match s with
  | SigTerminate => ##"SIGTERM" | SigKill => ##"SIGKILL" | SigStop => ##"SIGSTOP" | SigContinue => ##"SIGCONT"
  | SigUser1 => ##"SIGUSR1" | SigUser2 => ##"SIGUSR2" | SigAlarm => ##"SIGALRM" | SigChild => ##"SIGCHLD"
  | SigSegmentationFault => ##"SIGSEGV" | SigIllegalInstruction => ##"SIGILL" | SigFloatingPointException => ##"SIGFPE"
  end.

(** ** Whose error it is *)

Inductive Layer := LMemory | LDisk | LMMU | LCPU | LTimer | LDevice (device_id : N) | LService | LBus | LOther (code : N).
Definition layer (e : GenshinError) : Layer :=
  match e with
  | Hardware (HwMemory _) => LMemory
  | Hardware (HwDisk _) => LDisk
  | Hardware (HwMMU _) => LMMU
  | Hardware (HwCPU _) => LCPU
  | Hardware (HwTimer _) => LTimer
  | Hardware (HwDevice i _) => LDevice i
  | Service _ => LService
  | Bus _ => LBus
  | Other c _ => LOther c
  end.

(** the number before the character [c] *)
Definition number_before (c : N) (s : str) : option N := Assembler.from_str_radix 10 (Assembler.before c s).
Definition hardware_of_text (s : str) : option Layer :=
  if Assembler.starts_with ##"Memory: " s then Some LMemory
  else if Assembler.starts_with ##"Disk: " s then Some LDisk
  else if Assembler.starts_with ##"MMU: " s then Some LMMU
  else if Assembler.starts_with ##"CPU: " s then Some LCPU
  else if Assembler.starts_with ##"Timer: " s then Some LTimer
  else s ← Assembler.strip_prefix ##"Device " s; LDevice <$> number_before 58 s.
Definition layer_of_text (s : str) : option Layer :=
  match Assembler.strip_prefix ##"[Hardware] " s with
  | Some s => hardware_of_text s
  | None =>
      if Assembler.starts_with ##"[Service] " s then Some LService
      else if Assembler.starts_with ##"[Bus] " s then Some LBus
      else s ← Assembler.strip_prefix ##"[Error " s; LOther <$> number_before 93 s
  end.

Lemma before_app c ds s : Forall (fun d => d <> c) ds -> Assembler.before c (ds ++ c :: s) = ds.
Proof.
  induction 1 as [|d ds Hd _ IH]; cbn; [by rewrite N.eqb_refl|]. by rewrite (proj2 (N.eqb_neq d c)), IH.
Qed.
Lemma number_read c v s : c < 48 \/ 57 < c -> v < 2 ^ 64 -> number_before c (dec v ++ c :: s) = Some v.
Proof.
  intros Hc Hv. unfold number_before. rewrite before_app; [by apply Reports.parse_decimal|].
  eapply list.Forall_impl; [apply Text.decimal_chars|]. cbn. lia.
Qed.

Definition numbers_fit (e : GenshinError) : Prop :=
  match e with Hardware (HwDevice i _) => i < 2 ^ 32 | Other c _ => c < 2 ^ 32 | _ => True end.

(** Property: the text of an error tells where it is from.  Whatever the texts that the
    error carries, reading the beginning of its display gives back its layer,
    with the number of the device or the code. *)
Theorem display_tells_layer e : numbers_fit e -> layer_of_text (display e) = Some (layer e).
Proof.
  assert (Hstrip : forall s t, Assembler.strip_prefix s (s ++ t) = Some t).
  { intros s t. induction s as [|c s IH]; [by destruct t|]. cbn. by rewrite N.eqb_refl. }
  intros Hn. destruct e as [[| | | | |i s]| | |c m]; cbn [display layer numbers_fit hardware_error_text] in *; unfold layer_of_text; try reflexivity;
    rewrite ?Hstrip; try reflexivity.
  - change (hardware_of_text (##"Device " ++ dec i ++ ##": " ++ s)) with (LDevice <$> number_before 58 (dec i ++ 58 :: 32 :: s)).
    rewrite number_read; [done|lia|]. assert (2 ^ 32 < 2 ^ 64) by done. lia.
  - change (LOther <$> number_before 93 (dec c ++ 93 :: 32 :: m) = Some (LOther c)).
    rewrite number_read; [done|lia|]. assert (2 ^ 32 < 2 ^ 64) by done. lia.
Qed.

Lemma display_tells_layer_witness :
  layer_of_text (display (Hardware (HwDevice 4294967295 ##"[Bus] full"))) = Some (LDevice 4294967295).
Proof. exact (display_tells_layer (Hardware (HwDevice 4294967295 ##"[Bus] full")) eq_refl). Defined.

(** Property: converting an error keeps where it is from and its text. *)
Theorem conversions_keep_text A (r : result PhysMem.MemoryError A) e :
  question (question r : result HardwareError A) = Err e ->
  exists m, r = Err m /\ layer e = LMemory /\ display e = ##"[Hardware] Memory: " ++ memory_error_text m.
Proof. destruct r as [a|m]; cbn; [done|]. intros [= <-]. by exists m. Qed.
Lemma conversions_keep_text_witness :
  exists e, question (question (PhysMem.check_alignment 6 4 : result PhysMem.MemoryError unit) : result HardwareError unit) = Err e /\
    display e = ##"[Hardware] Memory: Misaligned: addr=0x6, must be aligned to 4 bytes".
Proof.
  exists (Hardware (HwMemory (PhysMem.Misaligned 6 4))). split; [reflexivity|].
  destruct (conversions_keep_text unit (PhysMem.check_alignment 6 4) (Hardware (HwMemory (PhysMem.Misaligned 6 4))) eq_refl) as (m & Hm & _ & H).
  assert (E : m = PhysMem.Misaligned 6 4) by (vm_compute in Hm; congruence). rewrite E in H. rewrite H. reflexivity.
Defined.
