(* ===== verification/ProcService.v ===== *)
(** * The process service (src/src/services/process/service.rs)

    One thread owns the process table, the scheduler, the IPC and
    synchronisation managers and the virtual CPUs, and runs a handler per
    message.  What it shares with the other services, and what it asks of them
    over the bus, is the interface [Peers].

    [cpus_held] says that the caller holds the lock of the CPU map, as the timer
    handler does while it runs a system call; taking that lock again blocks the
    thread for ever.  A process table entry is one object in the source too: no
    handle of it outlives the table lock.  Printed lines and the texts of
    responses are left out; program names and paths are bytes. *)
From Stdlib Require String.
Import (notations) String.
From S2P Require Import Prelude Types Messages.
From S2P Require Text PhysMem Mmu Cpu Assembler Sched Sync Ipc Pcb.

(** what [send_request] followed by [recv_timeout] gives *)
Inductive Reply := Disconnected | TimedOut | Replied (r : Response).
Definition reply_data (r : Reply) : option ResponseData :=
  match r with Replied x => data x | _ => None end.

(** The rest of the system as the process service sees it: the MMU shared with
    the memory service, the bus, and the files of the host. *)
Class Peers (W : Type) := {
  shared_mmu : W -> Mmu.MMU;
  set_shared_mmu : Mmu.MMU -> W -> W;
  bus_request : KernelMsg -> W -> W * Reply;
  bus_send : KernelMsg -> W -> W;
  host_file : str -> W -> option str }.

Record ProcessService (W : Type) := {
  process_table : gmap Pid Pcb.PCB;
  next_pid : Pid;
  ipc_manager : Ipc.IPCManager;
  sync_manager : Sync.SyncManager;
  scheduler : Sched.Scheduler;
  parent_children : gmap Pid (list Pid);
  cpus : gmap Pid Cpu.VirtualCPU;
  pending_forks : list Pid;
  waiting_parents : list (Pid * (Pid * N));   (* child, parent, response channel *)
  last_running : list (option Pid);
  cpu_count : N;
  world : W;
  answers : list (N * Response) }.            (* channel, response sent on it *)
Arguments process_table {W}. Arguments next_pid {W}. Arguments ipc_manager {W}.
Arguments sync_manager {W}. Arguments scheduler {W}. Arguments parent_children {W}.
Arguments cpus {W}. Arguments pending_forks {W}. Arguments waiting_parents {W}.
Arguments last_running {W}. Arguments cpu_count {W}. Arguments world {W}. Arguments answers {W}.
Arguments Build_ProcessService {W}.

Section Service.
Context {W : Type} `{!Peers W}.

Implicit Types s : ProcessService W.

(** *** Field updates *)
Definition set_table x s := Build_ProcessService x (next_pid s) (ipc_manager s) (sync_manager s) (scheduler s)
  (parent_children s) (cpus s) (pending_forks s) (waiting_parents s) (last_running s) (cpu_count s) (world s) (answers s).
Definition set_next_pid x s := Build_ProcessService (process_table s) x (ipc_manager s) (sync_manager s) (scheduler s)
  (parent_children s) (cpus s) (pending_forks s) (waiting_parents s) (last_running s) (cpu_count s) (world s) (answers s).
Definition set_ipc x s := Build_ProcessService (process_table s) (next_pid s) x (sync_manager s) (scheduler s)
  (parent_children s) (cpus s) (pending_forks s) (waiting_parents s) (last_running s) (cpu_count s) (world s) (answers s).
Definition set_sync x s := Build_ProcessService (process_table s) (next_pid s) (ipc_manager s) x (scheduler s)
  (parent_children s) (cpus s) (pending_forks s) (waiting_parents s) (last_running s) (cpu_count s) (world s) (answers s).
Definition set_scheduler x s := Build_ProcessService (process_table s) (next_pid s) (ipc_manager s) (sync_manager s) x
  (parent_children s) (cpus s) (pending_forks s) (waiting_parents s) (last_running s) (cpu_count s) (world s) (answers s).
Definition set_children x s := Build_ProcessService (process_table s) (next_pid s) (ipc_manager s) (sync_manager s) (scheduler s)
  x (cpus s) (pending_forks s) (waiting_parents s) (last_running s) (cpu_count s) (world s) (answers s).
Definition set_cpus x s := Build_ProcessService (process_table s) (next_pid s) (ipc_manager s) (sync_manager s) (scheduler s)
  (parent_children s) x (pending_forks s) (waiting_parents s) (last_running s) (cpu_count s) (world s) (answers s).
Definition set_pending x s := Build_ProcessService (process_table s) (next_pid s) (ipc_manager s) (sync_manager s) (scheduler s)
  (parent_children s) (cpus s) x (waiting_parents s) (last_running s) (cpu_count s) (world s) (answers s).
Definition set_waiting x s := Build_ProcessService (process_table s) (next_pid s) (ipc_manager s) (sync_manager s) (scheduler s)
  (parent_children s) (cpus s) (pending_forks s) x (last_running s) (cpu_count s) (world s) (answers s).
Definition set_last x s := Build_ProcessService (process_table s) (next_pid s) (ipc_manager s) (sync_manager s) (scheduler s)
  (parent_children s) (cpus s) (pending_forks s) (waiting_parents s) x (cpu_count s) (world s) (answers s).
Definition set_world (x : W) s := Build_ProcessService (process_table s) (next_pid s) (ipc_manager s) (sync_manager s) (scheduler s)
  (parent_children s) (cpus s) (pending_forks s) (waiting_parents s) (last_running s) (cpu_count s) x (answers s).
Definition set_answers x s := Build_ProcessService (process_table s) (next_pid s) (ipc_manager s) (sync_manager s) (scheduler s)
  (parent_children s) (cpus s) (pending_forks s) (waiting_parents s) (last_running s) (cpu_count s) (world s) x.

Abbreviation P := (HM (ProcessService W)).

Definition get : P (ProcessService W) := fun s => Done (s, Ok s).
Definition update (f : ProcessService W -> ProcessService W) : P unit := fun s => Done (f s, Ok tt).

Definition new (w : W) : ProcessService W :=
  Build_ProcessService ∅ 1 Ipc.IPCManager_new Sync.SyncManager_new (Sched.new (Sched.RoundRobin 3) 2)
    ∅ ∅ [] [] [None; None] 2 w [].

(** *** The bus and the shared MMU *)

Definition request (m : KernelMsg) : P Reply := fun s =>
  let '(w, r) := bus_request m (world s) in Done (set_world w s, Ok r).
(** [self.bus.send(..).ok()] *)
Definition send (m : KernelMsg) : P unit := update (fun s => set_world (bus_send m (world s)) s).
Definition mmu s : Mmu.MMU := shared_mmu (world s).
Definition set_mmu (u : Mmu.MMU) s := set_world (set_shared_mmu u (world s)) s.

(** the bytes at [vaddr ..]; zero where the page is not mapped *)
Definition read_bytes_virt (u : Mmu.MMU) (pid : Pid) (vaddr : VirtAddr) (n : N) : list N :=
  (fun i => match Mmu.read_u8 u pid (wadd64 vaddr (N.of_nat i)) with Ok b => b | Err _ => 0 end) <$> seq 0 (N.to_nat n).
(** up to the first zero of 256 bytes *)
Fixpoint until_zero (bs : list N) : list N :=
  match bs with [] => [] | b :: bs => if b =? 0 then [] else b :: until_zero bs end.
Definition read_string_virt (u : Mmu.MMU) (pid : Pid) (vaddr : VirtAddr) : str :=
  Text.from_utf8_lossy (until_zero (read_bytes_virt u pid vaddr 256)).
(** a store that fails is skipped *)
Definition try_write (u : Mmu.MMU) (pid : Pid) (v : VirtAddr) (b : N) : Mmu.MMU :=
  match Mmu.write_u8 u pid v b with Ok u' => u' | Err _ => u end.
Fixpoint write_slice_virt (u : Mmu.MMU) (pid : Pid) (vaddr : VirtAddr) (bs : list N) : Mmu.MMU :=
  match bs with
  | [] => u
  | b :: bs => write_slice_virt (try_write u pid vaddr b) pid (wadd64 vaddr 1) bs
  end.

(** *** Responses

    [env] is the response channel of the message, if it expects a response;
    [connected] tells whose receiver still exists. *)
Section Envelope.
Context (connected : N -> bool) (env : option N).

Definition send_on (c : N) (r : Response) s :=
  if connected c then set_answers (answers s ++ [(c, r)]) s else s.
Definition respond (r : Response) : P unit :=
  match env with None => mret tt | Some c => update (send_on c r) end.
(** [envelope.respond_success(..)?] *)
Definition respond_or_fail (r : Response) : P unit :=
  _ ← respond r;
  match env with Some c => if connected c then mret tt else throw SendFailed | None => mret tt end.
End Envelope.

(** ** Scheduling *)

Definition update_pcb (pid : Pid) (f : Pcb.PCB -> Pcb.PCB) : P unit :=
  update (fun s => set_table (alter f pid (process_table s)) s).
Definition set_state (pid : Pid) (st : Pcb.ProcessState) : P unit := update_pcb pid (Pcb.set_state st).
Definition state_of s (pid : Pid) : option Pcb.ProcessState := Pcb.state <$> process_table s !! pid.

Definition sched_ready (pid : Pid) (tid : Tid) (prio : N) : P unit :=
  update (fun s => set_scheduler (Sched.ready (scheduler s) pid tid prio) s).
Definition sched_remove (pid : Pid) (tid : Tid) : P unit :=
  update (fun s => set_scheduler (fst (Sched.remove (scheduler s) pid tid)) s).

Definition handle_schedule (pid : Pid) (tid : Tid) : P unit :=
  s ← get;
  sched_ready pid tid (match process_table s !! pid with Some pcb => Pcb.priority pcb | None => 128 end).

(** The reason is only printed. *)
Definition handle_block (pid : Pid) (tid : Tid) (_reason : BlockReason) : P unit :=
  _ ← sched_remove pid tid;
  set_state pid (Pcb.Blocked (WaitingForIo 0)).

Definition handle_unblock (pid : Pid) (tid : Tid) : P unit :=
  _ ← set_state pid Pcb.Ready;
  handle_schedule pid tid.

Definition process_exists (pid : Pid) : P unit :=
  s ← get;
  match process_table s !! pid with Some _ => mret tt | None => throw SvcNotFound end.

Definition handle_query_state (pid : Pid) : P unit := process_exists pid.

Definition handle_context_switch (from_pid to_pid : Pid) : P unit :=
  _ ← sched_remove from_pid 1;
  sched_ready to_pid 1 128.

(** ** IPC *)

(** an operation on the queue behind a handle; a handle always denotes a queue *)
Definition with_queue {A} (r : nat) (f : Ipc.MessageQueue -> Ipc.MessageQueue * A) (default : A) : P A := fun s =>
  match Ipc.on_queue (ipc_manager s) r f with
  | Some (m, a) => Done (set_ipc m s, Ok a)
  | None => Done (s, Ok default)
  end.

Definition ensure_queue (pid : Pid) : P nat := fun s =>
  let '(m, r) := Ipc.ensure_message_queue (ipc_manager s) pid in Done (set_ipc m s, Ok r).
Definition get_queue (pid : Pid) : P nat := fun s =>
  let '(m, r) := Ipc.get_message_queue (ipc_manager s) pid in Done (set_ipc m s, Ok r).

Definition handle_send_message (from_pid to_pid : Pid) (msg : IPCMessage) : P unit :=
  _ ← process_exists from_pid;
  _ ← process_exists to_pid;
  q ← ensure_queue to_pid;
  r ← with_queue q (fun q => Ipc.send q from_pid 1 msg) (Ok tt);
  match r with Ok _ => mret tt | Err _ => throw (Other 10) end.

Definition handle_receive_message (pid : Pid) (blocking : bool) : P unit :=
  q ← get_queue pid;
  m ← with_queue q Ipc.receive None;
  match m with
  | Some _ => mret tt
  | None => if blocking then handle_block pid 1 (WaitingForIo 0) else mret tt
  end.

Definition handle_peek_message (pid : Pid) : P unit := _ ← get_queue pid; mret tt.

Definition handle_create_shared_memory (pid : Pid) (sz : N) (prot : MemProt) : P unit :=
  update (fun s => set_ipc (fst (Ipc.create_shared_memory (ipc_manager s) pid sz
                                   (wadd64 0x1000 (wmul64 pid 0x1000)) prot)) s).

Definition ipc_call {A} (f : Ipc.IPCManager -> Ipc.IPCManager * result Ipc.IPCError A) (code : N) : P unit := fun s =>
  let '(m, r) := f (ipc_manager s) in
  Done (set_ipc m s, match r with Ok _ => Ok tt | Err _ => Err (Other code) end).

Definition handle_attach_shared_memory (pid : Pid) (shmid : N) : P unit :=
  ipc_call (fun m => Ipc.attach_shared_memory m shmid pid (wadd64 0x5000 (wmul64 shmid 0x1000))) 11.
Definition handle_detach_shared_memory (pid : Pid) (shmid : N) : P unit :=
  ipc_call (fun m => Ipc.detach_shared_memory m shmid pid) 12.

(** ** Semaphores and locks *)

(** an operation on the semaphore or lock that an identifier names *)
Definition with_sem {A} (id : N) (f : Sync.Semaphore -> Sync.Semaphore * A) : P (option A) := fun s =>
  match Sync.get_semaphore (sync_manager s) id ≫= fun r => Sync.on_semaphore (sync_manager s) r f with
  | Some (m, a) => Done (set_sync m s, Ok (Some a))
  | None => Done (s, Ok None)
  end.
Definition with_mutex {A} (id : N) (f : Sync.MutexLock -> Sync.MutexLock * A) : P (option A) := fun s =>
  match Sync.get_mutex (sync_manager s) id ≫= fun r => Sync.on_mutex (sync_manager s) r f with
  | Some (m, a) => Done (set_sync m s, Ok (Some a))
  | None => Done (s, Ok None)
  end.

Definition create_semaphore (pid : Pid) (initial : N) : P N := fun s =>
  let '(m, id) := Sync.create_semaphore (sync_manager s) pid initial in Done (set_sync m s, Ok id).
Definition create_mutex (pid : Pid) : P N := fun s =>
  let '(m, id) := Sync.create_mutex (sync_manager s) pid false in Done (set_sync m s, Ok id).

Definition handle_create_semaphore (pid : Pid) (initial_value : N) : P unit :=
  _ ← create_semaphore pid initial_value; mret tt.

Definition handle_wait_semaphore (pid : Pid) (semid : N) : P unit :=
  r ← with_sem semid Sync.wait;
  match r with
  | Some Sync.SWouldBlock => handle_block pid 1 (WaitingForLock semid)
  | Some _ => mret tt
  | None => throw SvcNotFound
  end.

Definition handle_signal_semaphore (pid : Pid) (semid : N) : P unit :=
  _ ← with_sem semid Sync.signal; mret tt.

Definition handle_create_lock (pid : Pid) : P unit := _ ← create_mutex pid; mret tt.

Definition handle_acquire_lock (pid : Pid) (lock_id : N) : P unit :=
  r ← with_mutex lock_id (Sync.try_acquire pid);
  match r with
  | Some Sync.MWouldBlock => handle_block pid 1 (WaitingForLock lock_id)
  | _ => mret tt
  end.

Definition handle_release_lock (pid : Pid) (lock_id : N) : P unit :=
  _ ← with_mutex lock_id (Sync.release pid); mret tt.

(** release what a dying process may hold: semaphore 0 and mutex 0 *)
Definition release_semaphore_0 : P unit :=
  _ ← with_sem 0 (fun x => if Sync.value x =? 0 then (fst (Sync.signal x), tt) else (x, tt)); mret tt.
Definition release_mutex_0 (pid : Pid) : P unit :=
  _ ← with_mutex 0 (fun x => if bool_decide (Sync.owner x = Some pid) then (fst (Sync.release pid x), tt) else (x, tt));
  mret tt.

(** ** Lifecycle *)

(** take and give back the lock of the CPU map *)
Definition lock_cpus (cpus_held : bool) : P unit := if cpus_held then deadlock else mret tt.
Definition update_cpu (pid : Pid) (f : Cpu.VirtualCPU -> Cpu.VirtualCPU) : P unit :=
  update (fun s => set_cpus (alter f pid (cpus s)) s).
Definition set_sp (x : N) (c : Cpu.VirtualCPU) : Cpu.VirtualCPU :=
  {| Cpu.registers := Cpu.registers c; Cpu.pc := Cpu.pc c; Cpu.sp := x; Cpu.flags := Cpu.flags c;
     Cpu.current_pid := Cpu.current_pid c; Cpu.halted := Cpu.halted c;
     Cpu.syscall_pending := Cpu.syscall_pending c; Cpu.syscall_regs := Cpu.syscall_regs c;
     Cpu.instruction_count := Cpu.instruction_count c; Cpu.pagefault_pending := Cpu.pagefault_pending c |}.

(** [let p = *n; *n += 1; p] *)
Definition fresh_pid : P Pid := fun s => Done (set_next_pid (wadd64 (next_pid s) 1) s, Ok (next_pid s)).

Definition fork_0 (cpus_held : bool) : P Pid :=
  child ← fresh_pid;
  _ ← lock_cpus cpus_held;
  _ ← update (fun s => set_cpus (<[child := Cpu.new child]> (cpus s)) s);
  _ ← update (fun s => set_table (<[child := Pcb.PCB_new child (Assembler.B "init") None]> (process_table s)) s);
  mret child.

(** the copy of one page, byte by byte *)
Definition copy_byte (parent child : Pid) (vaddr : VirtAddr) (u : Mmu.MMU) (o : N) : Mmu.MMU :=
  match Mmu.read_u8 u parent (wadd64 vaddr o) with
  | Ok b => try_write u child (wadd64 vaddr o) b
  | Err _ => u
  end.
Definition copy_page (parent child : Pid) (vaddr : VirtAddr) (u : Mmu.MMU) : Mmu.MMU :=
  foldl (copy_byte parent child vaddr) u (N.of_nat <$> seq 0 4096).

Definition clone_page (parent child : Pid) (e : VirtAddr * PhysAddr * Mmu.PageFlags) : P unit :=
  let '(vaddr, _, flags) := e in
  r ← request (MsgMemory (AllocFrame 1 child));
  match r with
  | Disconnected => throw (Other 90)
  | TimedOut => throw (Other 91)
  | Replied r =>
      match data r with
      | Some (PhysicalAddr new_frame) =>
          _ ← request (MsgMemory (MapPage child vaddr new_frame
                 {| readable := true; prot_writable := true; prot_executable := negb (Mmu.writable flags) |}));
          update (fun s => set_mmu (copy_page parent child vaddr (mmu s)) s)
      | _ => mret tt
      end
  end.

Fixpoint clone_pages (parent child : Pid) (es : list (VirtAddr * PhysAddr * Mmu.PageFlags)) : P unit :=
  match es with
  | [] => mret tt
  | e :: es => _ ← clone_page parent child e; clone_pages parent child es
  end.

(** the CPU of the child: the registers, [pc] and [sp] of the parent, R0 = 0 *)
Definition clone_cpu (child : Pid) (parent : option Cpu.VirtualCPU) : Cpu.VirtualCPU :=
  let c := Cpu.new child in
  let c := match parent with
           | Some p => Cpu.set_registers (take 4 (Cpu.registers p)) (set_sp (Cpu.sp p) (Cpu.set_pc (Cpu.pc p) c))
           | None => set_sp 0xFFFF (Cpu.set_pc 0 c)
           end in
  Cpu.write_register Cpu.R0 0 c.

(** [format!("(fork of {})", parent_pid)] *)
Definition fork_name (parent : Pid) : str := Assembler.B "(fork of " ++ Text.decimal parent ++ Assembler.B ")".

Definition fork_impl (cpus_held : bool) (parent_pid : Pid) : P Pid :=
  if parent_pid =? 0 then fork_0 cpus_held
  else
    _ ← process_exists parent_pid;
    child ← fresh_pid;
    s ← get;
    _ ← clone_pages parent_pid child (Mmu.get_page_entries (mmu s) parent_pid);
    _ ← lock_cpus cpus_held;
    _ ← update (fun s => set_cpus (<[child := clone_cpu child (cpus s !! parent_pid)]> (cpus s)) s);
    _ ← update (fun s => set_table
          (<[child := Pcb.set_state Pcb.Ready (Pcb.PCB_new child (fork_name parent_pid) (Some parent_pid))]>
             (process_table s)) s);
    _ ← update (fun s => set_children
          (<[parent_pid := default [] (parent_children s !! parent_pid) ++ [child]]> (parent_children s)) s);
    _ ← request (MsgFile (FileRequest.CloneFds parent_pid child));
    mret child.

(** *** Programs *)

Definition b_mov (r v : N) : list N := [0x01; r; 0x01; 0x00; v; 0x00; 0x00; 0x00].
Definition b_int : list N :=
  [0x80; 0x00; 0x00; 0x00; 0x80; 0x00; 0x00; 0x00].
Definition b_halt : list N :=
  [0x01; 0x00; 0x01; 0x00; 0x00; 0x00; 0x00; 0x00; 0x80; 0x00; 0x00; 0x00; 0x80; 0x00; 0x00; 0x00].

Definition name_is (name : str) (x : String.string) : bool := Assembler.beq name (Assembler.B x).

Definition gen_builtin_program (name : str) (data_len : N) : list N :=
  if name_is name "ls" || name_is name "listdir" then b_mov 0 18 ++ b_int ++ b_halt
  else if name_is name "mkdir" then b_mov 0 14 ++ b_int ++ b_halt
  else if name_is name "rm" || name_is name "unlink" then b_mov 0 16 ++ b_int ++ b_halt
  else if name_is name "touch" || name_is name "open" then b_mov 1 1 ++ b_mov 0 10 ++ b_int ++ b_mov 0 11 ++ b_int ++ b_halt
  else if name_is name "cat" || name_is name "read" then
    b_mov 0 10 ++ b_int ++ b_mov 0 12 ++ b_mov 2 0x10 ++ b_int ++ b_mov 0 11 ++ b_int ++ b_halt
  else if name_is name "write" then
    b_mov 1 1 ++ b_mov 0 10 ++ b_int ++ b_mov 0 13 ++ b_mov 2 (to_u8 data_len) ++ b_int ++ b_mov 0 11 ++ b_int ++ b_halt
  else if name_is name "stat" then b_mov 0 17 ++ b_int ++ b_halt
  else if name_is name "busy" then flat_map (fun i => b_mov 1 (N.of_nat i)) (seq 0 15) ++ b_halt
  else if name_is name "fork" then b_mov 0 100 ++ b_int ++ b_halt
  else if name_is name "exec" then b_mov 0 101 ++ b_int ++ b_halt
  else if name_is name "tree" then b_mov 0 102 ++ b_int ++ b_halt
  else [0xFF; 0x00; 0x00; 0x00; 0x00; 0x00; 0x00; 0x00].

Definition load_program (w : W) (name : str) : option (list N) :=
  src ← host_file (Assembler.B "programs/" ++ name ++ Assembler.B ".asm") w;
  match Assembler.assemble src with Ok code => Some code | Err _ => None end.

Definition program_code (w : W) (executable : str) (args : list str) : option (list N) :=
  match load_program w executable with
  | Some c => Some c
  | None =>
      let b := gen_builtin_program executable (match args !! 1%nat with Some a => len a | None => 0 end) in
      match b with 0xFF :: _ => None | _ => Some b end
  end.

Definition alloc_frames (count : N) (pid : Pid) : P (list PhysAddr) :=
  r ← request (MsgMemory (AllocFrame count pid));
  match r with
  | Disconnected => throw (Other 90)
  | TimedOut => throw (Other 91)
  | Replied r =>
      match data r with
      | Some (PhysicalAddr start) =>
          mret ((fun i => wadd64 start (wmul64 (N.of_nat i) 4096)) <$> seq 0 (N.to_nat count))
      | _ => throw (ResourceExhausted 0 count)
      end
  end.

(** every request of the list, the replies ignored *)
Fixpoint request_all (ms : list KernelMsg) : P unit :=
  match ms with [] => mret tt | m :: ms => _ ← request m; request_all ms end.
Fixpoint send_all (ms : list KernelMsg) : P unit :=
  match ms with [] => mret tt | m :: ms => _ ← send m; send_all ms end.

Definition code_prot : MemProt := {| readable := true; prot_writable := true; prot_executable := true |}.

Definition write_args (u : Mmu.MMU) (pid : Pid) (args : list str) : Mmu.MMU :=
  let u := match args with path :: _ => write_slice_virt u pid 0x100 path | [] => u end in
  match args !! 1%nat with Some a => write_slice_virt u pid 0x200 a | None => u end.

Definition exec_impl (cpus_held : bool) (pid : Pid) (executable : str) (args : list str) : P unit :=
  _ ← process_exists pid;
  s ← get;
  match program_code (world s) executable args with
  | None => throw SvcNotFound
  | Some code =>
      _ ← send_all ((fun e => MsgMemory (UnmapPage pid (fst (fst e)))) <$> Mmu.get_page_entries (mmu s) pid);
      frames ← alloc_frames ((len code + 4095) / 4096) pid;
      _ ← request_all (imap (fun i addr => MsgMemory (MapPage pid (N.of_nat i * 4096) addr code_prot)) frames);
      _ ← update (fun s => set_mmu (write_args (write_slice_virt (mmu s) pid 0 code) pid args) s);
      _ ← lock_cpus cpus_held;
      _ ← update_cpu pid (fun c => Cpu.set_halted false (set_sp 0xFFFF (Cpu.set_pc 0 c)));
      _ ← update_pcb pid (fun p => Pcb.with_program p executable args Pcb.Ready);
      handle_schedule pid 1
  end.

Definition create_process (executable : str) (args : list str) : P Pid :=
  child ← fork_impl false 0;
  _ ← exec_impl false child executable args;
  mret child.

(** [process_pending_forks]: nothing adds to [pending_forks]. *)
Definition finish_fork (pid : Pid) (r0 : N) : P unit :=
  _ ← update_cpu pid (Cpu.write_register Cpu.R0 r0);
  _ ← set_state pid Pcb.Ready;
  sched_ready pid 1 128.
Definition pending_fork (pid : Pid) : P unit := fun s =>
  match fork_impl false pid s with
  | Done (s', Ok child) => finish_fork pid child s'
  | Done (s', Err _) => finish_fork pid 0 s'
  | Panicked => Panicked
  | Deadlocked => Deadlocked
  end.
Fixpoint pending_forks_loop (pids : list Pid) : P unit :=
  match pids with [] => mret tt | p :: pids => _ ← pending_fork p; pending_forks_loop pids end.
Definition process_pending_forks : P unit :=
  s ← get;
  _ ← update (set_pending []);
  pending_forks_loop (pending_forks s).

(** *** Waiting for children, signals *)

Definition handle_wait_child (pid : Pid) (child_pid : option Pid) : P unit :=
  s ← get;
  _ ← match child_pid, parent_children s !! pid with
      | Some child, Some children =>
          if bool_decide (child ∈ children) then mret tt else throw SvcPermissionDenied
      | None, Some children => if bool_decide (children = []) then throw SvcNotFound else mret tt
      | _, None => mret tt
      end;
  handle_block pid 1 (WaitingForChild (default 0 child_pid)).

Section Waiting.
Context (connected : N -> bool) (env : option N).

Definition handle_wait_child_with_response (pid : Pid) (child_pid : option Pid) : P unit :=
  match child_pid with
  | None => throw InvalidArguments
  | Some child =>
      s ← get;
      if negb (bool_decide (child ∈ default [] (parent_children s !! pid)))
      then respond connected env (Err RespPermissionDenied)
      else
        match process_table s !! child with
        | None => respond connected env (Ok (Integer 0))
        | Some pcb =>
            if Pcb.is_terminated (Pcb.state pcb) then
              _ ← sched_remove child 1;
              _ ← update (fun s => set_table (delete child (process_table s)) s);
              let code := match Pcb.state pcb with Pcb.Zombie c => c | _ => 0%Z end in
              respond connected env (Ok (Integer (Z.to_N (code mod 2 ^ 64))))
            else
              match env with
              | Some c => update (fun s => set_waiting (waiting_parents s ++ [(child, (pid, c))]) s)
              | None => mret tt
              end
        end
  end.
End Waiting.

Definition handle_signal (pid : Pid) (signal : SignalType) : P unit :=
  _ ← process_exists pid;
  match signal with
  | SigTerminate | SigKill =>
      _ ← release_semaphore_0;
      _ ← release_mutex_0 pid;
      set_state pid (Pcb.Zombie 0)
  | SigStop => set_state pid (Pcb.Blocked (WaitingForIo 0))
  | SigContinue => set_state pid Pcb.Ready
  | _ => update_pcb pid (Pcb.add_signal signal)
  end.

Definition handle_get_process_info (pid : Pid) : P unit := process_exists pid.
End Service.
