(* ===== verification/ProcLoop.v ===== *)
(** * The process service: requests, system calls and the timer
    (src/src/services/process/service.rs)

    The dispatchers over the handlers of [ProcService], the system calls that
    the timer handler runs for a virtual CPU, and the timer handler itself.
    The timer holds the lock of the CPU map while it runs a system call.
    [HashMap] iteration, in the reaper and where a waiter is chosen, is in the
    order of [map_to_list]. *)
From Stdlib Require String.
Import (notations) String.
From S2P Require Import Prelude Types Messages ProcService.
From S2P Require PhysMem Mmu Cpu Assembler Sched Sync Ipc Pcb Reports.

#[local] Existing Instance Pcb.ProcessState_eq_dec.

Section Loop.
Context {W : Type} `{!Peers W}.
Context (connected : N -> bool).

Abbreviation P := (HM (ProcessService W)).
Implicit Types s : ProcessService W.

(** ** Requests *)

(** the program a spawn names, and how many processes it starts *)
Definition spawn_name (program : str) : str :=
  if name_is program "dual" then Assembler.B "busy"
  else match Assembler.strip_prefix (Assembler.B "dual:") program with Some rest => rest | None => program end.
Definition spawn_count (program : str) : nat :=
  if Assembler.starts_with (Assembler.B "dual") program then 2%nat else 1%nat.

(** [if let Ok(child) = fork_impl(0) { let _ = exec_impl(child, ..); .. }] *)
Fixpoint spawn_loop (n : nat) (pname : str) (acc : list Pid) : P (list Pid) := fun s =>
  match n with
  | O => Done (s, Ok acc)
  | S n =>
      match fork_impl false 0 s with
      | Done (s', Ok child) => (_ ← ignore (exec_impl false child pname []); spawn_loop n pname (acc ++ [child])) s'
      | Done (s', Err _) => spawn_loop n pname acc s'
      | Panicked => Panicked
      | Deadlocked => Deadlocked
      end
  end.

Definition shared_frame : P (option PhysAddr) :=
  _ ← create_semaphore 0 1;
  _ ← create_semaphore 0 1;
  r ← request (MsgMemory (AllocFrame 1 0));
  mret (match reply_data r with Some (PhysicalAddr a) => Some a | _ => None end).

Definition handle_spawn_request (program : str) : P unit :=
  let pname := spawn_name program in
  frame ← (if name_is pname "rwlock2" || name_is pname "rwlock3" then shared_frame else mret None);
  children ← spawn_loop (spawn_count program) pname [];
  match frame with
  | Some a => request_all ((fun pid => MsgMemory (MapPage pid 0x10000 a MemProt_read_write)) <$> children)
  | None => mret tt
  end.

Definition handle_process_request (req : ProcessRequest.t) : P unit :=
  match req with
  | ProcessRequest.Schedule pid tid => handle_schedule pid tid
  | ProcessRequest.Block pid tid reason => handle_block pid tid reason
  | ProcessRequest.Unblock pid tid => handle_unblock pid tid
  | ProcessRequest.QueryState pid => handle_query_state pid
  | ProcessRequest.ContextSwitch from_pid to_pid => handle_context_switch from_pid to_pid
  | ProcessRequest.SendMessage from_pid to_pid msg => handle_send_message from_pid to_pid msg
  | ProcessRequest.ReceiveMessage pid blocking => handle_receive_message pid blocking
  | ProcessRequest.PeekMessage pid => handle_peek_message pid
  | ProcessRequest.CreateSharedMemory pid sz prot => handle_create_shared_memory pid sz prot
  | ProcessRequest.AttachSharedMemory pid shmid => handle_attach_shared_memory pid shmid
  | ProcessRequest.DetachSharedMemory pid shmid => handle_detach_shared_memory pid shmid
  | ProcessRequest.CreateSemaphore pid v => handle_create_semaphore pid v
  | ProcessRequest.WaitSemaphore pid semid => handle_wait_semaphore pid semid
  | ProcessRequest.SignalSemaphore pid semid => handle_signal_semaphore pid semid
  | ProcessRequest.CreateLock pid => handle_create_lock pid
  | ProcessRequest.AcquireLock pid lock_id => handle_acquire_lock pid lock_id
  | ProcessRequest.ReleaseLock pid lock_id => handle_release_lock pid lock_id
  | ProcessRequest.ForkProcess parent_pid => _ ← fork_impl false parent_pid; mret tt
  | ProcessRequest.ExecProcess pid executable args _ => exec_impl false pid executable args
  | ProcessRequest.WaitChild pid child_pid => handle_wait_child pid child_pid
  | ProcessRequest.Signal pid signal => handle_signal pid signal
  | ProcessRequest.GetProcessInfo pid => handle_get_process_info pid
  | ProcessRequest.Spawn program _ => handle_spawn_request program
  | ProcessRequest.ListProcesses | ProcessRequest.GetStats | ProcessRequest.GetMemoryMap => mret tt
  end.

Section Envelope.
Context (env : option N).

Abbreviation respond := (respond connected env).
Abbreviation respond_or_fail := (respond_or_fail connected env).

Fixpoint spawn_all (n : nat) (pname : str) : P unit :=
  match n with
  | O => mret tt
  | S n =>
      child ← fork_impl false 0;
      _ ← exec_impl false child pname [];
      spawn_all n pname
  end.
Definition handle_spawn (program : str) : P unit :=
  _ ← spawn_all (spawn_count program) (spawn_name program);
  respond (Ok Void).

(** a recursion without an end would not come back *)
Definition handle_list_processes_with_response : P unit :=
  s ← get;
  match Reports.process_list (process_table s) with
  | Some text => respond (Ok (RString text))
  | None => deadlock
  end.
Definition handle_process_request_with_response (req : ProcessRequest.t) : P unit :=
  match req with
  | ProcessRequest.ForkProcess parent_pid => child ← fork_impl false parent_pid; respond_or_fail (Ok (RPid child))
  | ProcessRequest.ExecProcess pid executable args _ =>
      _ ← exec_impl false pid executable args; respond_or_fail (Ok Void)
  | ProcessRequest.WaitChild pid child_pid => handle_wait_child_with_response connected env pid child_pid
  | ProcessRequest.GetProcessInfo pid =>
      s ← get;
      match process_table s !! pid with
      | Some x => respond_or_fail (Ok (RString (Reports.process_info pid x)))
      | None => respond_or_fail (Err RespNotFound)
      end
  | ProcessRequest.GetStats => s ← get; respond (Ok (StringList (Reports.stats_lines (process_table s))))
  | ProcessRequest.GetMemoryMap => s ← get; respond (Ok (StringList (Reports.memory_map (mmu s) (process_table s))))
  | ProcessRequest.ListProcesses => handle_list_processes_with_response
  | ProcessRequest.Spawn program _ => handle_spawn program
  | _ => _ ← handle_process_request req; respond_or_fail (Ok Void)
  end.

Definition handle_syscall (sc : Syscall.t) : P unit :=
  match sc with
  | Syscall.CreateProcess executable args => _ ← create_process executable args; mret tt
  | _ => mret tt
  end.

Definition handle_syscall_with_response (sc : Syscall.t) : P unit :=
  match sc with
  | Syscall.CreateProcess executable args =>
      pid ← create_process executable args; respond_or_fail (Ok (RPid pid))
  | Syscall.ExitProcess _ => respond_or_fail (Ok Void)
  | _ => _ ← handle_syscall sc; respond_or_fail (Ok Void)
  end.
End Envelope.

(** ** System calls

    [me] is the key of the CPU in the map, [cpu.pid()] its process. *)

Definition write_reg (me : Pid) (r : Cpu.Register) (v : N) : P unit := update_cpu me (Cpu.write_register r v).
Definition halt_cpu (me : Pid) : P unit := update_cpu me Cpu.halt.

(** [exit_code_raw as i32] *)
Definition to_i32 (x : N) : Z := if to_u32 x <? 2 ^ 31 then Z.of_N (to_u32 x) else (Z.of_N (to_u32 x) - 2 ^ 32)%Z.

Definition syscall_exit (me pid : Pid) (exit_code_raw : N) : P unit :=
  if pid =? 1 then mret tt
  else
    s ← get;
    _ ← send_all (flat_map (fun e => [MsgMemory (UnmapPage pid (fst (fst e))); MsgMemory (FreeFrame (snd (fst e)))])
                    (Mmu.get_page_entries (mmu s) pid));
    _ ← set_state pid (Pcb.Zombie (to_i32 exit_code_raw));
    _ ← release_semaphore_0;
    _ ← sched_remove pid 1;
    halt_cpu me.

(** the reply of a file or device request, if it is of the right kind *)
Definition file_reply (r : FileRequest.t) : P (option ResponseData) := x ← request (MsgFile r); mret (reply_data x).

Definition syscall_path (pid : Pid) : P str := s ← get; mret (read_string_virt (mmu s) pid 0x100).

Definition syscall_open (me pid : Pid) (r1 : N) : P unit :=
  path ← syscall_path pid;
  d ← file_reply (FileRequest.Open path (if r1 =? 0 then FileRequest.read_only else FileRequest.create_flags));
  match d with Some (Fd fd) => write_reg me Cpu.R1 fd | _ => mret tt end.

(** the answer copied to 0x200 and its length to R2 *)
Definition deliver (me pid : Pid) (bs : list N) : P unit :=
  _ ← update (fun s => set_mmu (write_slice_virt (mmu s) pid 0x200 bs) s);
  write_reg me Cpu.R2 (len bs).

Definition syscall_read (me pid : Pid) (r1 r2 : N) : P unit :=
  d ← file_reply (FileRequest.Read (to_u32 r1) 0 0 (N.min r2 4096));
  match d with Some (Bytes bs) => deliver me pid (take 4096 bs) | _ => mret tt end.

(** [vec![0u8; n]] panics when [n] exceeds [isize::MAX]. *)
Definition alloc_vec (n : N) : P unit := if 2 ^ 63 <=? n then fun _ => Panicked else mret tt.

(** the text is printed *)
Definition syscall_print_str (r2 : N) : P unit := _ ← alloc_vec r2; mret tt.

Definition syscall_write (pid : Pid) (r1 r2 : N) : P unit :=
  _ ← alloc_vec r2;
  s ← get;
  send (MsgFile (FileRequest.WriteData (to_u32 r1) (read_bytes_virt (mmu s) pid 0x200 r2))).

Definition syscall_path_request (pid : Pid) (mk : str -> FileRequest.t) : P unit :=
  path ← syscall_path pid; send (MsgFile (mk path)).

(** [entries.join("\n")] *)
Fixpoint join_lines (l : list str) : str :=
  match l with [] => [] | [x] => x | x :: l => x ++ [10] ++ join_lines l end.

Definition syscall_listdir (me pid : Pid) : P unit :=
  path ← syscall_path pid;
  d ← file_reply (FileRequest.ListDir path);
  match d with Some (StringList l) => deliver me pid (take 4096 (join_lines l)) | _ => mret tt end.

Definition syscall_fork (me pid : Pid) : P unit := fun s =>
  match fork_impl true pid s with
  | Done (s', Ok child) => write_reg me Cpu.R0 child s'
  | Done (s', Err _) => write_reg me Cpu.R0 0 s'
  | Panicked => Panicked
  | Deadlocked => Deadlocked
  end.

Definition syscall_exec (pid : Pid) : P unit :=
  prog ← syscall_path pid; ignore (exec_impl true pid prog []).

Definition block_on (me pid : Pid) (id : N) : P unit :=
  _ ← set_state pid (Pcb.Blocked (WaitingForLock id));
  _ ← sched_remove pid 1;
  halt_cpu me.

Definition syscall_sem_create (me pid : Pid) : P unit := id ← create_semaphore pid 1; write_reg me Cpu.R1 id.
Definition syscall_sem_wait (me pid : Pid) (sem_id : N) : P unit :=
  r ← with_sem sem_id Sync.wait;
  match r with
  | Some Sync.SAcquired | None => mret tt
  | Some _ => block_on me pid sem_id
  end.

(** the first process found blocked on [id], whether a semaphore or a lock *)
Definition find_waiter s (id : N) : option Pid :=
  fst <$> (snd <$> list_find (fun e => Pcb.state (snd e) = Pcb.Blocked (WaitingForLock id))
             (map_to_list (process_table s))).

(** [cpus.try_lock()] fails when the caller holds the lock. *)
Definition syscall_sem_signal (cpus_held : bool) (sem_id : N) : P unit :=
  s ← get;
  match find_waiter s sem_id with
  | Some wpid =>
      _ ← set_state wpid Pcb.Ready;
      _ ← sched_ready wpid 1 128;
      if cpus_held then mret tt else update_cpu wpid (Cpu.set_halted false)
  | None => _ ← with_sem sem_id Sync.signal; mret tt
  end.

Definition syscall_lock_create (me pid : Pid) : P unit := id ← create_mutex pid; write_reg me Cpu.R1 id.
Definition syscall_lock_acquire (me pid : Pid) (lock_id : N) : P unit :=
  r ← with_mutex lock_id (Sync.try_acquire pid);
  match r with
  | Some Sync.MAcquired | None => mret tt
  | Some _ => block_on me pid lock_id
  end.

(** the waiter runs its system call again *)
Definition retry (c : Cpu.VirtualCPU) : Cpu.VirtualCPU :=
  let c := Cpu.set_halted false c in
  if 8 <=? Cpu.pc c then Cpu.set_pc (Cpu.pc c - 8) c else c.

Definition syscall_lock_release (cpus_held : bool) (pid : Pid) (lock_id : N) : P unit :=
  s ← get;
  match find_waiter s lock_id with
  | Some wpid =>
      _ ← set_state wpid Pcb.Ready;
      _ ← sched_ready wpid 1 128;
      _ ← lock_cpus cpus_held;
      _ ← update_cpu wpid retry;
      handle_release_lock pid lock_id
  | None => handle_release_lock pid lock_id
  end.

Definition syscall_device_read (me pid : Pid) (max_size : N) : P unit :=
  r ← request (MsgDevice (DeviceRequest.ClipboardGet max_size));
  match reply_data r with Some (Bytes bs) => deliver me pid bs | _ => mret tt end.
Definition syscall_device_write (pid : Pid) (r2 : N) : P unit :=
  _ ← alloc_vec r2;
  s ← get;
  send (MsgDevice (DeviceRequest.ClipboardSet (read_bytes_virt (mmu s) pid 0x200 r2))).

(** *** The directory tree *)

(** the box-drawing prefixes in UTF-8 *)
Definition connector (is_last : bool) : str :=
  [0xE2; 0x94; if is_last then 0x94 else 0x9C; 0xE2; 0x94; 0x80; 0xE2; 0x94; 0x80; 0x20].
Definition indent (is_last : bool) : str :=
  if is_last then [0x20; 0x20; 0x20; 0x20] else [0xE2; 0x94; 0x82; 0x20; 0x20; 0x20].
Definition child_path (path entry : str) : str :=
  if name_is path "/" then Assembler.B "/" ++ entry else path ++ Assembler.B "/" ++ entry.

(** A tree deeper than [depth] counts as a call that does not return: the
    source recurses as long as the replies name entries. *)
Fixpoint build_tree_recursive (depth : nat) (path prefix : str) (acc : list str) : P (list str) :=
  match depth with
  | O => deadlock
  | S depth =>
      d ← file_reply (FileRequest.ListDir path);
      match d with
      | Some (StringList l) =>
          (fix entries (es : list str) (acc : list str) : P (list str) :=
             match es with
             | [] => mret acc
             | e :: rest =>
                 let is_last := match rest with [] => true | _ => false end in
                 acc ← build_tree_recursive depth (child_path path e) (prefix ++ indent is_last)
                         (acc ++ [prefix ++ connector is_last ++ e]);
                 entries rest acc
             end) (sort_strings l) acc
      | _ => mret acc
      end
  end.

Context (depth : nat).

Definition syscall_tree (me pid : Pid) : P unit :=
  path ← syscall_path pid;
  tree ← build_tree_recursive depth path [] [path];
  deliver me pid (take 4096 (join_lines tree)).

(** [handle_file_syscall] as the timer calls it; a call that only prints changes
    nothing. *)
Definition handle_file_syscall (me pid : Pid) (r0 r1 r2 : N) : P unit :=
  if r0 =? 0 then syscall_exit me pid r1
  else if r0 =? 2 then syscall_print_str r2
  else if r0 =? 10 then syscall_open me pid r1
  else if r0 =? 11 then send (MsgFile (FileRequest.Close (to_u32 r1)))
  else if r0 =? 12 then syscall_read me pid r1 r2
  else if r0 =? 13 then syscall_write pid r1 r2
  else if r0 =? 14 then syscall_path_request pid FileRequest.CreateDirectory
  else if r0 =? 16 then syscall_path_request pid FileRequest.Unlink
  else if r0 =? 17 then syscall_path_request pid FileRequest.Stat
  else if r0 =? 18 then syscall_listdir me pid
  else if r0 =? 100 then syscall_fork me pid
  else if r0 =? 101 then syscall_exec pid
  else if r0 =? 102 then syscall_tree me pid
  else if r0 =? 200 then syscall_sem_create me pid
  else if r0 =? 201 then syscall_sem_wait me pid r1
  else if r0 =? 202 then syscall_sem_signal true r1
  else if r0 =? 203 then syscall_lock_create me pid
  else if r0 =? 204 then syscall_lock_acquire me pid r1
  else if r0 =? 205 then syscall_lock_release true pid r1
  else if r0 =? 208 then write_reg me Cpu.R1 0
  else if r0 =? 210 then syscall_device_read me pid r1
  else if r0 =? 211 then syscall_device_write pid r2
  else mret tt.

(** ** The timer *)

Definition is_state s (pid : Pid) (P : Pcb.ProcessState -> bool) : bool :=
  match state_of s pid with Some st => P st | None => false end.
Definition is_ready_state (st : Pcb.ProcessState) : bool := bool_decide (st = Pcb.Ready).
Definition is_running_state (st : Pcb.ProcessState) : bool := bool_decide (st = Pcb.Running).
Definition cpu_halted s (pid : Pid) : bool :=
  match cpus s !! pid with Some c => Cpu.halted c | None => false end.

(** the process that [cpu_id] runs in this tick, and those chosen so far *)
Definition pick (cpu_id : N) (chosen : list Pid) : P (Sched.SchedulingDecision * list Pid) := fun s =>
  match Sched.schedule (scheduler s) cpu_id with
  | Done (sc, Sched.Run pid tid) =>
      if bool_decide (pid ∈ chosen) then
        match Sched.yield_current sc cpu_id with
        | Done (sc', d) =>
            Done (set_scheduler sc' s, Ok (d, match d with Sched.Run p _ => p :: chosen | _ => chosen end))
        | Panicked => Panicked
        | Deadlocked => Deadlocked
        end
      else Done (set_scheduler sc s, Ok (Sched.Run pid tid, pid :: chosen))
  | Done (sc, d) => Done (set_scheduler sc s, Ok (d, chosen))
  | Panicked => Panicked
  | Deadlocked => Deadlocked
  end.

(** Running to Ready for the process that leaves the CPU, unless another CPU
    last ran it *)
Definition preempt (cpu_id : N) (d : Sched.SchedulingDecision) : P unit :=
  s ← get;
  prev ← lift (index (last_running s) cpu_id);
  match d with
  | Sched.Run pid _ =>
      if bool_decide (prev = Some pid) then mret tt
      else
        _ ← match prev with
            | Some p =>
                let busy_on_other :=
                  existsb (fun i => negb (i =? cpu_id) && bool_decide (last_running s !! N.to_nat i = Some (Some p)))
                    (N.of_nat <$> seq 0 (N.to_nat (cpu_count s))) in
                if negb busy_on_other && is_state s p is_running_state then set_state p Pcb.Ready else mret tt
            | None => mret tt
            end;
        update (fun s => set_last (<[N.to_nat cpu_id := Some pid]> (last_running s)) s)
  | _ => update (fun s => set_last (<[N.to_nat cpu_id := None]> (last_running s)) s)
  end.

Definition mark_running (pid : Pid) : P unit :=
  s ← get;
  if is_state s pid (fun st => is_ready_state st || bool_decide (st = Pcb.Creating))
  then set_state pid Pcb.Running else mret tt.

(** [catch_unwind]: a call that panics halts the CPU.  The calls that can panic
    do so before they change anything. *)
Definition catch_panic (pid : Pid) (m : P unit) : P unit := fun s =>
  match m s with Panicked => halt_cpu pid s | o => o end.

(** the system call that the stepped CPU [c] asked for *)
Definition take_syscall (pid : Pid) (c : Cpu.VirtualCPU) : P unit :=
  if Cpu.syscall_pending c then
    _ ← update_cpu pid (fun c => Cpu.set_syscall false (Cpu.syscall_regs c) c);
    let r i := Cpu.syscall_regs c !!! i in
    catch_panic pid (handle_file_syscall pid (Cpu.current_pid c) (r 0%nat) (r 1%nat) (r 2%nat))
  else mret tt.
Definition take_page_fault (pid : Pid) : P unit :=
  s ← get;
  match cpus s !! pid with
  | Some c =>
      if Cpu.pagefault_pending c then
        _ ← update_cpu pid (Cpu.set_pagefault false);
        _ ← request (MsgMemory (PageFaultHandler (Cpu.current_pid c) (Cpu.pc c) Read));
        mret tt
      else mret tt
  | None => mret tt
  end.
Definition after_step (pid : Pid) (c : Cpu.VirtualCPU) : P bool :=
  _ ← take_syscall pid c;
  s ← get;
  if Cpu.syscall_pending c && cpu_halted s pid then mret false
  else _ ← take_page_fault pid; mret true.

(** one round of the instruction loop; whether the loop goes on.  The
    interrupts that the CPU sends reach the service as messages that it drops. *)
Definition run_once (pid : Pid) : P bool :=
  s ← get;
  match cpus s !! pid with
  | None => mret false
  | Some c =>
      if Cpu.halted c then mret false
      else
        let '(m, r) := Cpu.step {| Cpu.cpu := c; Cpu.mmu := mmu s; Cpu.bus := [] |} in
        _ ← update (fun s => set_cpus (<[pid := Cpu.cpu m]> (cpus s)) (set_mmu (Cpu.mmu m) s));
        match r with
        | Ok _ => after_step pid (Cpu.cpu m)
        | Err e =>
            if pid =? 1 then mret false
            else
              match e with
              | Cpu.CPUError.PageFault _ _ => after_step pid (Cpu.cpu m)
              | _ => _ ← halt_cpu pid; mret false
              end
        end
  end.

Fixpoint run_instructions (n : nat) (pid : Pid) : P unit :=
  match n with
  | O => mret tt
  | S n => go ← run_once pid; if go : bool then run_instructions n pid else mret tt
  end.

(** A halted CPU whose process is ready again runs on. *)
Definition unhalt_if_ready (pid : Pid) : P unit :=
  s ← get;
  if cpu_halted s pid && is_state s pid (fun st => is_ready_state st || is_running_state st)
  then update_cpu pid (Cpu.set_halted false) else mret tt.

Definition notify_parent (pid : Pid) (code : Z) : P unit :=
  s ← get;
  match list_find (fun e => fst e = pid) (waiting_parents s) with
  | Some (i, (_, (_, c))) =>
      _ ← update (set_waiting (take i (waiting_parents s) ++ drop (S i) (waiting_parents s)));
      update (send_on connected c (Ok (Integer (Z.to_N (code mod 2 ^ 64)))))
  | None => mret tt
  end.

(** A process whose CPU halted without blocking becomes a zombie. *)
Definition zombify (pid : Pid) : P unit :=
  s ← get;
  if negb (pid =? 1) && negb (is_state s pid Pcb.is_blocked) && cpu_halted s pid then
    if is_state s pid is_ready_state then update_cpu pid (Cpu.set_halted false)
    else
      _ ← sched_remove pid 1;
      if is_state s pid (fun st => negb (Pcb.is_terminated st)) then
        _ ← set_state pid (Pcb.Zombie 0);
        _ ← release_semaphore_0;
        _ ← release_mutex_0 pid;
        notify_parent pid 0
      else mret tt
  else mret tt.

Definition is_zombie (st : Pcb.ProcessState) : bool := match st with Pcb.Zombie _ => true | _ => false end.
(** the first zombie, removed with its CPU; process 1 is never removed *)
Definition find_zombie s : option Pid :=
  fst <$> (snd <$> list_find (fun e => is_zombie (Pcb.state (snd e)) = true) (map_to_list (process_table s))).
Definition reap_process (pid : Pid) : P unit :=
  if pid =? 1 then mret tt
  else
    _ ← update (fun s => set_cpus (delete pid (cpus s)) s);
    update (fun s => set_table (delete pid (process_table s)) s).
Definition reap : P unit :=
  s ← get;
  match find_zombie s with Some pid => reap_process pid | None => mret tt end.

Definition tick_cpu (cpu_id : N) (chosen : list Pid) : P (list Pid) :=
  '(d, chosen) ← pick cpu_id chosen;
  _ ← preempt cpu_id d;
  _ ← match d with
      | Sched.Run pid _ =>
          _ ← mark_running pid;
          _ ← unhalt_if_ready pid;
          _ ← run_instructions 3 pid;
          zombify pid
      | _ => mret tt
      end;
  _ ← reap;
  mret chosen.

Fixpoint tick_cpus (ids : list N) (chosen : list Pid) : P unit :=
  match ids with
  | [] => mret tt
  | i :: ids => chosen ← tick_cpu i chosen; tick_cpus ids chosen
  end.
Definition handle_timer_interrupt : P unit :=
  s ← get; tick_cpus (N.of_nat <$> seq 0 (N.to_nat (cpu_count s))) [].

(** ** Messages *)

Definition handle_interrupt (i : Interrupt) : P unit :=
  match i with
  | Timer => handle_timer_interrupt
  | PageFault addr access_type => send (MsgMemory (PageFaultHandler 0 addr access_type))
  | _ => mret tt
  end.

(** [env] is the response channel of the envelope, if any. *)
Definition handle_message (env : option N) (msg : KernelMsg) : P unit :=
  match msg, env with
  | MsgProcess req, Some _ => handle_process_request_with_response env req
  | MsgProcess req, None => handle_process_request req
  | MsgSyscall sc, Some _ => handle_syscall_with_response env sc
  | MsgSyscall sc, None => handle_syscall sc
  | MsgInterrupt i, _ => handle_interrupt i
  | _, _ => mret tt
  end.

Definition handle_envelope (env : option N) (msg : KernelMsg) : P unit := fun s =>
  match handle_message env msg s with
  | Done (s', Ok _) => Done (s', Ok tt)
  | Done (s', Err _) => respond connected env (Err (RespOther 1)) s'
  | Panicked => Panicked
  | Deadlocked => Deadlocked
  end.

(** ** The main loop: init, then interrupts and messages in the order they come *)

Inductive Event := Tick | Message (env : option N) (msg : KernelMsg).

Definition handle_event (e : Event) : P unit :=
  match e with
  | Tick => ignore handle_timer_interrupt
  | Message env msg => handle_envelope env msg
  end.
Fixpoint events (es : list Event) : P unit :=
  match es with [] => mret tt | e :: es => _ ← handle_event e; events es end.
Definition run (w : W) (es : list Event) : outcome (ProcessService W * result ServiceError unit) :=
  (_ ← ignore (fork_impl false 0); events es) (new w).
End Loop.
