(* ===== verification/ProcInv.v ===== *)
(** * The process service keeps its tables consistent

    [service_wf] is the invariant of the process service; [ok dl k m]: from a
    state with the invariant, [m] keeps it, hands out at most [k] process
    identifiers, does not panic and, unless [dl], does not block for ever.  It
    holds whatever the rest of the system answers. *)
From Stdlib Require String.
Import (notations) String.
From S2P Require Import Prelude Types Messages ProcService ProcLoop.
From S2P Require PhysMem Mmu Cpu Assembler Sched Sync Ipc Pcb Reports.

#[local] Existing Instance Pcb.ProcessState_eq_dec.

(** the forest of a process table: the roots, the children of every node, and every
    process once *)
Definition forest_of (table : gmap Pid Pcb.PCB) (ts : list Reports.Tree) : Prop :=
  let procs := Reports.collect_procs table in
  Reports.root_pid <$> ts = Reports.entry_pid <$> filter (fun e => Reports.is_root procs e = true) procs /\
  Forall (Reports.family procs) ts /\
  flat_map Reports.preorder ts ≡ₚ (map_to_list table).*1.

Section Inv.
Context {W : Type} `{!Peers W} (connected : N -> bool) (depth : nat).

Implicit Types s : ProcessService W.
Abbreviation P := (HM (ProcessService W)).

(** Process identifiers are positive and below the next one to hand out; init
    is there; the tables are keyed by the identifier of their entries; a
    process is younger than its parent; a child is never init; the scheduler knows the two CPUs and runs no process
    on both. *)
Definition service_wf s : Prop :=
  (Sched.sched_wf (scheduler s) /\ length (Sched.cpu_current (scheduler s)) = 2%nat /\
   length (last_running s) = 2%nat /\ cpu_count s = 2) /\
  (1 < next_pid s /\ is_Some (process_table s !! 1)) /\
  (forall p x, process_table s !! p = Some x ->
     (Pcb.pid x = p /\ forall q, Pcb.parent_pid x = Some q -> q < p) /\ 1 <= p < next_pid s) /\
  (forall p x, cpus s !! p = Some x -> Cpu.current_pid x = p /\ 1 <= p < next_pid s) /\
  (forall p l c, parent_children s !! p = Some l -> c ∈ l -> 1 < c < next_pid s).

Definition ok {A} (dl : bool) (k : N) (m : P A) : Prop :=
  forall s, service_wf s -> next_pid s + k < 2 ^ 64 ->
  match m s with
  | Done (s', _) => service_wf s' /\ next_pid s <= next_pid s' <= next_pid s + k
  | Panicked => False
  | Deadlocked => dl = true
  end.

Lemma ok_weaken {A} dl dl' k k' (m : P A) : ok dl k m -> k <= k' -> (dl = true -> dl' = true) -> ok dl' k' m.
Proof.
  intros Hm Hk Hd s Hs Hn. specialize (Hm s Hs ltac:(lia)). destruct (m s) as [[s' r]| |]; [|done|by apply Hd].
  destruct Hm as [? ?]. split; [done|lia].
Qed.

Lemma ok_bind {A B} dl k1 k2 (m : P A) (f : A -> P B) :
  ok dl k1 m -> (forall a, ok dl k2 (f a)) -> ok dl (k1 + k2) (m ≫= f).
Proof.
  intros Hm Hf s Hs Hn. specialize (Hm s Hs ltac:(lia)). rewrite HM_bind_eq.
  destruct (m s) as [[s' [a|e]]| |]; try done.
  - destruct Hm as [Hs' Hb]. specialize (Hf a s' Hs' ltac:(lia)). destruct (f a s') as [[s2 r]| |]; try done.
    destruct Hf as [? ?]. split; [done|lia].
  - destruct Hm as [Hs' Hb]. split; [done|lia].
Qed.

Lemma ok_bind0 {A B} dl k (m : P A) (f : A -> P B) :
  ok dl 0 m -> (forall a, ok dl k (f a)) -> ok dl k (m ≫= f).
Proof. intros. rewrite <- (N.add_0_l k). by apply ok_bind. Qed.

Lemma ok_get {A} dl k (f : ProcessService W -> P A) : (forall s, service_wf s -> ok dl k (f s)) -> ok dl k (get ≫= f).
Proof. intros Hf s Hs Hn. exact (Hf s Hs s Hs Hn). Qed.
Lemma ok_ret {A} dl k (a : A) : ok dl k (mret a : P A).
Proof. intros s Hs Hn. split; [done|lia]. Qed.
Lemma ok_throw {A} dl k e : ok dl k (throw e : P A).
Proof. intros s Hs Hn. split; [done|lia]. Qed.
Lemma ok_deadlock {A} k : ok true k (deadlock : P A).
Proof. done. Qed.
Lemma ok_ignore {A} dl k (m : P A) : ok dl k m -> ok dl k (ignore m).
Proof. intros Hm s Hs Hn. specialize (Hm s Hs Hn). unfold ignore. by destruct (m s) as [[? ?]| |]. Qed.
(** the two outcomes of a call taken apart *)
Lemma ok_try {A B} dl k1 k2 (m : P A) (f : A -> P B) (g : ServiceError -> P B) :
  ok dl k1 m -> (forall a, ok dl k2 (f a)) -> (forall e, ok dl k2 (g e)) ->
  ok dl (k1 + k2) (fun s => match m s with
    | Done (s', Ok a) => f a s' | Done (s', Err e) => g e s' | Panicked => Panicked | Deadlocked => Deadlocked end).
Proof.
  intros Hm Hf Hg s Hs Hn. specialize (Hm s Hs ltac:(lia)). destruct (m s) as [[s' [a|e]]| |]; try done;
    destruct Hm as [Hs' Hb]; [specialize (Hf a s' Hs' ltac:(lia)); destruct (f a s') as [[? ?]| |]
                             |specialize (Hg e s' Hs' ltac:(lia)); destruct (g e s') as [[? ?]| |]]; try done;
    (split; [tauto|lia]).
Qed.

(** an update that keeps the invariant and the next identifier *)
Lemma ok_update dl k f : (forall s, service_wf s -> service_wf (f s) /\ next_pid (f s) = next_pid s) -> ok dl k (update f).
Proof. intros Hf s Hs Hn. destruct (Hf s Hs) as [H1 H2]. cbv [update]. rewrite H2. split; [done|lia]. Qed.

(** updates of parts that the invariant does not mention *)
Lemma ok_request dl k m : ok dl k (request m).
Proof. intros s Hs Hn. unfold request. destruct (bus_request m (world s)). split; [done|cbn; lia]. Qed.
Lemma ok_send dl k m : ok dl k (send m).
Proof. by apply ok_update. Qed.
Lemma ok_set_mmu dl k f : ok dl k (update (fun s => set_mmu (f s) s)).
Proof. by apply ok_update. Qed.
Lemma ok_with_queue {A} dl k r f (d : A) : ok dl k (with_queue r f d).
Proof. intros s Hs Hn. unfold with_queue. destruct (Ipc.on_queue _ _ _) as [[? ?]|]; (split; [done|cbn; lia]). Qed.
Lemma ok_ensure_queue dl k p : ok dl k (ensure_queue p).
Proof. intros s Hs Hn. unfold ensure_queue. destruct (Ipc.ensure_message_queue _ _). split; [done|cbn; lia]. Qed.
Lemma ok_get_queue dl k p : ok dl k (get_queue p).
Proof. intros s Hs Hn. unfold get_queue. destruct (Ipc.get_message_queue _ _). split; [done|cbn; lia]. Qed.
Lemma ok_ipc_call {A} dl k (f : Ipc.IPCManager -> Ipc.IPCManager * result Ipc.IPCError A) c : ok dl k (ipc_call f c).
Proof. intros s Hs Hn. unfold ipc_call. destruct (f _). split; [done|cbn; lia]. Qed.
Lemma ok_with_sem {A} dl k id (f : Sync.Semaphore -> Sync.Semaphore * A) : ok dl k (with_sem id f).
Proof. intros s Hs Hn. unfold with_sem. case_match_goal; [destruct p|]; (split; [done|cbn; lia]). Qed.
Lemma ok_with_mutex {A} dl k id (f : Sync.MutexLock -> Sync.MutexLock * A) : ok dl k (with_mutex id f).
Proof. intros s Hs Hn. unfold with_mutex. case_match_goal; [destruct p|]; (split; [done|cbn; lia]). Qed.
Lemma ok_create_semaphore dl k p v : ok dl k (create_semaphore p v).
Proof. intros s Hs Hn. unfold create_semaphore. destruct (Sync.create_semaphore _ _ _). split; [done|cbn; lia]. Qed.
Lemma ok_create_mutex dl k p : ok dl k (create_mutex p).
Proof. intros s Hs Hn. unfold create_mutex. destruct (Sync.create_mutex _ _ _). split; [done|cbn; lia]. Qed.
Lemma ok_respond dl k env r : ok dl k (respond connected env r).
Proof.
  destruct env as [c|]; [|apply ok_ret]. apply ok_update. intros s Hs. unfold send_on. by destruct (connected c).
Qed.
Lemma ok_respond_or_fail dl k env r : ok dl k (respond_or_fail connected env r).
Proof.
  apply ok_bind0; [apply ok_respond|]. intros _. destruct env as [c|]; [|apply ok_ret].
  destruct (connected c); [apply ok_ret|apply ok_throw].
Qed.

(** updates of the tables *)
Lemma ok_update_pcb dl k p f :
  (forall x, (Pcb.pid (f x), Pcb.parent_pid (f x)) = (Pcb.pid x, Pcb.parent_pid x)) -> ok dl k (update_pcb p f).
Proof.
  intros Hf0. assert (Hf := fun x => f_equal fst (Hf0 x)). assert (Hg := fun x => f_equal snd (Hf0 x)). cbn in Hf, Hg.
  apply ok_update. intros s (Hsch & [Hn Hi] & Ht & Hc & Hch). split; [|done].
  split; [exact Hsch|]. split; [split; [exact Hn|by apply lookup_alter_is_Some]|]. split; [|by split].
  - cbn. intros q x Hx. apply lookup_alter_Some in Hx as [(<- & y & Hy & ->)|[_ Hx]]; [rewrite Hf, Hg|]; by apply Ht.
Qed.
Lemma ok_set_state dl k p st : ok dl k (set_state p st).
Proof. by apply ok_update_pcb. Qed.
Lemma ok_update_cpu dl k p f : (forall x, Cpu.current_pid (f x) = Cpu.current_pid x) -> ok dl k (update_cpu p f).
Proof.
  intros Hf. apply ok_update. intros s (Hsch & Hn & Ht & Hc & Hch). split; [|done]. do 3 (split; [assumption|]). split; [|exact Hch].
  cbn. intros q x Hx. apply lookup_alter_Some in Hx as [(<- & y & Hy & ->)|[_ Hx]]; [rewrite Hf|]; by apply Hc.
Qed.
Lemma ok_sched_ready dl k p t pr : ok dl k (sched_ready p t pr).
Proof.
  apply ok_update. intros s ((Hw & Hl & Hrest) & H). split; [|done]. split; [|done]. split; [by apply Sched.ready_wf|].
  split; [|done]. cbn. unfold Sched.ready. by destruct (Sched.policy _).
Qed.
Lemma ok_sched_remove dl k p t : ok dl k (sched_remove p t).
Proof.
  apply ok_update. intros s ((Hw & Hl & Hrest) & H). split; [|done]. split; [|done]. split; [by apply Sched.remove_wf|].
  split; [|done]. cbn. unfold Sched.remove. destruct (Sched.remove_entry _ _ _). cbn. by rewrite length_fmap.
Qed.
Lemma ok_lock_cpus k : ok false k (lock_cpus false).
Proof. apply ok_ret. Qed.
Lemma ok_lock_cpus_held dl k : ok dl k (lock_cpus dl).
Proof. destruct dl; [apply ok_deadlock|apply ok_ret]. Qed.

(** One step through a handler that hands out no identifier before its end. *)
Ltac ok_leaf :=
  first
    [ apply ok_ret | apply ok_throw | apply ok_request | apply ok_send | apply ok_set_mmu | apply ok_with_queue
    | apply ok_ensure_queue | apply ok_get_queue | apply ok_ipc_call | apply ok_with_sem | apply ok_with_mutex
    | apply ok_create_semaphore | apply ok_create_mutex | apply ok_respond | apply ok_respond_or_fail
    | apply ok_set_state | (apply ok_update_pcb; by intros []) | (apply ok_update_cpu; by intros [])
    | apply ok_sched_ready | apply ok_sched_remove | apply ok_lock_cpus | apply ok_lock_cpus_held
    | assumption | by eauto with okdb ].
Ltac ok_step :=
  lazymatch goal with
  | |- ok _ _ (get ≫= _) => apply ok_get; intros ? ?
  | |- ok _ _ (match ?x with _ => _ end) => destruct x
  | |- ok _ _ (if ?x then _ else _) => destruct x
  | |- ok _ _ (match ?x with _ => _ end ≫= _) => destruct x
  | |- ok _ _ (ignore _) => apply ok_ignore
  | |- ok _ _ (_ ≫= _) => apply ok_bind0; [try ok_leaf|intros ?]
  | |- ok _ _ _ => ok_leaf
  end.
Ltac ok_auto := repeat (ok_step; cbn beta iota).
Create HintDb okdb.

Lemma ok_process_exists dl k p : ok dl k (process_exists p).
Proof. unfold process_exists. ok_auto. Qed.
#[local] Hint Resolve ok_process_exists : okdb.

Lemma ok_handle_schedule dl k p t : ok dl k (handle_schedule p t).
Proof. unfold handle_schedule. ok_auto. Qed.
Lemma ok_handle_block dl k p t r : ok dl k (handle_block p t r).
Proof. unfold handle_block. ok_auto. Qed.
#[local] Hint Resolve ok_handle_schedule ok_handle_block : okdb.
Lemma ok_release_semaphore_0 dl k : ok dl k release_semaphore_0.
Proof. unfold release_semaphore_0. ok_auto. Qed.
Lemma ok_release_mutex_0 dl k p : ok dl k (release_mutex_0 p).
Proof. unfold release_mutex_0. ok_auto. Qed.
#[local] Hint Resolve ok_release_semaphore_0 ok_release_mutex_0 : okdb.

Lemma ok_request_all dl k ms : ok dl k (request_all ms).
Proof. induction ms as [|m ms IH]; cbn [request_all]; ok_auto. Qed.
Lemma ok_send_all dl k ms : ok dl k (send_all ms).
Proof. induction ms as [|m ms IH]; cbn [send_all]; ok_auto. Qed.
Lemma ok_alloc_frames dl k n p : ok dl k (alloc_frames n p).
Proof. unfold alloc_frames. ok_auto. Qed.
Lemma ok_clone_page dl k p c e : ok dl k (clone_page p c e).
Proof. unfold clone_page. destruct e as [[v pa] fl]. ok_auto. Qed.
#[local] Hint Resolve ok_request_all ok_send_all ok_alloc_frames ok_clone_page : okdb.
Lemma ok_clone_pages dl k p c es : ok dl k (clone_pages p c es).
Proof. induction es as [|e es IH]; cbn [clone_pages]; ok_auto. Qed.
#[local] Hint Resolve ok_clone_pages : okdb.

(** Exec, with the CPU map locked by the caller or not. *)
Lemma ok_exec_impl held k p x a : ok held k (exec_impl held p x a).
Proof.
  unfold exec_impl. ok_auto.
Qed.
#[local] Hint Resolve ok_exec_impl : okdb.

(** *** Process creation

    the same with a child identifier that has just been handed out *)
Definition okc (c : Pid) {A} (dl : bool) (m : P A) : Prop :=
  forall s, service_wf s -> 1 < c < next_pid s -> next_pid s < 2 ^ 64 ->
  match m s with
  | Done (s', _) => service_wf s' /\ next_pid s' = next_pid s
  | Panicked => False
  | Deadlocked => dl = true
  end.

Lemma okc_ok {A} c dl (m : P A) : ok dl 0 m -> okc c dl m.
Proof.
  intros Hm s Hs _ Hn. specialize (Hm s Hs ltac:(lia)). destruct (m s) as [[s' r]| |]; try done.
  destruct Hm as [? ?]. split; [done|lia].
Qed.
Lemma okc_bind {A B} c dl (m : P A) (f : A -> P B) : okc c dl m -> (forall a, okc c dl (f a)) -> okc c dl (m ≫= f).
Proof.
  intros Hm Hf s Hs Hc Hn. specialize (Hm s Hs Hc Hn). rewrite HM_bind_eq.
  destruct (m s) as [[s' [a|e]]| |]; try done. destruct Hm as [Hs' Hb]. rewrite <- Hb. apply Hf; rewrite ?Hb; done.
Qed.
Lemma okc_get {A} c dl (f : ProcessService W -> P A) : (forall s, okc c dl (f s)) -> okc c dl (get ≫= f).
Proof. intros Hf s Hs Hc Hn. exact (Hf s s Hs Hc Hn). Qed.

Lemma okc_new_cpu c dl (f : ProcessService W -> Cpu.VirtualCPU) :
  (forall s, Cpu.current_pid (f s) = c) -> okc c dl (update (fun s => set_cpus (<[c := f s]> (cpus s)) s)).
Proof.
  intros Hf s (Hsch & Hn & Ht & Hc & Hch) Hcs Hb. cbv [update]. split; [|done].
  do 3 (split; [assumption|]). split; [|exact Hch]. cbn. intros q x Hx.
  apply lookup_insert_Some in Hx as [[<- <-]|[_ Hx]]; [split; [by rewrite Hf|lia]|by apply Hc].
Qed.
Lemma okc_new_pcb c dl pcb : Pcb.pid pcb = c -> (forall q, Pcb.parent_pid pcb = Some q -> q < c) ->
  okc c dl (update (fun s => set_table (<[c := pcb]> (process_table s)) s)).
Proof.
  intros Hp Hq s (Hsch & [Hn Hi] & Ht & Hc & Hch) Hcs Hb. cbv [update]. split; [|done].
  split; [assumption|]. split; [split; [assumption|]|split; [|by split]].
  - cbn. rewrite lookup_insert_ne by lia. done.
  - cbn. intros q x Hx. apply lookup_insert_Some in Hx as [[<- <-]|[_ Hx]]; [split; [done|lia]|by apply Ht].
Qed.
Lemma okc_new_child c dl parent : okc c dl (update (fun s =>
  set_children (<[parent := default [] (parent_children s !! parent) ++ [c]]> (parent_children s)) s)).
Proof.
  intros s (Hsch & Hn & Ht & Hc & Hch) Hcs Hb. cbv [update]. split; [|done]. do 4 (split; [assumption|]).
  cbn. intros q l x Hl Hx. apply lookup_insert_Some in Hl as [[<- <-]|[_ Hl]]; [|by eapply Hch].
  apply elem_of_app in Hx as [Hx|Hx%list_elem_of_singleton]; [|by subst].
  destruct (parent_children s !! parent) eqn:E; [by eapply Hch|by apply elem_of_nil in Hx].
Qed.

Lemma fresh_pid_step {A} dl (f : Pid -> P A) s :
  service_wf s -> next_pid s + 1 < 2 ^ 64 -> okc (next_pid s) dl (f (next_pid s)) ->
  match (fresh_pid ≫= f) s with
  | Done (s', _) => service_wf s' /\ next_pid s <= next_pid s' <= next_pid s + 1
  | Panicked => False
  | Deadlocked => dl = true
  end.
Proof.
  intros (Hsch & [Hn Hi] & Ht & Hc & Hch) Hb Hf. rewrite HM_bind_eq. cbv [fresh_pid].
  set (s1 := set_next_pid (wadd64 (next_pid s) 1) s).
  assert (Hnp : next_pid s1 = next_pid s + 1) by (cbn; apply wadd64_small; lia).
  assert (Hs1 : service_wf s1).
  { split; [exact Hsch|]. unfold s1; cbn. rewrite wadd64_small by lia. split; [split; [lia|done]|].
    split_and!; [intros p x Hx; destruct (Ht p x Hx); split; [done|lia]
                |intros p x Hx; destruct (Hc p x Hx); split; [done|lia]
                |intros p l c Hl Hx; destruct (Hch p l c Hl Hx); lia]. }
  specialize (Hf s1 Hs1 ltac:(lia) ltac:(lia)). destruct (f (next_pid s) s1) as [[s' r]| |]; try done.
  destruct Hf as [? ->]. rewrite Hnp. split; [done|lia].
Qed.
Lemma ok_fresh_pid {A} dl (f : Pid -> P A) : (forall c, okc c dl (f c)) -> ok dl 1 (fresh_pid ≫= f).
Proof. intros Hf s Hs Hb. by apply fresh_pid_step. Qed.
(** an identifier handed out after a process of the table was looked up *)
Lemma ok_fresh_child {A} dl q (f : Pid -> P A) :
  (forall c, q < c -> okc c dl (f c)) -> ok dl 1 (_ ← process_exists q; c ← fresh_pid; f c).
Proof.
  intros Hf s Hs Hb. rewrite HM_bind_eq. unfold process_exists. rewrite HM_bind_eq. cbn [get].
  destruct (process_table s !! q) as [x|] eqn:Hx; [|split; [done|lia]]. apply fresh_pid_step; [done..|]. apply Hf.
  pose proof Hs as (_ & _ & Ht & _). by apply Ht in Hx as (_ & _ & H).
Qed.

Lemma ok_fork_impl held parent : ok held 1 (fork_impl held parent).
Proof.
  unfold fork_impl. destruct (parent =? 0).
  - unfold fork_0. apply ok_fresh_pid. intros c. apply okc_bind; [apply okc_ok, ok_lock_cpus_held|intros _].
    apply okc_bind; [by apply (okc_new_cpu c held (fun _ => Cpu.new c))|intros _].
    apply okc_bind; [by apply okc_new_pcb|intros _]. apply okc_ok, ok_ret.
  - apply ok_fresh_child. intros c Hc. apply okc_get. intros s.
    apply okc_bind; [apply okc_ok, ok_clone_pages|intros _].
    apply okc_bind; [apply okc_ok, ok_lock_cpus_held|intros _].
    apply okc_bind; [apply (okc_new_cpu c held (fun s => clone_cpu c (cpus s !! parent)))|intros _].
    { intros s'. by destruct (cpus s' !! parent). }
    apply okc_bind; [apply okc_new_pcb; [done|by intros q [= <-]]|intros _]. apply okc_bind; [apply okc_new_child|intros _].
    apply okc_bind; [apply okc_ok, ok_request|intros _]. apply okc_ok, ok_ret.
Qed.

(** Exec and fork without the CPU map locked. *)
Lemma ok_fork_free dl parent : ok dl 1 (fork_impl false parent).
Proof. eapply ok_weaken; [apply ok_fork_impl|lia|done]. Qed.
Lemma ok_exec_free dl k p x a : ok dl k (exec_impl false p x a).
Proof. eapply ok_weaken; [apply (ok_exec_impl false k)|lia|done]. Qed.
#[local] Hint Resolve ok_exec_free : okdb.

Lemma ok_spawn_loop dl n nm : forall acc, ok dl (N.of_nat n) (spawn_loop n nm acc).
Proof.
  induction n as [|n IH]; intros acc; [apply ok_ret|]. replace (N.of_nat (S n)) with (1 + N.of_nat n) by lia.
  apply (ok_try dl 1 (N.of_nat n) (fork_impl false 0)); [apply ok_fork_free| |intros _; apply IH].
  intros c. apply ok_bind0; [apply ok_ignore, ok_exec_free|intros _; apply IH].
Qed.
Lemma ok_spawn_all dl n nm : ok dl (N.of_nat n) (spawn_all n nm).
Proof.
  induction n as [|n IH]; [apply ok_ret|]. replace (N.of_nat (S n)) with (1 + N.of_nat n) by lia.
  apply (ok_bind dl 1 (N.of_nat n)); [apply ok_fork_free|]. intros c.
  apply ok_bind0; [apply ok_exec_free|intros _; exact IH].
Qed.
Lemma spawn_count_le program : N.of_nat (spawn_count program) <= 2.
Proof. unfold spawn_count. destruct (Assembler.starts_with _ _); lia. Qed.

Lemma ok_create_process dl x a : ok dl 1 (create_process x a).
Proof.
  unfold create_process. replace 1 with (1 + 0) by lia. apply (ok_bind dl 1 0); [apply ok_fork_free|].
  intros c. ok_auto.
Qed.

Lemma ok_shared_frame dl k : ok dl k shared_frame.
Proof. unfold shared_frame. ok_auto. Qed.
#[local] Hint Resolve ok_shared_frame : okdb.

Lemma ok_handle_spawn_request dl program : ok dl 2 (handle_spawn_request program).
Proof.
  unfold handle_spawn_request. apply ok_bind0; [ok_auto|intros fr]. replace 2 with (2 + 0) by lia.
  apply ok_bind; [eapply ok_weaken; [apply ok_spawn_loop|apply spawn_count_le|done]|intros cs]. ok_auto.
Qed.

Lemma ok_handle_process_request dl req : ok dl 2 (handle_process_request req).
Proof.
  destruct req; cbn [handle_process_request]; try apply ok_handle_spawn_request;
    try (unfold handle_unblock, handle_query_state, handle_context_switch, handle_send_message, handle_receive_message,
           handle_peek_message, handle_create_shared_memory, handle_attach_shared_memory, handle_detach_shared_memory,
           handle_create_semaphore, handle_wait_semaphore, handle_signal_semaphore, handle_create_lock,
           handle_acquire_lock, handle_release_lock, handle_wait_child, handle_signal, handle_get_process_info;
         ok_auto; fail).
  replace 2 with (1 + 1) by lia. apply ok_bind; [apply ok_fork_free|intros c; ok_auto].
Qed.

(** A terminated child that is reaped by its parent is not init. *)
Lemma ok_delete_child dl k p c s0 :
  service_wf s0 -> c ∈ default [] (parent_children s0 !! p) ->
  ok dl k (update (fun s => set_table (delete c (process_table s)) s)).
Proof.
  intros (_ & _ & _ & _ & Hch0) Hin. assert (1 < c).
  { destruct (parent_children s0 !! p) eqn:E; [by apply (Hch0 p l)|by apply elem_of_nil in Hin]. }
  apply ok_update. intros s (Hsch & [Hn Hi] & Ht & Hc & Hch). split; [|done].
  split; [assumption|]. split; [split; [assumption|]|split; [|by split]].
  - cbn. by rewrite lookup_delete_ne by lia.
  - cbn. intros q x Hx. apply lookup_delete_Some in Hx as [_ Hx]. by apply Ht.
Qed.

Lemma ok_wait_with_response dl k env p c : ok dl k (handle_wait_child_with_response connected env p c).
Proof.
  unfold handle_wait_child_with_response. destruct c as [c|]; [|ok_auto]. apply ok_get. intros s0 Hs0.
  case_bool_decide as Hin; cbn [negb]; [|ok_auto]. destruct (process_table s0 !! c); [|ok_auto].
  destruct (Pcb.is_terminated _).
  - apply ok_bind0; [ok_auto|intros _]. apply ok_bind0; [by eapply ok_delete_child|intros _]. ok_auto.
  - destruct env; [|ok_auto]. by apply ok_update.
Qed.

Lemma ok_list_processes dl k env : ok dl k (handle_list_processes_with_response connected env).
Proof.
  unfold handle_list_processes_with_response. apply ok_get. intros s (_ & _ & Ht & _).
  destruct (Reports.process_list_forest (process_table s)) as (ts & -> & _); [|apply ok_respond].
  intros p x q Hx Hq. by apply (proj2 (proj1 (Ht p x Hx))).
Qed.
#[local] Hint Resolve ok_list_processes : okdb.

Lemma ok_request_with_response dl env req : ok dl 2 (handle_process_request_with_response connected env req).
Proof.
  destruct req; cbn [handle_process_request_with_response];
    try (apply ok_wait_with_response);
    try (replace 2 with (2 + 0) by lia; apply ok_bind; [apply ok_handle_process_request|intros _; ok_auto]; fail);
    try (ok_auto; fail).
  - replace 2 with (1 + 1) by lia. apply ok_bind; [apply ok_fork_free|intros c; ok_auto].
  - unfold handle_spawn. replace 2 with (2 + 0) by lia. apply ok_bind; [|intros _; ok_auto].
    eapply ok_weaken; [apply ok_spawn_all|apply spawn_count_le|done].
Qed.

Lemma ok_handle_syscall dl sc : ok dl 1 (handle_syscall sc).
Proof.
  destruct sc; cbn [handle_syscall]; try apply ok_ret. replace 1 with (1 + 0) by lia.
  apply ok_bind; [apply ok_create_process|intros _; ok_auto].
Qed.
Lemma ok_syscall_with_response dl env sc : ok dl 1 (handle_syscall_with_response connected env sc).
Proof.
  destruct sc; cbn [handle_syscall_with_response]; try (replace 1 with (1 + 0) by lia; apply ok_bind);
    try apply ok_create_process; try apply ok_handle_syscall; intros; ok_auto.
Qed.

(** *** System calls and the timer *)

Lemma ok_write_reg dl k me r v : ok dl k (write_reg me r v).
Proof. unfold write_reg. ok_auto. Qed.
Lemma ok_halt_cpu dl k me : ok dl k (halt_cpu me).
Proof. unfold halt_cpu. ok_auto. Qed.
Lemma ok_file_reply dl k r : ok dl k (file_reply r).
Proof. unfold file_reply. ok_auto. Qed.
Lemma ok_syscall_path dl k p : ok dl k (syscall_path p).
Proof. unfold syscall_path. ok_auto. Qed.
#[local] Hint Resolve ok_write_reg ok_halt_cpu ok_file_reply ok_syscall_path : okdb.
Lemma ok_deliver dl k me p bs : ok dl k (deliver me p bs).
Proof. unfold deliver. ok_auto. Qed.
Lemma ok_block_on dl k me p id : ok dl k (block_on me p id).
Proof. unfold block_on. ok_auto. Qed.
Lemma ok_handle_release_lock dl k p id : ok dl k (handle_release_lock p id).
Proof. unfold handle_release_lock. ok_auto. Qed.
Lemma ok_retry dl k p : ok dl k (update_cpu p retry).
Proof. apply ok_update_cpu. intros c. unfold retry. by destruct (8 <=? _). Qed.
#[local] Hint Resolve ok_deliver ok_block_on ok_handle_release_lock ok_retry : okdb.

Lemma ok_build_tree d : forall k path prefix acc, ok true k (build_tree_recursive d path prefix acc).
Proof.
  induction d as [|d IH]; intros k path prefix acc; [apply ok_deadlock|]. cbn [build_tree_recursive].
  apply ok_bind0; [ok_auto|intros r]. destruct r as [[]|]; try apply ok_ret.
  generalize (sort_strings l). intros es. revert acc. induction es as [|e es IHe]; intros acc; [apply ok_ret|].
  refine (ok_bind0 true k _ _ _ _); [apply IH|intros acc'; apply IHe].
Qed.
#[local] Hint Resolve ok_build_tree : okdb.

Lemma ok_syscall_fork me p : ok true 1 (syscall_fork me p).
Proof.
  replace 1 with (1 + 0) by lia.
  apply (ok_try true 1 0 (fork_impl true p) (fun c => write_reg me Cpu.R0 c) (fun _ => write_reg me Cpu.R0 0));
    [apply ok_fork_impl|intros; apply ok_write_reg..].
Qed.

(** A call that keeps the invariant, and one that panics before it changes
    anything, caught. *)
Lemma ok_caught dl k p m : ok dl k m -> ok dl k (catch_panic p m).
Proof.
  intros Hm s Hs Hn. specialize (Hm s Hs Hn). unfold catch_panic. by destruct (m s) as [[s' r]| |].
Qed.
Lemma ok_caught_vec dl k p n m : ok dl k m -> ok dl k (catch_panic p (_ ← alloc_vec n; m)).
Proof.
  intros Hm. unfold alloc_vec. destruct (2 ^ 63 <=? n); [exact (ok_halt_cpu dl k p)|exact (ok_caught dl k p m Hm)].
Qed.

Lemma ok_file_syscall me p r0 r1 r2 : ok true 1 (catch_panic me (handle_file_syscall depth me p r0 r1 r2)).
Proof.
  unfold handle_file_syscall.
  repeat match goal with |- context [if ?b then _ else _] => destruct b end;
    try (apply ok_caught, ok_syscall_fork);
    unfold syscall_exit, syscall_print_str, syscall_open, syscall_read, syscall_write, syscall_path_request, syscall_listdir, syscall_exec,
      syscall_tree, syscall_sem_create, syscall_sem_wait, syscall_sem_signal, syscall_lock_create, syscall_lock_acquire,
      syscall_lock_release, syscall_device_read, syscall_device_write;
    first [apply ok_caught_vec; ok_auto; fail|apply ok_caught; ok_auto; fail].
Qed.

(** the CPU of [p] after a step of the instruction loop *)
Lemma stepped_wf s p c m r :
  service_wf s -> cpus s !! p = Some c ->
  Cpu.step {| Cpu.cpu := c; Cpu.mmu := mmu s; Cpu.bus := [] |} = (m, r) ->
  service_wf (set_cpus (<[p := Cpu.cpu m]> (cpus s)) (set_mmu (Cpu.mmu m) s)).
Proof.
  intros (Hsch & Hn & Ht & Hc & Hch) Hp Hst. apply Cpu.step_pid in Hst; cbn in Hst. destruct (Hc _ _ Hp) as [Hpid Hb0].
  do 3 (split; [assumption|]). split; [|exact Hch]. cbn. intros q x Hx.
  apply lookup_insert_Some in Hx as [[<- <-]|[_ Hx]]; [split; [congruence|done]|by apply Hc].
Qed.

Lemma ok_take_page_fault dl k p : ok dl k (take_page_fault p).
Proof. unfold take_page_fault. ok_auto. Qed.
#[local] Hint Resolve ok_take_page_fault : okdb.

Lemma ok_after_step p c : ok true 1 (after_step depth p c).
Proof.
  unfold after_step, take_syscall. replace 1 with (1 + 0) by lia. apply ok_bind; [|intros _; ok_auto].
  destruct (Cpu.syscall_pending c); [|apply ok_ret]. apply ok_bind0; [ok_auto|intros _; apply ok_file_syscall].
Qed.

Lemma ok_stepped {A} s s' dl (m : P A) :
  service_wf s' -> next_pid s' = next_pid s -> next_pid s + 1 < 2 ^ 64 -> ok dl 1 m ->
  match m s' with
  | Done (s', _) => service_wf s' /\ next_pid s <= next_pid s' <= next_pid s + 1
  | Panicked => False
  | Deadlocked => dl = true
  end.
Proof. intros Hs' He Hn Hm. rewrite <- He in *. by apply Hm. Qed.

Lemma ok_run_once p : ok true 1 (run_once depth p).
Proof.
  intros s Hs Hn. unfold run_once. rewrite HM_bind_eq. cbn [get].
  destruct (cpus s !! p) as [c|] eqn:Hc; [|by apply ok_ret]. destruct (Cpu.halted c); [by apply ok_ret|].
  destruct (Cpu.step _) as [m r] eqn:Hst. rewrite HM_bind_eq. cbn [update].
  apply (ok_stepped s); [by eapply stepped_wf|done|exact Hn|].
  destruct r as [|e]; [apply ok_after_step|]. destruct (p =? 1); [apply ok_ret|].
  destruct e; try apply ok_after_step; ok_auto.
Qed.

Lemma ok_run_instructions n p : ok true (N.of_nat n) (run_instructions depth n p).
Proof.
  induction n as [|n IH]; [apply ok_ret|]. replace (N.of_nat (S n)) with (1 + N.of_nat n) by lia.
  cbn [run_instructions]. apply ok_bind; [apply ok_run_once|]. intros []; [exact IH|apply ok_ret].
Qed.

(** *** The scheduler in the timer *)

Lemma set_scheduler_wf s sc :
  service_wf s -> Sched.sched_wf sc -> length (Sched.cpu_current sc) = 2%nat -> service_wf (set_scheduler sc s).
Proof. intros ((_ & _ & Hrest) & H) Hw Hl. split; [by split|done]. Qed.

Lemma ok_pick dl k i chosen : i < 2 -> ok dl k (pick i chosen).
Proof.
  intros Hi s Hs Hn. pose proof Hs as ((Hw & Hl & _) & _). unfold pick.
  destruct (Sched.schedule_step (scheduler s) i Hw) as (sc & d & -> & Hw1 & Hl1); [lia|]. rewrite Hl in Hl1.
  assert (Hsc := set_scheduler_wf s sc Hs Hw1 Hl1). destruct d as [pid tid| |]; [|by split; [|cbn; lia]..].
  case_bool_decide; [|by split; [|cbn; lia]].
  destruct (Sched.yield_step sc i Hw1) as (sc2 & d2 & -> & Hw2 & Hl2); [lia|].
  split; [apply set_scheduler_wf; [done..|congruence]|cbn; lia].
Qed.

Lemma ok_set_last dl k i x : ok dl k (update (fun s => set_last (<[i := x]> (last_running s)) s)).
Proof.
  apply ok_update. intros s ((Hw & Hl & Hr & Hrest) & H). split; [|done]. split; [|done].
  split; [done|]. split; [done|]. split; [cbn; by rewrite length_insert|done].
Qed.
#[local] Hint Resolve ok_set_last : okdb.

Lemma ok_preempt dl k i d : i < 2 -> ok dl k (preempt i d).
Proof.
  intros Hi. unfold preempt. apply ok_get. intros s ((_ & _ & Hr & _) & _).
  destruct (lookup_lt_is_Some_2 (last_running s) (N.to_nat i)) as [x Hx]; [lia|].
  rewrite (index_done _ _ _ Hx). apply (ok_bind0 dl k); [apply ok_ret|intros prev]. ok_auto.
Qed.

Lemma ok_notify_parent dl k p code : ok dl k (notify_parent connected p code).
Proof.
  unfold notify_parent. apply ok_get. intros s _. destruct (list_find _ _) as [[i [q [par c]]]|]; [|apply ok_ret].
  apply ok_bind0; [by apply ok_update|intros _]. apply ok_update. intros s' Hs'. unfold send_on. by destruct (connected c).
Qed.
#[local] Hint Resolve ok_notify_parent : okdb.
Lemma ok_zombify dl k p : ok dl k (zombify connected p).
Proof. unfold zombify. ok_auto. Qed.
Lemma ok_mark_running dl k p : ok dl k (mark_running p).
Proof. unfold mark_running. ok_auto. Qed.
Lemma ok_unhalt_if_ready dl k p : ok dl k (unhalt_if_ready p).
Proof. unfold unhalt_if_ready. ok_auto. Qed.

Lemma ok_reap_process dl k p : ok dl k (reap_process p).
Proof.
  unfold reap_process. destruct (N.eqb_spec p 1) as [|Hp]; [apply ok_ret|].
  apply ok_bind0; [|intros _]; apply ok_update; intros s (Hsch & [Hn Hi] & Ht & Hc & Hch); (split; [|done]);
    (split; [assumption|]).
  - split; [by split|]. split; [assumption|]. split; [|assumption]. cbn. intros q x Hx.
    apply lookup_delete_Some in Hx as [_ Hx]. by apply Hc.
  - split; [split; [assumption|cbn; by rewrite lookup_delete_ne]|]. split; [|by split]. cbn. intros q x Hx.
    apply lookup_delete_Some in Hx as [_ Hx]. by apply Ht.
Qed.
Lemma ok_reap dl k : ok dl k reap.
Proof. unfold reap. apply ok_get. intros s _. destruct (find_zombie s); [apply ok_reap_process|apply ok_ret]. Qed.

Lemma ok_tick_cpu i chosen : i < 2 -> ok true 3 (tick_cpu connected depth i chosen).
Proof.
  intros Hi. unfold tick_cpu. apply ok_bind0; [by apply ok_pick|intros [d ch]].
  apply ok_bind0; [by apply ok_preempt|intros _]. replace 3 with (3 + 0) by lia.
  apply ok_bind; [|intros _; apply ok_bind0; [apply ok_reap|intros _; apply ok_ret]].
  destruct d as [p t| |]; [|apply ok_ret..]. apply ok_bind0; [apply ok_mark_running|intros _].
  apply ok_bind0; [apply ok_unhalt_if_ready|intros _]. replace 3 with (3 + 0) by lia.
  apply ok_bind; [apply (ok_run_instructions 3)|intros _; apply ok_zombify].
Qed.

Lemma ok_timer : ok true 6 (handle_timer_interrupt connected depth).
Proof.
  unfold handle_timer_interrupt. apply ok_get. intros s ((_ & _ & _ & ->) & _).
  change (N.of_nat <$> seq 0 (N.to_nat 2)) with [0; 1]. cbn [tick_cpus]. replace 6 with (3 + (3 + 0)) by lia.
  apply ok_bind; [by apply ok_tick_cpu|intros ch]. apply ok_bind; [by apply ok_tick_cpu|intros _]. apply ok_ret.
Qed.

(** *** Messages and the main loop *)

(** Only the timer runs system calls with the CPU map locked. *)
Definition is_timer (e : Event) : bool :=
  match e with Tick | Message _ (MsgInterrupt Timer) => true | _ => false end.

Lemma ok_handle_message env msg : ok (is_timer (Message env msg)) 6 (handle_message connected depth env msg).
Proof.
  destruct msg as [sc|it|req|r|r|r]; cbn [handle_message is_timer]; [| | |destruct env; apply ok_ret..].
  - destruct env; eapply ok_weaken; first [apply (ok_syscall_with_response false)|apply (ok_handle_syscall false)|lia|done].
  - destruct it; cbn [handle_interrupt]; try apply ok_ret; [apply ok_timer|apply ok_send].
  - destruct env; eapply ok_weaken;
      first [apply (ok_request_with_response false)|apply (ok_handle_process_request false)|lia|done].
Qed.

Lemma ok_handle_event e : ok (is_timer e) 6 (handle_event connected depth e).
Proof.
  destruct e as [|env msg]; cbn [handle_event]; [apply ok_ignore, ok_timer|].
  intros s Hs Hn. pose proof (ok_handle_message env msg s Hs Hn) as Hm. unfold handle_envelope.
  destruct (handle_message _ _ _ _ s) as [[s' [a|e]]| |]; [exact Hm| |done|done]. destruct Hm as [Hs' Hb].
  pose proof (ok_respond (is_timer (Message env msg)) 0 env (Err (RespOther 1)) s' Hs') as Hr.
  destruct (respond _ _ _ s') as [[s2 r]| |]; [|apply Hr; lia..]. destruct Hr as [? ?]; [lia|]. split; [done|lia].
Qed.

Lemma ok_events es : ok (existsb is_timer es) (6 * len es) (events connected depth es).
Proof.
  induction es as [|e es IH]; [apply ok_ret|]. cbn [events existsb].
  replace (6 * len (e :: es)) with (6 + 6 * len es) by (cbn [length]; lia).
  apply ok_bind; [|intros _]; (eapply ok_weaken; [apply ok_handle_event || exact IH|lia|intros ->]);
    [done|apply orb_true_r].
Qed.

(** Init exists when the events start. *)
Definition booted (w : W) : ProcessService W :=
  set_table (<[1 := Pcb.PCB_new 1 (Assembler.B "init") None]> ∅)
    (set_cpus (<[1 := Cpu.new 1]> ∅) (set_next_pid 2 (new w))).
Lemma run_booted w es : run connected depth w es = events connected depth es (booted w).
Proof. reflexivity. Qed.
Lemma booted_wf w : service_wf (booted w).
Proof.
  split; [split; [apply (Sched.sched_new_wf (Sched.RoundRobin 3) 2)|done]|].
  split; [split; [done|by apply lookup_insert_is_Some; left]|].
  split; [|split]; cbn.
  - intros p x Hx. apply lookup_insert_Some in Hx as [[<- <-]|[_ Hx]]; [done|by rewrite lookup_empty in Hx].
  - intros p x Hx. apply lookup_insert_Some in Hx as [[<- <-]|[_ Hx]]; [done|by rewrite lookup_empty in Hx].
  - intros p l c Hl. by rewrite lookup_empty in Hl.
Qed.

Lemma run_is_safe w es :
  6 * len es + 2 < 2 ^ 64 ->
  match run connected depth w es with
  | Done (s, _) =>
      is_Some (process_table s !! 1) /\
      (forall p x, process_table s !! p = Some x -> Pcb.pid x = p /\ 1 <= p < next_pid s) /\
      (forall p c, cpus s !! p = Some c -> Cpu.current_pid c = p /\ 1 <= p < next_pid s) /\
      (forall p l c, parent_children s !! p = Some l -> c ∈ l -> 1 < c < next_pid s) /\
      (forall i j p t t', Sched.current_on (scheduler s) i = Some (p, t) ->
                          Sched.current_on (scheduler s) j = Some (p, t') -> i = j)
  | Panicked => False
  | Deadlocked => existsb is_timer es = true
  end.
Proof.
  intros Hlen. rewrite run_booted.
  pose proof (ok_events es (booted w) (booted_wf w)) as H. change (next_pid (booted w)) with 2 in H.
  specialize (H ltac:(lia)). destruct (events _ _ es _) as [[s r]| |]; [|done..].
  destruct H as [(((He & _) & _) & [_ Hi] & Ht & Hc & Hch) _]. split; [assumption|].
  split; [intros p x Hx; destruct (Ht p x Hx) as [[? ?] ?]; done|]. do 2 (split; [assumption|]).
  intros i j p t t'. unfold Sched.current_on.
  destruct (Sched.cpu_current (scheduler s) !! N.to_nat i) as [x|] eqn:Ei; [|done].
  destruct (Sched.cpu_current (scheduler s) !! N.to_nat j) as [y|] eqn:Ej; [|done].
  cbn. intros -> ->. pose proof (He _ _ _ _ _ Ei Ej). lia.
Qed.

(** C3: from the start of the service, and whatever the rest of the system
    answers, no sequence of messages and timer ticks makes the process service
    panic, and only a tick can block it for ever.  At the end init is still
    there; every table entry and CPU carries the identifier it is filed under,
    one that was handed out and is below the next; a child is never init; no
    process is current on both CPUs. *)
Theorem service_runs_safely w es :
  6 * len es + 2 < 2 ^ 64 ->
  match run connected depth w es with
  | Done (s, _) =>
      is_Some (process_table s !! 1) /\
      (forall p x, process_table s !! p = Some x -> Pcb.pid x = p /\ 1 <= p < next_pid s) /\
      (forall p c, cpus s !! p = Some c -> Cpu.current_pid c = p /\ 1 <= p < next_pid s) /\
      (forall p l c, parent_children s !! p = Some l -> c ∈ l -> 1 < c < next_pid s) /\
      (forall i j p t t', Sched.current_on (scheduler s) i = Some (p, t) ->
                          Sched.current_on (scheduler s) j = Some (p, t') -> i = j)
  | Panicked => False
  | Deadlocked => existsb is_timer es = true
  end.
Proof. apply run_is_safe. Qed.

(** C18: the process tree shows every process once.  Whatever happened since the
    start, the request ListProcesses comes back, and its answer is the text of a
    forest: the roots are the processes without a parent in the table, every node
    has the processes whose parent it is as children, in ascending order, and
    every process of the table is in the forest exactly once. *)
Theorem process_tree_complete w es s r env :
  6 * len es + 2 < 2 ^ 64 -> run connected depth w es = Done (s, r) ->
  exists ts, forest_of (process_table s) ts /\
    handle_process_request_with_response connected env ProcessRequest.ListProcesses s =
      respond connected env (Ok (RString (Reports.forest_text (Reports.collect_procs (process_table s)) ts))) s.
Proof.
  intros Hlen Hrun. rewrite run_booted in Hrun.
  pose proof (ok_events es (booted w) (booted_wf w)) as H. change (next_pid (booted w)) with 2 in H. specialize (H ltac:(lia)).
  rewrite Hrun in H. destruct H as [(_ & _ & Ht & _) _].
  destruct (Reports.process_list_forest (process_table s)) as (ts & Hts & Hf & Hr & Hp).
  { intros p x q Hx Hq. by apply (proj2 (proj1 (Ht p x Hx))). }
  exists ts. split; [done|]. cbn [handle_process_request_with_response]. unfold handle_list_processes_with_response.
  rewrite HM_bind_eq. cbn [get]. by rewrite Hts.
Qed.
End Inv.

(** Peers that never answer. *)
#[local] Instance silent_peers : Peers Mmu.MMU :=
  {| shared_mmu u := u; set_shared_mmu u _ := u; bus_request _ u := (u, TimedOut);
     bus_send _ u := u; host_file _ _ := None |}.

Definition demo_mmu : Mmu.MMU :=
  {| Mmu.page_tables := ∅; Mmu.memory := {| PhysMem.data := []; PhysMem.size := 0 |}; Mmu.page_size := 4096 |}.
Definition demo_events : list Event :=
  [Message (Some 0) (MsgProcess (ProcessRequest.ForkProcess 1)); Message None (MsgProcess (ProcessRequest.Schedule 2 1)); Tick].
Definition demo_run : outcome (ProcessService Mmu.MMU * result ServiceError unit) :=
  run (fun _ => true) 1 demo_mmu demo_events.

Lemma service_runs_safely_witness :
  match demo_run with
  | Done (s, _) => is_Some (process_table s !! 1) /\ Sched.current_on (scheduler s) 0 = Some (2, 1)
  | _ => False
  end.
Proof.
  assert (E : match demo_run with
              | Done (s, _) => bool_decide (Sched.current_on (scheduler s) 0 = Some (2, 1))
              | _ => false end = true) by (vm_compute; reflexivity).
  pose proof (service_runs_safely (fun _ => true) 1 demo_mmu demo_events eq_refl) as H.
  unfold demo_run in *. destruct (run _ _ _ _) as [[s r]| |]; [|done|done].
  split; [apply H|by apply bool_decide_eq_true in E].
Defined.

Lemma process_tree_complete_witness :
  match demo_run with
  | Done (s, _) =>
      Reports.process_list (process_table s) =
        Some (Assembler.B "└── PID 1 [Creating] init
    └── PID 2 [Running] (fork of 1)
") /\
      exists ts, flat_map Reports.preorder ts ≡ₚ (map_to_list (process_table s)).*1
  | _ => False
  end.
Proof.
  assert (E : match demo_run with
              | Done (s, _) => bool_decide (Reports.process_list (process_table s) =
        Some (Assembler.B "└── PID 1 [Creating] init
    └── PID 2 [Running] (fork of 1)
"))
              | _ => false end = true) by (vm_compute; reflexivity).
  pose proof (process_tree_complete (fun _ => true) 1 demo_mmu demo_events) as H.
  unfold demo_run in *. destruct (run _ _ _ _) as [[s r]| |]; [|done|done].
  split; [by apply bool_decide_eq_true in E|]. destruct (H s r None eq_refl eq_refl) as (ts & (_ & _ & Hp) & _). by exists ts.
Defined.
