(* ===== verification/UserMem.v ===== *)
(** * The memory of a process (src/src/services/process/service.rs)

    What the process service writes into the first page of a process and what
    the system calls read from it, through the MMU. *)
From Stdlib Require String.
Import (notations) String.
From S2P Require Import Prelude Types Messages.
From S2P Require Text PhysMem Mmu Cpu Assembler ProcService.

(** ** The first page *)

(** it is mapped, writable, to a frame inside the memory *)
Definition first_page (u : Mmu.MMU) (pid : Pid) (f : PhysAddr) : Prop :=
  Mmu.wf u /\ Mmu.page_size u = 4096 /\ f + 4096 <= PhysMem.size (Mmu.memory u) /\
  exists table e, Mmu.page_tables u !! pid = Some table /\ table !! 0 = Some e /\
    Mmu.is_present e = true /\ Mmu.is_writable e = true /\ Mmu.frame e = f.

Lemma first_page_mapped u pid f fl :
  Mmu.wf u -> Mmu.page_size u = 4096 -> f mod 4096 = 0 -> f + 4096 <= PhysMem.size (Mmu.memory u) ->
  Mmu.present fl = true -> Mmu.writable fl = true -> first_page (Mmu.map_page u pid 0 f fl) pid f.
Proof.
  intros Hw Hps Hf Hsz Hp Hwr. pose proof Hw as (_ & (_ & Hm & _) & _).
  assert (H0 : Mmu.align_down u 0 = 0) by (apply Mmu.align_down_aligned; [done|done|by rewrite Hps]).
  assert (Ha : Mmu.align_down u f = f) by (apply Mmu.align_down_aligned; [done|lia|by rewrite Hps]).
  split; [apply Mmu.map_page_wf; [done|lia]|]. split; [exact Hps|]. split; [exact Hsz|].
  unfold Mmu.map_page. rewrite H0, Ha. cbn. rewrite lookup_insert_eq. eexists _, _. split; [done|].
  rewrite lookup_insert_eq. by split_and!.
Qed.

Section FirstPage.
Context (pid : Pid) (f : PhysAddr).

Lemma page_translate u a acc : first_page u pid f -> a < 4096 -> Mmu.translate u pid a acc = Ok (f + a).
Proof.
  intros (Hw & Hps & Hsz & table & e & Ht & He & Hp & Hwr & Hf) Ha.
  pose proof Hw as (_ & (_ & Hm & _) & _).
  pose proof (Mmu.align_down_offset u 0 a Hw ltac:(lia) ltac:(by rewrite Hps) ltac:(lia)) as Hd. rewrite N.add_0_l in Hd.
  unfold Mmu.translate. rewrite Hd, Ht. cbn [ok_or mbind result_bind]. rewrite He. cbn [ok_or mbind result_bind]. rewrite Hp. cbn [negb].
  assert (Hc : Mmu.check_permission pid a acc e = Ok tt) by (unfold Mmu.check_permission; rewrite Hwr; by destruct acc).
  rewrite Hc. cbn [mbind result_bind]. rewrite wsub64_ge, N.sub_0_r, wadd64_small by lia. by rewrite Hf.
Qed.

Lemma page_bounds u a : first_page u pid f -> a < 4096 -> PhysMem.check_bounds (Mmu.memory u) (f + a) 1 = Ok tt.
Proof.
  intros (Hw & _ & Hsz & _) Ha. pose proof Hw as (_ & (_ & Hm & _) & _). apply PhysMem.check_bounds_ok. lia.
Qed.
Lemma page_read u a : first_page u pid f -> a < 4096 -> Mmu.read_u8 u pid a = Ok (PhysMem.byte_at (Mmu.memory u) (f + a)).
Proof.
  intros Hu Ha. unfold Mmu.read_u8. rewrite (page_translate u a Read Hu Ha). cbn [mbind result_bind].
  unfold PhysMem.read_u8. by rewrite (page_bounds u a Hu Ha).
Qed.
Lemma page_write u a x : first_page u pid f -> a < 4096 ->
  ProcService.try_write u pid a x = Mmu.set_memory u (PhysMem.set_byte (Mmu.memory u) (f + a) x).
Proof.
  intros Hu Ha. unfold ProcService.try_write, Mmu.write_u8. rewrite (page_translate u a Write Hu Ha). cbn [mbind result_bind].
  unfold PhysMem.write_u8. by rewrite (page_bounds u a Hu Ha).
Qed.
Lemma first_page_set_byte u a x : first_page u pid f -> x < 2 ^ 8 ->
  first_page (Mmu.set_memory u (PhysMem.set_byte (Mmu.memory u) a x)) pid f.
Proof.
  intros (Hw & Hps & Hsz & Hex) Hx. split; [|by split_and!]. apply Mmu.set_memory_wf; [done|].
  apply PhysMem.set_byte_wf; [apply Hw|done].
Qed.

(** *** Runs of bytes *)

Lemma write_slice_page bs : forall u a, first_page u pid f -> a + len bs <= 4096 -> Forall (fun b => b < 2 ^ 8) bs ->
  ProcService.write_slice_virt u pid a bs = Mmu.set_memory u (PhysMem.set_bytes (Mmu.memory u) (f + a) bs).
Proof.
  induction bs as [|b bs IH]; intros u a Hu Ha Hbs; [by destruct u|]. apply Forall_cons_1 in Hbs as [Hb Hbs].
  cbn [length ProcService.write_slice_virt] in *. rewrite page_write by (done || lia). rewrite wadd64_small by lia.
  rewrite IH; [|by apply first_page_set_byte|lia|done]. cbn [Mmu.memory Mmu.set_memory].
  unfold PhysMem.set_bytes at 2; fold PhysMem.set_bytes. by rewrite <- N.add_assoc.
Qed.
Lemma first_page_set_bytes u a bs : first_page u pid f -> Forall (fun b => b < 2 ^ 8) bs ->
  first_page (Mmu.set_memory u (PhysMem.set_bytes (Mmu.memory u) a bs)) pid f.
Proof.
  intros (Hw & Hps & Hsz & Hex) Hbs. split; [|by split_and!; [|cbn; rewrite PhysMem.size_set_bytes|]].
  apply Mmu.set_memory_wf; [done|]. apply PhysMem.set_bytes_wf; [apply Hw|done].
Qed.
Lemma read_bytes_page u a n : first_page u pid f -> a + n <= 4096 ->
  ProcService.read_bytes_virt u pid a n = PhysMem.bytes_at (Mmu.memory u) (f + a) (N.to_nat n).
Proof.
  intros Hu Ha. unfold ProcService.read_bytes_virt, PhysMem.bytes_at. apply list_fmap_ext. intros i x Hx.
  apply lookup_seq in Hx as [-> Hi]. rewrite wadd64_small by lia. rewrite page_read by (done || lia). by rewrite N.add_assoc.
Qed.

Lemma bytes_at_app m a n k : PhysMem.bytes_at m a (n + k) = PhysMem.bytes_at m a n ++ PhysMem.bytes_at m (a + N.of_nat n) k.
Proof.
  unfold PhysMem.bytes_at. rewrite seq_app, fmap_app. f_equal. cbn. rewrite <- (Nat.add_0_r n) at 1.
  rewrite <- fmap_add_seq. rewrite <- list_fmap_compose. apply list_fmap_ext. intros i x _. cbn. f_equal. lia.
Qed.

(** what was written, and after it what was there *)
Lemma read_after_write u a bs n :
  first_page u pid f -> a + n <= 4096 -> len bs <= n -> Forall (fun b => b < 2 ^ 8) bs ->
  ProcService.read_bytes_virt (ProcService.write_slice_virt u pid a bs) pid a n =
    bs ++ ProcService.read_bytes_virt u pid (a + len bs) (n - len bs).
Proof.
  intros Hu Ha Hn Hbs. rewrite write_slice_page by (done || lia).
  assert (Hd : (N.to_nat (f + a + len bs) <= length (PhysMem.data (Mmu.memory u)))%nat).
  { destruct Hu as (Hw & _ & Hsz & _). destruct Hw as (_ & (Hl & _) & _). lia. }
  rewrite !read_bytes_page by (try apply first_page_set_bytes; done || lia). cbn [Mmu.memory Mmu.set_memory].
  replace (N.to_nat n) with (length bs + N.to_nat (n - len bs))%nat by lia. rewrite bytes_at_app.
  rewrite PhysMem.bytes_at_set_bytes by done. f_equal. rewrite N.add_assoc. apply PhysMem.bytes_at_ext.
  intros i Hi. rewrite PhysMem.byte_at_set_bytes by done. rewrite (proj2 (N.ltb_ge _ _)) by lia. by rewrite andb_false_r.
Qed.
(** bytes before the written ones stay *)
Lemma read_before_write u a bs b n :
  first_page u pid f -> b + n <= a -> a + len bs <= 4096 -> Forall (fun b => b < 2 ^ 8) bs ->
  ProcService.read_bytes_virt (ProcService.write_slice_virt u pid a bs) pid b n = ProcService.read_bytes_virt u pid b n.
Proof.
  intros Hu Hb Ha Hbs. rewrite write_slice_page by (done || lia).
  assert (Hd : (N.to_nat (f + a + len bs) <= length (PhysMem.data (Mmu.memory u)))%nat).
  { destruct Hu as (Hw & _ & Hsz & _). destruct Hw as (_ & (Hl & _) & _). lia. }
  rewrite !read_bytes_page by (try apply first_page_set_bytes; done || lia). cbn [Mmu.memory Mmu.set_memory].
  apply PhysMem.bytes_at_ext. intros i Hi. rewrite PhysMem.byte_at_set_bytes by done. by rewrite (proj2 (N.leb_gt _ _)) by lia.
Qed.

(** and bytes after them *)
Lemma read_beyond_write u a bs b n :
  first_page u pid f -> a + len bs <= b -> b + n <= 4096 -> Forall (fun b => b < 2 ^ 8) bs ->
  ProcService.read_bytes_virt (ProcService.write_slice_virt u pid a bs) pid b n = ProcService.read_bytes_virt u pid b n.
Proof.
  intros Hu Hb Hn Hbs. rewrite write_slice_page by (done || lia).
  assert (Hd : (N.to_nat (f + a + len bs) <= length (PhysMem.data (Mmu.memory u)))%nat).
  { destruct Hu as (Hw & _ & Hsz & _). destruct Hw as (_ & (Hl & _) & _). lia. }
  rewrite !read_bytes_page by (try apply first_page_set_bytes; done || lia). cbn [Mmu.memory Mmu.set_memory].
  apply PhysMem.bytes_at_ext. intros i Hi. rewrite PhysMem.byte_at_set_bytes by done.
  rewrite (proj2 (N.ltb_ge _ (f + a + len bs))) by lia. by rewrite andb_false_r.
Qed.

Lemma first_page_write u a bs : first_page u pid f -> a + len bs <= 4096 -> Forall (fun b => b < 2 ^ 8) bs ->
  first_page (ProcService.write_slice_virt u pid a bs) pid f.
Proof. intros Hu Ha Hbs. rewrite write_slice_page by done. by apply first_page_set_bytes. Qed.

(** code that is read back can be fetched *)
Lemma code_at_read u bs : first_page u pid f -> len bs <= 4096 ->
  ProcService.read_bytes_virt u pid 0 (len bs) = bs -> Cpu.code_at u pid 0 bs.
Proof.
  intros Hu Hl Hr i b Hi. pose proof (lookup_lt_Some _ _ _ Hi) as Hlt. rewrite N.add_0_l.
  rewrite <- Hr in Hi. unfold ProcService.read_bytes_virt in Hi. rewrite list_lookup_fmap, lookup_seq_lt in Hi by lia.
  cbn [fmap option_fmap option_map Nat.add] in Hi. rewrite wadd64_small, N.add_0_l in Hi by lia.
  rewrite (page_read u) in * by (done || lia). by injection Hi as <-.
Qed.

(** ** Arguments *)

Lemma until_zero_app bs r : 0 ∉ bs -> ProcService.until_zero (bs ++ r) = bs ++ ProcService.until_zero r.
Proof.
  induction bs as [|b bs IH]; intros H; [done|]. apply not_elem_of_cons in H as [Hb H]. cbn.
  rewrite (proj2 (N.eqb_neq b 0)) by done. by rewrite IH.
Qed.

(** the arguments a program was started with fit their places *)
Definition args_fit (args : list (list N)) : Prop :=
  Forall (Forall (fun b => b < 2 ^ 8)) args /\
  (forall p, args !! 0%nat = Some p -> len p <= 256) /\ (forall a, args !! 1%nat = Some a -> len a <= 3584).

Lemma argument_bytes u path more :
  first_page u pid f -> args_fit (path :: more) ->
  ProcService.read_bytes_virt (ProcService.write_args u pid (path :: more)) pid 0x100 256 =
    path ++ ProcService.read_bytes_virt u pid (256 + len path) (256 - len path).
Proof.
  intros Hu (Hb & Hp & Ha). specialize (Hp path eq_refl). apply Forall_cons_1 in Hb as [Hb Hm]. unfold ProcService.write_args.
  cbn [lookup list_lookup]. destruct more as [|a more]; cbn [lookup list_lookup]; [by apply read_after_write; [done|lia|lia|done]|].
  specialize (Ha a eq_refl). apply Forall_cons_1 in Hm as [Hab _].
  rewrite read_before_write; [by apply read_after_write; [done|lia|lia|done]| |lia|lia|done].
  by apply first_page_write; [|lia|].
Qed.

(** the program and its argument, as they are put into a new page *)
Lemma program_in_page u code path :
  first_page u pid f -> Forall (fun b => b < 2 ^ 8) code -> len code <= 256 -> args_fit [path] ->
  let u' := ProcService.write_args (ProcService.write_slice_virt u pid 0 code) pid [path] in
  first_page u' pid f /\ Cpu.code_at u' pid 0 code /\
  ProcService.read_bytes_virt u' pid 0x100 256 = path ++ ProcService.read_bytes_virt u pid (256 + len path) (256 - len path).
Proof.
  intros Hu Hcode Hlc Hargs u'. pose proof Hargs as (Hb & Hp & _). specialize (Hp path eq_refl). apply Forall_cons_1 in Hb as [Hb _].
  assert (H1 : first_page (ProcService.write_slice_virt u pid 0 code) pid f) by (apply first_page_write; [done|lia|done]).
  assert (Hu' : first_page u' pid f) by (unfold u', ProcService.write_args; cbn; apply first_page_write; [done|lia|done]).
  split; [exact Hu'|]. split.
  - apply code_at_read; [done|lia|]. unfold u', ProcService.write_args. cbn [lookup list_lookup].
    rewrite read_before_write by (done || lia). rewrite read_after_write by (done || lia).
    rewrite N.sub_diag. unfold ProcService.read_bytes_virt. change (N.to_nat 0) with 0%nat. by rewrite app_nil_r.
  - unfold u'. rewrite argument_bytes by done. f_equal. apply read_beyond_write; [done|lia|lia|done].
Qed.
End FirstPage.

(** C39: a program reads its first argument where it was put, up to 256 bytes, and
    then what the frame held before, up to a zero: nothing ends the argument, and
    frames are not cleared when they get a new owner. *)
Theorem argument_has_no_end pid f u path more :
  first_page u pid f -> args_fit (path :: more) -> 0 ∉ path ->
  ProcService.read_string_virt (ProcService.write_args u pid (path :: more)) pid 0x100 =
    Text.from_utf8_lossy (path ++ ProcService.until_zero (ProcService.read_bytes_virt u pid (256 + len path) (256 - len path))).
Proof.
  intros Hu Hf H0. unfold ProcService.read_string_virt. rewrite (argument_bytes pid f) by done. by rewrite until_zero_app.
Qed.

(** The argument is read back if the frame was clear. *)
Lemma argument_read_back pid f u path more :
  first_page u pid f -> args_fit (path :: more) -> 0 ∉ path -> Text.utf8 path ->
  ProcService.until_zero (ProcService.read_bytes_virt u pid (256 + len path) (256 - len path)) = [] ->
  ProcService.read_string_virt (ProcService.write_args u pid (path :: more)) pid 0x100 = path.
Proof.
  intros Hu Hf H0 Hut Hz. unfold ProcService.read_string_virt. rewrite (argument_bytes pid f) by done.
  rewrite until_zero_app, Hz, app_nil_r by done. by apply Text.lossy_id.
Qed.

(** *** A frame with a longer name in it *)

Definition demo_mmu : Mmu.MMU :=
  Mmu.map_page {| Mmu.page_tables := ∅; Mmu.memory := {| PhysMem.data := replicate 4096 0; PhysMem.size := 4096 |};
                  Mmu.page_size := 4096 |} 2 0 0 Mmu.present_writable.
Lemma demo_first_page : first_page demo_mmu 2 0.
Proof.
  split; [|split; [done|split; [done|]]].
  - apply Mmu.map_page_wf; [|done]. split; [by exists 12|]. split; [|by intros ? ? ? ? H; cbn in H; rewrite lookup_empty in H].
    split; [vm_compute; reflexivity|]. split; [done|]. by apply Forall_replicate.
  - eexists _, _. by split_and!.
Qed.
Definition used_mmu : Mmu.MMU := ProcService.write_args demo_mmu 2 [Assembler.B "/long-name"].
Lemma argument_has_no_end_witness :
  ProcService.read_string_virt (ProcService.write_args used_mmu 2 [Assembler.B "/a"]) 2 0x100 = Assembler.B "/aong-name".
Proof.
  assert (Hu : first_page used_mmu 2 0).
  { unfold used_mmu, ProcService.write_args. cbn [lookup list_lookup].
    rewrite (write_slice_page 2 0) by (exact demo_first_page || (vm_compute; done) || by repeat constructor).
    apply first_page_set_bytes; [exact demo_first_page|by repeat constructor]. }
  rewrite (argument_has_no_end 2 0 used_mmu (Assembler.B "/a") [] Hu).
  - vm_compute. reflexivity.
  - split; [by repeat constructor|]. split; [by intros p [= <-]|done].
  - apply not_elem_of_cons. split; [done|]. apply not_elem_of_cons. split; [done|]. apply not_elem_of_nil.
Defined.
