(* ===== verification/Debugger.v ===== *)
(** * The debugger and the CPU demonstration (src/src/ui/shell/mod.rs)

    Both run a CPU of their own, on a memory of 64 KiB with one page mapped. *)
From Stdlib Require String.
Import (notations) String.
From S2P Require Import Prelude Types Text.
From S2P Require PhysMem Mmu Cpu Assembler ProcService UserMem.

Notation "## s" := (Assembler.B s) (at level 1, only parsing).

(** ** The bench *)

Definition bench : outcome Mmu.MMU :=
  mem ← PhysMem.new (64 * 1024);
  u ← Mmu.new mem 4096;
  Done (Mmu.map_page u 0 0 0 {| Mmu.present := true; Mmu.writable := true; Mmu.user_accessible := true |}).
(** [set_pc(0)], [set_sp(0xFFFF)], and the program from address 0 on; a byte that
    cannot be stored is left out *)
Definition load (u : Mmu.MMU) (code : list N) : Cpu.Machine :=
  {| Cpu.cpu := ProcService.set_sp 0xFFFF (Cpu.set_pc 0 (Cpu.new 0)); Cpu.mmu := ProcService.write_slice_virt u 0 0 code; Cpu.bus := [] |}.

(** the file of the host, and its program *)
Definition asm_path (prog : list N) : list N :=
  let path := ##"programs/" ++ prog in
  match Assembler.strip_suffix ##".asm" prog with Some _ => path | None => path ++ ##".asm" end.
Definition program_of (host : list N -> option (list N)) (prog : list N) : option (list N) :=
  src ← host (asm_path prog);
  match Assembler.assemble src with Ok code => Some code | Err _ => None end.

(** ** Commands *)

(** [while !cpu.is_halted()]; [None]: still running after [fuel] steps *)
Fixpoint continue_for (fuel : nat) (m : Cpu.Machine) (n : N) : option (Cpu.Machine * N) :=
  if Cpu.halted (Cpu.cpu m) then Some (m, n)
  else
    match fuel with
    | O => None
    | S fuel =>
        match Cpu.step m with
        | (m, Ok _) => continue_for fuel m (n + 1)
        | (m, Err _) => Some (Cpu.upd_cpu Cpu.halt m, n)
        end
    end.

Inductive GdbCommand := GStep | GRegs | GContinue | GQuit | GUnknown.
Definition gdb_command (line : list N) : GdbCommand :=
  let l := trim line in
  if Assembler.beq l ##"s" || Assembler.beq l ##"step" || Assembler.beq l [] then GStep
  else if Assembler.beq l ##"r" || Assembler.beq l ##"regs" then GRegs
  else if Assembler.beq l ##"c" || Assembler.beq l ##"continue" then GContinue
  else if Assembler.beq l ##"q" || Assembler.beq l ##"quit" || Assembler.beq l ##"exit" then GQuit
  else GUnknown.

(** [Done None]: a [continue] is still running.  A step that succeeded shows the
    bytes [code[pc..min(pc + 8, len)]], which is a panic when the program counter was
    behind the end of the code. *)
Fixpoint gdb (fuel : nat) (code : list N) (lines : list (list N)) (m : Cpu.Machine) (n : N) : outcome (option (Cpu.Machine * N)) :=
  match lines with
  | [] => Done (Some (m, n))
  | line :: lines =>
      match gdb_command line with
      | GStep =>
          if Cpu.halted (Cpu.cpu m) then Done (Some (m, n))
          else
            match Cpu.step m with
            | (m', Ok _) => if len code <? Cpu.pc (Cpu.cpu m) then Panicked else gdb fuel code lines m' (n + 1)
            | (m', Err _) => gdb fuel code lines m' n
            end
      | GContinue =>
          match continue_for fuel m n with
          | Some (m', n') => gdb fuel code lines m' n'
          | None => Done None
          end
      | GQuit => Done (Some (m, n))
      | GRegs | GUnknown => gdb fuel code lines m n
      end
  end.

(** [run_minigdb]; [None]: there is no such program *)
Definition run_minigdb (fuel : nat) (host : list N -> option (list N)) (prog : list N) (lines : list (list N))
    : outcome (option (option (Cpu.Machine * N))) :=
  match program_of host prog with
  | None => Done None
  | Some code => u ← bench; r ← gdb fuel code lines (load u code) 0; Done (Some r)
  end.

(** ** The demonstration *)

Definition demo_program : list N :=
  [0x01; 0x00; 0x01; 0x00; 0x0A; 0x00; 0x00; 0x00;
   0x01; 0x01; 0x01; 0x00; 0x14; 0x00; 0x00; 0x00;
   0x02; 0x02; 0x00; 0x00; 0x00; 0x00; 0x00; 0x00;
   0x02; 0x02; 0x00; 0x00; 0x01; 0x00; 0x00; 0x00;
   0x03; 0x03; 0x00; 0x00; 0x02; 0x00; 0x00; 0x00;
   0xFF; 0x00; 0x00; 0x00; 0x00; 0x00; 0x00; 0x00].
Fixpoint demo_loop (fuel : nat) (m : Cpu.Machine) : option Cpu.Machine :=
  if Cpu.halted (Cpu.cpu m) then Some m
  else
    match fuel with
    | O => None
    | S fuel => match Cpu.step m with (m, Ok _) => demo_loop fuel m | (m, Err _) => Some m end
    end.
(** the memory is written after it was mapped *)
Definition cpu_demo (fuel : nat) : outcome (option Cpu.Machine) :=
  u ← bench;
  match PhysMem.write_slice (Mmu.memory u) 0x100 demo_program with
  | Ok mem => Done (demo_loop fuel {| Cpu.cpu := Cpu.set_pc 0x100 (Cpu.new 0); Cpu.mmu := Mmu.set_memory u mem; Cpu.bus := [] |})
  | Err _ => Done None
  end.
Lemma cpu_demo_ends :
  match cpu_demo 6 with
  | Done (Some m) => Cpu.registers (Cpu.cpu m) = [10; 20; 30; 2 ^ 64 - 30] /\ Cpu.halted (Cpu.cpu m) = true /\
                     Cpu.instruction_count (Cpu.cpu m) = 6
  | _ => False
  end.
Proof. vm_compute. by split_and!. Qed.

(** ** What holds of the debugger *)

Lemma bench_page_of sz fl : 4096 <= sz -> sz < 2 ^ 64 -> Mmu.present fl = true -> Mmu.writable fl = true ->
  exists u, (mem ← PhysMem.new sz; u ← Mmu.new mem 4096; Done (Mmu.map_page u 0 0 0 fl)) = Done u /\ UserMem.first_page u 0 0.
Proof.
  intros Hsz Hlt Hp Hw. destruct (PhysMem.new sz) as [mem| |] eqn:Hm; unfold PhysMem.new in Hm; rewrite (proj2 (N.eqb_neq sz 0)) in Hm by lia; try discriminate.
  assert (Hwf : PhysMem.wf mem) by (apply (PhysMem.phys_new_wf sz); [done|]; unfold PhysMem.new; by rewrite (proj2 (N.eqb_neq sz 0)) by lia).
  assert (Hms : PhysMem.size mem = sz) by (by injection Hm as <-). clear Hm. cbn [mbind outcome_bind].
  unfold Mmu.new. change (4096 =? 2 ^ N.log2 4096) with true. eexists. split; [reflexivity|].
  apply UserMem.first_page_mapped; cbn; [|done|done|lia|done|done].
  split; [by exists 12|]. split; [done|]. by intros ? ? ? ? H; cbn in H; rewrite lookup_empty in H.
Qed.
Lemma bench_page : exists u, bench = Done u /\ UserMem.first_page u 0 0.
Proof. by apply bench_page_of. Qed.

Lemma step_fst m : snd (Cpu.step m) = Ok tt -> Cpu.step m = (fst (Cpu.step m), Ok tt).
Proof. destruct (Cpu.step m) as [m' r]. cbn. by intros ->. Qed.
(** [k] steps that succeed, each from an address of the code *)
Inductive runs (code : list N) : nat -> Cpu.Machine -> Cpu.Machine -> Prop :=
  | runs_nil m : runs code 0 m m
  | runs_step k m m1 m2 : Cpu.halted (Cpu.cpu m) = false -> Cpu.pc (Cpu.cpu m) <= len code ->
      Cpu.step m = (m1, Ok tt) -> runs code k m1 m2 -> runs code (S k) m m2.

Lemma gdb_steps fuel code k m m' ls n : runs code k m m' ->
  gdb fuel code (replicate k ##"s" ++ ls) m n = gdb fuel code ls m' (n + N.of_nat k).
Proof.
  intros H. revert n. induction H as [m|k m m1 m2 Hh Hpc Hs _ IH]; intros n; [by rewrite N.add_0_r|].
  cbn [replicate app gdb]. change (gdb_command ##"s") with GStep. rewrite Hh, Hs. rewrite (proj2 (N.ltb_ge _ _)) by done.
  rewrite IH. f_equal. lia.
Qed.
Lemma continue_steps code k m m' n : runs code k m m' -> Cpu.halted (Cpu.cpu m') = true ->
  forall fuel, (k <= fuel)%nat -> continue_for fuel m n = Some (m', n + N.of_nat k).
Proof.
  intros H Hh'. revert n. induction H as [m|k m m1 m2 Hh Hpc Hs _ IH]; intros n fuel Hf.
  - rewrite N.add_0_r. destruct fuel; cbn; by rewrite Hh'.
  - destruct fuel as [|fuel]; [lia|]. cbn. rewrite Hh, Hs. rewrite IH by (done || lia). f_equal. f_equal. lia.
Qed.
(** a CPU that waits for a page is not halted, and its steps succeed *)
Lemma continue_waits m n : Cpu.halted (Cpu.cpu m) = false -> Cpu.pagefault_pending (Cpu.cpu m) = true ->
  forall fuel, continue_for fuel m n = None.
Proof.
  intros Hh Hp fuel. revert n. induction fuel as [|fuel IH]; intros n; cbn; rewrite Hh; [done|].
  unfold Cpu.step. rewrite Hh, Hp. apply IH.
Qed.

(** C29: stepping and continuing are the same.  A program that the assembler made
    and that fits the page is in the memory of the debugger, instruction by
    instruction, as the assembler wrote it; and if it runs to its end within its
    code, the command continue leaves the machine and the count that as many
    single steps leave, whatever commands follow. *)
Theorem continue_is_steps source code u :
  Assembler.assemble source = Ok code -> len code <= 4096 -> bench = Done u ->
  (exists prog, len code = 8 * len prog /\
     forall k i c, prog !! k = Some i -> Cpu.current_pid c = 0 -> Cpu.pc c = 8 * N.of_nat k ->
       Cpu.fetch_instruction {| Cpu.cpu := c; Cpu.mmu := Cpu.mmu (load u code); Cpu.bus := [] |} =
         ({| Cpu.cpu := Cpu.set_pc (Cpu.pc c + 8) c; Cpu.mmu := Cpu.mmu (load u code); Cpu.bus := [] |}, Ok i)) /\
  forall k m n fuel ls, runs code k (load u code) m -> Cpu.halted (Cpu.cpu m) = true -> (k <= fuel)%nat ->
    gdb fuel code (##"c" :: ls) (load u code) n = gdb fuel code (replicate k ##"s" ++ ls) (load u code) n.
Proof.
  intros Hasm Hlen Hu. split.
  - destruct bench_page as (u' & Hu' & Hpage). assert (u' = u) as -> by congruence. clear Hu Hu'.
    pose proof (Assembler.assembled_bytes _ _ Hasm) as Hb. pose proof (Assembler.assembled_fetches source) as H. rewrite Hasm in H.
    destruct H as (prog & _ & Hl & Hf). exists prog. split; [lia|]. intros k i c Hk Hpid Hpc. change (Cpu.mmu (load u code)) with (ProcService.write_slice_virt u 0 0 code).
    assert (Hp1 : UserMem.first_page (ProcService.write_slice_virt u 0 0 code) 0 0) by (apply UserMem.first_page_write; done).
    assert (Hc : Cpu.code_at (ProcService.write_slice_virt u 0 0 code) 0 0 code).
    { apply (UserMem.code_at_read 0 0); [done|done|]. rewrite (UserMem.read_after_write 0 0) by (done || lia). rewrite N.sub_diag.
      unfold ProcService.read_bytes_virt. change (N.to_nat 0) with 0%nat. by rewrite app_nil_r. }
    rewrite (Hf _ 0 k i); cbn [Cpu.mmu Cpu.cpu]; [done|apply Hp1|by rewrite (proj1 (proj2 Hp1))|done|lia|by rewrite Hpid|done|by rewrite Hpc].
  - intros k m n fuel ls Hr Hh Hf. rewrite (gdb_steps _ _ _ _ _ _ _ Hr). cbn [gdb]. change (gdb_command ##"c") with GContinue.
    by rewrite (continue_steps _ _ _ _ n Hr Hh fuel Hf).
Qed.

(** Property: a page fault hangs the debugger.  A step that faults succeeds and leaves the
    CPU waiting; nobody serves the fault, so that every later step succeeds and
    does nothing, and continue never ends. *)
Theorem fault_hangs_debugger code m n fuel k ls :
  Cpu.halted (Cpu.cpu m) = false -> Cpu.pagefault_pending (Cpu.cpu m) = true ->
  gdb fuel code (##"c" :: ls) m n = Done None /\
  (Cpu.pc (Cpu.cpu m) <= len code -> gdb fuel code (replicate k ##"s" ++ ls) m n = gdb fuel code ls m (n + N.of_nat k)) /\
  (len code < Cpu.pc (Cpu.cpu m) -> gdb fuel code (##"s" :: ls) m n = Panicked).
Proof.
  intros Hh Hp. assert (Hs : Cpu.step m = (m, Ok tt)) by (unfold Cpu.step; by rewrite Hh, Hp). split; [|split].
  - cbn [gdb]. change (gdb_command ##"c") with GContinue. by rewrite (continue_waits m n Hh Hp fuel).
  - intros Hpc. apply gdb_steps. induction k; [constructor|]. by eapply runs_step.
  - intros Hpc. cbn [gdb]. change (gdb_command ##"s") with GStep. rewrite Hh, Hs. by rewrite (proj2 (N.ltb_lt _ _)).
Qed.

(** *** A program that stops, and one that loads from a page that is not there *)

Definition stop_source : list N := ##"MOV R0, #5
HALT".
Definition bench_mmu : Mmu.MMU := match bench with Done u => u | _ => {| Mmu.page_tables := ∅; Mmu.memory := {| PhysMem.data := []; PhysMem.size := 0 |}; Mmu.page_size := 1 |} end.
Definition stop_code : list N := match Assembler.assemble stop_source with Ok c => c | Err _ => [] end.
Lemma stop_facts :
  let m0 := load bench_mmu stop_code in let m1 := fst (Cpu.step m0) in let m2 := fst (Cpu.step m1) in
  (Cpu.halted (Cpu.cpu m0), Cpu.pc (Cpu.cpu m0), snd (Cpu.step m0)) = (false, 0, Ok tt) /\
  (Cpu.halted (Cpu.cpu m1), Cpu.pc (Cpu.cpu m1), snd (Cpu.step m1)) = (false, 8, Ok tt) /\ Cpu.halted (Cpu.cpu m2) = true.
Proof. split_and!; vm_compute; reflexivity. Qed.
Lemma runs_two code m0 : let m1 := fst (Cpu.step m0) in let m2 := fst (Cpu.step m1) in
  8 <= len code ->
  (Cpu.halted (Cpu.cpu m0), Cpu.pc (Cpu.cpu m0), snd (Cpu.step m0)) = (false, 0, Ok tt) ->
  (Cpu.halted (Cpu.cpu m1), Cpu.pc (Cpu.cpu m1), snd (Cpu.step m1)) = (false, 8, Ok tt) -> runs code 2 m0 m2.
Proof.
  intros m1 m2 Hl [= Hh Hp Hs] [= Hh1 Hp1 Hs1].
  apply (runs_step _ _ _ m1); [done|lia|by apply step_fst|]. apply (runs_step _ _ _ m2); [done|lia|by apply step_fst|constructor].
Qed.
Lemma continue_is_steps_witness :
  gdb 2 stop_code [ ##"c"] (load bench_mmu stop_code) 0 = gdb 2 stop_code [ ##"s"; ##"s"] (load bench_mmu stop_code) 0.
Proof.
  assert (Hu : bench = Done bench_mmu) by (destruct bench_page as (u & Hu & _); unfold bench_mmu; by rewrite Hu).
  assert (Ha : Assembler.assemble stop_source = Ok stop_code) by reflexivity.
  assert (Hl : len stop_code <= 4096) by done.
  destruct (continue_is_steps stop_source stop_code bench_mmu Ha Hl Hu) as [_ H].
  destruct stop_facts as (F0 & F1 & Hh).
  exact (H 2%nat _ 0 2%nat [] (runs_two stop_code _ ltac:(done) F0 F1) Hh (le_n 2)).
Defined.

Definition fault_source : list N := ##"LOAD R0, [0x5000]
HALT".
Definition fault_code : list N := match Assembler.assemble fault_source with Ok c => c | Err _ => [] end.
Definition faulted : Cpu.Machine := fst (Cpu.step (load bench_mmu fault_code)).
Lemma fault_facts : Cpu.halted (Cpu.cpu faulted) = false /\ Cpu.pagefault_pending (Cpu.cpu faulted) = true /\ Cpu.pc (Cpu.cpu faulted) <= len fault_code.
Proof. split_and!; [vm_compute; reflexivity|vm_compute; reflexivity|vm_compute; discriminate]. Qed.
Lemma fault_hangs_debugger_witness :
  gdb 1000 fault_code [ ##"c" ] faulted 1 = Done None /\
  gdb 1000 fault_code (replicate 3 ##"s" ++ []) faulted 1 = Done (Some (faulted, 4)).
Proof.
  destruct fault_facts as (Hh & Hp & Hpc). destruct (fault_hangs_debugger fault_code faulted 1 1000 3 [] Hh Hp) as (H1 & H2 & _).
  split; [exact H1|exact (H2 Hpc)].
Defined.
