(* ===== verification/ShellParser.v ===== *)
(** * Command lines (src/src/ui/shell/parser.rs)

    A line is a list of characters.  The lexer is a fold over them with the state
    of the loop; the rest is the structure of commands. *)
From Stdlib Require String.
Import (notations) String.
From S2P Require Import Prelude Text.
From S2P Require Assembler.

Notation chars := (list N) (only parsing).

Record Command := { cmd_name : chars; args : list chars; options : list chars }.
Definition Command_new (n : chars) : Command := {| cmd_name := n; args := []; options := [] |}.
Definition with_args (n : chars) (a : list chars) : Command := {| cmd_name := n; args := a; options := [] |}.
Definition has_option (o : chars) (c : Command) : bool := bool_decide (o ∈ options c).
Definition get_arg (i : nat) (c : Command) : option chars := args c !! i.

(** ** The lexer *)

Definition separator : N := 32.
Record Lexer := { tokens : list chars; current : chars; in_quotes : bool; escape_next : bool; quote_char : N }.
Definition lexer_new : Lexer := {| tokens := []; current := []; in_quotes := false; escape_next := false; quote_char := 32 |}.
Definition push (ch : N) (l : Lexer) : Lexer :=
  {| tokens := tokens l; current := current l ++ [ch]; in_quotes := in_quotes l; escape_next := false; quote_char := quote_char l |}.
Definition set_escape (l : Lexer) : Lexer :=
  {| tokens := tokens l; current := current l; in_quotes := in_quotes l; escape_next := true; quote_char := quote_char l |}.
Definition set_quotes (b : bool) (q : N) (l : Lexer) : Lexer :=
  {| tokens := tokens l; current := current l; in_quotes := b; escape_next := escape_next l; quote_char := q |}.
Definition end_token (l : Lexer) : Lexer :=
  match current l with
  | [] => l
  | cur => {| tokens := tokens l ++ [cur]; current := []; in_quotes := in_quotes l; escape_next := escape_next l;
              quote_char := quote_char l |}
  end.

Definition lex_char (l : Lexer) (ch : N) : Lexer :=
  if escape_next l then push ch l
  else if ch =? 92 then set_escape l
  else if (ch =? 34) || (ch =? 39) then
    if negb (in_quotes l) then set_quotes true ch l
    else if ch =? quote_char l then set_quotes false 32 l
    else push ch l
  else if (ch =? separator) && negb (in_quotes l) then end_token l
  else push ch l.

Definition tokenize (line : chars) : option (list chars) :=
  match tokens (end_token (foldl lex_char lexer_new line)) with [] => None | ts => Some ts end.

Definition is_flag (t : chars) : bool := match t with c :: _ => c =? 45 | [] => false end.
Definition parse (line : chars) : option Command :=
  let line := trim line in
  if bool_decide (line = []) then None
  else
    ts ← tokenize line;
    match ts with
    | [] => None
    | t :: ts => Some {| cmd_name := t; args := filter (fun t => is_flag t = false) ts; options := filter (fun t => is_flag t = true) ts |}
    end.

Definition pipe_char (st : list Command * chars) (ch : N) : list Command * chars :=
  let '(cs, cur) := st in
  if (ch =? 59) || (ch =? 124) then (cs ++ match parse cur with Some c => [c] | None => [] end, [])
  else (cs, cur ++ [ch]).
Definition parse_pipeline (line : chars) : list Command :=
  let '(cs, cur) := foldl pipe_char ([], []) line in cs ++ match parse cur with Some c => [c] | None => [] end.

(** ** Tokens *)

Lemma end_token_nonempty l : Forall (fun t => t <> []) (tokens l) -> Forall (fun t => t <> []) (tokens (end_token l)).
Proof. intros H. unfold end_token. destruct (current l); [done|]. apply Forall_app. split; [done|]. by apply list.Forall_singleton. Qed.
Lemma lex_char_nonempty l ch : Forall (fun t => t <> []) (tokens l) -> Forall (fun t => t <> []) (tokens (lex_char l ch)).
Proof.
  intros H. unfold lex_char. destruct (escape_next l); [done|]. destruct (ch =? 92); [done|]. destruct (_ || _).
  - destruct (negb _); [done|]. by destruct (_ =? _).
  - destruct (_ && _); [by apply end_token_nonempty|done].
Qed.
Lemma tokenize_nonempty line ts : tokenize line = Some ts -> ts <> [] /\ Forall (fun t => t <> []) ts.
Proof.
  unfold tokenize. intros H. assert (Hne : Forall (fun t => t <> []) (tokens (end_token (foldl lex_char lexer_new line)))).
  { apply end_token_nonempty. assert (Hg : forall l, Forall (fun t => t <> []) (tokens l) ->
      Forall (fun t => t <> []) (tokens (foldl lex_char l line))); [|by apply Hg].
    clear H. induction line as [|c line IH]; intros l Hl; [done|]. by apply IH, lex_char_nonempty. }
  destruct (tokens _) as [|t ts']; [done|]. by injection H as <-.
Qed.

(** ** Quoting *)

(** a backslash before quotes and backslashes, and double quotes around *)
Definition special (c : N) : bool := (c =? 34) || (c =? 39) || (c =? 92).
Fixpoint escape (w : chars) : chars :=
  match w with [] => [] | c :: w => (if special c then [92; c] else [c]) ++ escape w end.
Definition quote (w : chars) : chars := 34 :: escape w ++ [34].
Fixpoint quote_words (ws : list chars) : chars :=
  match ws with [] => [] | [w] => quote w | w :: ws => quote w ++ [separator] ++ quote_words ws end.

Definition ready (ts : list chars) (cur : chars) : Lexer :=
  {| tokens := ts; current := cur; in_quotes := false; escape_next := false; quote_char := 32 |}.
Definition quoting (ts : list chars) (cur : chars) : Lexer :=
  {| tokens := ts; current := cur; in_quotes := true; escape_next := false; quote_char := 34 |}.

Lemma lex_escape w : forall ts cur, foldl lex_char (quoting ts cur) (escape w) = quoting ts (cur ++ w).
Proof.
  induction w as [|c w IH]; intros ts cur; [by rewrite app_nil_r|]. cbn [escape]. rewrite foldl_app.
  assert (E : foldl lex_char (quoting ts cur) (if special c then [92; c] else [c]) = quoting ts (cur ++ [c])).
  { unfold special. destruct (N.eqb_spec c 34) as [->|H1]; [done|]. destruct (N.eqb_spec c 39) as [->|H2]; [done|].
    destruct (N.eqb_spec c 92) as [->|H3]; [done|]. cbn [orb foldl]. unfold lex_char. cbn [escape_next quoting in_quotes negb].
    rewrite (proj2 (N.eqb_neq c 92)), (proj2 (N.eqb_neq c 34)), (proj2 (N.eqb_neq c 39)) by done. cbn [orb].
    by rewrite andb_false_r. }
  rewrite E, IH. by rewrite <- app_assoc.
Qed.
Lemma lex_quote w ts : foldl lex_char (ready ts []) (quote w) = ready ts w.
Proof.
  unfold quote. cbn [foldl]. change (lex_char (ready ts []) 34) with (quoting ts []). by rewrite foldl_app, lex_escape.
Qed.
Lemma lex_words ws : Forall (fun w => w <> []) ws -> forall ts,
  tokens (end_token (foldl lex_char (ready ts []) (quote_words ws))) = ts ++ ws.
Proof.
  induction 1 as [|w ws Hw Hws IH]; intros ts; [by rewrite app_nil_r|]. destruct ws as [|w' ws].
  - cbn [quote_words]. rewrite lex_quote. by destruct w.
  - change (quote_words (w :: w' :: ws)) with (quote w ++ [separator] ++ quote_words (w' :: ws)).
    rewrite !foldl_app, lex_quote.
    assert (E : foldl lex_char (ready ts w) [separator] = ready (ts ++ [w]) []) by (by destruct w). rewrite E, IH.
    by rewrite <- app_assoc.
Qed.
Lemma quote_words_trim w ws : trim (quote_words (w :: ws)) = quote_words (w :: ws).
Proof.
  assert (H : exists s, quote_words (w :: ws) = 34 :: s ++ [34]).
  { revert w. induction ws as [|w' ws IH]; intros w; [by exists (escape w)|]. destruct (IH w') as [s Hs].
    change (quote_words (w :: w' :: ws)) with (quote w ++ [separator] ++ quote_words (w' :: ws)). rewrite Hs.
    exists (escape w ++ [34; separator; 34] ++ s). unfold quote. cbn [app]. by rewrite <- !app_assoc. }
  destruct H as [s ->]. by apply trim_id.
Qed.

Lemma parse_quoted w ws : Forall (fun w => w <> []) (w :: ws) ->
  parse (quote_words (w :: ws)) =
    Some {| cmd_name := w; args := filter (fun t => is_flag t = false) ws; options := filter (fun t => is_flag t = true) ws |}.
Proof.
  intros Hw. unfold parse. rewrite quote_words_trim. rewrite bool_decide_false by (by destruct ws). unfold tokenize.
  change lexer_new with (ready [] []). by rewrite lex_words.
Qed.

(** C22: every command can be written down: quoting a name and its words and
    separating them with spaces is parsed as that name with those arguments,
    whatever characters they have; only a word that starts with a dash becomes
    an option, quoted or not, and none of the tokens of a line is ever empty. *)
Theorem quoted_command_parses w ws :
  Forall (fun w => w <> []) (w :: ws) ->
  parse (quote_words (w :: ws)) =
    Some {| cmd_name := w; args := filter (fun t => is_flag t = false) ws; options := filter (fun t => is_flag t = true) ws |} /\
  forall line c, parse line = Some c -> Forall (fun t => t <> []) (cmd_name c :: args c ++ options c).
Proof.
  intros Hw. split.
  - by apply parse_quoted.
  - intros line c. unfold parse. case_bool_decide; [done|]. destruct (tokenize (trim line)) as [ts|] eqn:Et; [|done]. cbn.
    apply tokenize_nonempty in Et as [_ Hne]. destruct ts as [|t ts]; [done|]. intros [= <-].
    apply list.Forall_cons in Hne as [Ht Hts]. cbn. constructor; [done|].
    apply Forall_app. split; apply list.Forall_forall; intros x [_ Hx]%list_elem_of_filter; by apply (proj1 (list.Forall_forall _ _) Hts).
Qed.

(** ** Pipelines *)

Definition separates (ch : N) : bool := (ch =? 59) || (ch =? 124).
(** the pieces between separators *)
Fixpoint segments (cur line : chars) : list chars :=
  match line with
  | [] => [cur]
  | ch :: line => if separates ch then cur :: segments [] line else segments (cur ++ [ch]) line
  end.
(** Property: a pipeline is the commands of the pieces between semicolons and bars,
    blank pieces left out; quotes and backslashes do not protect a separator, so a
    quoted one cuts the word it is in. *)
Theorem pipeline_cuts_everywhere line :
  parse_pipeline line = omap parse (segments [] line) /\
  forall a sep b, separates sep = true -> parse_pipeline (a ++ sep :: b) = parse_pipeline a ++ parse_pipeline b.
Proof.
  assert (H : forall line cs cur, (let '(cs', cur') := foldl pipe_char (cs, cur) line in
              cs' ++ match parse cur' with Some c => [c] | None => [] end) = cs ++ omap parse (segments cur line)).
  { clear line. induction line as [|ch line IH]; intros cs cur.
    - cbn. by destruct (parse cur).
    - cbn [foldl segments pipe_char]. unfold separates at 1. destruct (_ || _); rewrite IH; [|done]. cbn.
      destruct (parse cur); by rewrite <- ?app_assoc, ?app_nil_r. }
  assert (Hs : forall a sep b cur, separates sep = true -> segments cur (a ++ sep :: b) = segments cur a ++ segments [] b).
  { induction a as [|ch a IH]; intros sep b cur Hsep; cbn [app segments]; [by rewrite Hsep|].
    destruct (separates ch); [cbn [app]; f_equal|]; by apply IH. }
  split; [exact (H line [] [])|]. intros a sep b Hsep. unfold parse_pipeline. rewrite !H. cbn [app].
  by rewrite Hs, omap_app.
Qed.

(** ** Examples and witnesses *)

Example empty_quotes_vanish : parse (Assembler.B "write f ''") = Some (with_args (Assembler.B "write") [Assembler.B "f"]).
Proof. reflexivity. Qed.
Example quoted_separator_cuts :
  parse_pipeline (Assembler.B "echo 'a;b'") = [with_args (Assembler.B "echo") [[97]]; Command_new [98]].
Proof. reflexivity. Qed.

Lemma quoted_command_parses_witness :
  parse (quote_words [[101]; [32; 34; 92]; [45; 97]]) = Some {| cmd_name := [101]; args := [[32; 34; 92]]; options := [[45; 97]] |}.
Proof. refine (proj1 (quoted_command_parses [101] [[32; 34; 92]; [45; 97]] _)). by repeat constructor. Defined.

Lemma pipeline_cuts_everywhere_witness :
  parse_pipeline (Assembler.B "echo 'a" ++ 59 :: Assembler.B "b'") =
    parse_pipeline (Assembler.B "echo 'a") ++ parse_pipeline (Assembler.B "b'").
Proof. exact (proj2 (pipeline_cuts_everywhere []) (Assembler.B "echo 'a") 59 (Assembler.B "b'") eq_refl). Defined.
