(* ===== verification/Shell.v ===== *)
(** * The shell (src/src/ui/shell/mod.rs, builtins.rs)

    What the shell asks of the services is the interface [ShellBus]: a request,
    answered or not within the time limit, and a message without an answer.
    Lines and paths are lists of characters; messages carry their UTF-8 bytes.
    The programs that only show something in the terminal (pmon, cpu, minigdb)
    are the argument [terminal], which [Monitor] and [Debugger] model; printed lines and error texts are left out. *)
From Stdlib Require String Ascii.
Import (notations) String.
From S2P Require Import Prelude Types Messages Text ShellParser.
From S2P Require Assembler Vfs.

(** the services behind the bus *)
Class ShellBus (W : Type) := {
  request : KernelMsg -> W -> W * option Response;
  post : KernelMsg -> W -> W }.

(** ** Built-in commands *)

Abbreviation Env := (gmap (list N) (list N)).
Notation "## s" := (Assembler.B s) (at level 1, only parsing).
Definition BuiltinCommand_new : Env :=
  list_to_map [(##"PATH", ##"/bin:/usr/bin"); (##"HOME", ##"/root"); (##"USER", ##"root"); (##"SHELL", ##"/bin/chao-sh");
               (##"TERM", ##"xterm-256color")].

(** [arg.find('=')] *)
Fixpoint split_eq (s : list N) : option (list N * list N) :=
  match s with
  | [] => None
  | c :: s => if c =? 61 then Some ([], s) else match split_eq s with Some (k, v) => Some (c :: k, v) | None => None end
  end.
Fixpoint export_all (l : list (list N)) : SE Env unit unit := fun e =>
  match l with
  | [] => (e, Ok tt)
  | a :: l =>
      match split_eq a with
      | Some (k, v) => export_all l (<[k := v]> e)
      | None => match e !! a with Some _ => export_all l e | None => (e, Err tt) end
      end
  end.
Fixpoint unset_all (l : list (list N)) : SE Env unit unit := fun e =>
  match l with
  | [] => (e, Ok tt)
  | a :: l => match e !! a with Some _ => unset_all l (delete a e) | None => (e, Err tt) end
  end.
Definition cmd_export (c : Command) : SE Env unit unit := export_all (args c).
Definition cmd_unset (c : Command) : SE Env unit unit := unset_all (args c).
Definition get_env (k : list N) (e : Env) : option (list N) := e !! k.
Definition set_env (k v : list N) (e : Env) : Env := <[k := v]> e.

Definition named (s : list N) (n : String.string) : bool := Assembler.beq s (Assembler.B n).
Arguments named s n%_string.
Definition any (s : list N) (ns : list String.string) : bool := existsb (named s) ns.

(** [None]: not a built-in command *)
Definition execute (c : Command) (e : Env) : option (Env * result unit unit) :=
  let n := cmd_name c in
  if named n "export" then Some (cmd_export c e)
  else if named n "unset" then Some (cmd_unset c e)
  else if any n ["echo"; "env"; "set"; "clear"; "history"; "alias"; "unalias"; "true"; ":"]%string then Some (e, Ok tt)
  else if named n "false" then Some (e, Err tt)
  else None.

(** ** Paths *)

Definition is_absolute (p : list N) : bool := match p with c :: _ => c =? 47 | [] => false end.
(** the components of a relative path, a leading dot left out like the others *)
Definition path_components (p : list N) : list (list N) :=
  filter (fun w => w <> [] /\ w <> [46]) (Vfs.split 47 p).

(** [PathBuf::push] of a name *)
Definition push (base c : list N) : list N :=
  match list.last base with
  | None => c
  | Some x => if x =? 47 then base ++ c else base ++ [47] ++ c
  end.

(** [PathBuf::pop] of an absolute path: the last component is cut off with the
    separators and single dots around it; the root stays *)
Fixpoint after_slash (r : list N) : list N :=
  match r with [] => [] | c :: r' => if c =? 47 then r else after_slash r' end.
Fixpoint last_word (r : list N) : list N :=
  match r with [] => [] | c :: r' => if c =? 47 then [] else c :: last_word r' end.
(** on the reversed path without the root: drop empty components and single dots *)
Fixpoint trim_right (fuel : nat) (r : list N) : list N :=
  match fuel with
  | O => r
  | S fuel =>
      match r with
      | [] => []
      | _ => if bool_decide (last_word r = []) || bool_decide (last_word r = [46])
             then trim_right fuel (tail (after_slash r)) else r
      end
  end.
Definition pop (p : list N) : list N :=
  match p with
  | [] => []
  | root :: body =>
      let r := trim_right (S (length body)) (rev body) in
      match r with
      | [] => p
      | _ => root :: rev (trim_right (S (length body)) (tail (after_slash r)))
      end
  end.

Definition resolve_path (cwd path : list N) : list N :=
  if is_absolute path then path
  else foldl (fun base c => if bool_decide (c = [46; 46]) then pop base else push base c) cwd (path_components path).

(** ** Absolute paths by their components *)

Definition name_ok (c : list N) : Prop := c <> [] /\ c <> [46] /\ 47 ∉ c.
Fixpoint slashed (cs : list (list N)) : list N := match cs with [] => [] | c :: cs => 47 :: c ++ slashed cs end.
Definition canon (cs : list (list N)) : list N := match cs with [] => [47] | _ => slashed cs end.
Definition normalise (cs : list (list N)) (ps : list (list N)) : list (list N) :=
  foldl (fun cs c => if bool_decide (c = [46; 46]) then removelast cs else cs ++ [c]) cs ps.

Lemma slashed_app cs ds : slashed (cs ++ ds) = slashed cs ++ slashed ds.
Proof. induction cs as [|c cs IH]; [done|]. cbn. by rewrite IH, <- app_assoc. Qed.
Lemma canon_snoc cs c : canon (cs ++ [c]) = slashed cs ++ 47 :: c.
Proof.
  assert (H : canon (cs ++ [c]) = slashed (cs ++ [c])) by (by destruct cs).
  rewrite H, slashed_app. cbn. by rewrite app_nil_r.
Qed.
Lemma slashed_body cs : cs <> [] -> slashed cs = 47 :: tail (canon cs).
Proof. by destruct cs. Qed.

Lemma last_word_app w r : 47 ∉ w -> last_word (w ++ 47 :: r) = w /\ last_word w = w /\
  after_slash (w ++ 47 :: r) = 47 :: r /\ after_slash w = [].
Proof.
  induction w as [|c w IH]; intros Hw; [done|]. apply not_elem_of_cons in Hw as [Hc Hw]. destruct (IH Hw) as (H1 & H2 & H3 & H4).
  cbn. rewrite (proj2 (N.eqb_neq c 47)) by done. by rewrite H1, H2.
Qed.

Lemma Forall_snoc_inv {A} (P : A -> Prop) l x : Forall P (l ++ [x]) -> Forall P l /\ P x.
Proof. intros [Hl Hx]%Forall_app. split; [done|]. by inversion_clear Hx. Qed.

Lemma rev_name_ok c : name_ok c -> name_ok (rev c).
Proof.
  intros (H1 & H2 & H3). split; [|split].
  - intros E. apply H1. by rewrite <- (rev_involutive c), E.
  - intros E. apply H2. by rewrite <- (rev_involutive c), E.
  - rewrite list_elem_of_In, <- in_rev, <- list_elem_of_In. done.
Qed.

Lemma trim_right_ok fuel w r : name_ok w -> trim_right fuel (w ++ 47 :: r) = w ++ 47 :: r /\ trim_right fuel w = w.
Proof.
  intros (H1 & H2 & H3). destruct (last_word_app w r H3) as (E1 & E2 & _). destruct fuel as [|fuel]; [done|]. cbn [trim_right].
  rewrite E1, E2, (bool_decide_false (w = [])), (bool_decide_false (w = [46])) by done. cbn [orb]. by destruct w.
Qed.

Lemma match_nonempty {A B} (l : list A) (x y : B) : l <> [] -> match l with [] => x | _ :: _ => y end = y.
Proof. by destruct l. Qed.

(** pushing and popping a name *)
Lemma push_canon cs c : Forall name_ok cs -> push (canon cs) c = canon (cs ++ [c]).
Proof.
  intros Hcs. rewrite canon_snoc. destruct cs as [|d cs _] using rev_ind; [done|]. rewrite canon_snoc. unfold push.
  apply Forall_snoc_inv in Hcs as [_ (Hd & _ & Hs)]. rewrite slashed_app. cbn [slashed]. rewrite app_nil_r.
  destruct d as [|x d _] using rev_ind; [done|].
  change (slashed cs ++ 47 :: d ++ [x]) with (slashed cs ++ (47 :: d) ++ [x]). rewrite !app_assoc, list.last_snoc.
  rewrite (proj2 (N.eqb_neq x 47)); [by rewrite <- !app_assoc|]. intros ->. apply Hs, elem_of_app. right. by left.
Qed.

Lemma pop_canon cs c : Forall name_ok (cs ++ [c]) -> pop (canon (cs ++ [c])) = canon cs.
Proof.
  intros Hcs. apply Forall_snoc_inv in Hcs as [Hcs Hc]. pose proof (rev_name_ok _ Hc) as Hr.
  destruct cs as [|d cs _] using rev_ind.
  - cbn [app canon slashed]. rewrite app_nil_r. unfold pop. destruct (trim_right_ok (S (length c)) (rev c) [] Hr) as [_ ->].
    rewrite match_nonempty by apply Hr. destruct (last_word_app (rev c) [] (proj2 (proj2 Hr))) as (_ & _ & _ & ->).
    done.
  - apply Forall_snoc_inv in Hcs as [_ Hd]. pose proof (rev_name_ok _ Hd) as Hrd.
    rewrite canon_snoc, (canon_snoc cs d), slashed_app. cbn [slashed]. rewrite app_nil_r.
    assert (E : exists b, slashed cs ++ 47 :: d = 47 :: b /\ rev b = rev d ++ match cs with [] => [] | _ => 47 :: rev (tail (canon cs)) end).
    { destruct cs as [|e cs]; [exists d; by rewrite app_nil_r|]. exists (tail (canon (e :: cs)) ++ 47 :: d). split; [done|].
      rewrite rev_app_distr. cbn [rev]. by rewrite <- app_assoc. }
    destruct E as (b & -> & Eb). cbn [app]. unfold pop. rewrite rev_app_distr. cbn [rev]. rewrite <- app_assoc. cbn [app].
    destruct (trim_right_ok (S (length (b ++ 47 :: c))) (rev c) (rev b) Hr) as [-> _].
    rewrite match_nonempty by (destruct (rev c); [by destruct Hr|done]).
    destruct (last_word_app (rev c) (rev b) (proj2 (proj2 Hr))) as (_ & _ & -> & _). cbn [tail]. rewrite Eb.
    assert (Et : forall n, trim_right n (rev d ++ match cs with [] => [] | _ => 47 :: rev (tail (canon cs)) end) =
                   rev d ++ match cs with [] => [] | _ => 47 :: rev (tail (canon cs)) end).
    { intros n. destruct cs; [rewrite app_nil_r; apply (trim_right_ok n (rev d) [] Hrd)|apply (trim_right_ok n (rev d) _ Hrd)]. }
    by rewrite Et, <- Eb, rev_involutive.
Qed.

Lemma Forall_removelast {A} (P : A -> Prop) l : Forall P l -> Forall P (removelast l).
Proof.
  intros H. destruct l as [|x l _] using rev_ind; [done|]. rewrite removelast_last. by apply Forall_snoc_inv in H as [H _].
Qed.
Lemma normalise_ok cs ps : Forall name_ok cs -> Forall name_ok ps -> Forall name_ok (normalise cs ps).
Proof.
  intros Hcs Hps. revert cs Hcs. induction Hps as [|c ps Hc _ IH]; intros cs Hcs; [done|]. apply IH.
  case_bool_decide; [by apply Forall_removelast|]. apply Forall_app. split; [done|]. by constructor.
Qed.

Lemma split_parts_no_slash p : Forall (fun w => 47 ∉ w) (Vfs.split 47 p).
Proof.
  induction p as [|x p IH]; cbn; [repeat constructor; by apply not_elem_of_nil|]. destruct (N.eqb_spec x 47) as [->|Hx].
  - constructor; [apply not_elem_of_nil|done].
  - destruct IH as [|w ws Hw Hws]; [by constructor; [apply not_elem_of_cons; split; [done|apply not_elem_of_nil]|]|].
    constructor; [by apply not_elem_of_cons|done].
Qed.
Lemma path_components_ok p : Forall name_ok (path_components p).
Proof.
  apply list.Forall_forall. intros w [[H1 H2] Hw]%list_elem_of_filter. split; [done|]. split; [done|].
  exact (proj1 (list.Forall_forall _ _) (split_parts_no_slash p) w Hw).
Qed.

Lemma foldl_resolve cs ps : Forall name_ok cs -> Forall name_ok ps ->
  foldl (fun base c => if bool_decide (c = [46; 46]) then pop base else push base c) (canon cs) ps = canon (normalise cs ps).
Proof.
  intros Hcs Hps. revert cs Hcs. induction Hps as [|c ps Hc _ IH]; intros cs Hcs; [done|].
  unfold normalise. cbn [foldl]. case_bool_decide.
  - destruct cs as [|d cs _] using rev_ind; [by apply (IH [])|]. rewrite pop_canon, removelast_last by done.
    apply IH. by apply Forall_snoc_inv in Hcs as [Hcs _].
  - rewrite push_canon by done. apply IH, Forall_app. split; [done|]. by constructor.
Qed.

(** the file service splits a canonical path into its components *)
Lemma split_first_part w r : 47 ∉ w -> Vfs.split 47 (w ++ 47 :: r) = w :: Vfs.split 47 r /\ Vfs.split 47 w = [w].
Proof.
  induction w as [|c w IH]; intros Hw; [done|]. apply not_elem_of_cons in Hw as [Hc Hw]. destruct (IH Hw) as [H1 H2].
  cbn. rewrite (proj2 (N.eqb_neq c 47)) by done. by rewrite H1, H2.
Qed.
Lemma split_slashed cs : Forall name_ok cs -> cs <> [] -> Vfs.split 47 (slashed cs) = [] :: cs.
Proof.
  induction 1 as [|c cs (_ & _ & Hc) Hcs IH]; [done|]. intros _. cbn [slashed Vfs.split]. change (47 =? 47) with true. cbv iota. f_equal.
  destruct cs as [|d cs]; [cbn; rewrite app_nil_r; by apply (split_first_part c [])|].
  change (slashed (d :: cs)) with (47 :: tail (slashed (d :: cs))). rewrite (proj1 (split_first_part c _ Hc)). f_equal.
  specialize (IH ltac:(done)). cbn in IH. by injection IH as IH.
Qed.
Lemma components_canon cs : Forall name_ok cs -> Vfs.components (canon cs) = cs.
Proof.
  intros Hcs. destruct cs as [|c cs]; [done|]. unfold Vfs.components. cbn [canon]. rewrite split_slashed by done.
  rewrite list.filter_cons_False by tauto. clear -Hcs. induction Hcs as [|d ds Hd _ IH]; [done|].
  rewrite list.filter_cons_True by apply Hd. by rewrite IH.
Qed.

(** ** Commands *)

Record Shell := { cwd : list N; running : bool; env : Env; verbose : bool }.
Definition Shell_new : Shell := {| cwd := [47]; running := false; env := BuiltinCommand_new; verbose := false |}.
Definition set_cwd x (s : Shell) : Shell := {| cwd := x; running := running s; env := env s; verbose := verbose s |}.
Definition set_running x (s : Shell) : Shell := {| cwd := cwd s; running := x; env := env s; verbose := verbose s |}.
Definition set_environment x (s : Shell) : Shell := {| cwd := cwd s; running := running s; env := x; verbose := verbose s |}.
Definition set_verbose x (s : Shell) : Shell := {| cwd := cwd s; running := running s; env := env s; verbose := x |}.

Section Commands.
Context {W : Type} `{!ShellBus W} (terminal : list N -> list (list N) -> result unit unit).

(** the shell and the services *)
Notation S_ := (SE (Shell * W) unit).
Definition modify (f : Shell -> Shell) : S_ unit := fun '(s, w) => ((f s, w), Ok tt).
Definition get_shell : S_ Shell := fun '(s, w) => ((s, w), Ok s).
Definition quiet (r : result unit unit) : S_ unit := fun s => (s, r).
(** the answer, an error of the service among them; no answer is an error *)
Definition send_and_wait (m : KernelMsg) : S_ Response := fun '(s, w) =>
  let '(w, r) := request m w in ((s, w), ok_or tt r).
(** [match self.send_and_wait(..)]: whatever happens *)
Definition ask (m : KernelMsg) : S_ (option Response) := fun '(s, w) => let '(w, r) := request m w in ((s, w), Ok r).
Definition send (m : KernelMsg) : S_ unit := fun '(s, w) => ((s, post m w), Ok tt).

Definition exec_msg (pid : Pid) (prog : list N) (a : list (list N)) : KernelMsg :=
  MsgProcess (ProcessRequest.ExecProcess pid (encode prog) (encode <$> a) None).
(** the answer to the exec request is not looked at *)
Definition fork_exec_detach (prog : list N) (a : list (list N)) : S_ Pid :=
  r ← send_and_wait (MsgProcess (ProcessRequest.ForkProcess 1));
  match data r with
  | Some (RPid child) => _ ← send_and_wait (exec_msg child prog a); mret child
  | _ => se_throw tt
  end.
Definition fork_exec_wait (prog : list N) (a : list (list N)) : S_ unit :=
  child ← fork_exec_detach prog a;
  _ ← send_and_wait (MsgProcess (ProcessRequest.WaitChild 1 (Some child))); mret tt.

Definition parse_u64 (s : list N) : option N := Assembler.from_str_radix 10 s.
Fixpoint join_space (l : list (list N)) : list N :=
  match l with [] => [] | [x] => x | x :: l => x ++ [32] ++ join_space l end.
Definition text_of (s : list N) : String.string := String.string_of_list_ascii (Ascii.ascii_of_N <$> encode s).

(** the path of the first argument, or the working directory *)
Definition path_or_cwd (c : Command) (s : Shell) : list N :=
  match args c with a :: _ => resolve_path (cwd s) a | [] => cwd s end.
(** a program that gets the path of its first argument *)
Definition run_on_path (prog : String.string) (c : Command) : S_ unit :=
  match args c with
  | [] => se_throw tt
  | a :: _ => s ← get_shell; fork_exec_wait (Assembler.B prog) [resolve_path (cwd s) a]
  end.

Definition signal_of (s : list N) : SignalType :=
  if any s ["kill"; "sigkill"]%string then SigKill else if any s ["stop"; "sigstop"]%string then SigStop else SigTerminate.
Definition command_to_message (c : Command) : option KernelMsg :=
  let n := cmd_name c in
  if named n "run" then
    exe ← args c !! 0%nat; Some (MsgSyscall (Syscall.CreateProcess (encode exe) (encode <$> tail (args c))))
  else if named n "ps" then Some (MsgProcess ProcessRequest.ListProcesses)
  else if named n "kill" then
    pid ← args c !! 0%nat ≫= parse_u64;
    Some (MsgProcess (ProcessRequest.Signal pid (signal_of (default ##"term" (args c !! 1%nat)))))
  else if named n "send" then
    from ← args c !! 0%nat ≫= parse_u64;
    to ← args c !! 1%nat ≫= parse_u64;
    text ← args c !! 2%nat;
    Some (MsgProcess (ProcessRequest.SendMessage from to (Text (text_of text))))
  else if named n "mount" then
    dev ← args c !! 0%nat;
    point ← args c !! 1%nat;
    let d := match parse_u64 dev with Some v => if v <? 2 ^ 32 then v else 0 | None => 0 end in
    Some (MsgFile (FileRequest.Mount d (encode point) FileRequest.SimpleFS))
  else None.
Definition execute_kernel_command (c : Command) : S_ unit :=
  match command_to_message c with Some m => send m | None => se_throw tt end.
Definition execute_builtin (c : Command) : S_ unit := fun '(s, w) =>
  match execute c (env s) with
  | Some (e, r) => ((set_environment e s, w), r)
  | None => execute_kernel_command c (s, w)
  end.

Definition cmd_cd (c : Command) : S_ unit :=
  s ← get_shell;
  let target := resolve_path (cwd s) (default [47] (args c !! 0%nat)) in
  r ← ask (MsgFile (FileRequest.Stat (encode target)));
  match r with Some (Ok _) => modify (set_cwd target) | _ => se_throw tt end.
Definition cmd_write (c : Command) : S_ unit :=
  match args c with
  | [] => se_throw tt
  | a :: content => s ← get_shell; fork_exec_wait ##"write" [resolve_path (cwd s) a; join_space content]
  end.
Definition cmd_dual (c : Command) : S_ unit :=
  let prog := default ##"busy" (args c !! 0%nat) in
  _ ← fork_exec_detach prog []; _ ← fork_exec_detach prog []; mret tt.
Definition cmd_fork (c : Command) : S_ unit :=
  _ ← send_and_wait (exec_msg (default 1 (args c !! 0%nat ≫= parse_u64)) ##"fork" []); mret tt.
Definition cmd_fork2 (c : Command) : S_ unit :=
  _ ← ask (MsgProcess (ProcessRequest.ForkProcess (default 1 (args c !! 0%nat ≫= parse_u64)))); mret tt.
Definition cmd_exec (c : Command) : S_ unit :=
  match args c with
  | [] => se_throw tt
  | [prog] => _ ← send_and_wait (exec_msg 1 prog []); mret tt
  | pid :: prog :: a => _ ← send_and_wait (exec_msg (default 1 (parse_u64 pid)) prog a); mret tt
  end.
Definition cmd_copy (c : Command) : S_ unit := send (MsgDevice (DeviceRequest.ClipboardSet (encode (join_space (args c))))).
Definition cmd_run (c : Command) : S_ unit :=
  match args c with [] => se_throw tt | prog :: a => _ ← fork_exec_detach prog a; mret tt end.

Definition cmd_paste : S_ unit := _ ← ask (MsgDevice (DeviceRequest.ClipboardGet 4096)); mret tt.
Definition cmd_disk : S_ unit := _ ← send_and_wait (MsgFile FileRequest.DiskInfo); mret tt.
Definition cmd_minigdb (c : Command) : S_ unit :=
  match args c with [] => se_throw tt | a => quiet (terminal (cmd_name c) a) end.
(** ps, pstree *)
Definition cmd_ps : S_ unit := _ ← ask (MsgProcess ProcessRequest.ListProcesses); mret tt.

Definition execute_command (c : Command) : S_ unit :=
  let n := cmd_name c in
  if any n ["exit"; "quit"]%string then modify (set_running false)
  else if any n ["help"; "uptime"; "pwd"]%string then mret tt
  else if named n "verbose" then
    modify (set_verbose (named (default ##"on" (args c !! 0%nat)) "on"))
  else if any n ["pmon"; "htop"; "cpu"]%string then quiet (terminal n [])
  else if named n "minigdb" then cmd_minigdb c
  else if named n "cd" then cmd_cd c
  else if named n "ls" then s ← get_shell; fork_exec_wait ##"ls" [path_or_cwd c s]
  else if named n "tree" then s ← get_shell; fork_exec_wait ##"tree" [path_or_cwd c s]
  else if named n "mkdir" then run_on_path "mkdir" c
  else if named n "touch" then run_on_path "touch" c
  else if named n "cat" then run_on_path "cat" c
  else if named n "rm" then run_on_path "rm" c
  else if named n "stat" then run_on_path "stat" c
  else if named n "write" then cmd_write c
  else if named n "dual" then cmd_dual c
  else if named n "fork" then cmd_fork c
  else if named n "fork2" then cmd_fork2 c
  else if named n "exec" then cmd_exec c
  else if named n "copy" then cmd_copy c
  else if named n "paste" then cmd_paste
  else if named n "disk" then cmd_disk
  else if named n "run" then cmd_run c
  else if any n ["ps"; "pstree"]%string then cmd_ps
  else execute_builtin c.

Definition execute_line (line : list N) : S_ unit :=
  match parse line with Some c => execute_command c | None => se_throw tt end.

(** what the loop does with one line read from the terminal; [None] is its end or an
    error.  A line with nothing but white space is trimmed to nothing. *)
Definition interact (input : option (list N)) : SE (Shell * W) unit unit := fun '(s, w) =>
  let line := match input with Some l => trim_end l | None => [] end in
  if bool_decide (line = []) then ((set_running false s, w), Ok tt)
  else if bool_decide (trim line = []) then ((s, w), Ok tt)
  else let '(sw, _) := execute_line line (s, w) in (sw, Ok tt).
Fixpoint interactive_loop (inputs : list (list N)) (sw : Shell * W) : Shell * W :=
  if running (fst sw) then
    match inputs with
    | [] => fst (interact None sw)
    | l :: inputs => interactive_loop inputs (fst (interact (Some l) sw))
    end
  else sw.
Definition run_interactive (inputs : list (list N)) (sw : Shell * W) : Shell * W :=
  interactive_loop inputs (set_running true (fst sw), snd sw).
End Commands.

(** ** What holds of the shell *)

(** C31: a relative path is resolved by its components: dots are left out, two dots
    go up and stop at the root, and the file service looks for exactly those
    components; the result of a canonical directory is canonical again. *)
Theorem relative_path_resolves cs p :
  Forall name_ok cs -> is_absolute p = false ->
  resolve_path (canon cs) p = canon (normalise cs (path_components p)) /\
  Vfs.components (resolve_path (canon cs) p) = normalise cs (path_components p) /\
  Forall name_ok (normalise cs (path_components p)).
Proof.
  intros Hcs Hp. pose proof (path_components_ok p) as Hps. pose proof (normalise_ok cs _ Hcs Hps) as Hn.
  assert (E : resolve_path (canon cs) p = canon (normalise cs (path_components p))).
  { unfold resolve_path. rewrite Hp. by apply foldl_resolve. }
  rewrite E. split; [done|]. split; [by apply components_canon|done].
Qed.

Section Properties.
Context {W : Type} `{!ShellBus W} (terminal : list N -> list (list N) -> result unit unit).
Notation S_ := (SE (Shell * W) unit).

(** [I] does not depend on more of the shell than its working directory, and the
    services keep it *)
Definition stable (I : Shell * W -> Prop) : Prop :=
  (forall s w m, I (s, w) -> I (s, (request m w).1)) /\ (forall s w m, I (s, w) -> I (s, post m w)) /\
  (forall s s' w, cwd s' = cwd s -> I (s, w) -> I (s', w)).
Definition keeps {A} (I : Shell * W -> Prop) (m : S_ A) : Prop := forall s w, I (s, w) -> I (m (s, w)).1.
Lemma keeps_bind {A B} I (m : S_ A) (k : A -> S_ B) : keeps I m -> (forall a, keeps I (k a)) -> keeps I (m ≫= k).
Proof.
  intros Hm Hk s w Hs. specialize (Hm s w Hs). unfold mbind, SE_bind. destruct (m (s, w)) as [[s' w'] [a|e]]; [|done].
  by apply Hk.
Qed.
Lemma keeps_ret {A} I (a : A) : keeps I (mret a). Proof. by intros s w. Qed.
Lemma keeps_throw {A} I : keeps (A := A) I (se_throw tt). Proof. by intros s w. Qed.
Lemma keeps_get I : keeps I (get_shell (W := W)). Proof. by intros s w. Qed.
Lemma keeps_quiet I r : keeps I (quiet (W := W) r). Proof. by intros s w. Qed.
Lemma keeps_request I m : stable I -> keeps I (send_and_wait (W := W) m).
Proof. intros [Hr _] s w Hs. unfold send_and_wait. specialize (Hr s w m Hs). by destruct (request m w). Qed.
Lemma keeps_ask I m : stable I -> keeps I (ask (W := W) m).
Proof. intros [Hr _] s w Hs. unfold ask. specialize (Hr s w m Hs). by destruct (request m w). Qed.
Lemma keeps_send I m : stable I -> keeps I (send (W := W) m).
Proof. intros (_ & Hp & _) s w Hs. by apply Hp. Qed.
Lemma keeps_modify I (f : Shell -> Shell) : stable I -> (forall s, cwd (f s) = cwd s) -> keeps I (modify (W := W) f).
Proof. intros (_ & _ & Hf) H s w Hs. by apply (Hf s). Qed.
Lemma keeps_builtin I c : stable I -> keeps I (execute_builtin (W := W) c).
Proof.
  intros HI s w Hs. unfold execute_builtin. destruct (execute c (env s)) as [[e r]|].
  - destruct HI as (_ & _ & Hf). by apply (Hf s).
  - unfold execute_kernel_command. destruct (command_to_message c); [by apply keeps_send|by apply keeps_throw].
Qed.
Lemma keeps_fork I prog a : stable I -> keeps I (fork_exec_detach (W := W) prog a).
Proof.
  intros HI. apply keeps_bind; [by apply keeps_request|]. intros r. destruct (data r) as [[]|]; try apply keeps_throw.
  apply keeps_bind; [by apply keeps_request|]. intros _. apply keeps_ret.
Qed.
Lemma keeps_fork_wait I prog a : stable I -> keeps I (fork_exec_wait (W := W) prog a).
Proof.
  intros HI. apply keeps_bind; [by apply keeps_fork|]. intros c. apply keeps_bind; [by apply keeps_request|]. intros _. apply keeps_ret.
Qed.
Lemma keeps_run_on_path I prog c : stable I -> keeps I (run_on_path (W := W) prog c).
Proof.
  intros HI. unfold run_on_path. destruct (args c); [apply keeps_throw|]. apply keeps_bind; [apply keeps_get|]. intros s.
  by apply keeps_fork_wait.
Qed.
End Properties.
Create HintDb shell.
#[export] Hint Resolve keeps_ret keeps_throw keeps_request keeps_ask keeps_get keeps_send keeps_quiet keeps_builtin keeps_fork
  keeps_fork_wait keeps_run_on_path : shell.
Ltac keeps_auto := repeat first [solve [auto with shell] | apply keeps_modify; done | apply keeps_bind; [|intros ?]].

Section Runs.
Context {W : Type} `{!ShellBus W} (terminal : list N -> list (list N) -> result unit unit).

Lemma cmd_cd_eq c (s : Shell) (w : W) :
  cmd_cd c (s, w) =
    let target := resolve_path (cwd s) (default [47] (args c !! 0%nat)) in
    let '(w, r) := request (MsgFile (FileRequest.Stat (encode target))) w in
    match r with Some (Ok _) => ((set_cwd target s, w), Ok tt) | _ => ((s, w), Err tt) end.
Proof. unfold cmd_cd, mbind, SE_bind, ask, get_shell. cbv zeta. destruct (request _ w) as [w' [[d|e]|]]; done. Qed.

Lemma keeps_cd (P : list N -> Prop) c :
  (forall p w, is_absolute p = true -> (exists d, (request (MsgFile (FileRequest.Stat (encode p))) w).2 = Some (Ok d)) -> P p) ->
  keeps (W := W) (fun '(s, _) => is_absolute (cwd s) = true /\ P (cwd s)) (cmd_cd c).
Proof.
  intros HP s w [Habs Hs]. rewrite cmd_cd_eq. cbv zeta.
  set (target := resolve_path (cwd s) (default [47] (args c !! 0%nat))). pose proof (HP target w) as Ht.
  assert (Ha : is_absolute target = true).
  { unfold target, resolve_path. set (a := default _ _). destruct (is_absolute a) eqn:Ea; [done|]. clear -Habs.
    revert Habs. generalize (cwd s). induction (path_components a) as [|p ps IH]; intros b Hb; [done|]. apply IH.
    destruct b as [|x b]; [done|]. case_bool_decide.
    - unfold pop. cbv zeta. destruct (trim_right (S (length b)) (rev b)); exact Hb.
    - unfold push. destruct (list.last (x :: b)) as [y|] eqn:E; [by destruct (y =? 47); exact Hb|]. by apply list.last_None in E. }
  destruct (request _ w) as [w' r]. cbn [snd] in Ht. destruct r as [[d|e]|]; cbn; [|by split|by split].
  split; [done|]. apply Ht; [done|by exists d].
Qed.
(** an invariant of the services alone *)
Lemma keeps_cd_services (J : W -> Prop) c : (forall w m, J w -> J (request m w).1) -> keeps (fun '(_, w) => J w) (cmd_cd c).
Proof.
  intros HJ s w Hw. rewrite cmd_cd_eq. cbv zeta. set (m := MsgFile _). specialize (HJ w m Hw).
  by destruct (request m w) as [w' [[d|e]|]].
Qed.

Lemma keeps_command (I : Shell * W -> Prop) c : stable I -> keeps I (cmd_cd c) -> keeps I (execute_command terminal c).
Proof.
  intros HI Hcd. unfold execute_command.
  repeat match goal with |- keeps _ (if ?b then _ else _) => destruct b end; try exact Hcd;
    unfold cmd_write, cmd_dual, cmd_fork, cmd_fork2, cmd_exec, cmd_copy, cmd_run, cmd_paste, cmd_disk, cmd_minigdb, cmd_ps;
    repeat match goal with |- keeps _ (match ?x with _ => _ end) => destruct x end; keeps_auto.
Qed.

Lemma keeps_loop (I : Shell * W -> Prop) inputs sw : stable I -> (forall c, keeps I (cmd_cd c)) -> I sw ->
  I (interactive_loop terminal inputs sw).
Proof.
  intros HI Hcd. assert (Hi : forall input, keeps I (interact terminal input)).
  { intros input s w Hs. unfold interact. case_bool_decide; [|case_bool_decide; [done|]].
    - destruct HI as (_ & _ & Hf). by apply (Hf s).
    - unfold execute_line. destruct (parse _) as [c|]; [|done]. pose proof (keeps_command I c HI (Hcd c) s w Hs) as H1.
      by destruct (execute_command terminal c (s, w)) as [[s' w'] r]. }
  revert sw. induction inputs as [|l inputs IH]; intros [s w] Hs; cbn [interactive_loop fst snd]; destruct (running s); try done.
  - by apply Hi.
  - apply IH. by apply Hi.
Qed.

(** What the services keep at every message, they have kept when the shell ends. *)
Lemma shell_keeps (J : W -> Prop) inputs s w :
  (forall w m, J w -> J (request m w).1) -> (forall w m, J w -> J (post m w)) -> J w ->
  J (run_interactive terminal inputs (s, w)).2.
Proof.
  intros Hr Hp Hw. pose proof (keeps_loop (fun '(_, w) => J w) inputs (set_running true s, w)) as H.
  unfold run_interactive. cbn [fst snd]. destruct (interactive_loop _ _ _) as [s' w']. apply H; [|intros c; by apply keeps_cd_services|done].
  split; [intros _ w0 m; apply Hr|]. split; [intros _ w0 m; apply Hp|done].
Qed.

(** Property: whatever is typed and whatever the services answer, the working
    directory is the root or an absolute path whose status the file service has
    answered with success. *)
Theorem cwd_was_confirmed inputs w :
  let '(s, _) := run_interactive terminal inputs (Shell_new, w) in
  is_absolute (cwd s) = true /\
  (cwd s = [47] \/ exists w0 d, (request (MsgFile (FileRequest.Stat (encode (cwd s)))) w0).2 = Some (Ok d)).
Proof.
  unfold run_interactive. set (P := fun p => p = [47] \/ exists (w0 : W) d, (request (MsgFile (FileRequest.Stat (encode p))) w0).2 = Some (Ok d)).
  pose proof (keeps_loop (fun '(s, _) => is_absolute (cwd s) = true /\ P (cwd s)) inputs (set_running true Shell_new, w)) as H.
  cbn [fst snd] in *. destruct (interactive_loop _ _ _) as [s w']. apply H; [| |by split; [|left]].
  - split; [done|]. split; [done|]. intros s0 s1 _ Hc. by rewrite Hc.
  - intros c. apply keeps_cd. intros p w0 _ Hd. right. by exists w0.
Qed.

Lemma loop_stopped inputs (s : Shell) (w : W) : running s = false -> interactive_loop terminal inputs (s, w) = (s, w).
Proof. intros Hr. destruct inputs; cbn [interactive_loop fst]; by rewrite Hr. Qed.

(** Property: a line with nothing but white space ends the shell: no line after it is
    read, just as after the end of the input. *)
Theorem blank_line_ends_shell before blank after s w :
  Forall (fun c => is_space c = true) blank ->
  run_interactive terminal (before ++ blank :: after) (s, w) = run_interactive terminal before (s, w) /\
  running (run_interactive terminal before (s, w)).1 = false.
Proof.
  intros Hb. assert (Ht : trim_end blank = []).
  { unfold trim_end. assert (H : forall l, Forall (fun c => is_space c = true) l -> trim_start l = []).
    { induction 1 as [|c l Hc _ IH]; [done|]. cbn. by rewrite Hc. }
    rewrite H; [done|]. by apply Forall_rev. }
  unfold run_interactive. cbn [fst snd]. generalize (set_running true s) as s0. revert w.
  induction before as [|l before IH]; intros w s0; cbn [app interactive_loop fst].
  - destruct (running s0) eqn:Er; [|done]. unfold interact at 1. rewrite Ht. cbn. by rewrite loop_stopped.
  - destruct (running s0) eqn:Er; [|done]. destruct (fst (interact terminal (Some l) (s0, w))) as [s1 w1]. apply IH.
Qed.

Lemma fork_exec_detach_eq prog a (s : Shell) (w : W) :
  fork_exec_detach prog a (s, w) =
    let '(w1, r) := request (MsgProcess (ProcessRequest.ForkProcess 1)) w in
    match r with
    | Some (Ok (RPid child)) =>
        let '(w2, r2) := request (exec_msg child prog a) w1 in
        match r2 with Some _ => ((s, w2), Ok child) | None => ((s, w2), Err tt) end
    | _ => ((s, w1), Err tt)
    end.
Proof.
  unfold fork_exec_detach, send_and_wait, mbind, SE_bind. destruct (request _ w) as [w1 [[[]|]|]]; try done. cbn.
  by destruct (request _ w1) as [w2 [r2|]].
Qed.

(** the first words of a line, as the commands they are *)
Lemma named_spec l n : named l n = true <-> l = Assembler.B n.
Proof.
  unfold named. generalize (Assembler.B n). induction l as [|x l IH]; intros [|y m]; cbn; try done.
  rewrite andb_true_iff, N.eqb_eq, IH. split; [by intros [-> ->]|by intros [= -> ->]].
Qed.
Lemma split_eq_assignment k v : 61 ∉ k -> split_eq (k ++ 61 :: v) = Some (k, v).
Proof.
  induction k as [|c k IH]; intros Hk; [done|]. apply not_elem_of_cons in Hk as [Hc Hk]. cbn.
  by rewrite (proj2 (N.eqb_neq c 61)), IH.
Qed.

Lemma execute_export k v (s : Shell) (w : W) : 61 ∉ k ->
  execute_command terminal (with_args ##"export" [k ++ 61 :: v]) (s, w) = ((set_environment (<[k := v]> (env s)) s, w), Ok tt).
Proof.
  intros Hk. change (execute_builtin (with_args ##"export" [k ++ 61 :: v]) (s, w) = ((set_environment (<[k := v]> (env s)) s, w), Ok tt)).
  unfold execute_builtin.
  change (execute (with_args ##"export" [k ++ 61 :: v]) (env s)) with (Some (export_all [k ++ 61 :: v] (env s))).
  cbn [export_all]. by rewrite split_eq_assignment.
Qed.
Lemma execute_unset k (s : Shell) (w : W) :
  execute_command terminal (with_args ##"unset" [k]) (s, w) =
    match env s !! k with
    | Some _ => ((set_environment (delete k (env s)) s, w), Ok tt)
    | None => ((set_environment (env s) s, w), Err tt)
    end.
Proof.
  change (execute_builtin (with_args ##"unset" [k]) (s, w) =
    match env s !! k with
    | Some _ => ((set_environment (delete k (env s)) s, w), Ok tt)
    | None => ((set_environment (env s) s, w), Err tt)
    end).
  unfold execute_builtin. change (execute (with_args ##"unset" [k]) (env s)) with (Some (unset_all [k] (env s))).
  cbn [unset_all]. by destruct (env s !! k).
Qed.
Lemma execute_quoted n t (s : Shell) (w : W) : is_flag t = false -> t <> [] -> n <> [] ->
  execute_line terminal (quote_words [n; t]) (s, w) = execute_command terminal (with_args n [t]) (s, w).
Proof.
  intros Ht Hnt Hnn. unfold execute_line. rewrite (parse_quoted n [t]) by (by repeat constructor).
  rewrite !list.filter_cons, Ht. done.
Qed.

(** Property: running a program that cannot be loaded is reported as success: the answer
    to the exec request is not looked at, so the forked child stays, and nobody
    waits for it. *)
Theorem failed_exec_is_success c prog a s w w1 w2 child e :
  named (cmd_name c) "run" = true -> args c = prog :: a ->
  request (MsgProcess (ProcessRequest.ForkProcess 1)) w = (w1, Some (Ok (RPid child))) ->
  request (exec_msg child prog a) w1 = (w2, Some (Err e)) ->
  execute_command terminal c (s, w) = ((s, w2), Ok tt).
Proof.
  intros Hn%named_spec Ha Hf He. destruct c as [n ar o]. cbn in Hn, Ha. subst n ar.
  change ((_ ← fork_exec_detach prog a; mret tt) (s, w) = ((s, w2), Ok tt : result unit unit)).
  unfold mbind at 1, SE_bind at 1. by rewrite fork_exec_detach_eq, Hf, He.
Qed.

(** Property: a variable that is set on the command line has that value and no other
    variable changes; unsetting it removes it, and doing so twice is an error. *)
Theorem export_then_unset k v s w :
  61 ∉ k -> is_flag (k ++ 61 :: v) = false -> is_flag k = false -> k <> [] ->
  let '((s1, w1), r1) := execute_line terminal (quote_words [ ##"export"; k ++ 61 :: v]) (s, w) in
  let '((s2, w2), r2) := execute_line terminal (quote_words [ ##"unset"; k]) (s1, w1) in
  let '((s3, w3), r3) := execute_line terminal (quote_words [ ##"unset"; k]) (s2, w2) in
  r1 = Ok tt /\ (forall k', get_env k' (env s1) = if decide (k' = k) then Some v else get_env k' (env s)) /\
  r2 = Ok tt /\ get_env k (env s2) = None /\ r3 = Err tt /\ w3 = w /\ cwd s3 = cwd s /\ running s3 = running s.
Proof.
  intros Hk Hf Hfk Hne. rewrite execute_quoted, execute_export by (done || by destruct k).
  rewrite execute_quoted, execute_unset by done. cbn [env set_environment]. rewrite lookup_insert_eq.
  rewrite execute_quoted, execute_unset by done. cbn [env set_environment]. rewrite lookup_delete_eq.
  split; [done|]. split; [|split; [done|]; split; [apply lookup_delete_eq|done]].
  intros k'. unfold get_env. destruct (decide (k' = k)) as [->|Hk']; [apply lookup_insert_eq|by apply lookup_insert_ne].
Qed.
End Runs.

(** ** Witnesses: services that log what they are asked and cannot load a program *)

Definition demo_answer (m : KernelMsg) : Response :=
  match m with
  | MsgProcess (ProcessRequest.ForkProcess _) => Ok (RPid 7)
  | MsgProcess (ProcessRequest.ExecProcess _ _ _ _) => Err RespNotFound
  | _ => Ok Void
  end.
#[local] Instance demo_bus : ShellBus (list KernelMsg) := {
  request m w := (w ++ [m], Some (demo_answer m));
  post m w := w ++ [m] }.
Definition no_terminal (n : list N) (a : list (list N)) : result unit unit := Ok tt.

Lemma relative_path_resolves_witness :
  resolve_path (Assembler.B "/a/b") (Assembler.B ".././/c/") = Assembler.B "/a/c" /\
  Vfs.components (Assembler.B "/a/c") = [ ##"a"; ##"c"].
Proof.
  assert (Hok : Forall name_ok [ ##"a"; ##"b"]).
  { repeat constructor; try done; apply not_elem_of_cons; (split; [done|apply not_elem_of_nil]). }
  destruct (relative_path_resolves [ ##"a"; ##"b"] (Assembler.B ".././/c/") Hok eq_refl) as (E1 & E2 & _).
  split; [exact E1|]. rewrite E1 in E2. exact E2.
Defined.

Lemma blank_line_ends_shell_witness :
  run_interactive no_terminal ([ ##"fork2"] ++ [32; 9] :: [ ##"fork2"]) (Shell_new, []) =
    run_interactive no_terminal [ ##"fork2"] (Shell_new, []).
Proof. refine (proj1 (blank_line_ends_shell no_terminal [ ##"fork2"] [32; 9] [ ##"fork2"] Shell_new [] _)). by repeat constructor. Defined.

Lemma failed_exec_is_success_witness :
  execute_command no_terminal (with_args ##"run" [ ##"nothing"]) (Shell_new, []) =
    ((Shell_new, [MsgProcess (ProcessRequest.ForkProcess 1); exec_msg 7 ##"nothing" []]), Ok tt).
Proof.
  exact (failed_exec_is_success no_terminal (with_args ##"run" [ ##"nothing"]) ##"nothing" [] Shell_new [] _ _ 7 RespNotFound
    eq_refl eq_refl eq_refl eq_refl).
Defined.

Lemma export_then_unset_witness :
  let '((s1, w1), r1) := execute_line no_terminal (quote_words [ ##"export"; ##"A=1"]) (Shell_new, [] : list KernelMsg) in
  r1 = Ok tt /\ get_env ##"A" (env s1) = Some ##"1".
Proof.
  pose proof (export_then_unset no_terminal ##"A" ##"1" Shell_new ([] : list KernelMsg)
    ltac:(apply not_elem_of_cons; split; [done|apply not_elem_of_nil]) eq_refl eq_refl ltac:(done)) as H.
  change ( ##"A" ++ 61 :: ##"1") with ( ##"A=1") in H.
  destruct (execute_line no_terminal (quote_words [ ##"export"; ##"A=1"]) _) as [[s1 w1] r1].
  destruct (execute_line _ _ (s1, w1)) as [[s2 w2] r2]. destruct (execute_line _ _ (s2, w2)) as [[s3 w3] r3].
  destruct H as (H1 & H2 & _). split; [exact H1|]. rewrite (H2 ##"A"). reflexivity.
Defined.
