(* ===== verification/System.v ===== *)
(** * The system: the services behind one bus (src/src/main.rs)

    What the process service and the shell see through their interfaces
    ([ProcService.Peers], [Shell.ShellBus]) is built here from the models of the
    services themselves.  Each service is a thread with its state; a thread that
    panics or waits for itself is gone and answers no more.  A request is served
    when it is made, as the requester waits for the answer, and gets the first
    answer; while the shell waits for the process service, the timer ticks.  A
    thread also carries what is proved of its state; for the file service that
    is the abstract tree and a bound on what it has been asked to write. *)
From Stdlib Require String.
Import (notations) String.
From S2P Require Import Prelude Types Messages.
From S2P Require Text PhysMem Mmu FrameAlloc Disk Swap MemService Vfs Files FileService FileInv FileRestart Devices DeviceService Assembler Sched Pcb Cpu ProcService ProcLoop ProcInv UserMem Shell.

Section System.
Context {O : Type} {OPS : Devices.DeviceOperations O}.

(** ** Threads *)

Record MemThread := {
  mem_state : MemService.MemoryService; mem_alive : bool; mem_ok : MemService.service_inv mem_state }.
Definition file_safe (st : FileService.FileService) (alive : bool) (tree : Vfs.Tree) (cost : N) : Prop :=
  cost < 2 ^ 62 -> alive = true /\ FileInv.service_inv (2 ^ 41 + cost) tree st.
Record FileThread := {
  file_state : FileService.FileService; file_alive : bool; file_tree : Vfs.Tree; file_cost : N;
  file_ok : file_safe file_state file_alive file_tree file_cost }.
Record DevThread := { dev_state : DeviceService.DeviceService O; dev_alive : bool }.

(** *** Memory service *)

Lemma mem_turn_ok er req s st rs r : MemService.service_inv s ->
  MemService.handle_envelope true er req (s, []) = Done (st, rs, r) -> MemService.service_inv st.
Proof. intros Hs E. pose proof (MemService.envelope_answered er req s [] Hs) as H. rewrite E in H. apply H. Qed.
Definition mem_dead (t : MemThread) : MemThread := {| mem_state := mem_state t; mem_alive := false; mem_ok := mem_ok t |}.
(** what the thread is after its handler, which ended with [o] *)
Definition mem_after (er : bool) (req : MemoryRequest) (t : MemThread) o
    : MemService.handle_envelope true er req (mem_state t, []) = o -> MemThread * list Response :=
  match o with
  | Done (st, rs, r) => fun E =>
      ({| mem_state := st; mem_alive := true; mem_ok := mem_turn_ok er req _ st rs r (mem_ok t) E |}, rs)
  | _ => fun _ => (mem_dead t, [])
  end.
(** one message, with the answers it gets *)
Definition mem_turn (er : bool) (req : MemoryRequest) (t : MemThread) : MemThread * list Response :=
  if mem_alive t then mem_after er req t _ eq_refl else (t, []).
Lemma mem_turn_done er req t st rs r :
  mem_alive t = true -> MemService.handle_envelope true er req (mem_state t, []) = Done (st, rs, r) ->
  exists t', mem_turn er req t = (t', rs) /\ mem_state t' = st /\ mem_alive t' = true.
Proof.
  intros Ha Hd. unfold mem_turn. rewrite Ha.
  assert (H : forall o E, o = Done (st, rs, r) -> exists t', mem_after er req t o E = (t', rs) /\ mem_state t' = st /\ mem_alive t' = true).
  { intros o E ->. by eexists. }
  by apply H.
Qed.
(** the memory service and the CPUs share the MMU *)
Definition mem_set_mmu (u : Mmu.MMU) (t : MemThread) : MemThread :=
  {| mem_state := MemService.set_mmu u (mem_state t); mem_alive := mem_alive t; mem_ok := mem_ok t |}.

(** *** File service *)

Definition fresh (st : FileService.FileService) : FileService.FileService := FileService.set_answers [] st.
Lemma file_turn_ok er req t st r :
  FileService.handle_envelope true er req (fresh (file_state t)) = Done (st, r) ->
  file_safe st true (fst (FileInv.tree_request req (file_tree t))) (file_cost t + FileInv.cost req).
Proof.
  intros E Hc. split; [done|]. destruct (file_ok t ltac:(lia)) as [_ Hi].
  pose proof (FileInv.envelope_spec er req (file_tree t) (2 ^ 41 + file_cost t) (fresh (file_state t)) Hi ltac:(lia)) as H.
  rewrite E in H. cbn in H. destruct H as [H _]. by rewrite N.add_assoc.
Qed.
Lemma file_turn_dead er req t o :
  FileService.handle_envelope true er req (fresh (file_state t)) = o -> match o with Done _ => False | _ => True end ->
  file_safe (file_state t) false (file_tree t) (file_cost t + FileInv.cost req).
Proof.
  intros <- E Hc. exfalso. destruct (file_ok t ltac:(lia)) as [_ Hi].
  pose proof (FileInv.envelope_spec er req (file_tree t) (2 ^ 41 + file_cost t) (fresh (file_state t)) Hi ltac:(lia)) as H.
  by destruct (FileService.handle_envelope _ _ _ _).
Qed.
Lemma file_keeps_dead t n : file_alive t = false -> file_safe (file_state t) false (file_tree t) (file_cost t + n).
Proof. intros Ha Hc. destruct (file_ok t ltac:(lia)) as [H _]. congruence. Qed.

Definition file_turn (er : bool) (req : FileRequest.t) (t : FileThread) : FileThread * list Response :=
  if file_alive t then
    match FileService.handle_envelope true er req (fresh (file_state t)) as o
      return FileService.handle_envelope true er req (fresh (file_state t)) = o -> FileThread * list Response with
    | Done (st, r) => fun E =>
        ({| file_state := st; file_alive := true; file_tree := fst (FileInv.tree_request req (file_tree t));
            file_cost := file_cost t + FileInv.cost req; file_ok := file_turn_ok er req t st r E |}, FileService.answers st)
    | Panicked => fun E =>
        ({| file_state := file_state t; file_alive := false; file_tree := file_tree t; file_cost := file_cost t + FileInv.cost req;
            file_ok := file_turn_dead er req t _ E I |}, [])
    | Deadlocked => fun E =>
        ({| file_state := file_state t; file_alive := false; file_tree := file_tree t; file_cost := file_cost t + FileInv.cost req;
            file_ok := file_turn_dead er req t _ E I |}, [])
    end eq_refl
  else (t, []).

(** a thread within its budget serves its message, and its tree follows *)
Lemma file_turn_done er req t :
  file_alive t = true -> file_cost t + FileInv.cost req < 2 ^ 62 ->
  exists t' rs, file_turn er req t = (t', rs) /\ file_alive t' = true /\
    file_cost t' = file_cost t + FileInv.cost req /\ file_tree t' = fst (FileInv.tree_request req (file_tree t)).
Proof.
  intros Ha Hc. unfold file_turn. rewrite Ha.
  pose proof (FileInv.envelope_spec er req (file_tree t) (2 ^ 41 + file_cost t) (fresh (file_state t))) as H.
  destruct (file_ok t ltac:(lia)) as [_ Hi]. specialize (H Hi ltac:(lia)). revert H.
  generalize (file_turn_ok er req t) as ok1. generalize (file_turn_dead er req t) as ok2.
  unfold FileInv.leads. destruct (FileService.handle_envelope true er req (fresh (file_state t))) as [[st r]| |]; intros ok2 ok1 H; [|done..].
  by eexists _, _.
Qed.

(** *** Device service *)

Definition dev_turn (er : bool) (req : DeviceRequest.t) (t : DevThread) : DevThread * list Response :=
  if dev_alive t then
    match DeviceService.handle_envelope true er (MsgDevice req) (DeviceService.set_answers [] (dev_state t)) with
    | Done (st, _) => ({| dev_state := st; dev_alive := true |}, DeviceService.answers st)
    | _ => ({| dev_state := dev_state t; dev_alive := false |}, [])
    end
  else (t, []).

(** ** The world of the process service *)

Record World := { memory : MemThread; files : FileThread; devs : DevThread; host : list N -> option (list N) }.
Definition set_memory x (w : World) : World := {| memory := x; files := files w; devs := devs w; host := host w |}.
Definition set_files x (w : World) : World := {| memory := memory w; files := x; devs := devs w; host := host w |}.
Definition set_devs x (w : World) : World := {| memory := memory w; files := files w; devs := x; host := host w |}.

(** the kernel hands memory and file messages to their services, the device service
    listens to the bus; nobody else answers *)
Definition turn (er : bool) (m : KernelMsg) (w : World) : World * list Response :=
  match m with
  | MsgMemory r => let '(t, rs) := mem_turn er r (memory w) in (set_memory t w, rs)
  | MsgFile r => let '(t, rs) := file_turn er r (files w) in (set_files t w, rs)
  | MsgDevice r => let '(t, rs) := dev_turn er r (devs w) in (set_devs t w, rs)
  | _ => (w, [])
  end.
Definition first_reply (rs : list Response) : ProcService.Reply :=
  match rs with r :: _ => ProcService.Replied r | [] => ProcService.TimedOut end.

#[export] Instance world_peers : ProcService.Peers World := {
  shared_mmu w := MemService.mmu (mem_state (memory w));
  set_shared_mmu u w := set_memory (mem_set_mmu u (memory w)) w;
  bus_request m w := let '(w, rs) := turn true m w in (w, first_reply rs);
  bus_send m w := fst (turn false m w);
  host_file p w := host w p }.

(** ** main.rs: the machine and the services, in the order they are started *)

Definition memory_size : N := 4 * 1024 * 1024.
(** the memory, the MMU on it, and the memory service *)
Definition new_memory (sz : N) (image : list N) : outcome MemService.MemoryService :=
  hw ← PhysMem.new sz;
  u ← Mmu.new hw 4096;
  MemService.new hw u image.
Lemma phys_new_size sz hw : PhysMem.new sz = Done hw -> PhysMem.size hw = sz.
Proof. unfold PhysMem.new. destruct (sz =? 0); [done|]. by intros [= <-]. Qed.
Lemma mem_new_ok sz image s : sz < 2 ^ 64 -> new_memory sz image = Done s -> MemService.service_inv s.
Proof.
  unfold new_memory. intros Hms.
  destruct (PhysMem.new sz) as [hw| |] eqn:Eh; [|done..]. cbn [mbind outcome_bind].
  assert (Hsz : PhysMem.size hw < 2 ^ 64) by (by rewrite (phys_new_size _ _ Eh)). clear Eh.
  destruct (Mmu.new hw 4096) as [u| |]; [|done..]. cbn [mbind outcome_bind]. unfold MemService.new.
  destruct (FrameAlloc.pmm_new _ 4096) as [mm| |] eqn:Em; [|done..]. cbn [mbind outcome_bind].
  destruct (Disk.new 256 image) as [d| |]; [|done..]. cbn [mbind outcome_bind].
  destruct (Swap.new _ d) as [sw| |] eqn:Es; [|done..]. intros [= <-]. split; [|by apply (Swap.swap_new_wf Swap.SwapConfig_default d sw eq_refl Es)].
  by apply (FrameAlloc.pmm_new_wf _ _ _ Hsz Em).
Qed.
Lemma memory_ok image s : new_memory memory_size image = Done s -> MemService.service_inv s.
Proof. by apply mem_new_ok. Qed.
Definition start_memory (image : list N) : outcome MemThread :=
  match new_memory memory_size image as o return new_memory memory_size image = o -> outcome MemThread with
  | Done s => fun E => Done {| mem_state := s; mem_alive := true; mem_ok := memory_ok image s E |}
  | Panicked => fun _ => Panicked
  | Deadlocked => fun _ => Deadlocked
  end eq_refl.
(** the disk, and the files of the host that are imported before the first request *)
Definition disk_size : N := 1024 * 1024.
(** [prev]: the file service that served before, which has left its tree *)
Definition saved_vfs (prev : option FileThread) : option Vfs.VirtualFileSystem :=
  (fun t => Vfs.restore (Vfs.saved_nodes (FileService.vfs (file_state t)))) <$> prev.
Definition new_files (prev : option FileThread) (image : list N) (programs : list (str * list N)) : outcome FileService.FileService :=
  s ← FileService.new (saved_vfs prev) 256 disk_size image;
  FileService.import_host_files (Assembler.B "/programs") programs s.
Definition started_tree (prev : option FileThread) (programs : list (str * list N)) : Vfs.Tree :=
  FileInv.tree_imports (Assembler.B "/programs") programs (FileRestart.start_tree (file_tree <$> prev)).
Definition started_cost (prev : option FileThread) (programs : list (str * list N)) : N :=
  match prev with Some t => file_cost t | None => 0 end + FileInv.import_cost programs.
Lemma file_service_new saved image : exists s, FileService.new saved 256 disk_size image = Done s.
Proof.
  unfold FileService.new. destruct (Disk.disk_new_done (to_u32 (disk_size / 512)) image) as [d ->]; [done|]. cbn [mbind outcome_bind]. by eexists.
Qed.
Lemma new_files_spec prev image programs : started_cost prev programs < 2 ^ 62 ->
  exists s, new_files prev image programs = Done s /\
    FileInv.service_inv (2 ^ 41 + started_cost prev programs) (started_tree prev programs) s.
Proof.
  unfold started_cost, started_tree, new_files. intros Hc. destruct (file_service_new (saved_vfs prev) image) as [s E].
  set (B := 2 ^ 41 + match prev with Some t => file_cost t | None => 0 end).
  assert (Hi : FileInv.service_inv B (FileRestart.start_tree (file_tree <$> prev)) s).
  { subst B. destruct prev as [t|].
    - destruct (file_ok t ltac:(lia)) as [_ ((Hw & Ha & Hn & _ & Ho) & _)].
      by destruct (FileRestart.new_restored _ _ _ 256 disk_size image s Hw Ho Ha Hn ltac:(lia) E).
    - rewrite N.add_0_r. exact (proj1 (FileInv.new_inv _ _ _ _ E)). }
  rewrite E. cbn [mbind outcome_bind].
  destruct (FileInv.import_host_files_spec (Assembler.B "/programs") programs _ _ _ Hi ltac:(subst B; lia)) as (s' & -> & Hi' & _).
  exists s'. split; [done|]. by rewrite N.add_assoc.
Qed.
Lemma new_files_ok prev image programs s : new_files prev image programs = Done s ->
  file_safe s true (started_tree prev programs) (started_cost prev programs).
Proof. intros E Hc. split; [done|]. destruct (new_files_spec prev image programs Hc) as (s' & E' & Hi). congruence. Qed.
Lemma new_files_dead prev image programs s o : new_files prev image programs = o -> match o with Done _ => False | _ => True end ->
  file_safe s false (started_tree prev programs) (started_cost prev programs).
Proof. intros <- E Hc. destruct (new_files_spec prev image programs Hc) as (s' & E' & Hi). by rewrite E' in E. Qed.
(** the thread of the file service before its first request; a panic would end it *)
Definition start_files (prev : option FileThread) (image : list N) (programs : list (str * list N)) : outcome FileThread :=
  s0 ← FileService.new (saved_vfs prev) 256 disk_size image;
  let dead s0 ok := {| file_state := s0; file_alive := false; file_tree := started_tree prev programs;
                       file_cost := started_cost prev programs; file_ok := ok |} in
  Done
    (match new_files prev image programs as o return new_files prev image programs = o -> FileThread with
     | Done s => fun E => {| file_state := s; file_alive := true; file_tree := started_tree prev programs;
                             file_cost := started_cost prev programs; file_ok := new_files_ok prev image programs s E |}
     | Panicked => fun E => dead s0 (new_files_dead prev image programs s0 _ E I)
     | Deadlocked => fun E => dead s0 (new_files_dead prev image programs s0 _ E I)
     end eq_refl).
(** the start, on the tree that an earlier system left if there was one; the images
    of the two disks and the files of the host are what they are *)
Definition boot (prev : option FileThread) (swap_image disk_image : list N) (programs : list (str * list N)) (h : list N -> option (list N)) : outcome World :=
  m ← start_memory swap_image;
  f ← start_files prev disk_image programs;
  Done {| memory := m; files := f; devs := {| dev_state := DeviceService.new; dev_alive := true |}; host := h |}.

(** the start needs nothing of the disks: no image stops it *)
Lemma new_memory_done sz image : (sz =? 0) = false -> exists s, new_memory sz image = Done s.
Proof.
  unfold new_memory. intros Hms.
  unfold PhysMem.new. rewrite Hms. cbn [mbind outcome_bind]. unfold Mmu.new. change (4096 =? 2 ^ N.log2 4096) with true.
  cbn [mbind outcome_bind]. unfold MemService.new, FrameAlloc.pmm_new, FrameAlloc.new. change (4096 =? 0) with false. cbv zeta. cbn [mbind outcome_bind].
  destruct (Disk.disk_new_done 256 image) as [d ->]; [done|]. cbn [mbind outcome_bind]. by eexists.
Qed.
Lemma boot_done prev swap_image disk_image programs h : exists w, boot prev swap_image disk_image programs h = Done w.
Proof.
  assert (Hm : exists m, start_memory swap_image = Done m).
  { unfold start_memory. destruct (new_memory_done memory_size swap_image eq_refl) as [s E]. generalize (memory_ok swap_image).
    rewrite E. intros P. by eexists. }
  destruct Hm as [m Hm]. unfold boot, start_files. rewrite Hm. destruct (file_service_new (saved_vfs prev) disk_image) as [s0 E]. rewrite E.
  cbn [mbind outcome_bind]. by eexists.
Qed.

(** ** Frames across the services *)

Notation allocator_of w := (FrameAlloc.allocator (MemService.memory_manager (mem_state (memory w)))).
Definition owner_of (w : World) (n : N) : option Pid :=
  FrameAlloc.frames (allocator_of w) !! N.to_nat n ≫= FrameAlloc.owner.

(** two frames from the head of the queue *)
Lemma allocate_two m pid n1 n2 q :
  FrameAlloc.wf (FrameAlloc.allocator m) -> FrameAlloc.free_queue (FrameAlloc.allocator m) = n1 :: n2 :: q ->
  exists m' f1 f2, FrameAlloc.allocate_frames m pid 2 = Done (m', [f1; f2]) /\
    FrameAlloc.address f1 = n1 * FrameAlloc.frame_size (FrameAlloc.allocator m) /\
    FrameAlloc.owner f1 = Some pid /\ FrameAlloc.owner f2 = Some pid /\ n1 <> n2 /\
    (N.to_nat n1 < length (FrameAlloc.frames (FrameAlloc.allocator m)))%nat /\
    (N.to_nat n2 < length (FrameAlloc.frames (FrameAlloc.allocator m)))%nat /\
    FrameAlloc.frames (FrameAlloc.allocator m') =
      <[N.to_nat n2 := f2]> (<[N.to_nat n1 := f1]> (FrameAlloc.frames (FrameAlloc.allocator m))).
Proof.
  intros Hw Hq. destruct (FrameAlloc.allocate_cons _ pid n1 _ Hw Hq) as (f1 & a1 & H1 & Hal1 & _ & E1 & Hw1 & Hf1 & Hq1 & _ & Hn1 & _).
  destruct (FrameAlloc.allocate_cons _ pid n2 q Hw1 Hq1) as (f2 & a2 & H2 & Hal2 & _ & E2 & Hw2 & Hf2 & _ & _ & Hn2 & _).
  assert (Hne : n1 <> n2).
  { intros ->. rewrite Hf1, list_lookup_insert_eq in H2 by (apply lookup_lt_Some in H1; done). injection H2 as <-. done. }
  unfold FrameAlloc.allocate_frames. change (N.to_nat 2) with 2%nat. cbn [FrameAlloc.allocate_frames_loop].
  rewrite E1. cbn [mbind outcome_bind FrameAlloc.allocator]. rewrite E2. cbn [mbind outcome_bind app].
  eexists _, _, _. split; [done|]. destruct Hw as (_ & _ & Hfw & _). destruct (Hfw _ _ H1) as (_ & Ha & _).
  rewrite N2Nat.id in Ha. cbn. split; [done|]. split; [done|]. split; [done|]. split; [done|].
  split; [by eapply lookup_lt_Some|]. split; [|by rewrite Hf2, Hf1].
  apply lookup_lt_Some in H2. by rewrite Hf1, length_insert in H2.
Qed.

(** Property: the process service takes the frames it is given to be consecutive, which
    nobody promises: asked for two, the memory service hands out the first two of
    its queue and tells only where the first is, and the process service goes on
    with that page and the one after it.  If the second frame is another, the
    page after the first is mapped although it was not given out, whoever owns
    it. *)
Theorem second_frame_is_guessed s pid n1 n2 q :
  mem_alive (memory (ProcService.world s)) = true ->
  FrameAlloc.free_queue (allocator_of (ProcService.world s)) = n1 :: n2 :: q ->
  let a := n1 * FrameAlloc.frame_size (allocator_of (ProcService.world s)) in
  exists s', ProcService.alloc_frames 2 pid s = Done (s', Ok [wadd64 a 0; wadd64 a 4096]) /\
    owner_of (ProcService.world s') n1 = Some pid /\ owner_of (ProcService.world s') n2 = Some pid /\
    (forall k, k <> n1 -> k <> n2 -> owner_of (ProcService.world s') k = owner_of (ProcService.world s) k).
Proof.
  intros Halive Hq a. destruct s as [tb np ipc sy sc pc cp pf wp lr cc w an]. cbn [ProcService.world] in *.
  destruct (allocate_two _ pid n1 n2 q (proj1 (mem_ok (memory w))) Hq) as (m' & f1 & f2 & E & Hadr & Ho1 & Ho2 & Hne & Hl1 & Hl2 & Hf).
  assert (Hturn : MemService.handle_envelope true true (AllocFrame 2 pid) (mem_state (memory w), []) =
            Done (MemService.set_manager m' (mem_state (memory w)), [Ok (PhysicalAddr (FrameAlloc.address f1))], Ok tt)).
  { unfold MemService.handle_envelope. cbn [MemService.handle_memory_request_with_response].
    unfold MemService.handle_alloc_frame_with_response. rewrite HM_bind_eq, (MemService.allocate_frames_eq _ _ _ _ m' [f1; f2] E).
    done. }
  destruct (mem_turn_done true (AllocFrame 2 pid) (memory w) _ _ _ Halive Hturn) as (t' & Ht & Hst & _).
  exists (ProcService.set_world (set_memory t' w) (ProcService.Build_ProcessService tb np ipc sy sc pc cp pf wp lr cc w an)).
  split.
  { unfold ProcService.alloc_frames. rewrite HM_bind_eq. unfold ProcService.request. cbn [ProcService.bus_request world_peers ProcService.world turn].
    rewrite Ht. unfold a. rewrite <- Hadr. done. }
  assert (Hown : forall k, owner_of (ProcService.world (ProcService.set_world (set_memory t' w)
            (ProcService.Build_ProcessService tb np ipc sy sc pc cp pf wp lr cc w an))) k =
          (<[N.to_nat n2 := f2]> (<[N.to_nat n1 := f1]> (FrameAlloc.frames (allocator_of w))) !! N.to_nat k) ≫= FrameAlloc.owner).
  { intros k. unfold owner_of. cbn. by rewrite Hst, <- Hf. }
  assert (Hnat : N.to_nat n2 <> N.to_nat n1) by lia. split; [|split].
  - rewrite Hown, list_lookup_insert_ne, list_lookup_insert_eq by done. done.
  - rewrite Hown, list_lookup_insert_eq by (by rewrite length_insert). done.
  - intros k H1 H2. rewrite Hown, !list_lookup_insert_ne by lia. done.
Qed.

(** ** System calls on names *)

Definition abstract_tree (w : World) (t : Vfs.Tree) : Prop :=
  file_alive (files w) = true /\ Vfs.abstracts (FileService.vfs (file_state (files w))) t.

(** the system calls that send the path in the memory of the process *)
Definition path_call (r0 : N) : option (list N -> FileRequest.t) :=
  if r0 =? 14 then Some FileRequest.CreateDirectory else if r0 =? 16 then Some FileRequest.Unlink
  else if r0 =? 17 then Some FileRequest.Stat else None.

Lemma path_call_runs depth me pid r0 r1 r2 mk s : path_call r0 = Some mk ->
  ProcLoop.handle_file_syscall depth me pid r0 r1 r2 s =
    Done (ProcService.set_world (turn false (MsgFile (mk (ProcService.read_string_virt (ProcService.mmu s) pid 0x100))) (ProcService.world s)).1 s, Ok tt).
Proof.
  unfold path_call. intros H.
  assert (E : r0 = 14 \/ r0 = 16 \/ r0 = 17).
  { destruct (N.eqb_spec r0 14); [by left|]. destruct (N.eqb_spec r0 16); [by right; left|]. destruct (N.eqb_spec r0 17); [by right; right|done]. }
  by destruct E as [-> | [-> | ->]]; injection H as <-.
Qed.

Lemma path_call_acts depth me pid r0 r1 r2 mk s path t :
  path_call r0 = Some mk -> ProcService.read_string_virt (ProcService.mmu s) pid 0x100 = path ->
  abstract_tree (ProcService.world s) t -> file_cost (files (ProcService.world s)) + 1 < 2 ^ 62 ->
  exists fs, ProcLoop.handle_file_syscall depth me pid r0 r1 r2 s =
      Done (ProcService.set_world (set_files fs (ProcService.world s)) s, Ok tt) /\
    abstract_tree (set_files fs (ProcService.world s)) (fst (FileInv.tree_request (mk path) t)).
Proof.
  intros Hc Hp [Ha Ht] Hb. rewrite (path_call_runs _ _ _ _ _ _ mk) by done. rewrite Hp.
  assert (Hcost : FileInv.cost (mk path) <= 1).
  { unfold path_call in Hc. repeat (case_match; [by injection Hc as <-|]). done. }
  destruct (file_turn_done false (mk path) (files (ProcService.world s)) Ha ltac:(lia)) as (fs & rs & E & Ha' & Hc' & Ht').
  exists fs. cbn [turn]. rewrite E. cbn [fst]. split; [done|]. split; [exact Ha'|].
  destruct (file_ok fs ltac:(lia)) as [_ Hi]. destruct (file_ok (files (ProcService.world s)) ltac:(lia)) as [_ Hi0].
  assert (Heq : file_tree (files (ProcService.world s)) = t).
  { apply map_eq. intros cs. rewrite <- Ht. symmetry. apply Hi0. }
  rewrite <- Heq, <- Ht'. apply Hi.
Qed.

(** Property: from the command line to the disk.  A process was started with a path as its
    first argument, in a page that held zeros after it; when it makes the system
    call to create a directory, to remove a file or to look at one, the file
    service does that with this very path: its tree becomes the one that the
    request makes of it. *)
Theorem path_argument_acts depth pid f path more r0 r1 r2 mk s t :
  path_call r0 = Some mk ->
  UserMem.first_page (ProcService.mmu s) pid f -> UserMem.args_fit (path :: more) -> 0 ∉ path -> Text.utf8 path ->
  ProcService.until_zero (ProcService.read_bytes_virt (ProcService.mmu s) pid (256 + len path) (256 - len path)) = [] ->
  abstract_tree (ProcService.world s) t -> file_cost (files (ProcService.world s)) + 1 < 2 ^ 62 ->
  let s1 := ProcService.set_mmu (ProcService.write_args (ProcService.mmu s) pid (path :: more)) s in
  exists fs, ProcLoop.handle_file_syscall depth pid pid r0 r1 r2 s1 =
      Done (ProcService.set_world (set_files fs (ProcService.world s1)) s1, Ok tt) /\
    abstract_tree (set_files fs (ProcService.world s1)) (fst (FileInv.tree_request (mk path) t)).
Proof.
  intros Hc Hu Hf H0 Hut Hz Ht Hb s1. apply (path_call_acts depth pid pid r0 r1 r2 mk s1 path t); [done| |exact Ht|exact Hb].
  by apply (UserMem.argument_read_back pid f).
Qed.

(** ** What the shell talks to *)

(** The process service, whether its thread is still there, the requests made so
    far, and how many events the service was given. *)
Record Desk := { proc : ProcService.ProcessService World; life : outcome unit; asked : N; given : N }.
Definition set_proc x (d : Desk) : Desk := {| proc := x; life := life d; asked := asked d; given := given d |}.
Definition next_request (d : Desk) : Desk := {| proc := proc d; life := life d; asked := asked d + 1; given := given d |}.

Section Desk.
(** [pause n]: the ticks of the timer between request [n - 1] and request [n] *)
Context (depth : nat) (pause : N -> nat).
Definition everybody (_ : N) : bool := true.

Definition give (e : ProcLoop.Event) (d : Desk) : Desk :=
  match life d with
  | Done _ =>
      match ProcLoop.handle_event everybody depth e (proc d) with
      | Done (s, _) => {| proc := s; life := Done tt; asked := asked d; given := given d + 1 |}
      | Panicked => {| proc := proc d; life := Panicked; asked := asked d; given := given d + 1 |}
      | Deadlocked => {| proc := proc d; life := Deadlocked; asked := asked d; given := given d + 1 |}
      end
  | _ => d
  end.
Fixpoint ticks (n : nat) (d : Desk) : Desk :=
  match n with 0%nat => d | S n => ticks n (give ProcLoop.Tick d) end.

Definition answer_on (ch : N) (d : Desk) : option Response :=
  snd <$> (snd <$> list_find (fun a => fst a = ch) (ProcService.answers (proc d))).
(** [recv_timeout]: ticks pass until the answer is there *)
Fixpoint await (n : nat) (ch : N) (d : Desk) : Desk * option Response :=
  match answer_on ch d with
  | Some r => (d, Some r)
  | None => match n with 0%nat => (d, None) | S n => await n ch (give ProcLoop.Tick d) end
  end.
(** three seconds *)
Definition patience : nat := 300.

Definition for_process_service (m : KernelMsg) : bool :=
  match m with MsgProcess _ | MsgSyscall _ | MsgInterrupt _ => true | _ => false end.
Definition others (er : bool) (m : KernelMsg) (d : Desk) : Desk * list Response :=
  let '(w, rs) := turn er m (ProcService.world (proc d)) in (set_proc (ProcService.set_world w (proc d)) d, rs).
Definition desk_request (m : KernelMsg) (d : Desk) : Desk * option Response :=
  let ch := asked d in
  let d := next_request (ticks (pause ch) d) in
  if for_process_service m then await patience ch (give (ProcLoop.Message (Some ch) m) d)
  else let '(d, rs) := others true m d in (d, head rs).
Definition desk_post (m : KernelMsg) (d : Desk) : Desk :=
  let d := next_request (ticks (pause (asked d)) d) in
  if for_process_service m then give (ProcLoop.Message None m) d else fst (others false m d).
#[export] Instance desk_bus : Shell.ShellBus Desk := { Shell.request := desk_request; Shell.post := desk_post }.

Definition start (w : World) : outcome Desk :=
  '(s, _) ← ProcLoop.run everybody depth w [];
  Done {| proc := s; life := Done tt; asked := 0; given := 0 |}.
(** main: start, then whatever is typed; [prev] is the file service of an earlier
    session *)
Definition session (prev : option FileThread) (swap_image disk_image : list N) (programs : list (str * list N)) (h : list N -> option (list N))
    (terminal : list N -> list (list N) -> result unit unit) (lines : list (list N)) : outcome (Shell.Shell * Desk) :=
  w ← boot prev swap_image disk_image programs h;
  d ← start w;
  Done (Shell.run_interactive terminal lines (Shell.Shell_new, d)).

(** *** What holds at the desk *)

Definition desk_inv (d : Desk) : Prop :=
  6 * given d + 2 < 2 ^ 64 ->
  life d <> Panicked /\ ProcInv.service_wf (proc d) /\ ProcService.next_pid (proc d) <= 2 + 6 * given d.

Lemma give_inv e d : desk_inv d -> desk_inv (give e d).
Proof.
  intros Hd. unfold give. destruct (life d) eqn:El; [|exact Hd..].
  pose proof (ProcInv.ok_handle_event everybody depth e (proc d)) as H.
  destruct (ProcLoop.handle_event everybody depth e (proc d)) as [[s r]| |];
    intros Hb; cbn in *; (destruct (Hd ltac:(lia)) as (_ & Hw & Hn)); specialize (H Hw ltac:(lia)); [|done|split; [done|split; [done|lia]]].
  destruct H as [Hw' Hn']. split; [done|]. split; [done|lia].
Qed.
Lemma ticks_inv n d : desk_inv d -> desk_inv (ticks n d).
Proof. revert d. induction n as [|n IH]; intros d Hd; [done|]. by apply IH, give_inv. Qed.
Lemma await_inv n ch d : desk_inv d -> desk_inv (await n ch d).1.
Proof.
  revert d. induction n as [|n IH]; intros d Hd; cbn; destruct (answer_on ch d); try done. by apply IH, give_inv.
Qed.
Lemma others_inv er m d : desk_inv d -> desk_inv (others er m d).1.
Proof. intros Hd. unfold others. destruct (turn _ _ _) as [w rs]. exact Hd. Qed.
Lemma waited_inv n d : desk_inv d -> desk_inv (next_request (ticks n d)).
Proof. intros Hd. exact (ticks_inv n d Hd). Qed.
Lemma desk_request_inv m d : desk_inv d -> desk_inv (desk_request m d).1.
Proof.
  intros Hd. unfold desk_request. apply (waited_inv (pause (asked d))) in Hd. destruct (for_process_service m).
  - by apply await_inv, give_inv.
  - apply (others_inv true m) in Hd. by destruct (others _ _ _).
Qed.
Lemma desk_post_inv m d : desk_inv d -> desk_inv (desk_post m d).
Proof.
  intros Hd. unfold desk_post. apply (waited_inv (pause (asked d))) in Hd.
  destruct (for_process_service m); [by apply give_inv|by apply others_inv].
Qed.
Lemma start_inv w d : start w = Done d -> desk_inv d.
Proof.
  unfold start. rewrite ProcInv.run_booted. cbn. intros [= <-] _. split; [done|]. split; [apply ProcInv.booted_wf|]. cbn. lia.
Qed.

(** C2: the whole system is safe.  Whatever is on the disks and the host, whatever is
    typed at the shell, however the timer ticks in between and whatever tree an
    earlier session left, up to some 2^61 events: the process service does not panic, and its table is well formed
    and has init; the memory service keeps its frames and slots consistent; and
    as long as less than 2^62 bytes were asked of the file service, it is alive and its
    paths are those of the abstract tree. *)
Theorem system_is_safe prev swap_image disk_image programs h terminal lines :
  exists s d, session prev swap_image disk_image programs h terminal lines = Done (s, d) /\
  (6 * given d + 2 < 2 ^ 64 ->
   let w := ProcService.world (proc d) in
   life d <> Panicked /\ is_Some (ProcService.process_table (proc d) !! 1) /\
   (forall p x, ProcService.process_table (proc d) !! p = Some x -> Pcb.pid x = p /\ 1 <= p < ProcService.next_pid (proc d)) /\
   MemService.service_inv (mem_state (memory w)) /\
   (file_cost (files w) < 2 ^ 62 ->
      file_alive (files w) = true /\ Vfs.abstracts (FileService.vfs (file_state (files w))) (file_tree (files w)))).
Proof.
  unfold session. destruct (boot_done prev swap_image disk_image programs h) as [w0 ->]. cbn [mbind outcome_bind].
  assert (E : exists d0, start w0 = Done d0) by (unfold start; rewrite ProcInv.run_booted; by eexists).
  destruct E as [d0 E]. pose proof (start_inv w0 d0 E) as Hd0. rewrite E. cbn [mbind outcome_bind].
  pose proof (Shell.shell_keeps terminal desk_inv lines Shell.Shell_new _ (fun d m => desk_request_inv m d)
    (fun d m => desk_post_inv m d) Hd0) as H.
  destruct (Shell.run_interactive _ _ _) as [s d]. exists s, d. split; [done|]. intros Hb. destruct (H Hb) as (Hl & Hw & _).
  cbn [snd] in *. destruct Hw as (_ & [_ Hi] & Ht & _). split; [exact Hl|]. split; [exact Hi|]. split; [intros p x Hx; destruct (Ht p x Hx) as [[? _] ?]; done|]. split; [apply mem_ok|].
  intros Hc. destruct (file_ok _ Hc) as [Ha Hf]. split; [done|]. apply Hf.
Qed.
End Desk.
End System.
Arguments World O : clear implicits.
Arguments Desk O : clear implicits.

(** ** A session *)

#[local] Existing Instance Devices.null_device.
#[local] Notation "## s" := (Assembler.B s) (at level 1, only parsing).
Definition demo_lines : list (list N) :=
  [ ##"mkdir /a"; ##"cd /a"; ##"write f " ++ replicate 300 120 ].
Definition demo_programs : list (list N * list N) := [(##"stop.asm", ##"HALT"); (##"notes.md", ##"HALT")].
Definition demo : outcome (Shell.Shell * Desk unit) :=
  session 5 (fun n => N.to_nat (n mod 3)) None [] [] demo_programs (fun _ => None) (fun _ _ => Ok tt) demo_lines.
(** the size and the content on the disk of a file *)
Definition stored (path : list N) (d : Desk unit) : option N :=
  match Vfs.lookup_path path (FileService.vfs (file_state (files (ProcService.world (proc d))))) with
  | Ok n => Some (Vfs.size n)
  | Err _ => None
  end.
(** what is seen of the session: where the shell is, the sizes of the files, the
    processes and the frames that are left *)
Definition seen (d : Desk unit) :=
  (stored ##"/a/f" d, stored ##"/programs/stop.asm" d, size (ProcService.process_table (proc d)),
   FrameAlloc.free_count (FrameAlloc.allocator (MemService.memory_manager (mem_state (memory (ProcService.world (proc d))))))).
Definition summary (o : outcome (Shell.Shell * Desk unit))
    : option (list N * (option N * option N * nat * N) * N * outcome unit) :=
  match o with Done (s, d) => Some (Shell.cwd s, seen d, given d, life d) | _ => None end.
Lemma summary_given o c x n l s d : summary o = Some (c, x, n, l) -> o = Done (s, d) -> given d = n.
Proof. intros H ->. unfold summary in H. congruence. Qed.
(** The program of the host is there; the directory is made and entered; every process has ended and given its frames
    back.  Of 300 bytes written the file gets 44: the program is given the
    length in one byte. *)
Lemma demo_runs : summary demo = Some (##"/a", (Some 44, Some 4, 1%nat, 1024), 312, Done tt).
Proof. vm_compute. reflexivity. Qed.
(** The next session, with no program on the host, finds the directory of the last. *)
Definition demo_again : outcome (Shell.Shell * Desk unit) :=
  '(_, d) ← demo;
  session 5 (fun n => N.to_nat (n mod 3)) (Some (files (ProcService.world (proc d)))) [] [] [] (fun _ => None) (fun _ _ => Ok tt) [ ##"cd /a" ].
Lemma demo_again_runs : summary demo_again = Some (##"/a", (Some 44, Some 4, 1%nat, 1024), 0, Done tt).
Proof. vm_compute. reflexivity. Qed.

(** A machine with three frames: two are given out and the first of them comes back. *)
Definition small_world : option (World unit) :=
  match new_memory 12288 [] as o return new_memory 12288 [] = o -> option (World unit) with
  | Done m => fun E =>
      match boot None [] [] [] (fun _ => None) with
      | Done w =>
          let t := {| mem_state := m; mem_alive := true; mem_ok := mem_new_ok 12288 [] m eq_refl E |} in
          let t := (mem_turn true (AllocFrame 2 1) t).1 in
          Some (set_memory (mem_turn true (FreeFrame 0) t).1 w)
      | _ => None
      end
  | _ => fun _ => None
  end eq_refl.
Definition queue_of (w : World unit) : bool * N * list N :=
  (mem_alive (memory w), FrameAlloc.frame_size (FrameAlloc.allocator (MemService.memory_manager (mem_state (memory w)))),
   FrameAlloc.free_queue (FrameAlloc.allocator (MemService.memory_manager (mem_state (memory w))))).
Lemma small_queue : queue_of <$> small_world = Some (true, 4096, [2; 0]).
Proof. vm_compute. reflexivity. Qed.
(** the page after the last frame is taken, which is outside the memory *)
Lemma second_frame_is_guessed_witness :
  exists w s', small_world = Some w /\
    ProcService.alloc_frames 2 5 (ProcService.new w) = Done (s', Ok [8192; 12288]) /\
    owner_of (ProcService.world s') 0 = Some 5.
Proof.
  pose proof small_queue as H. destruct small_world as [w|]; [|discriminate H]. cbn [fmap option_fmap option_map] in H.
  unfold queue_of in H. injection H as Ha Hfs Hq.
  destruct (second_frame_is_guessed (ProcService.new w) 5 2 0 [] Ha Hq) as (s' & E & _ & H0 & _).
  exists w, s'. split; [done|]. split; [|exact H0].
  cbn [ProcService.world ProcService.new] in E. rewrite Hfs in E. exact E.
Defined.

(** The same machine, with a page for process 2, makes a directory. *)
Definition mmu_of (w : World unit) : Mmu.MMU := MemService.mmu (mem_state (memory w)).
Definition with_page (w : World unit) : Mmu.MMU := Mmu.map_page (mmu_of w) 2 0 0 Mmu.present_writable.
#[local] Existing Instance Vfs.NodeType_eq_dec.
Definition shape_of (w : World unit) :=
  (file_alive (files w), file_cost (files w), bool_decide (file_tree (files w) = FileInv.standard_tree),
   Mmu.page_size (mmu_of w), PhysMem.size (Mmu.memory (mmu_of w)), len (PhysMem.data (Mmu.memory (mmu_of w))),
   forallb (fun b => b <? 2 ^ 8) (PhysMem.data (Mmu.memory (mmu_of w))), length (map_to_list (Mmu.page_tables (mmu_of w))),
   ProcService.until_zero (ProcService.read_bytes_virt (with_page w) 2 258 254)).
Lemma small_shape : shape_of <$> small_world = Some (true, 0, true, 4096, 12288, 12288, true, 0%nat, []).
Proof. vm_compute. reflexivity. Qed.
Definition small_facts := (true, 0, true, 4096, 12288, 12288, true, 0%nat).
Lemma small_mmu w : fst (shape_of w) = small_facts ->
  Mmu.wf (mmu_of w) /\ Mmu.page_size (mmu_of w) = 4096 /\ PhysMem.size (Mmu.memory (mmu_of w)) = 12288 /\
  Mmu.page_tables (mmu_of w) = ∅ /\ abstract_tree w FileInv.standard_tree /\ file_cost (files w) = 0.
Proof.
  intros H. cbn [fst shape_of] in H. injection H as Ha Hc Htr Hps Hsz Hlen Hb Ht. apply length_zero_iff_nil, map_to_list_empty_iff in Ht.
  split; [|split; [exact Hps|split; [exact Hsz|split; [exact Ht|split; [|exact Hc]]]]].
  - split; [exists 12; by rewrite Hps|]. split.
    + split; [by rewrite Hlen, Hsz|]. split; [by rewrite Hsz|]. rewrite forallb_forall in Hb. apply list.Forall_forall.
      intros b H. apply N.ltb_lt, Hb. by apply list_elem_of_In.
    + intros pid tb v e H. rewrite Ht in H. by rewrite lookup_empty in H.
  - split; [exact Ha|]. apply bool_decide_eq_true in Htr. rewrite <- Htr.
    assert (Hcost : file_cost (files w) < 2 ^ 62) by (rewrite Hc; reflexivity). apply (file_ok (files w) Hcost).
Qed.
Lemma small_page w : fst (shape_of w) = small_facts -> UserMem.first_page (with_page w) 2 0.
Proof. intros H. destruct (small_mmu w H) as (Hw & Hps & Hsz & _). apply UserMem.first_page_mapped; [done..| |done|done]. by rewrite Hsz. Qed.
Lemma path_argument_acts_witness :
  exists w s fs t, small_world = Some w /\
    ProcLoop.handle_file_syscall 5 2 2 14 0 0 s =
      Done (ProcService.set_world (set_files fs (ProcService.world s)) s, Ok tt) /\
    abstract_tree (set_files fs (ProcService.world s)) t /\ t !! [ ##"a" ] = Some Vfs.Directory.
Proof.
  pose proof small_shape as H. destruct small_world as [w|]; [|discriminate H].
  cbn [fmap option_fmap option_map] in H. apply (inj Some) in H. pose proof (f_equal snd H) as Hz. apply (f_equal fst) in H.
  pose proof (small_page w H) as Hpage. destruct (small_mmu w H) as (_ & _ & _ & _ & Ht & Hc). cbn [snd shape_of] in Hz.
  set (s0 := ProcService.set_mmu (with_page w) (ProcService.new w)).
  destruct (path_argument_acts 5 2 0 ##"/a" [] 14 0 0 FileRequest.CreateDirectory s0 FileInv.standard_tree) as (fs & E & Hx).
  - reflexivity.
  - exact Hpage.
  - split; [by repeat constructor|]. split; [by intros p [= <-]|done].
  - apply not_elem_of_cons. split; [done|]. apply not_elem_of_cons. split; [done|]. apply not_elem_of_nil.
  - exists ##"/a". split; [by repeat constructor|reflexivity].
  - exact Hz.
  - exact Ht.
  - change (file_cost (files w) + 1 < 2 ^ 62). rewrite Hc. reflexivity.
  - eexists w, _, fs, _. split; [done|]. split; [exact E|]. split; [exact Hx|]. vm_compute. reflexivity.
Defined.

Lemma system_is_safe_witness :
  exists s d, demo = Done (s, d) /\ 6 * given d + 2 < 2 ^ 64 /\
    is_Some (ProcService.process_table (proc d) !! 1) /\
    MemService.service_inv (mem_state (memory (ProcService.world (proc d)))).
Proof.
  destruct (system_is_safe 5 (fun n => N.to_nat (n mod 3)) None [] [] demo_programs (fun _ => None) (fun _ _ => Ok tt) demo_lines)
    as (s & d & Hs & H).
  exists s, d. split; [exact Hs|]. pose proof (summary_given _ _ _ _ _ s d demo_runs Hs) as Hg.
  assert (Hb : 6 * given d + 2 < 2 ^ 64) by (rewrite Hg; reflexivity).
  destruct (H Hb) as (_ & Hi & _ & Hm & _). split; [exact Hb|]. split; [exact Hi|exact Hm].
Defined.
