(* ===== verification/Monitor.v ===== *)
(** * The process monitor (src/src/ui/monitor.rs)

    What the monitor asks the services and what it draws from the answers: the
    rows of the process table, and the cells of the frame bar.  A text that is
    drawn is a list of characters.  The texts around them and the loop
    are in [MonitorScreen].  [owned as f64 / len as f64 > 0.7] is
    written as [7 * len < 10 * owned]: the two agree for slices shorter than 2^50
    frames, where a quotient that differs from 0.7 differs by more than the
    rounding of the division. *)
From Stdlib Require String.
Import (notations) String.
From S2P Require Import Prelude Types Messages.
From S2P Require Text Assembler FrameAlloc MemService Devices Pcb Reports ProcService ProcLoop ProcInv Shell System.

Notation chars := (list N) (only parsing).
Notation "## s" := (Assembler.B s) (at level 1, only parsing).

Inductive Color :=
  | Green | Cyan | Magenta | Blue | Red | Yellow | LightRed | White | DarkGray.
#[export] Instance Color_eq_dec : EqDecision Color.
Proof. solve_decision. Defined.

Definition pid_color (n : N) : Color :=
  match n mod 8 with
  | 0 => Green | 1 => Cyan | 2 => Magenta | 3 => Blue | 4 => Red | 5 => Yellow | 6 => LightRed | _ => White
  end.

(** ** The snapshot *)

Record Snap := {
  processes : list (list N); proc_count : N;
  total_frames : N; used_frames : N; free_frames : N;
  frame_map : list (N * N); mem_ranges : list (list N);
  disk_total : N; disk_used : N; ticks : N }.
Definition Snap_default : Snap :=
  {| processes := []; proc_count := 0; total_frames := 0; used_frames := 0; free_frames := 0; frame_map := []; mem_ranges := [];
     disk_total := 0; disk_used := 0; ticks := 0 |}.

Definition take_processes (d : ResponseData) (s : Snap) : Snap :=
  match d with
  | StringList ps =>
      {| processes := ps; proc_count := len ps; total_frames := total_frames s; used_frames := used_frames s; free_frames := free_frames s;
         frame_map := frame_map s; mem_ranges := mem_ranges s; disk_total := disk_total s; disk_used := disk_used s; ticks := ticks s |}
  | _ => s
  end.
Definition take_memory (d : ResponseData) (s : Snap) : Snap :=
  match d with
  | MemoryStats t u f =>
      {| processes := processes s; proc_count := proc_count s; total_frames := t; used_frames := u; free_frames := f;
         frame_map := frame_map s; mem_ranges := mem_ranges s; disk_total := disk_total s; disk_used := disk_used s; ticks := ticks s |}
  | _ => s
  end.
Definition take_frames (d : ResponseData) (s : Snap) : Snap :=
  match d with
  | FrameMap m =>
      {| processes := processes s; proc_count := proc_count s; total_frames := total_frames s; used_frames := used_frames s; free_frames := free_frames s;
         frame_map := m; mem_ranges := mem_ranges s; disk_total := disk_total s; disk_used := disk_used s; ticks := ticks s |}
  | _ => s
  end.
Definition take_ranges (d : ResponseData) (s : Snap) : Snap :=
  match d with
  | StringList rs =>
      {| processes := processes s; proc_count := proc_count s; total_frames := total_frames s; used_frames := used_frames s; free_frames := free_frames s;
         frame_map := frame_map s; mem_ranges := rs; disk_total := disk_total s; disk_used := disk_used s; ticks := ticks s |}
  | _ => s
  end.
Definition take_disk (d : ResponseData) (s : Snap) : Snap :=
  match d with
  | DiskStats t u _ =>
      {| processes := processes s; proc_count := proc_count s; total_frames := total_frames s; used_frames := used_frames s; free_frames := free_frames s;
         frame_map := frame_map s; mem_ranges := mem_ranges s; disk_total := t; disk_used := u; ticks := ticks s |}
  | _ => s
  end.
Definition set_ticks (t : N) (s : Snap) : Snap :=
  {| processes := processes s; proc_count := proc_count s; total_frames := total_frames s; used_frames := used_frames s; free_frames := free_frames s;
     frame_map := frame_map s; mem_ranges := mem_ranges s; disk_total := disk_total s; disk_used := disk_used s; ticks := t |}.

(** [resp.data()] of an answer that came in time *)
Definition answered (r : option Response) : option ResponseData := r ≫= data.
Definition queries : list (KernelMsg * (ResponseData -> Snap -> Snap)) :=
  [(MsgProcess ProcessRequest.GetStats, take_processes);
   (MsgMemory GetStats, take_memory);
   (MsgMemory GetFrameMap, take_frames);
   (MsgProcess ProcessRequest.GetMemoryMap, take_ranges);
   (MsgFile FileRequest.DiskInfo, take_disk)].

Section Monitor.
Context {W : Type} `{!Shell.ShellBus W}.

(** the five queries one after the other *)
Definition query (q : KernelMsg * (ResponseData -> Snap -> Snap)) (st : W * Snap) : W * Snap :=
  let '(w, r) := Shell.request q.1 st.1 in
  (w, match answered r with Some d => q.2 d st.2 | None => st.2 end).
Definition collect_snapshot (tick_count : N) (w : W) (s : Snap) : W * Snap :=
  let '(w, s) := foldl (fun st q => query q st) (w, s) queries in (w, set_ticks tick_count s).
End Monitor.

(** ** The process table *)

Definition style_of (st : chars) : option Color :=
  if Assembler.beq st ##"Running" then Some Green
  else if Assembler.beq st ##"Blocked" then Some Yellow
  else if Assembler.beq st ##"Ready" then Some Blue
  else if Assembler.beq st ##"Zombie" then Some Red
  else None.
Record Row := { r_pid : N; r_state : list N; r_name : list N; r_frames : N; r_style : option Color }.
Definition frames_of (m : list (N * N)) (p : N) : N := len (filter (fun e => e.2 = p) m).
Definition process_row (m : list (N * N)) (line : list N) : option Row :=
  match Text.words (Text.decode line) with
  | p :: st :: nm :: _ =>
      let n := default 0 (Assembler.from_str_radix 10 p) in
      Some {| r_pid := n; r_state := st; r_name := nm; r_frames := frames_of m n; r_style := style_of st |}
  | _ => None
  end.
Definition process_rows (s : Snap) : list Row := omap (process_row (frame_map s)) (processes s).

(** ** The frame bar *)

Definition bar_width (width : N) : N := N.max (width - 2) 40.
Definition bar_step (frames width : N) : N := N.max (frames / bar_width width) 1.
(** [while i < len]: the slices of [step] frames; the fuel is the number of frames *)
Fixpoint slices (fuel : nat) (step : N) (m : list (N * N)) : list (list (N * N)) :=
  match fuel, m with
  | S fuel, _ :: _ => take (N.to_nat step) m :: slices fuel step (drop (N.to_nat step) m)
  | _, _ => []
  end.
Definition owned (e : N * N) : bool := 0 <? e.2.
Definition cell_color (slice : list (N * N)) : Color :=
  if 7 * len slice <? 10 * len (List.filter owned slice)
  then pid_color (match List.find owned slice with Some e => e.2 | None => 0 end)
  else DarkGray.
Definition frame_bar (width : N) (m : list (N * N)) : list Color :=
  cell_color <$> slices (length m) (bar_step (len m) width) m.

(** ** What holds of the rows *)

Lemma is_char_ascii s : Forall (fun c => c < 0x80) s -> Forall (fun c => Text.is_char c = true) s.
Proof. intros H. eapply list.Forall_impl; [exact H|]. cbn. intros c Hc. apply Text.is_char_spec. lia. Qed.
Lemma ascii_decimal v : Forall (fun c => c < 0x80) (Text.decimal v).
Proof. eapply list.Forall_impl; [apply Text.decimal_chars|]. cbn. lia. Qed.
Lemma ascii_number z : Forall (fun c => c < 0x80) (Reports.decimal_z z).
Proof. unfold Reports.decimal_z. destruct (z <? 0)%Z; [|apply ascii_decimal]. apply Forall_app. split; [by repeat constructor|apply ascii_decimal]. Qed.
Lemma ascii_blanks n : Forall (fun c => c < 0x80) (replicate n 32).
Proof. by apply Forall_replicate. Qed.
Lemma ascii_state st : Forall (fun c => c < 0x80) (Reports.shown_state st).
Proof.
  destruct st as [| | |[]| |]; cbn [Reports.shown_state Reports.debug_state]; repeat (apply Forall_app; split);
    first [apply ascii_decimal|apply ascii_number|by repeat constructor].
Qed.
Lemma ascii_parent q : Forall (fun c => c < 0x80) (Reports.parent_text q).
Proof. destruct q; [apply ascii_decimal|by repeat constructor]. Qed.
Lemma words_gap s n t : Text.words (s ++ replicate n 32 ++ 32 :: t) = Text.words s ++ Text.words t.
Proof.
  assert (E : replicate n 32 ++ 32 :: t = 32 :: replicate n 32 ++ t) by (clear; induction n as [|n IH]; [done|cbn; by rewrite IH]).
  rewrite E, Text.words_space by done. by rewrite Text.words_pad.
Qed.
Lemma words_decimal v : Text.words (Text.decimal v) = [Text.decimal v].
Proof.
  apply Text.words_token; [apply Text.decimal_nonempty|]. eapply list.Forall_impl; [apply Text.decimal_chars|].
  cbn. intros c Hc. unfold Text.is_space, Text.within. repeat (rewrite orb_false_iff || rewrite andb_false_iff || rewrite N.eqb_neq || rewrite N.leb_gt). lia.
Qed.

Lemma encode_blank s : Text.encode (32 :: s) = ##" " ++ Text.encode s.
Proof. done. Qed.

(** the words of a line: identifier, state, name, parent *)
Lemma stats_line_words p x cs : Pcb.name x = Text.encode cs -> Forall (fun c => Text.is_char c = true) cs ->
  Text.words (Text.decode (Reports.stats_line p x)) =
  Text.decimal p :: Text.words (Reports.shown_state (Pcb.state x)) ++ Text.words cs ++ [Reports.parent_text (Pcb.parent_pid x)].
Proof.
  intros Hn Hcs. unfold Reports.stats_line, Reports.pad_left, Reports.pad_right. rewrite Reports.state_text_shown, Hn.
  set (a := replicate (4 - _) 32). set (b := replicate (12 - _) 32). set (k := (20 - _)%nat). set (d := replicate (4 - _) 32).
  set (st := Reports.shown_state _). set (par := Reports.parent_text _).
  assert (E : (a ++ Text.decimal p) ++ ##" " ++ (b ++ st) ++ ##" " ++ (Text.encode cs ++ replicate k 32) ++ ##" " ++ (d ++ par) =
              Text.encode ((a ++ Text.decimal p) ++ 32 :: (b ++ st) ++ 32 :: cs ++ replicate k 32 ++ 32 :: d ++ par)).
  { rewrite Text.encode_app, (Text.encode_ascii (a ++ _)) by (apply Forall_app; split; [apply ascii_blanks|apply ascii_decimal]). f_equal.
    rewrite encode_blank. f_equal.
    rewrite Text.encode_app, (Text.encode_ascii (b ++ st)) by (apply Forall_app; split; [apply ascii_blanks|apply ascii_state]). f_equal.
    rewrite encode_blank. f_equal. rewrite Text.encode_app, <- app_assoc. f_equal. symmetry. apply Text.encode_ascii.
    apply Forall_app; split; [apply ascii_blanks|]. apply Forall_app; split; [by repeat constructor|].
    apply Forall_app; split; [apply ascii_blanks|apply ascii_parent]. }
  rewrite E, Text.decode_encoded.
  - rewrite Text.words_space by done. rewrite Text.words_space by done. rewrite words_gap. unfold a, b, d. rewrite !Text.words_pad, words_decimal.
    f_equal. f_equal. f_equal. unfold par. destruct (Pcb.parent_pid x); [apply words_decimal|done].
  - apply Forall_app. split; [apply Forall_app; split; apply is_char_ascii; [apply ascii_blanks|apply ascii_decimal]|].
    constructor; [done|]. apply Forall_app. split; [apply Forall_app; split; apply is_char_ascii; [apply ascii_blanks|apply ascii_state]|].
    constructor; [done|]. apply Forall_app. split; [done|]. apply is_char_ascii. apply Forall_app; split; [apply ascii_blanks|].
    constructor; [done|]. apply Forall_app; split; [apply ascii_blanks|apply ascii_parent].
Qed.

(** the state and the name that are shown *)
Definition shown_columns (st : Pcb.ProcessState) (names : list chars) (parent : chars) : list N * list N :=
  match st with
  | Pcb.Blocked (WaitingForIo _) => (##"BlockedWaitingForIo", ##"{")
  | Pcb.Blocked (WaitingForLock _) => (##"BlockedWaitingForLock", ##"{")
  | Pcb.Blocked (Sleeping _) => (##"BlockedSleeping", ##"{")
  | Pcb.Blocked (WaitingForChild _) => (##"BlockedWaitingForChild", ##"{")
  | Pcb.Terminated _ => (##"Terminated", ##"{")
  | st => (Reports.shown_state st, default parent (head names))
  end.
Definition shown_style (st : Pcb.ProcessState) : option Color :=
  match st with Pcb.Running => Some Green | Pcb.Ready => Some Blue | _ => None end.

Lemma number_chars z : Forall (fun c => 45 <= c <= 57) (Reports.decimal_z z).
Proof.
  assert (Hd : forall v, Forall (fun c => 45 <= c <= 57) (Text.decimal v)).
  { intros v. eapply list.Forall_impl; [apply Text.decimal_chars|]. cbn. lia. }
  unfold Reports.decimal_z. destruct (z <? 0)%Z; [|apply Hd]. constructor; [done|apply Hd].
Qed.
Lemma state_columns st names parent : exists rest,
  Text.words (Reports.shown_state st) ++ names ++ [parent] = (shown_columns st names parent).1 :: (shown_columns st names parent).2 :: rest.
Proof.
  assert (Z : forall c, Text.words (Reports.shown_state (Pcb.Zombie c)) = [Reports.shown_state (Pcb.Zombie c)]).
  { intros c. apply Text.words_token; [done|]. cbn [Reports.shown_state]. apply Forall_app. split; [by repeat constructor|].
    apply Forall_app. split; [|by repeat constructor]. eapply list.Forall_impl; [apply number_chars|]. cbn. intros x Hx.
    unfold Text.is_space, Text.within. repeat (rewrite orb_false_iff || rewrite andb_false_iff || rewrite N.eqb_neq || rewrite N.leb_gt). lia. }
  assert (P : forall w, exists rest, [w] ++ names ++ [parent] = w :: default parent (head names) :: rest).
  { intros w. destruct names as [|n ns]; cbn; eexists; reflexivity. }
  destruct st as [| | |[]| |]; cbn [shown_columns fst snd];
    try (eexists; reflexivity); try apply P. rewrite Z. apply P.
Qed.
Lemma style_shown st names parent : style_of (shown_columns st names parent).1 = shown_style st.
Proof. destruct st as [| | |[]| |]; try reflexivity. Qed.

(** Property: what a row of the monitor shows.  For every process of the table whose
    name is a valid text, the row that the monitor reads off the line of the
    process service shows its identifier and the number of its frames; its state
    and name are those of [shown_columns] - the word of the state and the first word of
    the name, or the parent's identifier when the name is blank, but a brace instead of
    the name when the process is blocked on a device, a lock, a child or sleeps - and only
    running and ready processes are coloured. *)
Theorem monitor_row m p x cs :
  p < 2 ^ 64 -> Pcb.name x = Text.encode cs -> Forall (fun c => Text.is_char c = true) cs ->
  let columns := shown_columns (Pcb.state x) (Text.words cs) (Reports.parent_text (Pcb.parent_pid x)) in
  process_row m (Reports.stats_line p x) =
  Some {| r_pid := p; r_state := columns.1; r_name := columns.2; r_frames := frames_of m p; r_style := shown_style (Pcb.state x) |}.
Proof.
  intros Hp Hn Hcs columns. unfold process_row. rewrite (stats_line_words p x cs Hn Hcs).
  destruct (state_columns (Pcb.state x) (Text.words cs) (Reports.parent_text (Pcb.parent_pid x))) as [rest ->].
  rewrite Reports.parse_decimal by done. cbn [default]. by rewrite style_shown.
Qed.

(** ** What holds of the bar *)

Lemma slices_spec fuel step m : (0 < step)%N -> (length m <= fuel)%nat ->
  concat (slices fuel step m) = m /\
  Forall (fun c => c <> [] /\ (len c <= step)%N) (slices fuel step m) /\
  (m <> [] -> ((len (slices fuel step m) - 1) * step < len m)%N) /\ (len m <= len (slices fuel step m) * step)%N.
Proof.
  intros Hs. revert m. induction fuel as [|fuel IH]; intros m Hm; [destruct m; [|cbn in Hm; lia]; by split_and!|].
  destruct m as [|e m]; [by split_and!|]. cbn [slices]. set (l := e :: m) in *.
  assert (Hd : length (drop (N.to_nat step) l) = (length l - N.to_nat step)%nat) by apply length_drop.
  assert (Hl : (0 < length l)%nat) by (unfold l; cbn; lia).
  destruct (IH (drop (N.to_nat step) l)) as (Hc & Hf & Hlt & Hle); [lia|].
  split; [cbn [concat]; rewrite Hc; apply take_drop|]. split; [|split].
  - constructor; [|done]. split; [|rewrite length_take; lia]. intros H%(f_equal length). rewrite length_take in H. cbn [length] in H. lia.
  - intros _. cbn [length]. destruct (drop (N.to_nat step) l) as [|y r] eqn:E.
    + destruct fuel; cbn [slices length]; lia.
    + specialize (Hlt ltac:(done)). cbn [length] in Hd, Hlt. nia.
  - cbn [length]. nia.
Qed.

Lemma short_bar l w s n : 2 <= w -> s = N.max (l / w) 1 -> (n - 1) * s < l -> n < 2 * w.
Proof.
  intros Hw Hs Hlt. destruct (N.lt_ge_cases l (2 * w)) as [Hsmall|Hlarge].
  - assert (l / w < 2) by (apply N.Div0.div_lt_upper_bound; lia). assert (s = 1) as -> by lia. lia.
  - assert (H2 : 2 <= l / w) by (apply N.div_le_lower_bound; lia). rewrite N.max_l in Hs by lia. rewrite <- Hs in H2.
    pose proof (N.div_mod l w ltac:(lia)) as Hdm. pose proof (N.mod_lt l w ltac:(lia)) as Hr. rewrite <- Hs in Hdm.
    set (r := l mod w) in *. clearbody r. clear Hs. apply N.nle_gt. intros Hge.
    assert ((2 * w - 1) * s <= (n - 1) * s) by (apply N.mul_le_mono_r; lia).
    assert (H1 : (2 * w - 1) * s = w * s + (w - 1) * s) by (rewrite <- N.mul_add_distr_r; f_equal; lia).
    assert ((w - 1) * 2 <= (w - 1) * s) by (apply N.mul_le_mono_l; lia). lia.
Qed.
Lemma full_bar l w s n : 0 < w -> s = N.max (l / w) 1 -> w <= l -> l <= n * s -> w <= n.
Proof.
  intros Hw Hs Hwl Hle. assert (H1 : 1 <= l / w) by (apply N.div_le_lower_bound; lia). rewrite N.max_l in Hs by lia.
  pose proof (N.Div0.mul_div_le l w) as Hm. rewrite <- Hs in Hm, H1. clear Hs. apply (N.mul_le_mono_pos_r _ _ s); lia.
Qed.

(** C38: the frame bar covers the memory.  Its cells are consecutive slices of the
    frame map, none of them empty and none longer than the step; no frame is
    left out; and the bar is shorter than twice the width that it is meant for. *)
Theorem frame_bar_covers width m :
  let cells := slices (length m) (bar_step (len m) width) m in
  frame_bar width m = cell_color <$> cells /\ concat cells = m /\
  Forall (fun c => c <> [] /\ len c <= bar_step (len m) width) cells /\
  (len m <= len cells * bar_step (len m) width) /\
  len (frame_bar width m) < 2 * bar_width width /\
  (bar_width width <= len m -> bar_width width <= len (frame_bar width m)).
Proof.
  intros cells. set (w := bar_width width). set (step := bar_step (len m) width).
  assert (Hw : 40 <= w) by (unfold w, bar_width; lia). assert (Hs : 0 < step) by (unfold step, bar_step; lia).
  destruct (slices_spec (length m) step m Hs (le_n _)) as (Hc & Hf & Hlt & Hle). fold cells in Hc, Hf, Hlt, Hle.
  assert (Hn : len (frame_bar width m) = len cells) by (unfold frame_bar; by rewrite length_fmap).
  rewrite Hn. split_and!; [done|done|done|done| |].
  - destruct (decide (m = [])) as [->|Hm]; [cbn; lia|]. apply (short_bar (len m) w step); [lia|done|by apply Hlt].
  - intros Hwm. apply (full_bar (len m) w step); [lia|done|done|exact Hle].
Qed.

(** ** What the monitor is told *)

#[local] Existing Instance System.world_peers.

Section Told.
Context {O : Type} {OPS : Devices.DeviceOperations O} (depth : nat) (pause : N -> nat).
(** no tick between two queries *)
Hypothesis at_once : forall n, pause n = 0%nat.

#[local] Instance desk : Shell.ShellBus (System.Desk O) := System.desk_bus depth pause.

(** the process service waits for its next message, and nobody has been answered on
    the channels to come *)
Definition idle (d : System.Desk O) : Prop :=
  System.life d = Done tt /\ Forall (fun a => a.1 < System.asked d) (ProcService.answers (System.proc d)).

Definition answered_desk (r : Response) (d : System.Desk O) : System.Desk O :=
  {| System.proc := ProcService.set_answers (ProcService.answers (System.proc d) ++ [(System.asked d, r)]) (System.proc d);
     System.life := Done tt; System.asked := System.asked d + 1; System.given := System.given d + 1 |}.
Lemma answered_idle r d : idle d -> idle (answered_desk r d).
Proof.
  intros [_ Ha]. split; [done|]. cbn. apply Forall_app. split; [eapply list.Forall_impl; [exact Ha|]; cbn; lia|]. repeat constructor. cbn. lia.
Qed.
Lemma answer_last r d : idle d -> System.answer_on (System.asked d) (answered_desk r d) = Some r.
Proof.
  intros [_ Ha]. unfold System.answer_on. cbn. induction Ha as [|[c x] l Hc _ IH]; cbn [app list_find].
  - by rewrite decide_True.
  - cbn in Hc. rewrite decide_False by (cbn; lia). destruct (list_find _ (l ++ _)) as [[i y]|]; [|done]. exact IH.
Qed.
Lemma await_found n ch d r : System.answer_on ch d = Some r -> System.await depth n ch d = (d, Some r).
Proof. intros H. destruct n; cbn; by rewrite H. Qed.

(** a request that the process service answers without changing anything *)
Lemma ask_process d req r : idle d ->
  (forall env, ProcLoop.handle_process_request_with_response System.everybody env req (System.proc d) =
     ProcService.respond System.everybody env (Ok r) (System.proc d)) ->
  Shell.request (MsgProcess req) d = (answered_desk (Ok r) d, Some (Ok r)).
Proof.
  intros Hd Hr. pose proof Hd as [Hl _]. cbn [Shell.request desk System.desk_bus]. unfold System.desk_request. rewrite at_once. cbn [System.ticks System.for_process_service].
  set (d1 := System.next_request d). unfold System.give. change (System.life d1) with (System.life d). rewrite Hl.
  cbn [ProcLoop.handle_event]. unfold ProcLoop.handle_envelope. cbn [ProcLoop.handle_message].
  change (System.proc d1) with (System.proc d). rewrite Hr. cbv [ProcService.respond ProcService.update ProcService.send_on System.everybody].
  change (System.asked d1) with (System.asked d + 1). change (System.given d1) with (System.given d).
  apply await_found. by apply (answer_last (Ok r)).
Qed.
(** the memory service tells its numbers *)
Definition set_world_memory (t : System.MemThread) (d : System.Desk O) : System.Desk O :=
  System.set_proc (ProcService.set_world (System.set_memory t (ProcService.world (System.proc d))) (System.proc d)) (System.next_request d).
Lemma ask_memory d req r : let t := System.memory (ProcService.world (System.proc d)) in
  System.mem_alive t = true ->
  MemService.handle_envelope true true req (System.mem_state t, []) = Done (System.mem_state t, [Ok r], Ok tt) ->
  exists t', Shell.request (MsgMemory req) d = (set_world_memory t' d, Some (Ok r)) /\
    System.mem_state t' = System.mem_state t /\ System.mem_alive t' = true.
Proof.
  intros t Ha Hr. destruct (System.mem_turn_done true req t _ _ _ Ha Hr) as (t' & Ht & Hs & Ha'). exists t'. split; [|done].
  cbn [Shell.request desk System.desk_bus]. unfold System.desk_request. rewrite at_once. cbn [System.ticks System.for_process_service].
  unfold System.others. cbn [System.turn]. change (System.proc (System.next_request d)) with (System.proc d). fold t. by rewrite Ht.
Qed.
Lemma set_world_idle t d : idle d -> idle (set_world_memory t d).
Proof. intros [Hl Ha]. split; [exact Hl|]. eapply list.Forall_impl; [exact Ha|]. cbn. lia. Qed.
Lemma ask_files d req : exists t r, Shell.request (MsgFile req) d =
  (System.set_proc (ProcService.set_world (System.set_files t (ProcService.world (System.proc d))) (System.proc d)) (System.next_request d), r).
Proof.
  cbn [Shell.request desk System.desk_bus]. unfold System.desk_request. rewrite at_once. cbn [System.ticks System.for_process_service].
  unfold System.others. cbn [System.turn]. change (System.proc (System.next_request d)) with (System.proc d).
  destruct (System.file_turn true req _) as [t rs]. by eexists _, _.
Qed.

Lemma query_said m f d s d' r : Shell.request m d = (d', r) ->
  query (m, f) (d, s) = (d', match answered r with Some x => f x s | None => s end).
Proof. unfold query. cbn [fst snd]. by intros ->. Qed.
Lemma used_and_free a : FrameAlloc.wf a ->
  wsub64 (FrameAlloc.total_frames a) (FrameAlloc.free_count a) + FrameAlloc.free_count a = FrameAlloc.total_frames a.
Proof.
  intros (Ht & Hb & _ & _ & Hf & _). assert (Hle : FrameAlloc.free_count a <= FrameAlloc.total_frames a).
  { rewrite Hf, Ht. pose proof (List.filter_length_le FrameAlloc.is_free (FrameAlloc.frames a)). lia. }
  rewrite wsub64_ge by lia. lia.
Qed.
Lemma stats_lines_length table : length (Reports.stats_lines table) = size table.
Proof.
  rewrite <- length_map_to_list, <- (length_fmap fst (map_to_list table)), <- (Reports.sorted_keys_perm table).
  unfold Reports.stats_lines.
  assert (H : Forall (fun p => is_Some (table !! p)) (Reports.sorted_keys table)).
  { apply list.Forall_forall. intros p. by apply Reports.sorted_keys_spec. }
  induction H as [|p ps [x Hx] _ IH]; [done|]. cbn. rewrite Hx. cbn. by f_equal.
Qed.

(** C23: the monitor shows the state of the system.  When the process service waits
    for messages, the memory service is there, and no tick falls between the queries,
    a snapshot holds a line for every process of the table, the numbers of the
    frame allocator, which add up, the owner of each frame, and the frames that each
    process has mapped - whatever the snapshot held before; and taking it changes no process. *)
Theorem monitor_shows_the_system t d s :
  idle d -> System.mem_alive (System.memory (ProcService.world (System.proc d))) = true ->
  let table := ProcService.process_table (System.proc d) in
  let a := FrameAlloc.allocator (MemService.memory_manager (System.mem_state (System.memory (ProcService.world (System.proc d))))) in
  exists d' snap, collect_snapshot t d s = (d', snap) /\
    (processes snap = Reports.stats_lines table /\ proc_count snap = N.of_nat (size table)) /\
    (total_frames snap = FrameAlloc.total_frames a /\ used_frames snap + free_frames snap = total_frames snap) /\
    (frame_map snap = FrameAlloc.frame_owners a /\ len (frame_map snap) = total_frames snap) /\
    mem_ranges snap = Reports.memory_map (ProcService.mmu (System.proc d)) table /\
    ProcService.process_table (System.proc d') = table /\ idle d'.
Proof.
  intros Hd Ha table a. unfold collect_snapshot, queries. cbn [foldl].
  pose proof (ask_process d ProcessRequest.GetStats (StringList (Reports.stats_lines table)) Hd (fun _ => eq_refl)) as E1.
  set (d1 := answered_desk _ d) in E1. assert (H1 : idle d1) by by apply answered_idle.
  destruct (ask_memory d1 GetStats (MemoryStats (FrameAlloc.total_frames a) (wsub64 (FrameAlloc.total_frames a) (FrameAlloc.free_count a))
    (FrameAlloc.free_count a)) Ha eq_refl) as (t2 & E2 & Hs2 & Ha2).
  set (d2 := set_world_memory t2 d1) in E2. assert (H2 : idle d2) by by apply set_world_idle.
  destruct (ask_memory d2 GetFrameMap (FrameMap (FrameAlloc.frame_owners a)) Ha2) as (t3 & E3 & Hs3 & Ha3).
  { change (System.memory (ProcService.world (System.proc d2))) with t2. rewrite Hs2. done. }
  set (d3 := set_world_memory t3 d2) in E3. assert (H3 : idle d3) by by apply set_world_idle.
  pose proof (ask_process d3 ProcessRequest.GetMemoryMap (StringList (Reports.memory_map (ProcService.mmu (System.proc d3)) table)) H3 (fun _ => eq_refl)) as E4.
  set (d4 := answered_desk _ d3) in E4. assert (H4 : idle d4) by by apply answered_idle.
  destruct (ask_files d4 FileRequest.DiskInfo) as (t5 & r5 & E5).
  rewrite (query_said _ _ _ _ _ _ E1), (query_said _ _ _ _ _ _ E2), (query_said _ _ _ _ _ _ E3), (query_said _ _ _ _ _ _ E4), (query_said _ _ _ _ _ _ E5).
  eexists _, _. split; [reflexivity|].
  assert (Hw := System.mem_ok (System.memory (ProcService.world (System.proc d)))). destruct Hw as [Hw _]. fold a in Hw.
  assert (Hm : ProcService.mmu (System.proc d3) = ProcService.mmu (System.proc d)).
  { change (ProcService.mmu (System.proc d3)) with (MemService.mmu (System.mem_state t3)). rewrite Hs3.
    change (System.mem_state (System.memory (ProcService.world (System.proc d2)))) with (System.mem_state t2). by rewrite Hs2. }
  assert (Hidle : idle (System.set_proc (ProcService.set_world (System.set_files t5 (ProcService.world (System.proc d4))) (System.proc d4))
    (System.next_request d4))).
  { destruct H4 as [Hl Hans]. split; [exact Hl|]. eapply list.Forall_impl; [exact Hans|]. cbn. lia. }
  assert (Ho : len (FrameAlloc.frame_owners a) = FrameAlloc.total_frames a).
  { destruct Hw as (Ht & _). unfold FrameAlloc.frame_owners. by rewrite length_fmap. }
  rewrite Hm. cbn [answered data mbind option_bind take_processes take_memory take_frames take_ranges].
  assert (Hn := stats_lines_length table). assert (Hu := used_and_free a Hw).
  destruct (answered r5) as [[]|]; cbn; rewrite ?Hn; split_and!; done.
Qed.
End Told.

(** *** A blocked process, a bar that is too long, a booted system *)

Definition blocked_process : Pcb.PCB :=
  Pcb.block (WaitingForIo 0) (Pcb.set_state Pcb.Ready (Pcb.PCB_new 7 ##"busy" (Some 1))).
Lemma monitor_row_witness :
  process_row [(0, 7); (1, 0); (2, 7)] (Reports.stats_line 7 blocked_process) =
  Some {| r_pid := 7; r_state := ##"BlockedWaitingForIo"; r_name := ##"{"; r_frames := 2; r_style := None |}.
Proof.
  assert (Hcs : Forall (fun c => Text.is_char c = true) ##"busy") by by repeat constructor.
  exact (monitor_row [(0, 7); (1, 0); (2, 7)] 7 blocked_process ##"busy" eq_refl eq_refl Hcs).
Defined.

Lemma frame_bar_covers_witness :
  let m := (fun k => (N.of_nat k, 1)) <$> seq 0 79 in
  len (frame_bar 42 m) = 79 /\ concat (slices (length m) (bar_step (len m) 42) m) = m.
Proof.
  intros m. split; [vm_compute; reflexivity|]. destruct (frame_bar_covers 42 m) as (_ & H & _). exact H.
Defined.

#[local] Existing Instance Devices.null_device.
Definition booted_desk (w : System.World unit) : System.Desk unit :=
  {| System.proc := ProcInv.booted w; System.life := Done tt; System.asked := 0; System.given := 0 |}.
Lemma monitor_shows_the_system_witness :
  exists w d snap, System.small_world = Some w /\
    @collect_snapshot _ (desk 5 (fun _ => 0%nat)) 9 (booted_desk w) Snap_default = (d, snap) /\
    processes snap = [ ##"   1     Creating init                    -" ] /\ proc_count snap = 1 /\
    used_frames snap + free_frames snap = total_frames snap.
Proof.
  pose proof System.small_queue as H. destruct System.small_world as [w|]; [|discriminate H].
  cbn [fmap option_fmap option_map] in H. apply (inj Some) in H. apply (f_equal fst), (f_equal fst) in H. cbn [fst System.queue_of] in H.
  assert (Hd : idle (booted_desk w)) by (split; [reflexivity|constructor]).
  destruct (monitor_shows_the_system 5 (fun _ => 0%nat) (fun _ => eq_refl) 9 (booted_desk w) Snap_default Hd H)
    as (d & snap & E & [Hp Hn] & [_ Hu] & _).
  exists w, d, snap. split; [done|]. split; [exact E|]. split; [rewrite Hp; vm_compute; reflexivity|].
  split; [rewrite Hn; vm_compute; reflexivity|exact Hu].
Defined.
