(* ===== verification/MonitorScreen.v ===== *)
(** * The screen and the loop of the monitor (src/src/ui/monitor.rs)

    What the monitor writes on its screen, as texts and cells, and the loop that
    waits for a key, takes a snapshot and draws it.  The layout and the colours of
    frames and headings are left out.  Percentages and the uptime are
    floating-point numbers with one digit: their texts are the arguments
    [percent] and [uptime].  What a turn of the loop finds outside the monitor is
    a [Turn]: what the terminal has for it, what the machine has done meanwhile,
    the ticks, and whether drawing works. *)
From Stdlib Require String.
Import (notations) String.
From S2P Require Import Prelude Types Messages Monitor.
From S2P Require Text Assembler Shell.

Notation chars := (list N) (only parsing).
Notation "## s" := (Assembler.B s) (at level 1, only parsing).

(** ** The screen *)

Section Screen.
Context (percent : N -> N -> chars) (uptime : N -> chars).

Definition header (s : Snap) : chars :=
  ##" Genshin-OS Monitor | Uptime: " ++ uptime (ticks s) ++ ##"s | Ticks: " ++ Text.decimal (ticks s)
    ++ ##" | Procs: " ++ Text.decimal (proc_count s) ++ ##" | q=quit".
(** kilobytes of frames *)
Definition kilobytes (frames : N) : chars := Text.decimal (wmul64 frames 4) ++ ##"KB".
Definition memory_label (s : Snap) : chars :=
  percent (used_frames s) (total_frames s) ++ ##"%  used=" ++ kilobytes (used_frames s) ++ ##"  free=" ++ kilobytes (free_frames s)
    ++ ##"  total=" ++ kilobytes (total_frames s).
Definition memory_lines (s : Snap) : list chars :=
  (##"  Frames: " ++ Text.decimal (used_frames s) ++ ##" used / " ++ Text.decimal (free_frames s) ++ ##" free / "
     ++ Text.decimal (total_frames s) ++ ##" total")
  :: match mem_ranges s with [] => [ ##"  (no frames allocated)"] | rs => (fun r => ##"  " ++ Text.decode r) <$> rs end.
Definition disk_label (s : Snap) : chars :=
  percent (disk_used s) (disk_total s) ++ ##"%  " ++ Text.decimal (disk_used s) ++ ##" / " ++ Text.decimal (disk_total s) ++ ##" sectors".
Definition disk_line (s : Snap) : chars :=
  ##"  .genshin-disk.img  |  Sector: 512B  |  " ++ Text.decimal (disk_used s / 2) ++ ##"KB used / "
    ++ Text.decimal (disk_total s / 2) ++ ##"KB total".

(** a part of the screen that is not drawn is [None] *)
Record Screen := {
  s_header : chars; s_rows : list Row; s_memory : option (chars * option (list Color) * list chars);
  s_disk : option (chars * chars); s_footer : chars }.
Definition render (width : N) (s : Snap) : Screen :=
  {| s_header := header s; s_rows := process_rows s;
     s_memory := if 0 <? total_frames s
                 then Some (memory_label s, match frame_map s with [] => None | m => Some (frame_bar width m) end, memory_lines s)
                 else None;
     s_disk := if 0 <? disk_total s then Some (disk_label s, disk_line s) else None;
     s_footer := ##" htop for Genshin-OS | press q to quit " |}.

(** ** The loop *)

Inductive KeyCode := Char (c : N) | Esc | OtherKey.
Definition quits (k : KeyCode) : bool :=
  match k with Char c => (c =? 113) || (c =? 81) | Esc => true | OtherKey => false end.

Context {W : Type} `{!Shell.ShellBus W}.

(** [t_event]: what [poll] and [read] give - a key, nothing or another event, or an
    input error *)
Record Turn := { t_event : result unit (option KeyCode); t_machine : W -> W; t_ticks : N; t_width : N; t_draws : bool }.

(** the snapshot that a turn takes *)
Definition refresh (t : Turn) (w : W) (s : Snap) : W * Snap := collect_snapshot (t_ticks t) (t_machine t w) s.
(** [None]: it still runs *)
Fixpoint run_loop (ts : list Turn) (w : W) (s : Snap) (drawn : list Screen) : W * Snap * list Screen * option (result unit unit) :=
  match ts with
  | [] => (w, s, drawn, None)
  | t :: ts =>
      match t_event t with
      | Err e => (t_machine t w, s, drawn, Some (Err e))
      | Ok k =>
          if match k with Some k => quits k | None => false end then (t_machine t w, s, drawn, Some (Ok tt))
          else
            let '(w, s) := refresh t w s in
            if t_draws t then run_loop ts w s (drawn ++ [render (t_width t) s]) else (w, s, drawn, Some (Err tt))
      end
  end.
Definition run_monitor (ts : list Turn) (w : W) : W * Snap * list Screen * option (result unit unit) := run_loop ts w Snap_default [].

(** a turn in which nobody quits and nothing fails *)
Definition goes_on (t : Turn) : bool :=
  match t_event t with Ok k => negb (match k with Some k => quits k | None => false end) && t_draws t | Err _ => false end.
(** the machine and the snapshot after such turns, and their screens *)
Fixpoint shown (ts : list Turn) (w : W) (s : Snap) : W * Snap * list Screen :=
  match ts with
  | [] => (w, s, [])
  | t :: ts =>
      let '(w, s) := refresh t w s in
      let '(w, s', l) := shown ts w s in (w, s', render (t_width t) s :: l)
  end.

Lemma run_loop_shown ts : forall us w s drawn, Forall (fun t => goes_on t = true) ts ->
  run_loop (ts ++ us) w s drawn =
  let '(w', s', l) := shown ts w s in run_loop us w' s' (drawn ++ l).
Proof.
  induction ts as [|t ts IH]; intros us w s drawn; cbn [app shown].
  - intros _. by rewrite app_nil_r.
  - intros (Ht & Hts)%list.Forall_cons_1. cbn [run_loop]. unfold goes_on in Ht.
    destruct (t_event t) as [k|]; [|done]. apply andb_prop in Ht as [Hk Hd]. apply negb_true_iff in Hk. rewrite Hk, Hd.
    destruct (refresh t w s) as [w1 s1]. rewrite IH by done. destruct (shown ts w1 s1) as [[w2 s2] l].
    by rewrite <- app_assoc.
Qed.

(** Property: the monitor runs until a key that quits: after any turns in which
    nobody quits and nothing fails it has drawn one screen per turn, each of the
    snapshot of that turn, and still runs; with the turn that has such a key it
    ends without asking or drawing anything more, whatever would come. *)
Theorem monitor_runs_until_quit ts t us (w : W) k : Forall (fun t => goes_on t = true) ts ->
  t_event t = Ok (Some k) -> quits k = true ->
  exists w' s' l, shown ts w Snap_default = (w', s', l) /\ length l = length ts /\
    run_monitor ts w = (w', s', l, None) /\
    run_monitor (ts ++ t :: us) w = (t_machine t w', s', l, Some (Ok tt)).
Proof.
  intros Hts Ht Hk. destruct (shown ts w Snap_default) as [[w' s'] l] eqn:E. exists w', s', l. split; [done|].
  assert (Hl : length l = length ts).
  { clear - E. revert w w' s' l E. generalize Snap_default. induction ts as [|t ts IH]; intros s w w' s' l; cbn [shown].
    - intros Heq. by injection Heq as <- <- <-.
    - destruct (refresh t w s) as [w1 s1]. destruct (shown ts w1 s1) as [[w2 s2] l2] eqn:E. intros Heq. injection Heq as <- <- <-. cbn.
      by rewrite (IH _ _ _ _ _ E). }
  split; [done|]. unfold run_monitor. split.
  - pose proof (run_loop_shown ts [] w Snap_default [] Hts) as Hrun. rewrite app_nil_r, E in Hrun. exact Hrun.
  - rewrite run_loop_shown, E by done. cbn [run_loop]. by rewrite Ht, Hk.
Qed.

(** ** What a screen shows is current *)

(** the answer is of the kind that a query expects *)
Definition expected (m : KernelMsg) (d : ResponseData) : bool :=
  match m, d with
  | MsgProcess _, StringList _ | MsgMemory GetStats, MemoryStats _ _ _ | MsgMemory GetFrameMap, FrameMap _
  | MsgFile _, DiskStats _ _ _ => true
  | _, _ => false
  end.
(** all five queries, one after the other, are answered with what they expect *)
Fixpoint all_answered (qs : list KernelMsg) (w : W) : bool :=
  match qs with
  | [] => true
  | m :: qs =>
      let '(w, r) := Shell.request m w in
      match answered r with Some d => expected m d && all_answered qs w | None => false end
  end.

(** Property: a screen whose queries were all answered shows nothing old: the
    snapshot, and with it what is drawn, does not depend on the one before.
    The machine never depends on it. *)
Theorem answered_snapshot_is_current t w s :
  fst (collect_snapshot t w s) = fst (collect_snapshot t w Snap_default) /\
  (all_answered (fst <$> queries) w = true -> collect_snapshot t w s = collect_snapshot t w Snap_default).
Proof.
  unfold collect_snapshot, queries. cbn [foldl fmap list_fmap fst all_answered]. unfold query. cbn [fst snd].
  destruct (Shell.request (MsgProcess ProcessRequest.GetStats) w) as [w1 r1]. cbn [fst snd].
  destruct (Shell.request (MsgMemory GetStats) w1) as [w2 r2]. cbn [fst snd].
  destruct (Shell.request (MsgMemory GetFrameMap) w2) as [w3 r3]. cbn [fst snd].
  destruct (Shell.request (MsgProcess ProcessRequest.GetMemoryMap) w3) as [w4 r4]. cbn [fst snd].
  destruct (Shell.request (MsgFile FileRequest.DiskInfo) w4) as [w5 r5]. cbn [fst snd].
  split; [done|]. unfold expected.
  destruct (answered r1) as [[]|]; try done. destruct (answered r2) as [[]|]; try done.
  destruct (answered r3) as [[]|]; try done. destruct (answered r4) as [[]|]; try done.
  destruct (answered r5) as [[]|]; done.
Qed.
End Screen.

(** ** Witnesses *)

Definition demo_answers (m : KernelMsg) : Response :=
  Ok (match m with
      | MsgProcess ProcessRequest.GetStats => StringList [ ##"1 Ready init"]
      | MsgProcess _ => StringList []
      | MsgMemory GetFrameMap => FrameMap [(0, 1)]
      | MsgMemory _ => MemoryStats 2 1 1
      | _ => DiskStats 8 4 4096
      end).
(** the machine counts the requests *)
#[local] Instance demo_bus : Shell.ShellBus N := {| Shell.request m w := (w + 1, Some (demo_answers m)); Shell.post _ w := w |}.
Definition demo_turn (k : option KeyCode) : Turn (W := N) :=
  {| t_event := Ok k; t_machine w := w; t_ticks := 7; t_width := 40; t_draws := true |}.

Lemma monitor_runs_until_quit_witness : exists w' s' l,
  run_monitor (fun _ _ => []) (fun _ => []) ([demo_turn None; demo_turn (Some (Char 113))] ++ [demo_turn None]) 0 = (w', s', l, Some (Ok tt))
  /\ w' = 5 /\ s_header <$> l = [ ##" Genshin-OS Monitor | Uptime: s | Ticks: 7 | Procs: 1 | q=quit"].
Proof.
  destruct (monitor_runs_until_quit (fun _ _ => []) (fun _ => []) [demo_turn None] (demo_turn (Some (Char 113))) [demo_turn None] 0 (Char 113))
    as (w' & s' & l & E & _ & _ & Hrun); [by repeat constructor|reflexivity|reflexivity|].
  exists w', s', l. split; [exact Hrun|]. vm_compute in E. injection E as <- <- <-. split; reflexivity.
Defined.

Lemma answered_snapshot_is_current_witness s :
  memory_lines (snd (collect_snapshot 7 0 s)) = [ ##"  Frames: 1 used / 1 free / 2 total"; ##"  (no frames allocated)"].
Proof.
  destruct (answered_snapshot_is_current 7 0 s) as [_ Hcur]. rewrite Hcur; [reflexivity|]. vm_compute. reflexivity.
Defined.
