(* ===== verification/Programs.v ===== *)
(** * Programs: from bytes in memory to what the services do

    The programs that the process service generates for the commands on paths
    ([gen_builtin_program] of src/src/services/process/service.rs) are run here
    instruction by instruction: the CPU fetches them through the MMU, the system
    calls reach the file service, and the process ends. *)
From Stdlib Require String.
Import (notations) String.
From S2P Require Import Prelude Types Messages.
From S2P Require Text Ivt PhysMem Mmu Cpu Assembler Sched Pcb Vfs FileService FileInv MemService Devices ProcService ProcLoop UserMem System.

(** ** Two instructions *)

Section Steps.
Context (m : Cpu.Machine).
Notation c := (Cpu.cpu m).

End Steps.

#[local] Existing Instance System.world_peers.

(** ** One round of the instruction loop *)

Section Rounds.
Context {O : Type} {OPS : Devices.DeviceOperations O} (depth : nat).
Notation PS := (ProcService.ProcessService (System.World O)).
Implicit Types s : PS.






(** ** The end of a process *)



(** ** Programs on paths *)










(** ** From exec on *)

Notation allocator_of w := (FrameAlloc.allocator (MemService.memory_manager (System.mem_state (System.memory w)))).
Notation mmu_of w := (MemService.mmu (System.mem_state (System.memory w))).







End Rounds.

(** *** A directory made by process 2 *)

#[local] Existing Instance Devices.null_device.

