(* ===== verification/Async.v ===== *)
(** * Messages in flight

    In [System] a service serves a message when it is sent.  In the program
    (messaging/bus.rs, services/kernel.rs and the loops of the services) a
    message first waits in the channel of the kernel, or in that of the device
    service, which listens to the bus itself; the kernel then moves it to the
    channel of its service, which takes it when it comes to it.  Here these
    steps happen in any order, while more messages are sent, and the services
    are shown to end as if each message had been served when it was sent.  Only
    messages count here: the MMU, which the CPUs and the memory service share,
    is not touched by anybody else meanwhile. *)
From S2P Require Import Prelude Types Messages.
From stdpp Require Import relations.
From S2P Require Bus MemService FileService DeviceService Devices System.

(** ** Who serves a message *)

Inductive Leaf := MemoryLeaf | FileLeaf | DeviceLeaf.
#[export] Instance Leaf_eq_dec : EqDecision Leaf.
Proof. solve_decision. Defined.
Definition leaf_of (m : KernelMsg) : option Leaf :=
  match m with
  | MsgMemory _ => Some MemoryLeaf
  | MsgFile _ => Some FileLeaf
  | MsgDevice _ => Some DeviceLeaf
  | _ => None
  end.
(** the kernel sends to these services what it should *)
Lemma leaf_routed m :
  match leaf_of m with
  | Some MemoryLeaf => Bus.service_for m = Some Bus.ToMemory
  | Some FileLeaf => Bus.service_for m = Some Bus.ToFile
  | Some DeviceLeaf => Bus.service_for m = None
  | None => Bus.service_for m = Some Bus.ToProcess \/ Bus.service_for m = Some Bus.ToInterrupts
  end.
Proof. destruct m; cbn; auto. Qed.

(** a message, with the request it belongs to and whether it is answered *)
Record Post := { tag : N; expects : bool; message : KernelMsg }.
Definition owner (p : Post) : option Leaf := leaf_of (message p).
Definition owned (l : Leaf) : list Post -> list Post := filter (fun p => owner p = Some l).
Arguments owned : simpl never.

Section Async.
Context {O : Type} {OPS : Devices.DeviceOperations O}.
Notation World := (System.World O).

(** the answers to a message, by its request *)
Abbreviation Log := (list (N * list Response)).
(** the messages served as they are sent *)
Fixpoint turns (ps : list Post) (w : World) : World * Log :=
  match ps with
  | [] => (w, [])
  | p :: ps =>
      let '(w, rs) := System.turn (expects p) (message p) w in
      let '(w, l) := turns ps w in (w, (tag p, rs) :: l)
  end.

(** ** Steps *)

Record Config := {
  world : World; kernel_q : list Post; queue : Leaf -> list Post; log : Leaf -> Log; posted : list Post }.
Definition start (w : World) : Config :=
  {| world := w; kernel_q := []; queue := fun _ => []; log := fun _ => []; posted := [] |}.
Definition set_at {A} (l : Leaf) (x : A) (f : Leaf -> A) : Leaf -> A := fun k => if bool_decide (k = l) then x else f k.

Lemma set_at_eq {A} l (x : A) f : set_at l x f l = x.
Proof. unfold set_at. by rewrite bool_decide_true. Qed.
Lemma set_at_ne {A} l k (x : A) f : k <> l -> set_at l x f k = f k.
Proof. intros H. unfold set_at. by rewrite bool_decide_false. Qed.
(** every subscriber gets its copy: the kernel and the device service *)
Definition post (p : Post) (c : Config) : Config :=
  {| world := world c; kernel_q := kernel_q c ++ [p]; queue := set_at DeviceLeaf (queue c DeviceLeaf ++ [p]) (queue c);
     log := log c; posted := posted c ++ [p] |}.
(** the kernel moves the first message to its service *)
Definition route (p : Post) (k : list Post) (c : Config) : Config :=
  {| world := world c; kernel_q := k;
     queue := match owner p with
              | Some MemoryLeaf => set_at MemoryLeaf (queue c MemoryLeaf ++ [p]) (queue c)
              | Some FileLeaf => set_at FileLeaf (queue c FileLeaf ++ [p]) (queue c)
              | _ => queue c
              end;
     log := log c; posted := posted c |}.
(** a service takes its first message; it ignores one that is not for it *)
Definition serve (l : Leaf) (p : Post) (q : list Post) (c : Config) : Config :=
  if bool_decide (owner p = Some l) then
    let '(w, rs) := System.turn (expects p) (message p) (world c) in
    {| world := w; kernel_q := kernel_q c; queue := set_at l q (queue c);
       log := set_at l (log c l ++ [(tag p, rs)]) (log c); posted := posted c |}
  else {| world := world c; kernel_q := kernel_q c; queue := set_at l q (queue c); log := log c; posted := posted c |}.

(** what happens without a new message *)
Inductive internal (c : Config) : Config -> Prop :=
  | routes p k : kernel_q c = p :: k -> internal c (route p k c)
  | serves l p q : queue c l = p :: q -> internal c (serve l p q c).
Inductive step (c : Config) : Config -> Prop :=
  | posts p : step c (post p c)
  | proceeds c' : internal c c' -> step c c'.

Definition quiescent (c : Config) : Prop := kernel_q c = [] /\ forall l, queue c l = [].

(** ** Each service sees only its own messages *)

Definition same (l : Leaf) (w1 w2 : World) : Prop :=
  match l with
  | MemoryLeaf => System.memory w1 = System.memory w2
  | FileLeaf => System.files w1 = System.files w2
  | DeviceLeaf => System.devs w1 = System.devs w2
  end.
#[export] Instance same_equivalence l : Equivalence (same l).
Proof. split; [by destruct l| |]; destruct l; cbn; intros ?; congruence. Qed.

Lemma turn_same l er m w1 w2 : same l w1 w2 -> same l (System.turn er m w1).1 (System.turn er m w2).1.
Proof.
  intros H. destruct m as [?|?|?|r|r|r]; try exact H; cbn;
    [destruct (System.mem_turn er r (System.memory w1)) eqn:E1, (System.mem_turn er r (System.memory w2)) eqn:E2
    |destruct (System.file_turn er r (System.files w1)) eqn:E1, (System.file_turn er r (System.files w2)) eqn:E2
    |destruct (System.dev_turn er r (System.devs w1)) eqn:E1, (System.dev_turn er r (System.devs w2)) eqn:E2];
    destruct l; cbn in *; congruence.
Qed.
Lemma turn_other l er m w : leaf_of m <> Some l -> same l (System.turn er m w).1 w.
Proof.
  intros H. destruct m as [?|?|?|r|r|r]; try (by destruct l); cbn;
    [destruct (System.mem_turn er r (System.memory w))|destruct (System.file_turn er r (System.files w))
    |destruct (System.dev_turn er r (System.devs w))]; by destruct l.
Qed.
Lemma turn_answers l er m w1 w2 : leaf_of m = Some l -> same l w1 w2 -> (System.turn er m w1).2 = (System.turn er m w2).2.
Proof.
  intros Hl H. destruct m as [?|?|?|r|r|r]; try done; cbn in *; injection Hl as <-; cbn in H; rewrite H;
    [by destruct (System.mem_turn _ _ _)|by destruct (System.file_turn _ _ _)|by destruct (System.dev_turn _ _ _)].
Qed.
Lemma turn_host er m w : System.host (System.turn er m w).1 = System.host w.
Proof.
  destruct m as [?|?|?|r|r|r]; try done; cbn;
    [by destruct (System.mem_turn _ _ _)|by destruct (System.file_turn _ _ _)|by destruct (System.dev_turn _ _ _)].
Qed.

Lemma turns_cons p ps w :
  turns (p :: ps) w = ((turns ps (System.turn (expects p) (message p) w).1).1,
                       (tag p, (System.turn (expects p) (message p) w).2) :: (turns ps (System.turn (expects p) (message p) w).1).2).
Proof. cbn. destruct (System.turn _ _ _) as [w1 rs]. cbn. by destruct (turns ps w1). Qed.
Lemma turns_snoc ps p : forall w,
  turns (ps ++ [p]) w = ((System.turn (expects p) (message p) (turns ps w).1).1,
                         (turns ps w).2 ++ [(tag p, (System.turn (expects p) (message p) (turns ps w).1).2)]).
Proof. induction ps as [|a ps IH]; intros w; [cbn; by destruct (System.turn _ _ _)|]. cbn [app]. by rewrite !turns_cons, IH. Qed.
Lemma turns_same l ps : forall w1 w2, same l w1 w2 -> same l (turns ps w1).1 (turns ps w2).1.
Proof. induction ps as [|p ps IH]; intros w1 w2 H; [exact H|]. rewrite !turns_cons. cbn [fst]. by apply IH, turn_same. Qed.
Lemma turns_host ps : forall w, System.host (turns ps w).1 = System.host w.
Proof. induction ps as [|p ps IH]; intros w; [done|]. rewrite turns_cons. cbn [fst]. by rewrite IH, turn_host. Qed.
(** the messages of others do not matter to a service *)
Lemma turns_owned l ps : forall w, same l (turns ps w).1 (turns (owned l ps) w).1.
Proof.
  induction ps as [|p ps IH]; intros w; [reflexivity|]. rewrite turns_cons. cbn [fst]. unfold owned. rewrite list.filter_cons. case_decide as Ho.
  - rewrite turns_cons. apply IH.
  - etransitivity; [apply IH|]. by apply turns_same, turn_other.
Qed.
(** the answers that a service gives, in the order of its messages *)
Definition answers_of (l : Leaf) (ps : list Post) (w : World) : Log := (turns (owned l ps) w).2.

(** ** The invariant *)

(** what of the kernel's channel is still to come *)
Definition in_kernel (l : Leaf) (c : Config) : list Post := match l with DeviceLeaf => [] | _ => owned l (kernel_q c) end.
Definition inv (w0 : World) (c : Config) : Prop :=
  System.host (world c) = System.host w0 /\
  forall l, exists served,
    same l (world c) (turns served w0).1 /\ log c l = (turns served w0).2 /\
    served ++ owned l (queue c l) ++ in_kernel l c = owned l (posted c).

Lemma owned_app l ps qs : owned l (ps ++ qs) = owned l ps ++ owned l qs.
Proof. apply list.filter_app. Qed.
Lemma owned_one l p : owned l [p] = if decide (owner p = Some l) then [p] else [].
Proof. unfold owned. rewrite list.filter_cons. by case_decide. Qed.

Lemma inv_post w0 p c : inv w0 c -> inv w0 (post p c).
Proof.
  intros [Hh H]. split; [exact Hh|]. intros l. destruct (H l) as (sv & Hs & Hl & Hq). exists sv. split; [exact Hs|]. split; [exact Hl|].
  cbn [posted post]. rewrite owned_app, <- Hq. destruct l; cbn; rewrite ?set_at_eq, ?set_at_ne by done; rewrite owned_app, <- ?app_assoc, ?app_nil_r; done.
Qed.
Lemma inv_route w0 p k c : kernel_q c = p :: k -> inv w0 c -> inv w0 (route p k c).
Proof.
  intros Hk [Hh H]. split; [exact Hh|]. intros l. destruct (H l) as (sv & Hs & Hl & Hq). exists sv. split; [exact Hs|]. split; [exact Hl|].
  cbn [posted route]. rewrite <- Hq. f_equal. unfold in_kernel. cbn [kernel_q queue route]. rewrite Hk. change (p :: k) with ([p] ++ k).
  rewrite !owned_app, !owned_one. destruct l; destruct (owner p) as [[]|] eqn:Ho; cbn; rewrite ?set_at_eq, ?set_at_ne by done;
    rewrite ?owned_app, ?owned_one, ?Ho, <- ?app_assoc, ?app_nil_r; try done; repeat case_decide; done.
Qed.
Lemma inv_serve w0 l p q c : queue c l = p :: q -> inv w0 c -> inv w0 (serve l p q c).
Proof.
  intros Hq0 [Hh H]. unfold serve. case_bool_decide as Ho.
  - destruct (System.turn (expects p) (message p) (world c)) as [w rs] eqn:E. split.
    { cbn. pose proof (turn_host (expects p) (message p) (world c)) as Ht. rewrite E in Ht. by rewrite <- Hh. }
    intros l'. destruct (H l') as (sv & Hs & Hl & Hq). cbn [world log queue posted]. unfold in_kernel, set_at. cbn [kernel_q]. case_bool_decide as El.
    + subst l'. exists (sv ++ [p]). rewrite turns_snoc. cbn [fst snd].
      pose proof (turn_same l (expects p) (message p) _ _ Hs) as H1. pose proof (turn_answers l (expects p) (message p) _ _ Ho Hs) as H2.
      rewrite E in H1, H2. cbn in H1, H2. split; [exact H1|]. rewrite Hl, H2. split; [done|].
      rewrite <- Hq, Hq0. change (p :: q) with ([p] ++ q). rewrite owned_app, owned_one, decide_True by done. by rewrite <- !app_assoc.
    + exists sv. split; [|by split]. etransitivity; [|exact Hs].
      pose proof (turn_other l' (expects p) (message p) (world c)) as H1. rewrite E in H1. apply H1. unfold owner in Ho. congruence.
  - split; [exact Hh|]. intros l'. destruct (H l') as (sv & Hs & Hl & Hq). exists sv. split; [exact Hs|]. split; [exact Hl|].
    cbn [posted queue]. unfold set_at, in_kernel. cbn [kernel_q]. rewrite <- Hq. case_bool_decide as El; [|done]. subst l'.
    rewrite Hq0. change (p :: q) with ([p] ++ q). rewrite owned_app, owned_one, decide_False by done. done.
Qed.
Lemma inv_internal w0 c c' : internal c c' -> inv w0 c -> inv w0 c'.
Proof. intros [p k Hk|l p q Hq]; [by apply inv_route|by apply inv_serve]. Qed.
Lemma inv_reachable w0 c : rtc step (start w0) c -> inv w0 c.
Proof.
  intros Hr. assert (H0 : inv w0 (start w0)) by (split; [done|]; intros l; exists []; by destruct l).
  revert H0. induction Hr as [|c1 c2 c3 Hs _ IH]; intros Hi; [done|]. apply IH.
  destruct Hs as [p|c' Hc]; [by apply inv_post|by eapply inv_internal].
Qed.

(** ** The channels run empty *)

Definition backlog (c : Config) : nat :=
  2 * length (kernel_q c) + length (queue c MemoryLeaf) + length (queue c FileLeaf) + length (queue c DeviceLeaf).
Lemma internal_backlog c c' : internal c c' -> (backlog c' < backlog c)%nat.
Proof.
  intros [p k Hk|l p q Hq]; unfold backlog.
  - cbn [kernel_q queue route]. rewrite Hk. cbn [length].
    destruct (owner p) as [[]|]; rewrite ?set_at_eq, ?set_at_ne, ?length_app by done; cbn [length]; lia.
  - assert (E : kernel_q (serve l p q c) = kernel_q c /\ queue (serve l p q c) = set_at l q (queue c)).
    { unfold serve. case_bool_decide; [by destruct (System.turn _ _ _)|done]. }
    destruct E as [-> ->]. destruct l; rewrite !set_at_eq, !set_at_ne by done; rewrite Hq; cbn [length]; lia.
Qed.
Lemma stuck_quiescent c : (forall c', ~ internal c c') -> quiescent c.
Proof.
  intros H. split.
  - destruct (kernel_q c) as [|p k] eqn:E; [done|]. by destruct (H _ (routes c p k E)).
  - intros l. destruct (queue c l) as [|p q] eqn:E; [done|]. by destruct (H _ (serves c l p q E)).
Qed.
Lemma internal_posted c c' : rtc internal c c' -> posted c' = posted c.
Proof.
  induction 1 as [|c1 c2 c3 H _ ->]; [done|]. destruct H as [p k Hk|l p q Hq]; [done|].
  unfold serve. case_bool_decide; [by destruct (System.turn _ _ _)|done].
Qed.

Lemma turns_app ps qs : forall w, turns (ps ++ qs) w = ((turns qs (turns ps w).1).1, (turns ps w).2 ++ (turns qs (turns ps w).1).2).
Proof.
  induction ps as [|p ps IH]; intros w; [cbn; by destruct (turns qs w)|]. cbn [app]. rewrite !turns_cons, IH. done.
Qed.
Lemma log_prefix w0 c l : inv w0 c -> log c l `prefix_of` answers_of l (posted c) w0.
Proof.
  intros [_ H]. destruct (H l) as (sv & _ & -> & Hq). unfold answers_of. rewrite <- Hq, turns_app. by eexists.
Qed.
Lemma all_same (w1 w2 : World) : System.host w1 = System.host w2 -> (forall l, same l w1 w2) -> w1 = w2.
Proof.
  intros Hh H. pose proof (H MemoryLeaf) as H1. pose proof (H FileLeaf) as H2. pose proof (H DeviceLeaf) as H3.
  destruct w1, w2. cbn in *. congruence.
Qed.
Lemma quiescent_atomic w0 c : inv w0 c -> quiescent c ->
  world c = (turns (posted c) w0).1 /\ forall l, log c l = answers_of l (posted c) w0.
Proof.
  intros [Hh H] [Hk Hqs]. split.
  - apply all_same; [by rewrite turns_host|]. intros l. destruct (H l) as (sv & Hs & _ & Hq).
    assert (E : sv = owned l (posted c)) by (rewrite <- Hq, (Hqs l); destruct l; cbn; rewrite ?Hk; by rewrite app_nil_r).
    rewrite E in Hs. etransitivity; [exact Hs|]. symmetry. apply turns_owned.
  - intros l. destruct (H l) as (sv & _ & -> & Hq). unfold answers_of.
    assert (E : sv = owned l (posted c)) by (rewrite <- Hq, (Hqs l); destruct l; cbn; rewrite ?Hk; by rewrite app_nil_r).
    by rewrite E.
Qed.

(** C8: messages in flight change nothing.  However the sending of messages, the
    kernel and the services take turns: what a service has answered so far is the
    beginning of what it answers when every message is served as it is sent;
    without new messages the channels run empty, in a number of steps that is
    bounded whatever the order; and when they are empty, the services are in the
    states, and have given the answers, of messages served as they were sent. *)
Theorem messages_in_flight w0 c : rtc step (start w0) c ->
  (forall l, log c l `prefix_of` answers_of l (posted c) w0) /\
  (forall n c', nsteps internal n c c' -> (n <= backlog c)%nat) /\
  (forall c', rtc internal c c' -> (forall c'', ~ internal c' c'') ->
     world c' = (turns (posted c) w0).1 /\ forall l, log c' l = answers_of l (posted c) w0).
Proof.
  intros Hr. pose proof (inv_reachable w0 c Hr) as Hi. split; [intros l; by apply log_prefix|]. split.
  - intros n c' Hn. clear Hr Hi. induction Hn as [|n c1 c2 c3 H _ IH]; [lia|]. apply internal_backlog in H. lia.
  - intros c' Hc Hs. pose proof (internal_posted c c' Hc) as Hp. rewrite <- Hp. apply quiescent_atomic; [|by apply stuck_quiescent].
    clear Hr Hs Hp. induction Hc as [|c1 c2 c3 H _ IH]; [done|]. apply IH. by eapply inv_internal.
Qed.
End Async.

(** A request to the device service is answered before the kernel has seen it. *)
#[local] Existing Instance Devices.null_device.
Definition demo_post : Post := {| tag := 7; expects := true; message := MsgDevice (DeviceRequest.ClipboardGet 5) |}.
Lemma messages_in_flight_witness :
  exists w c, System.boot (O := unit) None [] [] [] (fun _ => None) = Done w /\ kernel_q c = [demo_post] /\ queue c DeviceLeaf = [] /\
    log c DeviceLeaf `prefix_of` answers_of DeviceLeaf [demo_post] w /\
    forall c', rtc internal c c' -> (forall c'', ~ internal c' c'') -> log c' DeviceLeaf = answers_of DeviceLeaf [demo_post] w.
Proof.
  destruct (System.boot_done (O := unit) None [] [] [] (fun _ => None)) as [w Hw].
  set (c := serve DeviceLeaf demo_post [] (post demo_post (start w))).
  assert (Hr : rtc step (start w) c).
  { apply (rtc_l _ _ (post demo_post (start w))); [apply posts|]. apply rtc_once, proceeds, serves. apply set_at_eq. }
  assert (E : kernel_q c = [demo_post] /\ queue c = set_at DeviceLeaf [] (queue (post demo_post (start w))) /\ posted c = [demo_post]).
  { unfold c, serve. rewrite bool_decide_true by done. by destruct (System.turn _ _ _). }
  destruct E as (Ek & Eq & Ep). destruct (messages_in_flight w c Hr) as (H1 & _ & H3). rewrite Ep in H1, H3.
  exists w, c. split; [exact Hw|]. split; [exact Ek|]. split; [by rewrite Eq, set_at_eq|]. split; [apply H1|].
  intros c' Hc Hs. by apply H3.
Defined.
