(* ===== verification/Testing.v ===== *)
(** * Unit tests as definitions

    The source ends most of its files with unit tests.  The files [Tests...]
    translate them: a test starts with an object and is a list of [Step]s, calls
    and assertions, each of which may panic as an [assert!] or an [unwrap] does.
    That they all pass checks the definitions of this library against what the
    authors of the program expect of it. *)
From S2P Require Import Prelude.

Section Steps.
Context {S : Type}.

Definition Step := S -> outcome S.

(** a call for its effect *)
Definition does (f : S -> S) : Step := fun s => Done (f s).
Definition does_ {A} (f : S -> S * A) : Step := fun s => Done (fst (f s)).
(** [assert!] of a getter, and [assert_eq!] *)
Definition affirms (f : S -> bool) : Step := fun s => if f s then Done s else Panicked.
Definition sees {A} `{EqDecision A} (f : S -> A) (a : A) : Step := affirms (fun s => bool_decide (f s = a)).
(** [assert_eq!] of a call, and [assert!] of what it returns *)
Definition gives {A} `{EqDecision A} (f : S -> S * A) (a : A) : Step := fun s =>
  let '(s, x) := f s in if decide (x = a) then Done s else Panicked.
Definition returns {A} (f : S -> S * A) (P : A -> bool) : Step := fun s =>
  let '(s, x) := f s in if P x then Done s else Panicked.
(** calls that may panic themselves *)
Definition runs (f : S -> outcome S) : Step := f.
Definition runs_ {A} (f : S -> outcome (S * A)) : Step := fun s => '(s, _) ← f s; Done s.
Definition yields {A} `{EqDecision A} (f : S -> outcome (S * A)) (a : A) : Step := fun s =>
  '(s, x) ← f s; if decide (x = a) then Done s else Panicked.

Fixpoint steps (l : list Step) : Step :=
  match l with [] => fun s => Done s | st :: l => fun s => s ← st s; steps l s end.

(** steps that use what a call has returned *)
Definition letting {A} (f : S -> S * A) (k : A -> list Step) : Step := fun s =>
  let '(s, x) := f s in steps (k x) s.
Definition getting {A} (f : S -> A) (k : A -> list Step) : Step := fun s => steps (k (f s)) s.

(** A test from an object that was made. *)
Definition test (s : S) (l : list Step) : bool := match steps l s with Done _ => true | _ => false end.
(** the same for a constructor that may panic or fail *)
Definition test_on (o : outcome S) (l : list Step) : bool := match o with Done s => test s l | _ => false end.
End Steps.
Arguments Step : clear implicits.

(** [unwrap] *)
Definition unwrapped {E S} (r : result E S) : outcome S := match r with Ok s => Done s | Err _ => Panicked end.
Definition unwrapping {S E A} (f : S -> S * result E A) : S -> outcome (S * A) := fun s =>
  let '(s, r) := f s in match r with Ok a => Done (s, a) | Err _ => Panicked end.
Definition unwrapping_some {S A} (f : S -> S * option A) : S -> outcome (S * A) := fun s =>
  let '(s, r) := f s in match r with Some a => Done (s, a) | None => Panicked end.
(** a call of a handler that succeeds, one that fails, and one whose result does not matter *)
Definition succeeds {S E A} (m : S -> outcome (S * result E A)) : Step S := fun s =>
  '(s, r) ← m s; match r with Ok _ => Done s | Err _ => Panicked end.
Definition refuses {S E A} (m : S -> outcome (S * result E A)) : Step S := fun s =>
  '(s, r) ← m s; match r with Ok _ => Panicked | Err _ => Done s end.
Definition answers_ {S E A} `{EqDecision A} (m : S -> outcome (S * result E A)) (a : A) : Step S := fun s =>
  '(s, r) ← m s; match r with Ok x => if decide (x = a) then Done s else Panicked | Err _ => Panicked end.
Definition is_some {A} (o : option A) : bool := match o with Some _ => true | None => false end.
Definition is_none {A} (o : option A) : bool := negb (is_some o).

(** [str::contains] *)
Fixpoint has_text (needle s : list N) : bool :=
  bool_decide (take (length needle) s = needle) || match s with [] => false | _ :: s => has_text needle s end.

(** assertions on several objects *)
Definition all (l : list bool) : bool := forallb id l.

#[export] Instance result_eq_dec {E A} `{EqDecision E, EqDecision A} : EqDecision (result E A).
Proof. solve_decision. Defined.
#[export] Instance outcome_eq_dec {A} `{EqDecision A} : EqDecision (outcome A).
Proof. solve_decision. Defined.
