(* ===== verification/Requests.v ===== *)
(** * Requests of their own and the direct bus (src/src/messaging/response.rs, bus.rs)

    [RequestWithResponse] is a request that carries its response channel; as in
    [Bus], the two ends of that channel are an index in the list [responses].
    [DirectBus] holds both ends of one channel, so its channel is connected as
    long as the bus is there: a receiver that finds nothing waits. *)
From S2P Require Import Prelude Types Messages Bus.

Section Requests.
Context {C : Set -> Set} `{!Channel C}.

(** ** Requests *)

Record RequestWithResponse := { req_id : RequestId; req_message : KernelMsg; req_channel : nat; timeout_ms : option N }.

(** [new] and [with_timeout]: a fresh number and a fresh channel *)
Definition make_request (m : KernelMsg) (timeout : option N) (n : Net C) : Net C * RequestWithResponse :=
  let '(n, i) := generate_request_id n in
  (set_responses (responses n ++ [unbounded]) n,
   {| req_id := i; req_message := m; req_channel := length (responses n); timeout_ms := timeout |}).
Definition new (m : KernelMsg) : Net C -> Net C * RequestWithResponse := make_request m None.
Definition with_timeout (m : KernelMsg) (ms : N) : Net C -> Net C * RequestWithResponse := make_request m (Some ms).
Definition req_respond_success (d : ResponseData) (r : RequestWithResponse) : Net C -> Net C * bool :=
  send_response (req_channel r) (success (req_id r) d).
Definition req_respond_error (e : ResponseError) (r : RequestWithResponse) : Net C -> Net C * bool :=
  send_response (req_channel r) (error (req_id r) e).

(** the message without its channel *)
Inductive KernelMessage := Message (m : KernelMsg) | Request (request_id : RequestId) (message : KernelMsg).
Definition of_message (m : KernelMsg) : KernelMessage := Message m.
Definition of_request (r : RequestWithResponse) : KernelMessage := Request (req_id r) (req_message r).

(** ** The direct bus *)

Definition DirectBus : Set := C Envelope.
Definition DirectBus_new : DirectBus := unbounded.
(** [None]: the caller waits *)
Definition direct_recv (b : DirectBus) : DirectBus * option Envelope := try_recv b.
(** an empty channel is reported as [Full] *)
Definition direct_try_recv (b : DirectBus) : DirectBus * result BusError Envelope :=
  let '(b, r) := try_recv b in (b, ok_or Full r).

(** ** What they promise *)

Fixpoint make_all (l : list (KernelMsg * option N)) (n : Net C) : Net C * list RequestWithResponse :=
  match l with
  | [] => (n, [])
  | (m, t) :: l => let '(n, r) := make_request m t n in let '(n, rs) := make_all l n in (n, r :: rs)
  end.
Definition answer (rs : list RequestWithResponse) (n : Net C) (a : nat * Response) : Net C :=
  match rs !! fst a with
  | Some r => fst (match snd a with Ok d => req_respond_success d r n | Err e => req_respond_error e r n end)
  | None => n
  end.

Inductive DirectOp := DSend (m : KernelMsg) | DRecv | DTryRecv.
Inductive DirectAnswer := Sent (r : result BusError unit) | Got (e : option Envelope) | Tried (r : result BusError Envelope).
Definition direct_op (b : DirectBus) (o : DirectOp) : DirectBus * DirectAnswer :=
  match o with
  | DSend m => let '(b, r) := direct_send m b in (b, Sent r)
  | DRecv => let '(b, r) := direct_recv b in (b, Got r)
  | DTryRecv => let '(b, r) := direct_try_recv b in (b, Tried r)
  end.
Fixpoint direct_ops (os : list DirectOp) (b : DirectBus) : list DirectAnswer :=
  match os with [] => [] | o :: os => let '(b, a) := direct_op b o in a :: direct_ops os b end.

(** the same on a plain list of messages *)
Fixpoint queue_ops (os : list DirectOp) (q : list KernelMsg) : list DirectAnswer :=
  match os with
  | [] => []
  | DSend m :: os => Sent (Ok tt) :: queue_ops os (q ++ [m])
  | DRecv :: os => Got (fire_and_forget <$> head q) :: queue_ops os (tail q)
  | DTryRecv :: os => Tried (ok_or Full (fire_and_forget <$> head q)) :: queue_ops os (tail q)
  end.
End Requests.
Arguments make_all {C _} l n.

Section Promises.
Context {C : Set -> Set} `{!Channel C, !ChannelOk C}.

Lemma direct_ops_queue os : forall (b : C Envelope) q, connected b = true -> queued b = fire_and_forget <$> q ->
  direct_ops os b = queue_ops os q.
Proof.
  induction os as [|[m| |] os IH]; intros b q Hc Hq; [done| | |]; cbn [direct_ops queue_ops direct_op].
  - destruct (send_connected (fire_and_forget m) b Hc) as (b' & E & Hq' & Hc'). unfold direct_send. rewrite E.
    f_equal. apply IH; [done|]. rewrite Hq', Hq, fmap_app. done.
  - unfold direct_recv. destruct q as [|m q].
    + rewrite recv_empty by done. f_equal. by apply (IH b []).
    + destruct (recv_first _ _ b Hq) as (b' & E & Hq' & Hc'). rewrite E. cbn. f_equal. apply IH; [congruence|done].
  - unfold direct_try_recv. destruct q as [|m q].
    + rewrite recv_empty by done. cbn. f_equal. by apply (IH b []).
    + destruct (recv_first _ _ b Hq) as (b' & E & Hq' & Hc'). rewrite E. cbn. f_equal. apply IH; [congruence|done].
Qed.

(** Property: the direct bus is a queue: whatever is sent and received on a new
    one, every send succeeds, and the receivers get the messages in the order of
    sending, each once; a receiver that finds none waits or is told [Full]. *)
Theorem direct_bus_is_queue os : direct_ops os (DirectBus_new (C := C)) = queue_ops os [].
Proof. apply direct_ops_queue; apply unbounded_new. Qed.

(** ** Requests *)

Lemma make_all_spec l : forall (n : Net C) n' rs, next_request_id n < 2 ^ 64 -> make_all l n = (n', rs) ->
  responses n' = responses n ++ replicate (length l) unbounded /\
  rs = imap (fun i e => {| req_id := (next_request_id n + N.of_nat i) mod 2 ^ 64; req_message := fst e;
                           req_channel := (length (responses n) + i)%nat; timeout_ms := snd e |}) l.
Proof.
  induction l as [|[m t] l IH]; intros n n' rs Hn; cbn [make_all].
  - intros [= <- <-]. by rewrite app_nil_r.
  - unfold make_request, generate_request_id, set_responses. cbn [responses subscribers next_request_id].
    set (n1 := Build_Net _ _ _). destruct (make_all l n1) as [n2 rs2] eqn:E. intros [= <- <-].
    assert (Hw : next_request_id n1 = (next_request_id n + 1) mod 2 ^ 64) by done.
    destruct (IH n1 n2 rs2) as [H1 H2]; [rewrite Hw; by apply N.mod_lt|done|]. split.
    + rewrite H1. unfold n1. cbn [responses]. rewrite <- app_assoc. done.
    + rewrite H2, imap_cons. cbn [fst snd]. f_equal.
      * rewrite N.add_0_r, Nat.add_0_r, N.mod_small by done. done.
      * apply imap_ext. intros i [m' t'] _. cbn [compose]. rewrite Hw. unfold n1. cbn [responses fst snd]. f_equal.
        -- rewrite N.Div0.add_mod_idemp_l. f_equal. lia.
        -- rewrite length_app. cbn. lia.
Qed.

(** what is answered to the request [i], in order *)
Definition answers_to (i : nat) (r : RequestWithResponse) (l : list (nat * Response)) : list BusResponse :=
  (fun a => {| resp_request_id := req_id r; payload := snd a |}) <$> filter (fun a => fst a = i) l.

Lemma answer_channel rs (n : Net C) a i r c :
  (forall j k rj rk, rs !! j = Some rj -> rs !! k = Some rk -> req_channel rj = req_channel rk -> j = k) ->
  rs !! i = Some r -> responses n !! req_channel r = Some c -> connected c = true ->
  exists c', responses (answer rs n a) !! req_channel r = Some c' /\ connected c' = true /\
    queued c' = queued c ++ answers_to i r [a].
Proof.
  intros Hinj Hr Hc Hcon. destruct a as [j x]. unfold answer. cbn [fst snd].
  assert (E : forall rj, fst (match x with Ok d => req_respond_success d rj n | Err e => req_respond_error e rj n end)
      = fst (send_response (req_channel rj) {| resp_request_id := req_id rj; payload := x |} n)) by (by intros; destruct x).
  unfold answers_to. rewrite list.filter_cons. cbn [fst]. case_decide as Hij.
  - subst j. rewrite Hr, E. unfold send_response. rewrite Hc.
    destruct (send_connected {| resp_request_id := req_id r; payload := x |} c Hcon) as (c' & Es & Hq & Hc'). rewrite Es.
    exists c'. split; [|by split]. cbn. apply list_lookup_insert_eq. by eapply lookup_lt_Some.
  - exists c. rewrite app_nil_r. split; [|done]. destruct (rs !! j) as [rj|] eqn:Hj; [|done]. rewrite E. unfold send_response.
    destruct (responses n !! req_channel rj) as [cj|]; [|done]. destruct (try_send _ cj) as [cj' ok]. cbn.
    rewrite list_lookup_insert_ne; [done|]. intros Heq. apply Hij. by eapply Hinj.
Qed.

Lemma answers_channel rs l : forall (n : Net C) i r c,
  (forall j k rj rk, rs !! j = Some rj -> rs !! k = Some rk -> req_channel rj = req_channel rk -> j = k) ->
  rs !! i = Some r -> responses n !! req_channel r = Some c -> connected c = true ->
  exists c', responses (foldl (answer rs) n l) !! req_channel r = Some c' /\ queued c' = queued c ++ answers_to i r l.
Proof.
  induction l as [|a l IH]; intros n i r c Hinj Hr Hc Hcon; cbn [foldl]; [exists c; by rewrite app_nil_r|].
  destruct (answer_channel rs n a i r c Hinj Hr Hc Hcon) as (c1 & H1 & H2 & H3).
  destruct (IH (answer rs n a) i r c1 Hinj Hr H1 H2) as (c2 & H4 & H5). exists c2. split; [done|].
  rewrite H5, H3, <- app_assoc. f_equal. unfold answers_to. rewrite <- fmap_app, <- list.filter_app. done.
Qed.

(** Property: requests are answered apart.  However many requests are made, with
    or without a time limit, they keep their messages and have different numbers
    (as long as the 64-bit counter does not come round), and whatever answers
    they get in whatever order, the channel of each holds exactly the answers to
    it, in order and with its number. *)
Theorem requests_answered_apart (n : Net C) l n1 rs al : next_request_id n < 2 ^ 64 -> make_all l n = (n1, rs) ->
  (fun r => (req_message r, timeout_ms r)) <$> rs = l /\
  (N.of_nat (length l) <= 2 ^ 64 -> NoDup (req_id <$> rs)) /\
  forall i r, rs !! i = Some r ->
    exists c, responses (foldl (answer rs) n1 al) !! req_channel r = Some c /\ queued c = answers_to i r al.
Proof.
  intros Hn E. destruct (make_all_spec l n n1 rs Hn E) as [Hresp Hrs].
  assert (Hget : forall i r, rs !! i = Some r -> (i < length l)%nat /\ req_channel r = (length (responses n) + i)%nat /\
                   req_id r = (next_request_id n + N.of_nat i) mod 2 ^ 64).
  { intros i r H. rewrite Hrs, list_lookup_imap in H. destruct (l !! i) as [e|] eqn:He; [|done]. cbn in H.
    injection H as <-. split; [by eapply lookup_lt_Some|done]. }
  split; [|split].
  - rewrite Hrs. apply list_eq. intros i. rewrite list_lookup_fmap, list_lookup_imap. by destruct (l !! i) as [[]|].
  - intros Hl. apply NoDup_alt. intros i j x. rewrite !list_lookup_fmap. intros Hi Hj.
    destruct (rs !! i) as [ri|] eqn:Ei; [|done]. destruct (rs !! j) as [rj|] eqn:Ej; [|done]. cbn in Hi, Hj.
    destruct (Hget i ri Ei) as (Hli & _ & Hidi). destruct (Hget j rj Ej) as (Hlj & _ & Hidj).
    assert (Heq : (next_request_id n + N.of_nat i) mod 2 ^ 64 = (next_request_id n + N.of_nat j) mod 2 ^ 64) by congruence.
    clear - Heq Hn Hl Hli Hlj. revert Heq Hn Hl. generalize (next_request_id n). intros x.
    set (M := 2 ^ 64). assert (HM : 0 < M) by done. clearbody M. intros Heq Hn Hl.
    assert (Hw : forall k, (k < length l)%nat -> (x + N.of_nat k) mod M = if x + N.of_nat k <? M then x + N.of_nat k else x + N.of_nat k - M).
    { intros k Hk. destruct (N.ltb_spec (x + N.of_nat k) M); [by apply N.mod_small|].
      replace (x + N.of_nat k) with (x + N.of_nat k - M + 1 * M) at 1 by lia. rewrite N.Div0.mod_add. apply N.mod_small. lia. }
    rewrite !Hw in Heq by done. destruct (N.ltb_spec (x + N.of_nat i) M), (N.ltb_spec (x + N.of_nat j) M); lia.
  - intros i r Hr. destruct (Hget i r Hr) as (Hli & Hch & _).
    destruct (answers_channel rs al n1 i r unbounded) as (c & H1 & H2); [|done| |apply unbounded_new|].
    + intros j k rj rk Hj Hk Heq. apply Hget in Hj as (_ & Hj & _). apply Hget in Hk as (_ & Hk & _). lia.
    + rewrite Hresp, Hch, lookup_app_r by lia. replace (length (responses n) + i - length (responses n))%nat with i by lia.
      by apply lookup_replicate_2.
    + exists c. split; [done|]. rewrite H2. by rewrite (proj1 unbounded_new).
Qed.
End Promises.

Definition demo_requests : list (KernelMsg * option N) := [(MsgMemory GetFrameMap, None); (MsgInterrupt Timer, Some 5000)].
Lemma requests_answered_apart_witness :
  let '(n1, rs) := make_all demo_requests (LockedBus_new (C := ListChannel)) in
  exists r c, rs !! 1%nat = Some r /\ responses (foldl (answer rs) n1 [(1%nat, Ok (RPid 7)); (0%nat, Err RespTimeout)]) !! req_channel r = Some c /\
    queued c = [success 2 (RPid 7)].
Proof.
  destruct (make_all demo_requests (LockedBus_new (C := ListChannel))) as [n1 rs] eqn:E.
  destruct (requests_answered_apart LockedBus_new demo_requests n1 rs [(1%nat, Ok (RPid 7)); (0%nat, Err RespTimeout)] eq_refl E) as (_ & _ & H).
  injection E as <- <-. destruct (H 1%nat _ eq_refl) as (c & H1 & H2). eexists _, c. split; [reflexivity|]. split; [exact H1|]. exact H2.
Defined.
