(* ===== verification/TestsProcess.v ===== *)
(** * The unit tests of the process subsystem (src/src/services/process) *)
From Stdlib Require String.
Import (notations) String.
From S2P Require Import Prelude Types Messages Testing.
From S2P Require Assembler Cpu Sync Sched Ipc Pcb Errors.

(** ** sync.rs *)

Section SyncTests.
Import Sync.

Definition test_semaphore_basic : bool := test (Semaphore_new 1 100 2) [
  sees value 2;
  gives wait SAcquired; sees value 1;
  gives wait SAcquired; sees value 0;
  gives wait SWouldBlock;
  gives signal SReleased; sees value 1;
  gives signal SReleased; sees value 2].

Definition test_semaphore_try_wait : bool := test (Semaphore_new 1 100 1) [
  gives try_wait SAcquired;
  gives try_wait SWouldBlock;
  gives signal SReleased;
  gives try_wait SAcquired].

Definition test_semaphore_reset : bool := test (Semaphore_new 1 100 5) [
  does_ wait; does_ wait; does_ wait;
  sees value 2;
  gives reset SReset; sees value 5].

Definition test_bounded_semaphore : bool := test (with_max 1 100 1 3) [
  sees value 1;
  gives signal SReleased; sees value 2;
  gives signal SReleased; sees value 3;
  gives signal SOverflow; sees value 3].

Definition test_semaphore_invalid : bool := test (Semaphore_new 1 100 1) [
  does sem_invalidate;
  sees sem_valid false;
  gives wait SInvalid;
  gives signal SInvalid].

Definition test_mutex_basic : bool := test (MutexLock_new 1 100 false) [
  sees is_locked false; sees owner None;
  gives (try_acquire 100) MAcquired;
  sees is_locked true; sees owner (Some 100); sees lock_count 1;
  gives (try_acquire 100) MDeadlock;
  gives (try_acquire 200) MWouldBlock;
  gives (release 100) MReleased;
  sees is_locked false].

Definition test_recursive_mutex : bool := test (MutexLock_new 1 100 true) [
  gives (try_acquire 100) MAcquired; sees lock_count 1;
  gives (try_acquire 100) MAcquired; sees lock_count 2;
  gives (try_acquire 100) MAcquired; sees lock_count 3;
  gives (release 100) MReleased; sees lock_count 2; sees is_locked true;
  gives (release 100) MReleased; sees lock_count 1; sees is_locked true;
  gives (release 100) MReleased; sees lock_count 0; sees is_locked false].

Definition test_mutex_not_owner : bool := test (MutexLock_new 1 100 false) [
  gives (try_acquire 100) MAcquired;
  gives (release 200) MNotOwner].

Definition test_mutex_invalid : bool := test (MutexLock_new 1 100 false) [
  does lock_invalidate;
  sees lock_valid false;
  gives (try_acquire 100) MInvalid;
  gives (release 100) MInvalid].

Definition test_sync_manager : bool := test SyncManager_new [
  letting (fun m => create_semaphore m 100 5) (fun sem_id => [
    sees (fun _ => sem_id) 1;
    sees (fun m => value <$> (get_semaphore m sem_id ≫= deref_sem m)) (Some 5);
    letting (fun m => create_mutex m 100 false) (fun mutex_id => [
      sees (fun _ => mutex_id) 1;
      affirms (fun m => is_some (get_mutex m mutex_id))]);
    gives (fun m => destroy_semaphore m sem_id) true;
    affirms (fun m => is_none (get_semaphore m sem_id))])].

Definition test_wait_count : bool := test (Semaphore_new 1 100 0) [
  gives wait SWouldBlock;
  gives wait SWouldBlock;
  sees sem_wait_count 2;
  gives signal SReleased;
  sees sem_wait_count 1].

Definition test_mutex_wait_count : bool := test (MutexLock_new 1 100 false) [
  does_ (try_acquire 100);
  does_ (acquire 200);
  does_ (acquire 300);
  sees lock_wait_count 2].

Definition test_semaphore_wait_acquires_then_blocks : bool := test (Semaphore_new 0 0 1) [
  gives wait SAcquired;
  gives wait SWouldBlock].

Definition test_semaphore_signal_increments : bool := test (Semaphore_new 0 0 1) [
  does_ wait;
  does_ signal;
  gives wait SAcquired].

Definition test_semaphore_binary_mutex_behavior : bool := test (Semaphore_new 0 0 1) [
  gives wait SAcquired;
  gives wait SWouldBlock;
  does_ signal;
  gives wait SAcquired].
End SyncTests.

(** ** scheduler.rs *)

Section SchedTests.
Import Sched.

#[local] Instance SchedulingDecision_eq_dec : EqDecision SchedulingDecision.
Proof. solve_decision. Defined.

Let on (cpu : N) (s : Scheduler) := schedule s cpu.
Let first (pid : Pid) (s : Scheduler) := ready s pid 1 128.
Let picks (cpu : N) (pid : Pid) := yields (on cpu) (Run pid 1).

Definition test_smp_schedule_two_cpus : bool := test (new (RoundRobin 3) 2) [
  does (first 1); does (first 2);
  picks 0 1; picks 1 2].

Definition test_quantum_expiry : bool := test (new (RoundRobin 2) 1) [
  does (first 1); does (first 2);
  picks 0 1; picks 0 1; picks 0 2].

Definition test_smp_dedup_prevented_by_yield : bool := test (new (RoundRobin 3) 2) [
  does (first 1); does (first 2);
  picks 0 1;
  yields (fun s => yield_current s 1) (Run 2 1)].

Definition test_empty_queue_returns_idle : bool := test (new (RoundRobin 3) 2) [
  yields (on 0) Idle; yields (on 1) Idle].

Definition test_remove_from_cpu_and_queue : bool := test (new (RoundRobin 3) 2) [
  does (first 1); does (first 2);
  runs_ (on 0);
  gives (fun s => remove s 1 1) true;
  sees (fun s => current_on s 0) None;
  picks 0 2].

Definition test_block_is_alias_for_remove : bool := test (new (RoundRobin 3) 1) [
  does (first 1);
  runs_ (on 0);
  gives (fun s => block s 1 1) true;
  sees ready_count 0].

Definition test_round_robin_three_processes : bool := test (new (RoundRobin 2) 1) [
  does (first 1); does (first 2); does (first 3);
  picks 0 1; picks 0 1;
  picks 0 2; picks 0 2;
  picks 0 3; picks 0 3;
  picks 0 1].

Definition test_smp_two_cpus_full_round : bool := test (new (RoundRobin 3) 2) [
  does (first 1); does (first 2); does (first 3);
  picks 0 1; picks 1 2;
  picks 0 1; picks 1 2;
  picks 0 1; picks 1 2;
  picks 0 3; picks 1 1].

Definition test_yield_current_requeues_and_picks_next : bool := test (new (RoundRobin 3) 1) [
  does (first 1); does (first 2); does (first 3);
  picks 0 1;
  yields (fun s => yield_current s 0) (Run 2 1);
  sees ready_count 2].

Definition test_remove_nonexistent_returns_false : bool := test (new (RoundRobin 3) 1) [
  gives (fun s => remove s 99 1) false].

Definition test_new_process_joins_back_of_queue : bool := test (new (RoundRobin 3) 1) [
  does (first 1); does (first 2);
  runs_ (on 0);
  does (first 3);
  runs_ (on 0); runs_ (on 0);
  picks 0 2].

Definition test_block_removes_from_cpu_and_ready_queue : bool := test (new (RoundRobin 3) 2) [
  does (first 1); does (first 2); does (first 3);
  picks 0 1; picks 1 2;
  gives (fun s => block s 1 1) true;
  sees (fun s => current_on s 0) None;
  sees ready_count 1].

Definition test_blocked_not_returned_on_expiry : bool := test (new (RoundRobin 3) 1) [
  does (first 1); does (first 2);
  runs_ (on 0); does_ (fun s => block s 1 1);
  runs_ (on 0); runs_ (on 0);
  picks 0 2].

Definition test_unblock_readds_to_queue : bool := test (new (RoundRobin 3) 1) [
  does (first 1); does (first 2);
  runs_ (on 0); does_ (fun s => block s 1 1);
  does (first 1);
  sees ready_count 2].

Definition run_pid (d : SchedulingDecision) : option Pid := match d with Run p _ => Some p | _ => None end.
Definition test_two_cpus_different_pids : bool := test (new (RoundRobin 3) 2) [
  does (first 1); does (first 2); does (first 3);
  (fun s => '(s, d0) ← on 0 s; '(s, d1) ← on 1 s;
            match run_pid d0, run_pid d1 with
            | Some p0, Some p1 => if p0 =? p1 then Panicked else Done s
            | _, _ => Panicked
            end)].

Definition test_blocked_skipped_by_dequeue : bool := test (new (RoundRobin 3) 2) [
  does (first 1); does (first 2); does (first 3);
  picks 0 1; picks 1 2;
  does_ (fun s => block s 1 1);
  runs_ (on 0); runs_ (on 0); runs_ (on 0);
  picks 0 3].
End SchedTests.

(** ** ipc.rs *)

#[export] Instance IPCMessage_eq_dec : EqDecision IPCMessage.
Proof. solve_decision. Defined.

Section IpcTests.
Import Ipc.

#[local] Instance QueueError_eq_dec : EqDecision QueueError.
Proof. solve_decision. Defined.
#[local] Instance IPCError_eq_dec : EqDecision IPCError.
Proof. solve_decision. Defined.

Definition is_text (m : IPCMessage) : bool := match m with Text _ => true | _ => false end.

Definition test_message_queue_send_receive : bool :=
  let msg := Text "Hello" in
  test (MessageQueue_new 1 10) [
    returns (fun q => send q 2 1 msg) is_ok;
    sees queue_len 1;
    (fun q => '(q, received) ← unwrapping_some receive q;
              if (from_pid received =? 2) && (from_tid received =? 1) && is_text (message received) then Done q else Panicked);
    affirms is_empty].

Definition test_message_queue_capacity : bool :=
  let msg := Text "test" in
  test (MessageQueue_new 1 2) [
    returns (fun q => send q 2 1 msg) is_ok;
    returns (fun q => send q 2 1 msg) is_ok;
    sees queue_len 2;
    gives (fun q => send q 2 1 msg) (Err Full)].

Definition test_message_queue_peek : bool :=
  let msg := Text "Hello" in
  test (MessageQueue_new 1 10) [
    runs_ (unwrapping (fun q => send q 2 1 msg));
    affirms (fun q => match peek q with Some peeked => is_text (message peeked) | None => false end);
    sees queue_len 1;
    runs_ (unwrapping_some receive);
    sees queue_len 0].

Definition test_message_queue_stats : bool := test (MessageQueue_new 1 10) [
  runs_ (unwrapping (fun q => send q 2 1 (Text "msg1")));
  runs_ (unwrapping (fun q => send q 3 1 (Text "msg2")));
  sees total_sent 2; sees total_received 0;
  does_ receive;
  sees total_received 1].

Definition test_shared_memory_region : bool := test (SharedMemoryRegion_new 1 100 4096 0x1000 MemProt_read_write) [
  sees shmid 1; sees creator_pid 100; sees region_size 4096; sees ref_count 0;
  does (attach 100 0x5000);
  sees ref_count 1; affirms (is_attached 100); sees (get_vaddr 100) (Some 0x5000);
  does (attach 200 0x6000);
  sees ref_count 2;
  gives (detach 100) true;
  sees ref_count 1; sees (is_attached 100) false;
  gives (detach 999) false].

Definition test_shared_memory_deletion : bool := test (SharedMemoryRegion_new 1 100 4096 0x1000 MemProt_read_write) [
  sees can_delete false;
  does mark_for_deletion;
  affirms marked_for_deletion;
  affirms can_delete;
  does (attach 100 0x5000);
  sees can_delete false;
  does_ (detach 100);
  affirms can_delete].

Definition test_ipc_manager : bool :=
  let waiting r m := queue_len <$> queue_store m !! r in
  test IPCManager_new [
    letting (fun m => ensure_message_queue m 100) (fun queue => [
      (fun m => match on_queue m queue (fun q => send q 200 1 (Text "test")) with Some (m, Ok _) => Done m | _ => Panicked end);
      letting (fun m => get_message_queue m 100) (fun queue2 => [
        affirms (fun m => is_some (waiting queue m) && bool_decide (waiting queue m = waiting queue2 m))])]);
    letting (fun m => create_shared_memory m 100 4096 0x1000 MemProt_read_only) (fun id => [
      sees (fun _ => id) 1;
      affirms (fun m => is_some (get_shared_memory m id));
      returns (fun m => attach_shared_memory m id 100 0x5000) is_ok;
      returns (fun m => detach_shared_memory m id 100) is_ok;
      returns (fun m => mark_shared_memory_for_deletion m id) is_ok;
      gives cleanup_shared_memory [id]])].

Definition test_multiple_shared_memory_regions : bool := test IPCManager_new [
  letting (fun m => create_shared_memory m 100 4096 0x1000 MemProt_read_only) (fun shmid1 => [
  letting (fun m => create_shared_memory m 100 8192 0x2000 MemProt_read_write) (fun shmid2 => [
  letting (fun m => create_shared_memory m 200 2048 0x3000 MemProt_read_only) (fun shmid3 => [
    sees (fun _ => [shmid1; shmid2; shmid3]) [1; 2; 3];
    getting list_shared_memory (fun l => [
      sees (fun _ => len l) 3;
      affirms (fun _ =>
        match list_find (fun '(id, _) => id = shmid2) l with
        | Some (_, (_, info)) => (info_size info =? 8192) && (info_creator_pid info =? 100)
        | None => false
        end)])])])])].

Definition test_attached_pids : bool := test (SharedMemoryRegion_new 1 100 4096 0x1000 MemProt_read_write) [
  does (attach 100 0x5000); does (attach 200 0x6000); does (attach 300 0x7000);
  getting attached_pids (fun pids => [
    sees (fun _ => len pids) 3;
    affirms (fun _ => bool_decide (100 ∈ pids));
    affirms (fun _ => bool_decide (200 ∈ pids));
    affirms (fun _ => bool_decide (300 ∈ pids))])].

Definition test_ipc_error_display : bool :=
  all [bool_decide (Errors.ipc_error_text (RegionNotFound 42) = Assembler.B "Shared memory region 42 not found");
       bool_decide (Errors.ipc_error_text IpcPermissionDenied = Assembler.B "Permission denied")].
End IpcTests.

(** ** pcb.rs *)

Section PcbTests.
Import Pcb.

#[local] Instance FileDescriptor_eq_dec : EqDecision FileDescriptor.
Proof. assert (EqDecision FDType) by solve_decision. solve_decision. Defined.

Let B := Assembler.B.
Let test_process := PCB_new 1 (B "test") None.

Definition test_pcb_creation : bool := test test_process [
  sees pid 1; sees name (B "test"); sees parent_pid None; sees state Creating; sees thread_count 0].

Definition test_pcb_with_parent : bool := test (PCB_new 2 (B "child") (Some 1)) [
  sees pid 2; sees parent_pid (Some 1)].

(** [pcb.state = ..], which is not a call *)
Definition assign_state (st : ProcessState) (p : PCB) : PCB := with_state p st (exit_code p) (threads p).

Definition test_add_thread : bool := test test_process [
  does (assign_state Ready);
  does (add_thread (TCB_new 1 0x1000 0xFFFFFFFFFFFFF000));
  sees thread_count 1; sees main_tid (Some 1); sees current_tid (Some 1)].

Definition test_process_state_transitions : bool := test test_process [
  does (assign_state Ready);
  does (add_thread (TCB_new 1 0x1000 0xFFFFFFFFFFFFF000));
  does (set_state Ready); affirms pcb_is_runnable;
  does (block (Sleeping 100)); affirms (fun p => is_blocked (state p));
  does unblock; affirms pcb_is_runnable;
  does (terminate 0); affirms (fun p => is_terminated (state p)); sees exit_code (Some 0%Z)].

Definition test_message_queue : bool :=
  let msg1 := Text "Hello" in
  let msg2 := Text "World" in
  test test_process [
    sees message_count 0; sees peek_message None;
    does (enqueue_message msg1); does (enqueue_message msg2);
    sees message_count 2;
    sees peek_message (Some msg1);
    sees message_count 2;
    gives dequeue_message (Some msg1);
    gives dequeue_message (Some msg2);
    sees message_count 0].

Definition test_signals : bool := test test_process [
  does (add_signal SigTerminate);
  does (add_signal SigUser1);
  gives take_signal (Some SigUser1);
  gives take_signal (Some SigTerminate);
  gives take_signal None].

Definition test_file_descriptors : bool :=
  let file_desc := {| fd_path := B "/test"; fd_flags := 0; fd_offset := 0; fd_read := true; fd_write := false; fd_type := RegularFile |} in
  test test_process [
    letting allocate_fd (fun fd1 => [
    letting allocate_fd (fun fd2 => [
      sees (fun _ => (fd1, fd2)) (3, 4);
      does (add_fd fd1 file_desc);
      sees (get_fd fd1) (Some file_desc);
      sees (get_fd fd2) None;
      gives (remove_fd fd1) (Some file_desc);
      sees (get_fd fd1) None])])].

Definition test_tcb_state_transitions : bool := test (TCB_new 1 0x1000 0xFFFFFFFFFFFFF000) [
  does (tcb_set_state TReady); affirms tcb_is_runnable;
  does (tcb_block (Sleeping 100)); affirms tcb_is_blocked; sees block_reason (Some (Sleeping 100));
  does tcb_unblock; affirms tcb_is_runnable; sees block_reason None].

Definition test_cpu_state_save_restore : bool :=
  let saved := {| Cpu.s_registers := [1; 2; 3; 4]; Cpu.s_pc := 0x1000; Cpu.s_sp := 0xFFFFFFFFFFFFF000;
                  Cpu.s_flags := Cpu.CPUFlags_new; Cpu.s_halted := false; Cpu.s_current_pid := 1;
                  Cpu.s_instruction_count := 100; Cpu.s_pagefault_pending := false |} in
  test (TCB_new 1 0x1000 0xFFFFFFFFFFFFF000) [
    returns take_cpu_state is_none;
    does (save_cpu_state saved);
    affirms (fun t => is_some (cpu_state t));
    (fun t => '(t, restored) ← unwrapping_some take_cpu_state t;
              if bool_decide (Cpu.s_registers restored = Cpu.s_registers saved) && (Cpu.s_pc restored =? Cpu.s_pc saved)
              then Done t else Panicked);
    affirms (fun t => is_none (cpu_state t))].

Definition test_multiple_threads : bool := test test_process [
  does (add_thread (TCB_new 1 0x1000 0xFFFFFFFFFFFFF000));
  does (add_thread (TCB_new 2 0x2000 0xFFFFFFFFFFFFE000));
  does (add_thread (TCB_new 3 0x3000 0xFFFFFFFFFFFFD000));
  sees thread_count 3; sees main_tid (Some 1);
  affirms (fun p => is_some (get_thread 1 p));
  affirms (fun p => is_some (get_thread 2 p));
  affirms (fun p => is_none (get_thread 99 p));
  returns (remove_thread 2) (fun removed => match removed with Some t => tid t =? 2 | None => false end);
  sees thread_count 2].

(** [pcb.env.insert(..)] *)
Definition insert_env (k v : list N) (p : PCB) : PCB :=
  {| pid := pid p; parent_pid := parent_pid p; state := state p; priority := priority p; threads := threads p;
     main_tid := main_tid p; current_tid := current_tid p; message_queue := message_queue p; shared_memory := shared_memory p;
     pending_signals := pending_signals p; signal_mask := signal_mask p; exit_code := exit_code p; stats := stats p;
     name := name p; args := args p; working_dir := working_dir p; env := <[k := v]> (env p);
     file_descriptors := file_descriptors p; next_fd := next_fd p |}.

Definition test_environment_variables : bool := test test_process [
  does (insert_env (B "PATH") (B "/bin:/usr/bin"));
  does (insert_env (B "HOME") (B "/root"));
  sees (fun p => env p !! B "PATH") (Some (B "/bin:/usr/bin"));
  sees (fun p => size (env p)) 2%nat].

Definition test_zombie_state : bool := test (PCB_new 2 (B "child") (Some 1)) [
  does (terminate 42);
  does (assign_state (Zombie 42));
  affirms (fun p => is_terminated (state p));
  sees exit_code (Some 42%Z)].
End PcbTests.

(** ** All of them *)

Definition sync_tests : list bool :=
  [test_semaphore_basic; test_semaphore_try_wait; test_semaphore_reset; test_bounded_semaphore; test_semaphore_invalid;
   test_mutex_basic; test_recursive_mutex; test_mutex_not_owner; test_mutex_invalid; test_sync_manager; test_wait_count;
   test_mutex_wait_count; test_semaphore_wait_acquires_then_blocks; test_semaphore_signal_increments;
   test_semaphore_binary_mutex_behavior].
Definition scheduler_tests : list bool :=
  [test_smp_schedule_two_cpus; test_quantum_expiry; test_smp_dedup_prevented_by_yield; test_empty_queue_returns_idle;
   test_round_robin_three_processes; test_smp_two_cpus_full_round; test_yield_current_requeues_and_picks_next;
   test_remove_nonexistent_returns_false; test_new_process_joins_back_of_queue; test_blocked_not_returned_on_expiry;
   test_unblock_readds_to_queue; test_two_cpus_different_pids; test_blocked_skipped_by_dequeue].
(** these expect [remove] to answer true for a process that runs and does not wait *)
Definition failing_scheduler_tests : list bool :=
  [test_remove_from_cpu_and_queue; test_block_is_alias_for_remove; test_block_removes_from_cpu_and_ready_queue].
Definition ipc_tests : list bool :=
  [test_message_queue_send_receive; test_message_queue_capacity; test_message_queue_peek; test_message_queue_stats;
   test_shared_memory_region; test_shared_memory_deletion; test_ipc_manager; test_multiple_shared_memory_regions;
   test_attached_pids; test_ipc_error_display].
Definition pcb_tests : list bool :=
  [test_pcb_creation; test_pcb_with_parent; test_add_thread; test_process_state_transitions; test_message_queue; test_signals;
   test_file_descriptors; test_tcb_state_transitions; test_cpu_state_save_restore; test_multiple_threads;
   test_environment_variables; test_zombie_state].

(** Property: the definitions pass the unit tests of the four files, but for the test
    of a wall-clock time, and for three tests of the scheduler that fail: they take
    [remove] and [block] to say whether the process was known, and the code says
    whether it was in the ready queue. *)
Theorem process_unit_tests :
  all (sync_tests ++ scheduler_tests ++ ipc_tests ++ pcb_tests) = true /\ all (negb <$> failing_scheduler_tests) = true.
Proof. split; vm_compute; reflexivity. Qed.
