(* ===== verification/TestsMemory.v ===== *)
(** * The unit tests of the memory subsystem (src/src/services/memory)

    Assertions on percentages are left out.  The tests of swap.rs make a manager
    without a disk, as [SwapManager::new] did before it took one: here the disk is
    an argument of each test, and the theorem is about every disk.  Those of
    service.rs call older forms of [MemoryService::new] and [handle_alloc_frame]:
    the service is made by [new] from a memory of the size that the test names,
    whose bytes are an argument, and frames are allocated for process 0. *)
From Stdlib Require String.
Import (notations) String.
From S2P Require Import Prelude Types Messages Testing.
From S2P Require PhysMem Mmu Disk FrameAlloc Paging Swap MemService.

(** ** alloc.rs *)

Section AllocTests.
Import FrameAlloc.

Definition test_frame_creation : bool := test (Frame_new 0 0x1000 4096) [
  sees number 0; sees address 0x1000; sees frame_bytes 4096; affirms is_free].

Definition test_frame_allocate_free : bool := test (Frame_new 0 0x1000 4096) [
  affirms is_free;
  does (Frame_allocate 100);
  sees is_free false; sees owner (Some 100);
  does Frame_free;
  affirms is_free; sees owner None].

Definition test_frame_allocator_creation : bool := test_on (new (1024 * 1024) 4096) [
  sees total_frames 256; sees free_count 256; sees allocated_count 0].

Let allocates (pid : Pid) (P : option Frame -> bool) : Step FrameAllocator := fun a =>
  '(a, f) ← allocate a pid; if P f then Done a else Panicked.

Definition test_frame_allocate : bool := test_on (new (4096 * 10) 4096) [
  allocates 100 (fun frame =>
    match frame with Some f => (number f =? 0) && allocated f && bool_decide (owner f = Some 100) | None => false end);
  sees free_count 9; sees allocated_count 1].

Definition test_frame_free : bool := test_on (new (4096 * 10) 4096) [
  (fun a => '(a, f) ← allocate a 100;
            match f with
            | Some frame =>
                steps [sees free_count 9;
                       yields (fun a => free a (number frame)) true;
                       sees free_count 10; sees allocated_count 0] a
            | None => Panicked
            end)].

Definition test_exhaustion : bool := test_on (new (4096 * 2) 4096) [
  (fun a => '(a, f1) ← allocate a 100; '(a, f2) ← allocate a 200;
            match f1, f2 with
            | Some f1, Some _ =>
                steps [allocates 300 is_none;
                       yields (fun a => free a (number f1)) true;
                       allocates 300 is_some] a
            | _, _ => Panicked
            end)].

Definition test_memory_usage : bool := test_on (new (4096 * 10) 4096) [
  runs_ (fun a => allocate a 100); runs_ (fun a => allocate a 100); runs_ (fun a => allocate a 100);
  getting usage (fun usage => [
    sees (fun _ => u_total_frames usage) 10;
    sees (fun _ => u_free_frames usage) 7;
    sees (fun _ => u_allocated_frames usage) 3])].

Definition test_frames_by_owner : bool := test_on (new (4096 * 10) 4096) [
  runs_ (fun a => allocate a 100); runs_ (fun a => allocate a 100); runs_ (fun a => allocate a 100);
  runs_ (fun a => allocate a 200);
  sees (fun a => len (frames_by_owner a 100)) 3;
  sees (fun a => len (frames_by_owner a 200)) 1].

Definition test_free_by_owner : bool := test_on (new (4096 * 10) 4096) [
  runs_ (fun a => allocate a 100); runs_ (fun a => allocate a 100); runs_ (fun a => allocate a 200);
  gives (fun a => free_by_owner a 100) 2;
  sees free_count 9].

Let process_frames_are (pid : Pid) (n : N) : Step PhysicalMemoryManager := fun m =>
  fs ← get_process_frames m pid; if len fs =? n then Done m else Panicked.

Definition test_physical_memory_manager : bool := test_on (pmm_new (4096 * 100) 4096) [
  (fun m => '(m, frames) ← allocate_frames m 100 5; if len frames =? 5 then Done m else Panicked);
  process_frames_are 100 5;
  gives (fun m => free_process_frames m 100) 5;
  process_frames_are 100 0].

Definition test_frame_end_address : bool :=
  all [end_address (Frame_new 0 0x1000 4096) =? 0x2000; end_address (Frame_new 1 0x2000 8192) =? 0x4000].
End AllocTests.

(** ** paging.rs *)

Section PagingTests.
Import Paging.

Definition test_page_flags : bool :=
  test PageFlags_new [sees present false] &&
  test (from_prot MemProt_read_write) [
    affirms present; affirms writable; affirms user;
    sees (fun f => flags_check_access f Read) true;
    sees (fun f => flags_check_access f Write) true;
    sees (fun f => flags_check_access f Execute) false].

Definition test_page_flags_mark_accessed : bool := test (from_prot MemProt_read_write) [
  sees accessed false; does mark_accessed; affirms accessed].

Definition test_page_table_entry : bool :=
  test (PageTableEntry_new 0 100 0x1000 0x1000 4096 (from_prot MemProt_read_only)) [
    affirms entry_is_present; sees vpn 0; sees pfn 100;
    sees (fun e => entry_check_access e Read) true;
    sees (fun e => entry_check_access e Write) false].

(** [map(..).unwrap()] *)
Let maps (va : VirtAddr) (pa : PhysAddr) (prot : MemProt) : Step PageTable := fun t => unwrapped (map t va pa prot).
Let table := PageTable_new 100 4096 256.

Definition test_page_table : bool := test table [
  maps 0x1000 0x1000 MemProt_read_write;
  affirms (fun t => match lookup t 0x1000 with Some e => entry_is_present e | None => false end);
  affirms (fun t => match translate t 0x1000 Read with Ok phys => phys =? 0x1000 | Err _ => false end);
  (fun t => '(t, _) ← unwrapped (unmap t 0x1000); Done t);
  affirms (fun t => negb (is_ok (translate t 0x1000 Read)))].

Definition test_page_table_already_mapped : bool := test table [
  maps 0x1000 0x1000 MemProt_read_write;
  affirms (fun t => negb (is_ok (map t 0x1000 0x2000 MemProt_read_write)))].

Definition test_page_table_manager : bool := test (manager_new 4096 256) [
  does_ (fun m => create_table m 100);
  does_ (fun m => create_table m 200);
  sees (fun m => size (tables m)) 2%nat;
  affirms (fun m => is_some (get_table m 100));
  returns (fun m => remove_table m 100) is_some;
  affirms (fun m => is_none (get_table m 100))].

Definition test_page_table_stats : bool := test table [
  maps 0x1000 0x1000 MemProt_read_write; maps 0x2000 0x2000 MemProt_read_write; maps 0x3000 0x3000 MemProt_read_write;
  getting stats (fun stats => [
    sees (fun _ => st_pid stats) 100;
    sees (fun _ => st_mapped_pages stats) 3;
    sees (fun _ => st_total_pages stats) 256])].

Let translates (va : VirtAddr) (pa : PhysAddr) : Step PageTable :=
  affirms (fun t => match translate t va Read with Ok phys => phys =? pa | Err _ => false end).

Definition test_offset_translation : bool := test table [
  maps 0x1000 0x1000 MemProt_read_write;
  translates 0x1000 0x1000;
  translates (0x1000 + 100) (0x1000 + 100);
  affirms (fun t => negb (is_ok (translate t (0x1000 + 5000) Read)))].

Definition test_update_flags : bool := test table [
  maps 0x1000 0x1000 MemProt_read_write;
  (fun t => unwrapped (update_flags t 0x1000 (from_prot MemProt_read_only)));
  affirms (fun t => negb (is_ok (translate t 0x1000 Write)))].

Definition test_clear_page_table : bool := test table [
  maps 0x1000 0x1000 MemProt_read_write; maps 0x2000 0x2000 MemProt_read_write;
  sees mapped_count 2;
  does clear;
  sees mapped_count 0;
  affirms (fun t => is_none (lookup t 0x1000))].
End PagingTests.

(** ** swap.rs *)

Section SwapTests.
Import Swap.
Context (disk : Disk.VirtualDisk).

Let manager (n : N) := new {| total_size := 4096 * n; slot_size := 4096; max_slots := n |} disk.
Let by_default := new SwapConfig_default disk.
Let allocates_slot (pid : Pid) (v : N) (P : option SwapSlot -> bool) : Step SwapManager := fun m =>
  '(m, slot) ← allocate_slot m pid v; if P slot then Done m else Panicked.
Let takes (pid : Pid) (v : N) : Step SwapManager := runs_ (fun m => allocate_slot m pid v).
Let has_slots (pid : Pid) (n : N) : Step SwapManager := fun m =>
  slots ← get_process_slots m pid; if len slots =? n then Done m else Panicked.

Definition test_swap_slot : bool := test (SwapSlot_new 0 4096) [
  affirms slot_is_free; sees occupied false;
  does (occupy 100 5);
  affirms occupied; sees owner (Some 100); sees vpn (Some 5);
  does slot_free;
  affirms slot_is_free; sees owner None; sees vpn None].

Definition test_swap_manager : bool := test_on (manager 10) [
  sees total_slots 10; sees used_slots 0;
  (fun m => '(m, slot) ← allocate_slot m 100 1;
            match slot with
            | Some slot => steps [sees used_slots 1; yields (fun m => free_slot m (number slot)) true; sees used_slots 0] m
            | None => Panicked
            end)].

Definition test_swap_exhaustion : bool := test_on (manager 2) [
  (fun m => '(m, s1) ← allocate_slot m 100 1; '(m, s2) ← allocate_slot m 200 2;
            match s1, s2 with
            | Some s1, Some _ =>
                steps [allocates_slot 300 3 is_none;
                       yields (fun m => free_slot m (number s1)) true;
                       allocates_slot 300 3 is_some] m
            | _, _ => Panicked
            end)].

Definition test_swap_stats : bool := test_on (manager 100) [
  takes 100 1; takes 100 2; takes 100 3;
  getting stats (fun stats => [sees (fun _ => st_used_slots stats) 3; sees (fun _ => st_free_slots stats) 97])].

Definition test_process_slots : bool := test_on by_default [
  takes 100 1; takes 100 2; takes 200 1;
  has_slots 100 2; has_slots 200 1].

Definition test_free_process_slots : bool := test_on by_default [
  takes 100 1; takes 100 2; takes 200 1;
  yields (fun m => free_process_slots m 100) 2;
  has_slots 100 0].

Definition test_enable_disable : bool := test_on by_default [
  affirms enabled; does disable; sees enabled false; does enable; affirms enabled;
  does disable; allocates_slot 100 1 is_none].

Definition test_has_space : bool := test_on (manager 5) [
  affirms has_space;
  takes 100 1; takes 100 1; takes 100 1; takes 100 1; takes 100 1;
  sees has_space false;
  (fun m => slot ← get_slot m 0;
            match slot with Some slot => '(m, _) ← free_slot m (number slot); Done m | None => Panicked end);
  affirms has_space].

Definition test_swap_config_default : bool := test SwapConfig_default [
  sees total_size (1024 * 1024 * 1024); sees slot_size 4096; sees max_slots 262144].

Definition test_get_slot : bool := test_on by_default [
  (fun m => slot ← get_slot m 999999; if is_none slot then Done m else Panicked);
  (fun m => '(m, allocated) ← allocate_slot m 100 1;
            match allocated with
            | Some allocated =>
                retrieved ← get_slot m (number allocated);
                match retrieved with
                | Some retrieved => if number retrieved =? number allocated then Done m else Panicked
                | None => Panicked
                end
            | None => Panicked
            end)].
End SwapTests.

(** ** service.rs *)

Section ServiceTests.
Import MemService.
Context (bytes : list N).

Let service (memory_size : N) : outcome MemoryService :=
  let hw := {| PhysMem.data := bytes; PhysMem.size := memory_size |} in
  u ← Mmu.new hw 4096; new hw u [].
(** a handler that succeeds, and one that fails *)
Let done_by (h : H unit) : Step MemoryService := fun s =>
  match h (s, []) with Done ((s, _), Ok _) => Done s | _ => Panicked end.
Let refused (h : H unit) : Step MemoryService := fun s =>
  match h (s, []) with Done ((s, _), Err _) => Done s | _ => Panicked end.
Let mapped (s : MemoryService) (pid : Pid) : N :=
  match process_page_table_stats s pid with Some st => Paging.st_mapped_pages st | None => 0 end.

Definition test_memory_service_creation : bool := test_on (service (1024 * 1024)) [
  affirms (fun s => 0 <? FrameAlloc.u_total_frames (memory_usage s));
  affirms (fun s => 0 <? Swap.st_total_slots (swap_stats s))].

Definition test_alloc_frame : bool := test_on (service (4096 * 100)) [
  done_by (handle_alloc_frame 5 0);
  sees (fun s => FrameAlloc.u_allocated_frames (memory_usage s)) 5].

Definition test_map_page : bool := test_on (service (4096 * 100)) [
  done_by (handle_map_page 100 0x1000 0x1000 MemProt_read_write);
  affirms (fun s => is_some (process_page_table_stats s 100));
  sees (fun s => mapped s 100) 1].

Definition test_unmap_page : bool := test_on (service (4096 * 100)) [
  done_by (handle_map_page 100 0x1000 0x1000 MemProt_read_write);
  done_by (handle_unmap_page 100 0x1000);
  sees (fun s => Paging.st_mapped_pages <$> process_page_table_stats s 100) (Some 0)].

Definition test_page_fault_handling : bool := test_on (service (4096 * 10)) [
  done_by (handle_map_page 100 0x1000 0x1000 MemProt_read_write);
  refused (handle_page_fault 100 0x1000 Execute);
  done_by (handle_page_fault 100 0x2000 Read);
  affirms (fun s => 2 <=? mapped s 100)].

Definition test_swap_operations : bool := test_on (service (4096 * 100)) [
  done_by (handle_swap_out 100 0x1000);
  sees (fun s => Swap.st_used_slots (swap_stats s)) 1;
  done_by (handle_swap_in 100 0x1000);
  sees (fun s => Swap.st_used_slots (swap_stats s)) 0].

Definition test_memory_usage_stats : bool := test_on (service (4096 * 1000)) [
  getting memory_usage (fun usage => [
    sees (fun _ => FrameAlloc.u_total_frames usage) 1000;
    sees (fun _ => FrameAlloc.u_free_frames usage) 1000])].

Definition test_all_process_stats : bool := test_on (service (4096 * 1000)) [
  done_by (handle_map_page 100 0x1000 0x1000 MemProt_read_write);
  done_by (handle_map_page 100 0x2000 0x2000 MemProt_read_write);
  done_by (handle_map_page 200 0x1000 0x3000 MemProt_read_write);
  getting page_table_stats (fun all_stats => [
    affirms (fun _ => 2 <=? len all_stats);
    affirms (fun _ => match filter (fun e => fst e = 100) all_stats with
                      | [(_, st)] => Paging.st_mapped_pages st =? 2
                      | _ => false
                      end)])].

Definition test_free_frame : bool := test_on (service (4096 * 100)) [
  done_by (handle_alloc_frame 1 0);
  done_by (handle_free_frame 0x0)].

Definition test_swap_disabled : bool := test_on (service (4096 * 100)) [
  does (fun s => set_swap (Swap.disable (swap_manager s)) s);
  refused (handle_swap_out 100 0x1000)].

Definition test_multiple_process_page_tables : bool := test_on (service (4096 * 1000)) [
  done_by (handle_map_page 100 0x1000 0x1000 MemProt_read_write);
  done_by (handle_map_page 200 0x1000 0x2000 MemProt_read_write);
  done_by (handle_map_page 300 0x1000 0x3000 MemProt_read_write);
  affirms (fun s => 3 <=? len (page_table_stats s))].
End ServiceTests.

(** ** All of them *)

Definition alloc_tests : list bool :=
  [test_frame_creation; test_frame_allocate_free; test_frame_allocator_creation; test_frame_allocate; test_frame_free;
   test_exhaustion; test_memory_usage; test_frames_by_owner; test_free_by_owner; test_physical_memory_manager;
   test_frame_end_address].
Definition paging_tests : list bool :=
  [test_page_flags; test_page_flags_mark_accessed; test_page_table_entry; test_page_table; test_page_table_already_mapped;
   test_page_table_manager; test_page_table_stats; test_offset_translation; test_update_flags; test_clear_page_table].
Definition swap_tests (d : Disk.VirtualDisk) : list bool :=
  [test_swap_slot; test_swap_manager d; test_swap_exhaustion d; test_swap_stats d; test_process_slots d;
   test_free_process_slots d; test_enable_disable d; test_has_space d; test_swap_config_default; test_get_slot d].

Definition service_tests (bytes : list N) : list bool :=
  [test_memory_service_creation bytes; test_alloc_frame bytes; test_map_page bytes;
   test_page_fault_handling bytes; test_swap_operations bytes; test_memory_usage_stats bytes; test_all_process_stats bytes;
   test_free_frame bytes; test_swap_disabled bytes; test_multiple_process_page_tables bytes].

(** Property: the definitions pass the unit tests of the four files, but for one that
    fails: a request without response to map a page goes to the page tables of the
    service, and one to unmap it to those of the MMU, which know nothing of it. *)
Theorem memory_unit_tests d bytes :
  all (alloc_tests ++ paging_tests ++ swap_tests d ++ service_tests bytes) = true /\ test_unmap_page bytes = false.
Proof. split; vm_compute; reflexivity. Qed.
