(* ===== verification/TestsHardware.v ===== *)
(** * The unit tests of the hardware and the assembler (src/src/hardware, src/src/services/process/assembler.rs)

    The test that waits for the ticks of a timer thread is left out; the uptime in
    the text of a timer is an argument.  The image of a disk that does not exist is
    empty, and the image that one disk leaves is what the next one is made from. *)
From Stdlib Require String.
Import (notations) String.
From S2P Require Import Prelude Types Testing.
From S2P Require PhysMem Mmu Ivt Cpu Disk Block Timer HwDevices Dumps Assembler ProcService.

Notation "## s" := (Assembler.B s) (at level 1, only parsing).

(** ** memory.rs *)

Section MemoryTests.
Import PhysMem.
Let memory := new 4096.

Definition test_memory_creation : bool := test_on memory [sees size 4096].

Definition test_read_write_u8 : bool := test_on memory [
  (fun m => unwrapped (write_u8 m 0x100 0xAB));
  sees (fun m => read_u8 m 0x100) (Ok 0xAB)].

Definition test_read_write_u32 : bool := test_on memory [
  (fun m => unwrapped (write_u32 m 0x100 0xDEADBEEF));
  sees (fun m => read_u32 m 0x100) (Ok 0xDEADBEEF)].

Definition test_out_of_bounds : bool := test_on memory [
  affirms (fun m => match read_u8 m 4096 with Err (OutOfBounds _ _ _) => true | _ => false end)].

Definition test_misaligned_access : bool := test_on memory [
  affirms (fun m => match read_u32 m 0x101 with Err (Misaligned _ _) => true | _ => false end)].

Definition test_hexdump_format : bool := test_on (new 256) [
  runs (fun m => foldl (fun m i => m ← m; unwrapped (write_u8 m i i)) (Done m) (Disk.range 0 256));
  (fun m => dump ← Dumps.format_hexdump (Dumps.dump_state m) 0 16;
            if (0 <? len dump) && has_text ##":" dump then Done m else Panicked)].
End MemoryTests.

(** ** mmu.rs *)

Section MmuTests.
Import Mmu.

Let unit_under_test : outcome MMU := mem ← PhysMem.new (1024 * 1024); new mem 4096.
Let maps (fl : PageFlags) : Step MMU := does (fun u => map_page u 1 0x1000 0x5000 fl).
Let table : Step MMU := does (fun u => create_page_table u 1).
Let pages (u : MMU) : N := Dumps.page_count (Dumps.mmu_dump_state u 1).

Definition test_mmu_creation : bool := test_on unit_under_test [sees page_size 4096].

Definition test_page_table_creation : bool := test_on unit_under_test [
  does (fun u => create_page_table u 1); does (fun u => create_page_table u 2)].

Definition test_map_unmap_page : bool := test_on unit_under_test [
  table; maps present_readonly;
  sees pages 1;
  (fun u => unwrapped (unmap_page u 1 0x1000));
  sees pages 0].

Definition translated (v : VirtAddr) (p : PhysAddr) (u : MMU) : bool :=
  match translate u 1 v Read with Ok paddr => paddr =? p | Err _ => false end.
Definition test_translate_present_page : bool := test_on unit_under_test [
  table; maps present_readonly;
  affirms (translated 0x1000 0x5000);
  affirms (translated 0x10FF 0x50FF)].

Definition test_translate_not_present : bool := test_on unit_under_test [
  table;
  affirms (fun u => match translate u 1 0x1000 Read with Err (PageNotPresent _ _) => true | _ => false end)].

Definition test_permission_denied : bool := test_on unit_under_test [
  table; maps present_readonly;
  affirms (fun u => match translate u 1 0x1000 Write with Err (PermissionDenied _ _ _ _) => true | _ => false end)].

Definition test_read_write_virtual : bool := test_on unit_under_test [
  table; maps present_writable;
  (fun u => unwrapped (write_u32 u 1 0x1000 0xDEADBEEF));
  affirms (fun u => match read_u32 u 1 0x1000 with Ok value => value =? 0xDEADBEEF | Err _ => false end);
  affirms (fun u => match PhysMem.read_u32 (memory u) 0x5000 with Ok value => value =? 0xDEADBEEF | Err _ => false end)].
End MmuTests.

(** ** ivt.rs *)

Section IvtTests.
Import Ivt.

#[local] Instance InterruptVector_eq_dec : EqDecision InterruptVector.
Proof. solve_decision. Defined.
#[local] Instance InterruptType_eq_dec : EqDecision InterruptType.
Proof. solve_decision. Defined.

Definition test_vector_values : bool :=
  all [as_u8 DivideByZero =? 0x00; as_u8 PageFault =? 0x0E; as_u8 Timer =? 0x20; as_u8 Syscall =? 0x80].
Definition test_vector_roundtrip : bool :=
  all [bool_decide (from_u8 0x00 = Some DivideByZero); bool_decide (from_u8 0x0E = Some PageFault);
       bool_decide (from_u8 0x20 = Some Timer); bool_decide (from_u8 0x80 = Some Syscall); bool_decide (from_u8 0xFF = None)].
Definition test_interrupt_types : bool :=
  all [bool_decide (for_vector DivideByZero = Exception); bool_decide (for_vector Timer = Interrupt);
       bool_decide (for_vector Syscall = Trap)].
Definition test_ivt_format : bool :=
  all [bool_decide (Dumps.format_vector 0x00 = ##"DivideByZero (0x00) (0x00)");
       bool_decide (Dumps.format_vector 0xFF = ##"Unknown (0xff)")].
End IvtTests.

(** ** cpu.rs: the machine around the CPU does not matter *)

Section CpuTests.
Import Cpu.

Definition test_cpu_creation : bool := test (new 1) [sees current_pid 1; sees halted false].

Definition test_register_access : bool := test (new 1) [
  does (write_register R0 0xDEADBEEF);
  sees (fun c => read_register c R0) 0xDEADBEEF].

Definition test_halt : bool := test (new 1) [sees halted false; does halt; affirms halted].

Definition test_pc_sp : bool := test (new 1) [
  does (set_pc 0x1000); sees pc 0x1000;
  does (ProcService.set_sp 0x2000); sees sp 0x2000].

Definition test_save_restore_state : bool := test (new 1) [
  does (write_register R0 0x1111); does (write_register R1 0x2222); does (set_pc 0x3000); does (ProcService.set_sp 0x4000);
  getting save_state (fun state => [
    does (write_register R0 0x9999); does (set_pc 0x5000);
    does (restore_state state);
    sees (fun c => read_register c R0) 0x1111;
    sees (fun c => read_register c R1) 0x2222;
    sees pc 0x3000; sees sp 0x4000])].
End CpuTests.

(** ** block.rs, disk.rs *)

Section DiskTests.
Import Disk.

Definition test_block_constants : bool :=
  all [Block.SECTOR_SIZE =? 512; Block.BLOCK_SIZE =? 4096; Block.BLOCK_SIZE / Block.SECTOR_SIZE =? 8].

Definition test_partition_layout : bool :=
  let part1 := {| Block.number := 1; Block.start_block := 0; Block.partition_blocks := 1024;
                  Block.partition_type := Block.EXT4; Block.bootable := true |} in
  test [] [
    does (Block.add_partition part1);
    sees (@length Block.Partition) 1%nat;
    affirms (fun l => is_some (Block.get_partition 1 l));
    affirms (fun l => is_none (Block.get_partition 2 l))].

Let make_disk : outcome VirtualDisk := new 100 [].

Definition test_read_write_sector : bool := test_on make_disk [
  (fun d => unwrapped (write_sector d 5 (0xAB :: replicate 511 0)));
  affirms (fun d => match read_sector d 5 with Ok read => bool_decide (head read = Some 0xAB) | Err _ => false end)].

Definition test_alloc_free : bool := test_on make_disk [
  (fun d => '(d, s) ← unwrapping_some alloc_sector d;
            if 4 <=? s then steps [returns alloc_sector is_some; runs_ (unwrapping (fun d => free_sector d s))] d else Panicked)].

Definition test_persistence : bool := test_on make_disk [
  (fun d => unwrapped (write_sector d 8 (replicate 512 0x42)));
  (fun d => new 100 (file d));
  affirms (fun d => match read_sector d 8 with Ok read => bool_decide (head read = Some 0x42) | Err _ => false end)].
End DiskTests.

(** ** timer.rs *)

Section TimerTests.
Import Timer.
Let timer := new TimerConfig_default.

Definition test_timer_creation : bool := test timer [sees is_running false; sees tick_count 0].
Definition test_timer_start_stop : bool := test timer [
  does start; affirms is_running; does stop; sees is_running false].
Definition test_timer_pause_resume : bool := test timer [
  does start; does pause; sees is_running false; does resume; affirms is_running; does stop].
Definition test_timer_state_format (uptime : list N) : bool :=
  let formatted := Dumps.format_timer (dump_state timer) uptime in
  all [has_text ##"Stopped" formatted; has_text ##"10ms" formatted].
End TimerTests.

(** ** device.rs *)

Section DeviceTests.
Import HwDevices.

Definition test_keyboard_device : bool := test (KeyboardDevice_new 1) [
  sees device_id 1; sees device_type CharDevice; sees has_key false;
  does (key_press 65);
  affirms has_key; gives read_char (Some 65); sees has_key false].

Definition test_serial_device : bool := test (SerialDevice_new 2 115200) [
  sees device_id 2; sees device_type CharDevice;
  runs_ (unwrapping (write_byte 0x48)); runs_ (unwrapping (write_byte 0x65));
  sees get_tx_data [0x48; 0x65]].

Definition test_network_device : bool :=
  let mac := [0x52; 0x54; 0x00; 0x12; 0x34; 0x56] in
  let packet := [0x00; 0x01; 0x02; 0x03] in
  test (NetworkDevice_new 3 mac) [
    sees device_id 3; sees device_type NetworkDevice_; sees mac_address mac;
    runs_ (unwrapping (send_packet packet)); sees has_packet false;
    does (inject_packet packet); affirms has_packet;
    yields (unwrapping_some receive_packet) packet; sees has_packet false].

Definition test_device_registry : bool := test DeviceRegistry_new [
  letting (register_device (dyn (KeyboardDevice_new 10))) (fun id => [
    sees (fun _ => id) 1;
    sees (fun r => snap_device_type <$> reg_list_devices r) [CharDevice];
    affirms (fun r => is_some (get_device id r))])].
End DeviceTests.

(** ** assembler.rs *)

Section AssemblerTests.
Import Assembler.

Let word (code : list N) (i : N) : N := PhysMem.from_le_bytes (take 4 (drop (N.to_nat i) code)).
Let byte (code : list N) (i : N) : N := code !!! N.to_nat i.
(** the lines of a source *)
Let source (ls : list (list N)) : list N := l ← ls; l ++ [10].
Let on_code (ls : list (list N)) (P : list N -> list bool) : bool :=
  match assemble (source ls) with Ok code => all (P code) | Err _ => false end.

Definition test_assemble_add : bool :=
  on_code [ ##"MOV R0, #10"; ##"MOV R1, #20"; ##"ADD R2, R0"; ##"ADD R2, R1"; ##"HALT"] (fun code =>
    [len code =? 5 * 8; byte code 0 =? 0x01; byte code 1 =? 0; byte code 2 =? SRC_IMM; byte code 3 =? 0; word code 4 =? 10]).

Definition test_comments_and_empty_lines : bool :=
  on_code [ ##"; header"; ##"MOV R0, #1"; []; ##"; middle"; ##"HALT"] (fun code => [len code =? 2 * 8]).

Definition test_load_store : bool :=
  on_code [ ##"MOV R0, #72"; ##"STORE [0x200], R0"; ##"LOAD R1, [0x200]"; ##"HALT"] (fun code =>
    [len code =? 4 * 8;
     byte code 8 =? 0x07; byte code 9 =? 0; byte code 10 =? SRC_IMM; word code 12 =? 0x200;
     byte code 16 =? 0x06; byte code 17 =? 1; byte code 18 =? SRC_IMM; word code 20 =? 0x200]).
End AssemblerTests.

(** ** All of them *)

Definition memory_tests : list bool :=
  [test_memory_creation; test_read_write_u8; test_read_write_u32; test_out_of_bounds; test_misaligned_access; test_hexdump_format].
Definition mmu_tests : list bool :=
  [test_mmu_creation; test_page_table_creation; test_map_unmap_page; test_translate_present_page; test_translate_not_present;
   test_permission_denied; test_read_write_virtual].
Definition ivt_tests : list bool := [test_vector_values; test_vector_roundtrip; test_interrupt_types; test_ivt_format].
Definition cpu_tests : list bool := [test_cpu_creation; test_register_access; test_halt; test_pc_sp; test_save_restore_state].
Definition disk_tests : list bool :=
  [test_block_constants; test_partition_layout; test_read_write_sector; test_alloc_free; test_persistence].
Definition timer_tests : list bool :=
  [test_timer_creation; test_timer_start_stop; test_timer_pause_resume; test_timer_state_format ##"0.00"].
Definition device_tests : list bool := [test_keyboard_device; test_serial_device; test_network_device; test_device_registry].
Definition assembler_tests : list bool := [test_assemble_add; test_comments_and_empty_lines; test_load_store].

(** Property: the definitions pass the unit tests of the hardware and the assembler. *)
Theorem hardware_unit_tests :
  all (memory_tests ++ mmu_tests ++ ivt_tests ++ cpu_tests ++ disk_tests ++ timer_tests ++ device_tests ++ assembler_tests) = true.
Proof. vm_compute. reflexivity. Qed.
