(* ===== verification/TestsFile.v ===== *)
(** * The unit tests of the file subsystem (src/src/services/file)

    An [Arc<Mutex<File>>] of a test is an index in the list of files, as in the file
    service. *)
From Stdlib Require String.
Import (notations) String.
From S2P Require Import Prelude Types Messages Testing.
From S2P Require Assembler Vfs Files FileService.

#[local] Existing Instance Files.OpenMode_eq_dec.

Notation "## s" := (Assembler.B s) (at level 1, only parsing).

(** ** vfs.rs *)

Section VfsTests.
Import Vfs.

Let vfs := VirtualFileSystem_new.
Let file (parent : N) (nm : list N) : V N := create_file parent nm 100.
Let directory (parent : N) (nm : list N) : V N := create_directory parent nm 100.
(** [let inode = vfs.create_..(..).unwrap()] *)
Let making (m : V N) (k : N -> list (Step VirtualFileSystem)) : Step VirtualFileSystem := fun v =>
  '(v, r) ← m v; match r with Ok i => steps (k i) v | Err _ => Panicked end.

Definition test_vfs_creation : bool := test vfs [sees root 0; sees node_count 1].

Definition test_create_file : bool := test vfs [
  answers_ (file 0 ##"test.txt") 1;
  sees node_count 2].

Definition test_create_directory : bool := test vfs [answers_ (directory 0 ##"testdir") 1].

Definition test_lookup : bool := test vfs [
  making (file 0 ##"test.txt") (fun inode => [
    affirms (fun v => match lookup inode v with
                      | Some node => bool_decide (name node = ##"test.txt") && is_file node
                      | None => false
                      end)])].

Definition test_lookup_path : bool := test vfs [
  making (directory 0 ##"dir") (fun dir_inode => [
  making (file dir_inode ##"file.txt") (fun file_inode => [
    affirms (fun v => match lookup_path ##"/dir/file.txt" v with
                      | Ok node => bool_decide (name node = ##"file.txt") && (inode node =? file_inode)
                      | Err _ => false
                      end)])])].

Definition test_directory_children : bool := test vfs [
  succeeds (file 0 ##"file1.txt"); succeeds (file 0 ##"file2.txt");
  affirms (fun v => match lookup 0 v with
                    | Some root =>
                        let children := list_children root in
                        all [len children =? 2; bool_decide (##"file1.txt" ∈ children); bool_decide (##"file2.txt" ∈ children)]
                    | None => false
                    end)].

Definition test_delete_file : bool := test vfs [
  making (file 0 ##"test.txt") (fun inode => [succeeds (delete_node inode)])].

Definition test_delete_directory_with_children : bool := test vfs [
  making (directory 0 ##"dir") (fun dir_inode => [
    succeeds (file dir_inode ##"file.txt");
    refuses (delete_node dir_inode)])].

Definition test_reference_counting : bool := test vfs [
  making (file 0 ##"test.txt") (fun inode => [
    affirms (fun v => match lookup inode v with
                      | Some node => test node [sees ref_count 0; does inc_ref; sees ref_count 1; does_ dec_ref; sees ref_count 0]
                      | None => false
                      end)])].

Definition test_node_types : bool := test vfs [
  affirms (fun v => match lookup 0 v with
                    | Some root => test root [affirms is_directory; sees is_file false; sees is_symlink false]
                    | None => false
                    end)].

Definition test_invalid_path : bool := test vfs [
  affirms (fun v => negb (is_ok (lookup_path ##"/nonexistent/path" v)))].

Definition test_empty_path : bool := test vfs [affirms (fun v => negb (is_ok (lookup_path [] v)))].

Definition test_add_duplicate_child : bool := test vfs [
  succeeds (file 0 ##"test.txt");
  refuses (file 0 ##"test.txt")].
End VfsTests.

(** ** file.rs *)

Section FileTests.
Import Files.

Definition test_file_permissions : bool := test FilePermissions_default [
  affirms owner_can_read; affirms owner_can_write; sees owner_can_execute false].

Let a_file := File_new 1 ##"test.txt" 100.

Definition test_file_creation : bool := test (a_file ReadWrite) [
  sees inode 1; sees name ##"test.txt"; sees position 0; sees is_eof false; sees is_dirty false].

Definition test_file_write_read : bool :=
  let content := ##"Hello, World!" in
  test (a_file ReadWrite) [
    answers_ (write content) (len content);
    sees file_size (len content); affirms is_dirty;
    does_ (seek 0);
    answers_ (read (len content)) content].

Definition test_file_append : bool := test (a_file Append) [
  succeeds (write ##"Hello"); succeeds (write ##" World");
  sees file_size 11; sees data ##"Hello World"].

Definition test_file_truncate : bool := test (a_file ReadWrite) [
  succeeds (write ##"Hello, World!");
  runs (truncate 5);
  sees file_size 5; sees data ##"Hello"].

Definition test_file_read_only : bool := test (a_file Read) [refuses (write ##"test")].
Definition test_file_write_only : bool := test (a_file Write) [refuses (read 10)].

Definition test_file_seek : bool := test (a_file ReadWrite) [
  succeeds (write ##"Hello, World!");
  gives (seek 7) 13;
  sees position 7;
  answers_ (read 5) ##"World"].

Definition test_file_eof : bool := test (a_file ReadWrite) [
  succeeds (write ##"Hello"); does_ (seek 0);
  succeeds (read 5); affirms is_eof;
  answers_ (read 10) []].

Let a_directory := Directory_new 0 ##"testdir" 100.
Let adds (nm : list N) (i : N) : Step Directory := fun d => unwrapped (add_entry nm i d).

Definition test_directory_creation : bool := test a_directory [
  sees d_inode 0; sees d_name ##"testdir"; sees entry_count 0].

Definition test_directory_operations : bool := test a_directory [
  adds ##"file1.txt" 1; adds ##"file2.txt" 2;
  sees entry_count 2; sees (dir_lookup ##"file1.txt") (Some 1);
  sees (fun d => length (dir_list d)) 2%nat;
  yields (unwrapping (remove_entry ##"file1.txt")) 1;
  sees entry_count 1].

Definition test_duplicate_entry : bool := test a_directory [
  adds ##"file.txt" 1;
  affirms (fun d => negb (is_ok (add_entry ##"file.txt" 2 d)))].

Definition test_remove_nonexistent_entry : bool := test a_directory [
  returns (remove_entry ##"nonexistent") (fun r => negb (is_ok r))].

Definition test_file_sync : bool := test (a_file ReadWrite) [
  succeeds (write ##"Hello"); affirms is_dirty;
  does sync; sees is_dirty false].

(** ** descriptor.rs: the file is the first of the list *)

Let gives_ok {S} (m : SE S ServiceError unit) : Step S := runs_ (unwrapping m).
Let allocating {S} (m : SE S ServiceError N) (k : N -> list (Step S)) : Step S := fun s =>
  '(s, n) ← unwrapping m s; steps (k n) s.

Definition test_file_table_creation : bool := test (FileTable_new 256) [
  sees table_count 0; sees (table_contains 0) false].

Definition test_allocate_fd : bool := test (FileTable_new 256) [
  allocating (table_allocate 100 0 0) (fun fd => [
    sees (fun _ => fd) 3; sees table_count 1; affirms (table_contains fd)])].

Definition test_get_fd : bool := test (FileTable_new 256) [
  allocating (table_allocate 100 0 0) (fun n => [
    affirms (fun t => match table_get n t with Some open_file => fd open_file =? n | None => false end)])].

Definition test_close_fd : bool := test (FileTable_new 256) [
  allocating (table_allocate 100 0 0) (fun fd => [
    gives_ok (table_close fd); sees table_count 0; sees (table_contains fd) false])].

Definition test_dup_fd : bool := test (FileTable_new 256) [
  allocating (table_allocate 100 0 0) (fun fd1 => [
  allocating (table_dup fd1) (fun fd2 => [
    affirms (fun _ => negb (fd1 =? fd2));
    sees table_count 2;
    affirms (fun t => match table_get fd1 t, table_get fd2 t with
                      | Some file1, Some file2 => bool_decide (file file1 = file file2)
                      | _, _ => false
                      end)])])].

(** the loop that stops at the first error, and the call after it *)
Fixpoint allocate_until (n : nat) (t : FileTable) : FileTable :=
  match n with
  | O => t
  | S n => match table_allocate 100 0 0 t with (t, Ok _) => allocate_until n t | (t, Err _) => t end
  end.
Definition test_fd_exhaustion : bool := test (FileTable_new 5) [
  does (allocate_until 5);
  returns (table_allocate 100 0 0) (fun r => negb (is_ok r))].

Definition test_fd_manager : bool := test (FileDescriptorManager_new 256) [
  allocating (allocate 100 0 0) (fun fd => [
    sees (count 100) 1;
    affirms (fun m => is_some (get 100 fd m));
    gives_ok (close 100 fd);
    sees (count 100) 0])].

Definition test_open_file_operations : bool :=
  let open_file := OpenFile_new 3 100 0 0 in
  test [a_file ReadWrite] [
    succeeds (of_write open_file ##"Hello");
    succeeds (on_file 0 (fun f => Done (fst (seek 0 f), Ok tt)));
    answers_ (of_read open_file 5) ##"Hello"].

Definition test_multiple_process_tables : bool := test (FileDescriptorManager_new 256) [
  allocating (allocate 100 0 0) (fun _ => [
  allocating (allocate 200 0 0) (fun _ => [
    sees (count 100) 1; sees (count 200) 1;
    gives_ok (remove_process 100);
    sees (count 100) 0; sees (count 200) 1])])].

Definition test_close_nonexistent_fd : bool := test (FileTable_new 256) [
  returns (table_close 999) (fun r => negb (is_ok r))].
Definition test_get_nonexistent_fd : bool := test (FileTable_new 256) [
  affirms (fun t => is_none (table_get 999 t))].
End FileTests.

(** ** service.rs

    [send_and_process] handles the one message that was sent, without an answer;
    the service starts with no saved file system and an empty disk image. *)

Section ServiceTests.
Import FileService.

Let pair_is (r : result ServiceError (str * str)) (parent nm : list N) : bool := match r with Ok p => bool_decide (p = (parent, nm)) | Err _ => false end.

Definition create_service : outcome FileService := new None 256 (1024 * 1024) [].
Definition send_and_process (req : FileRequest.t) : Step FileService := runs_ (handle_envelope true false req).

(** what the tests read of the file system: the children of the root *)
Let root_children (P : gmap str N -> bool) : Step FileService := affirms (fun s =>
  match Vfs.lookup 0 (vfs s) with Some root => P (Vfs.children root) | None => false end).
Let contains (nm : list N) : Step FileService := root_children (fun m => is_some (m !! nm)).
Let child_is (nm : list N) (i : N) : Step FileService := root_children (fun m => bool_decide (m !! nm = Some i)).
Let children_count (n : nat) : Step FileService := root_children (fun m => bool_decide (size m = n)).

Definition test_file_service_creation : bool := test_on create_service [sees vfs_stats 1].

Definition test_split_path : bool := all [
  pair_is (split_path ##"/test/file.txt") ##"/test" ##"file.txt";
  pair_is (split_path ##"/file.txt") ##"/" ##"file.txt"].

Definition test_split_path_empty : bool := negb (is_ok (split_path [])).

Definition test_open_flags_to_mode : bool :=
  let flags := FileRequest.read_only in
  all [bool_decide (open_flags_to_mode flags = Files.Read);
       bool_decide (open_flags_to_mode
         {| FileRequest.read := FileRequest.read flags; FileRequest.write := true;
            FileRequest.create := FileRequest.create flags; FileRequest.truncate := FileRequest.truncate flags;
            FileRequest.append := FileRequest.append flags |} = Files.ReadWrite)].

Definition test_create_and_list_directory : bool := test_on create_service [
  send_and_process (FileRequest.CreateDirectory ##"/testdir");
  send_and_process (FileRequest.Stat ##"/testdir");
  send_and_process (FileRequest.OpenDirectory ##"/");
  contains ##"testdir"].

Definition test_create_nested_directories : bool := test_on create_service [
  send_and_process (FileRequest.CreateDirectory ##"/a");
  send_and_process (FileRequest.CreateDirectory ##"/b");
  contains ##"a"; contains ##"b"; children_count 2].

Definition test_stat_directory : bool := test_on create_service [
  send_and_process (FileRequest.CreateDirectory ##"/mydir");
  affirms (fun s =>
    match (root ← Vfs.lookup 0 (vfs s); i ← Vfs.children root !! ##"mydir"; Vfs.lookup i (vfs s)) with
    | Some mydir => bool_decide (Vfs.name mydir = ##"mydir")
    | None => false
    end)].

Definition test_delete_node : bool := test_on create_service [
  send_and_process (FileRequest.CreateDirectory ##"/tempdir");
  send_and_process (FileRequest.Unlink ##"/tempdir");
  root_children (fun m => is_none (m !! ##"tempdir"))].

(** the message is sent and never taken *)
Definition test_unlink_nonexistent_graceful : bool := test_on create_service [
  affirms (fun s => is_some (Vfs.lookup 0 (vfs s)))].

Definition test_create_many_directories : bool := test_on create_service
  (((fun i => send_and_process (FileRequest.CreateDirectory (##"/dir" ++ [48 + i]))) <$> [0; 1; 2; 3; 4; 5; 6; 7; 8; 9])
   ++ [children_count 10]).

Definition test_vfs_inode_sequence : bool := test_on create_service [
  send_and_process (FileRequest.CreateDirectory ##"/first");
  send_and_process (FileRequest.CreateDirectory ##"/second");
  child_is ##"first" 1; child_is ##"second" 2].
End ServiceTests.

(** ** All of them *)

Definition vfs_tests : list bool :=
  [test_lookup; test_lookup_path; test_delete_file; test_delete_directory_with_children; test_reference_counting;
   test_node_types; test_invalid_path; test_add_duplicate_child].
(** A new file system has the standard directories and programs, and the empty
    path is the root. *)
Definition failing_vfs_tests : list bool :=
  [test_vfs_creation; test_create_file; test_create_directory; test_directory_children; test_empty_path].
Definition file_tests : list bool :=
  [test_file_permissions; test_file_creation; test_file_write_read; test_file_append; test_file_truncate;
   test_file_read_only; test_file_write_only; test_file_seek; test_file_eof; test_directory_creation;
   test_directory_operations; test_duplicate_entry; test_remove_nonexistent_entry; test_file_sync].
Definition descriptor_tests : list bool :=
  [test_file_table_creation; test_allocate_fd; test_get_fd; test_close_fd; test_dup_fd; test_fd_exhaustion;
   test_fd_manager; test_open_file_operations; test_multiple_process_tables; test_close_nonexistent_fd;
   test_get_nonexistent_fd].
Definition file_service_tests : list bool :=
  [test_split_path; test_split_path_empty; test_open_flags_to_mode; test_create_and_list_directory;
   test_stat_directory; test_delete_node; test_unlink_nonexistent_graceful].
(** For the same reason these count other nodes. *)
Definition failing_file_service_tests : list bool :=
  [test_file_service_creation; test_create_nested_directories; test_create_many_directories; test_vfs_inode_sequence].

(** Property: the definitions pass the unit tests of the file subsystem, but for
    the nine that expect an empty new file system or refuse the empty path. *)
Theorem file_unit_tests :
  all (vfs_tests ++ file_tests ++ descriptor_tests ++ file_service_tests) = true
  /\ forallb negb (failing_vfs_tests ++ failing_file_service_tests) = true.
Proof. split; vm_compute; reflexivity. Qed.
