(* ===== verification/TestsDevice.v ===== *)
(** * The unit tests of the device subsystem (src/src/services/device)

    The devices of these tests have no operations, so the state behind a device
    is [unit]. *)
From Stdlib Require String.
Import (notations) String.
From S2P Require Import Prelude Types Messages Testing.
From S2P Require Assembler Devices DeviceService.

#[local] Existing Instance Devices.DeviceType_eq_dec.
#[local] Existing Instance Devices.DeviceStatus_eq_dec.
#[local] Existing Instance Devices.null_device.

Notation "## s" := (Assembler.B s) (at level 1, only parsing).

(** a call of the service's error type that is expected to fail or succeed *)
Definition fails_ {S E A} (f : S -> S * result E A) : Step S := returns f (fun r => negb (is_ok r)).
Definition works {S E A} (f : S -> S * result E A) : Step S := returns f is_ok.

(** ** driver.rs *)

Section DriverTests.
Import Devices.

#[local] Instance DriverType_eq_dec : EqDecision DriverType.
Proof. solve_decision. Defined.

Let test_info := DriverInfo_new ##"test_driver" CharacterDriver [Character].
Let registering (d : Driver) : Step DriverManager := works (drv_register d).

Definition test_driver_info_creation : bool :=
  test (DriverInfo_new ##"test_driver" CharacterDriver [Character; Terminal]) [
    sees driver_name ##"test_driver"; sees driver_type CharacterDriver; sees (fun i => len (supported_types i)) 2].

Definition test_driver_creation : bool := test (Driver_new test_info) [
  sees loaded false; sees ref_count 0; sees device_count 0].

Definition test_driver_load_unload : bool := test (Driver_new test_info) [
  works load; affirms loaded;
  fails_ load;
  works unload; sees loaded false].

Definition test_driver_device_management : bool := test (Driver_new test_info) [
  works (add_device 100); sees device_count 1; sees ref_count 1;
  fails_ (add_device 100);
  works (remove_device 100); sees device_count 0; sees ref_count 0].

Definition test_driver_manager : bool := test (∅ : DriverManager) [
  registering (Driver_new test_info); sees drv_count 1;
  affirms (fun m => is_some (m !! ##"test_driver"))].

Definition test_driver_manager_unload : bool := test (∅ : DriverManager) [
  registering (Driver_new test_info);
  works (drv_load ##"test_driver");
  fails_ (drv_unregister ##"test_driver");
  works (drv_unload ##"test_driver");
  works (drv_unregister ##"test_driver")].

Definition test_find_driver : bool := test (∅ : DriverManager) [
  registering (Driver_new (DriverInfo_new ##"char_driver" CharacterDriver [Character]));
  works (drv_load ##"char_driver");
  sees (find_driver Character) (Some ##"char_driver");
  sees (find_driver Block) None].

Definition test_list_drivers : bool := test (∅ : DriverManager)
  (((fun i => registering (Driver_new (DriverInfo_new (##"driver_" ++ [48 + i]) Generic [Unknown]))) <$> [0; 1; 2])
   ++ [sees (fun m => len (list_drivers m)) 3;
       works (drv_load ##"driver_1");
       sees loaded_drivers [ ##"driver_1"]]).

(** ** device.rs *)

Let an_info (mj : N) := DeviceInfo_new ##"test" Character mj 0 100.
(** [info.status = ..] *)
Definition assign_status (st : DeviceStatus) (n : DeviceInfo) : DeviceInfo :=
  {| info_name := info_name n; info_type := info_type n; major := major n; minor := minor n; info_id := info_id n;
     info_parent := info_parent n; info_status := st; io_ports := io_ports n; irq_lines := irq_lines n;
     memory_regions := memory_regions n |}.
Let device (n : DeviceInfo) : Device unit := Device_new n.

Definition test_device_info_creation : bool := test (an_info 1) [
  sees info_name ##"test"; sees info_type Character; sees major 1; sees minor 0; sees info_id 100].

Definition test_device_full_name : bool := test (an_info 4) [sees full_name ##"4:0"].

Definition test_device_creation : bool := test (device (an_info 1)) [
  sees open_count 0; sees in_use false; sees exclusive false].

Definition test_device_open_close : bool := test (device (assign_status Ready (an_info 1))) [
  works (dev_open 100 false); sees open_count 1; affirms in_use;
  works (dev_close 100); sees open_count 0; sees in_use false].

Definition test_exclusive_open : bool := test (device (assign_status Ready (an_info 1))) [
  works (dev_open 100 true); affirms exclusive; sees exclusive_owner (Some 100);
  fails_ (dev_open 200 false);
  works (dev_close 100); sees exclusive false; sees exclusive_owner None].

Definition test_open_not_ready : bool := test (device (assign_status Initializing (an_info 1))) [fails_ (dev_open 100 false)].
Definition test_close_when_not_open : bool := test (device (an_info 1)) [fails_ (dev_close 100)].

Definition test_device_type_equality : bool :=
  all [bool_decide (Character = Character); negb (bool_decide (Character = Block))].
Definition test_status_equality : bool :=
  all [bool_decide (Ready = Ready); negb (bool_decide (Ready = Busy))].

(** ** manager.rs *)

Definition create_test_device (i : N) : Device unit :=
  Device_new (assign_status Ready (DeviceInfo_new (##"test_device_" ++ Text.decimal i) Character 1 0 i)).

Let manager := DeviceManager_new (O := unit).
(** a manager with one device: its id is the first *)
Let with_one (l : N -> list (Step (DeviceManager unit))) : bool := test manager [letting (register (create_test_device 100)) l].
Let with_three (l : list (Step (DeviceManager unit))) : bool :=
  test manager (((fun i => does_ (register (create_test_device i))) <$> [0; 1; 2]) ++ l).

Definition test_device_manager_creation : bool := test manager [sees count 0].

Definition test_register_device : bool := with_one (fun device_id => [sees count 1; sees (fun _ => device_id) 1]).

Definition test_unregister_device : bool := with_one (fun device_id => [
  works (mgr_open device_id 100 false);
  fails_ (unregister device_id);
  works (mgr_close device_id 100);
  works (unregister device_id); sees count 0]).

Definition test_get_device : bool := with_one (fun device_id => [
  affirms (fun m => is_some (get device_id m));
  affirms (fun m => is_some (get_by_name ##"test_device_100" m));
  affirms (fun m => is_none (get 999 m))]).

Definition test_open_close_device : bool := with_one (fun device_id => [
  works (mgr_open device_id 100 false); works (mgr_close device_id 100)]).

Definition test_exclusive_device_access : bool := with_one (fun device_id => [
  works (mgr_open device_id 100 true);
  fails_ (mgr_open device_id 200 false);
  works (mgr_close device_id 100);
  works (mgr_open device_id 200 false)]).

Definition test_get_by_type : bool := with_three [
  sees (fun m => len (get_by_type Character m)) 3; sees (fun m => len (get_by_type Block m)) 0].

Definition test_list_devices : bool := with_three [sees (fun m => len (list_devices m)) 3].

Definition test_device_snapshot : bool := with_one (fun device_id => [
  works (mgr_open device_id 100 false);
  affirms (fun m => match list_devices m with
                    | [snap] => all [snap_id snap =? device_id; snap_opens snap =? 1; bool_decide (snap_type snap = Character)]
                    | _ => false
                    end)]).
End DriverTests.

(** ** service.rs *)

Section ServiceTests.
Import DeviceService.

Let service := new (O := unit).

Definition test_device_service_creation : bool := test service [sees device_count 0].

Definition test_device_class_to_type : bool :=
  let is_type (c : DeviceRequest.DeviceClass) (t : Devices.DeviceType) :=
    match device_class_to_type c with Ok x => bool_decide (x = t) | Err _ => false end in
  all [is_type DeviceRequest.Block Devices.Block; is_type DeviceRequest.Char Devices.Character;
       is_type DeviceRequest.Network Devices.Network].

(** [test_list_devices] of service.rs *)
Definition test_service_list_devices : bool := test service [sees (fun s => len (list_devices s)) 0].

Definition test_get_devices_by_type : bool := test service [
  sees (fun s => len (get_devices_by_type Devices.Character s)) 0;
  sees (fun s => len (get_devices_by_type Devices.Block s)) 0].
End ServiceTests.

(** ** All of them *)

Definition driver_tests : list bool :=
  [test_driver_info_creation; test_driver_creation; test_driver_load_unload; test_driver_device_management;
   test_driver_manager; test_driver_manager_unload; test_find_driver; test_list_drivers].
Definition device_tests : list bool :=
  [test_device_info_creation; test_device_full_name; test_device_creation; test_device_open_close; test_exclusive_open;
   test_open_not_ready; test_close_when_not_open; test_device_type_equality; test_status_equality].
Definition manager_tests : list bool :=
  [test_device_manager_creation; test_register_device; test_unregister_device; test_get_device; test_open_close_device;
   test_exclusive_device_access; test_get_by_type; test_list_devices; test_device_snapshot].
Definition device_service_tests : list bool :=
  [test_device_service_creation; test_device_class_to_type; test_service_list_devices; test_get_devices_by_type].

(** Property: the definitions pass all unit tests of the device subsystem. *)
Theorem device_unit_tests : all (driver_tests ++ device_tests ++ manager_tests ++ device_service_tests) = true.
Proof. vm_compute. reflexivity. Qed.
