(* ===== verification/TestsShell.v ===== *)
(** * The unit tests of the shell (src/src/ui/shell/parser.rs, builtins.rs)

    The context of the built-in commands, a bus that they do not use, is left out. *)
From Stdlib Require String.
Import (notations) String.
From S2P Require Import Prelude Testing.
From S2P Require Assembler ShellParser Shell.

Notation "## s" := (Assembler.B s) (at level 1, only parsing).

(** ** parser.rs *)

Section ParserTests.
Import ShellParser.

#[local] Instance Command_eq_dec : EqDecision Command.
Proof. solve_decision. Defined.

(** [parser.parse(..).unwrap()] and the assertions on the command *)
Definition on_command (line : list N) (l : list (Step Command)) : bool :=
  match parse line with Some cmd => test cmd l | None => false end.

Definition test_parse_simple_command : bool := bool_decide (parse ##"ls" = Some (Command_new ##"ls")).

Definition test_parse_command_with_args : bool := on_command ##"ls -l /tmp" [
  sees cmd_name ##"ls"; sees args [ ##"/tmp"]; sees options [ ##"-l"]].

Definition test_parse_quoted_string : bool := on_command (##"echo " ++ [34] ++ ##"hello world" ++ [34]) [
  sees cmd_name ##"echo"; sees args [ ##"hello world"]].

Definition test_parse_single_quoted_string : bool := on_command ##"echo 'hello world'" [
  sees cmd_name ##"echo"; sees args [ ##"hello world"]].

Definition test_parse_escape_sequence : bool := on_command ##"echo hello\ world" [
  sees cmd_name ##"echo"; sees args [ ##"hello world"]].

Definition test_parse_empty_line : bool := is_none (parse []).
Definition test_parse_whitespace_only : bool := is_none (parse (##"   " ++ [9] ++ ##"  ")).

Definition test_parse_multiple_options : bool := on_command ##"ls -l -a -h" [
  sees cmd_name ##"ls"; sees options [ ##"-l"; ##"-a"; ##"-h"]].

Definition test_parse_mixed_args_and_options : bool := on_command ##"ls -l /tmp -a /home" [
  sees cmd_name ##"ls"; sees args [ ##"/tmp"; ##"/home"]; sees options [ ##"-l"; ##"-a"]].

Definition test_has_option : bool := on_command ##"ls -l -a" [
  affirms (has_option ##"-l"); affirms (has_option ##"-a"); sees (has_option ##"-h") false].

Definition test_get_arg : bool := on_command ##"echo hello world" [
  sees (get_arg 0) (Some ##"hello"); sees (get_arg 1) (Some ##"world"); sees (get_arg 2) None].

Definition test_parse_pipeline : bool :=
  bool_decide (cmd_name <$> parse_pipeline ##"ls ; echo hello" = [ ##"ls"; ##"echo"]).
Definition test_parse_empty_pipeline : bool := bool_decide (length (parse_pipeline ##"   ;  ") = 0%nat).
End ParserTests.

(** ** builtins.rs *)

Section BuiltinTests.
Import ShellParser Shell.

(** [builtins.execute] finds a command, and it succeeds or fails *)
Let executes (ok : bool) (cmd : Command) : Step Env := fun e =>
  match execute cmd e with
  | Some (e, r) => if bool_decide (is_ok r = ok) then Done e else Panicked
  | None => Panicked
  end.
Let builtins := BuiltinCommand_new.

Definition test_echo : bool := test builtins [executes true (with_args ##"echo" [ ##"hello"; ##"world"])].

Definition test_export : bool := test builtins [
  executes true (with_args ##"export" [ ##"TEST=value"]);
  sees (get_env ##"TEST") (Some ##"value")].

Definition test_unset : bool := test builtins [
  does (set_env ##"TEMP_VAR" ##"value");
  executes true (with_args ##"unset" [ ##"TEMP_VAR"]);
  sees (get_env ##"TEMP_VAR") None].

Definition test_true_command : bool := test builtins [executes true (Command_new ##"true")].
Definition test_false_command : bool := test builtins [executes false (Command_new ##"false")].
Definition test_colon_command : bool := test builtins [executes true (Command_new ##":")].
Definition test_unknown_command : bool := is_none (execute (Command_new ##"unknown_command") builtins).
End BuiltinTests.

(** ** All of them *)

Definition parser_tests : list bool :=
  [test_parse_simple_command; test_parse_command_with_args; test_parse_quoted_string; test_parse_single_quoted_string;
   test_parse_escape_sequence; test_parse_empty_line; test_parse_whitespace_only; test_parse_multiple_options;
   test_parse_mixed_args_and_options; test_has_option; test_get_arg; test_parse_pipeline; test_parse_empty_pipeline].
Definition builtin_tests : list bool :=
  [test_echo; test_export; test_unset; test_true_command; test_false_command; test_colon_command; test_unknown_command].

(** Property: the definitions pass all unit tests of the shell. *)
Theorem shell_unit_tests : all (parser_tests ++ builtin_tests) = true.
Proof. vm_compute. reflexivity. Qed.
