(* ===== verification/TestsMessages.v ===== *)
(** * The unit tests of messages and errors (src/src/messaging/bus.rs, response.rs,
      src/src/error.rs)

    The channels are the queues of [Bus]. *)
From Stdlib Require String.
Import (notations) String.
From S2P Require Import Prelude Types Messages Testing.
From S2P Require Assembler PhysMem Bus Requests Errors.

#[local] Existing Instance Bus.ListChannel_ops.

Notation "## s" := (Assembler.B s) (at level 1, only parsing).

(** ** bus.rs *)

Section BusTests.
Import Bus Requests.

Let bus : Net ListChannel := LockedBus_new.
(** the message is the one of the envelope that a subscriber receives *)
Let receives (k : nat) (P : Envelope -> bool) : Step (Net ListChannel) :=
  returns (recv_envelope k) (fun e => match e with Some e => P e | None => false end).
Let is_timer (e : Envelope) : bool := match message e with MsgInterrupt Timer => true | _ => false end.

Definition test_locked_bus_send : bool := test bus [returns (send (MsgInterrupt Timer)) is_ok].

Definition test_locked_bus_send_receive : bool := test bus [
  letting subscribe (fun receiver => [
    returns (send (MsgInterrupt Timer)) is_ok;
    receives receiver (fun envelope => negb (expects_response envelope) && is_timer envelope)])].

Definition test_locked_bus_multiple_subscribers : bool := test bus [
  letting subscribe (fun receiver1 => [
  letting subscribe (fun receiver2 => [
    returns (send (MsgInterrupt Timer)) is_ok;
    receives receiver1 is_timer; receives receiver2 is_timer])])].

Definition test_direct_bus_send_receive : bool :=
  test (DirectBus_new (C := ListChannel)) [
    returns (direct_send (MsgSyscall (Syscall.CreateProcess ##"/bin/test" [ ##"--help"]))) is_ok;
    returns direct_recv (fun envelope =>
      match envelope with
      | Some envelope =>
          negb (expects_response envelope)
          && match message envelope with
             | MsgSyscall (Syscall.CreateProcess executable args) => bool_decide (executable = ##"/bin/test") && bool_decide (args = [ ##"--help"])
             | _ => false
             end
      | None => false
      end)].

Definition test_memory_prot_flags : bool := test MemProt_read_write [
  affirms readable; affirms prot_writable; sees prot_executable false].

Definition test_open_flags : bool := test FileRequest.read_only [
  affirms FileRequest.read; sees FileRequest.write false; sees FileRequest.create false].

(** ** response.rs *)

Let a_message := MsgProcess (ProcessRequest.Schedule 1 1).

Definition test_request_id_generation : bool := test bus [
  letting generate_request_id (fun id1 => [
  letting generate_request_id (fun id2 => [
    affirms (fun _ => id1 <? id2)])])].

Definition test_response_success : bool := test (success 1 (RPid 100)) [
  affirms is_success; sees is_error false; sees resp_request_id 1;
  affirms (fun r => is_some (resp_data r)); affirms (fun r => is_none (service_error r))].

Definition test_response_error : bool := test (error 1 RespNotFound) [
  sees is_success false; affirms is_error; sees resp_request_id 1;
  affirms (fun r => is_none (resp_data r)); affirms (fun r => is_some (service_error r))].

Definition test_request_with_response : bool := test bus [
  letting (new a_message) (fun req => [affirms (fun _ => 0 <? req_id req); affirms (fun _ => is_none (timeout_ms req))])].

Definition test_request_with_timeout : bool := test bus [
  letting (with_timeout a_message 5000) (fun req => [sees (fun _ => timeout_ms req) (Some 5000)])].

Definition test_response_channel : bool := test bus [
  letting (new a_message) (fun req => [
    gives (req_respond_success (RPid 100) req) true;
    returns (recv_response (req_channel req)) (fun resp =>
      match resp with Some resp => is_success resp && (resp_request_id resp =? req_id req) | None => false end)])].

Definition test_service_error_display : bool :=
  bool_decide (Errors.response_error_text (Errors.RInvalidArguments ##"Invalid PID") = ##"Invalid arguments: Invalid PID").

Definition test_response_data_types : bool := all [
  match RPid 100 with RPid 100 => true | _ => false end;
  match Bool true with Bool true => true | _ => false end;
  match Bytes [1; 2; 3] with Bytes _ => true | _ => false end].

Definition test_response_display : bool :=
  bool_decide (Errors.response_text (Errors.Success 1 (RPid 100)) = ##"Request 1: Success Pid(100)").
End BusTests.

(** ** error.rs *)

Section ErrorTests.
Import Errors.

Let out_of_bounds := PhysMem.OutOfBounds 0x1000 4 0x1000.

Definition test_error_display : bool := has_text ##"Out of bounds" (memory_error_text out_of_bounds).
Definition test_unified_error : bool := has_text ##"[Hardware]" (display (from (HwMemory out_of_bounds))).
Definition test_service_error : bool := has_text ##"Process not found" (service_error_text (NotFound ##"Process" ##"123")).
Definition test_error_chain : bool :=
  let unified : GenshinError := from (HwCPU (DivideByZero 0x1000)) in
  all [has_text ##"[Hardware]" (display unified); has_text ##"CPU" (display unified);
       has_text ##"Divide by zero" (display unified)].
Definition test_bus_error : bool := has_text ##"[Bus]" (display (from Disconnected)).
End ErrorTests.

(** ** All of them *)

Definition bus_tests : list bool :=
  [test_locked_bus_send; test_locked_bus_send_receive; test_locked_bus_multiple_subscribers; test_direct_bus_send_receive;
   test_memory_prot_flags; test_open_flags].
Definition response_tests : list bool :=
  [test_request_id_generation; test_response_success; test_response_error; test_request_with_response;
   test_request_with_timeout; test_response_channel; test_service_error_display; test_response_data_types;
   test_response_display].
Definition error_tests : list bool :=
  [test_error_display; test_unified_error; test_service_error; test_error_chain; test_bus_error].

(** Property: the definitions pass all unit tests of the messages and the errors. *)
Theorem message_unit_tests : all (bus_tests ++ response_tests ++ error_tests) = true.
Proof. vm_compute. reflexivity. Qed.
