(* ===== verification/TestsService.v ===== *)
(** * The unit tests of the process service (src/src/services/process/service.rs)

    The tests create processes that run programs like [/bin/test], on a bus
    without subscribers.  [create_process] has since come to load the program and
    to ask for memory, so all of them but the first panic.  What they assert after
    that is checked in a world that has what they miss: a bus that answers, and
    a file for every program. *)
From Stdlib Require String.
Import (notations) String.
From S2P Require Import Prelude Types Messages Testing ProcService ProcLoop.
From S2P Require Assembler PhysMem Mmu Sched Ipc Pcb.

#[local] Existing Instance Pcb.ProcessState_eq_dec.

Notation "## s" := (Assembler.B s) (at level 1, only parsing).

(** [unwrap] of a call that may panic itself *)
Definition unwraps {S E A} (m : S -> outcome (S * result E A)) : S -> outcome (S * A) := fun s =>
  '(s, r) ← m s; match r with Ok a => Done (s, a) | Err _ => Panicked end.

Section ServiceTests.
Context {W : Type} `{!Peers W}.
Context (w : W).

Let make_service : ProcessService W := new w.
(** [let pid = service.create_process(.., ..).unwrap()] *)
Let creating (executable : list N) (args : list (list N)) (k : Pid -> list (Step (ProcessService W))) : Step (ProcessService W) :=
  fun s => '(s, pid) ← unwraps (create_process executable args) s; steps (k pid) s.
Let in_state (pid : Pid) (st : Pcb.ProcessState) : Step (ProcessService W) :=
  affirms (fun s => bool_decide (Pcb.state <$> process_table s !! pid = Some st)).

Definition test_process_service_creation : bool := test make_service [sees (fun s => size (process_table s)) 0%nat].

Definition test_create_process : bool := test make_service [
  creating ##"/bin/test" [ ##"--help"] (fun pid => [
    affirms (fun s => negb (bool_decide (size (process_table s) = 0%nat)));
    affirms (fun s => is_some (process_table s !! pid))])].

Definition test_process_schedule : bool := test make_service [
  creating ##"/bin/sched" [] (fun pid => [
    succeeds (handle_schedule pid 1);
    affirms (fun s => 0 <? Sched.ready_count (scheduler s))])].

Definition test_process_block_unblock : bool := test make_service [
  creating ##"/bin/block" [] (fun pid => [
    succeeds (handle_block pid 1 (WaitingForIo 1));
    in_state pid (Pcb.Blocked (WaitingForIo 0));
    succeeds (handle_unblock pid 1);
    in_state pid Pcb.Ready])].

Definition test_send_receive_message : bool := test make_service [
  creating ##"/bin/sender" [] (fun pid1 => [
  creating ##"/bin/receiver" [] (fun pid2 => [
    succeeds (handle_send_message pid1 pid2 (Text "Hello!"));
    succeeds (handle_receive_message pid2 false)])])].

Definition test_shared_memory : bool := test make_service [
  creating ##"/bin/shm" [] (fun pid => [
    succeeds (handle_create_shared_memory pid 4096 MemProt_read_write);
    succeeds (handle_attach_shared_memory pid 1);
    succeeds (handle_detach_shared_memory pid 1)])].

Definition test_semaphore : bool := test make_service [
  creating ##"/bin/sem" [] (fun pid => [
    succeeds (handle_create_semaphore pid 2);
    succeeds (handle_wait_semaphore pid 1);
    succeeds (handle_signal_semaphore pid 1)])].

Definition test_mutex_lock : bool := test make_service [
  creating ##"/bin/mutex" [] (fun pid => [
    succeeds (handle_create_lock pid);
    succeeds (handle_acquire_lock pid 1);
    succeeds (handle_release_lock pid 1)])].

Definition test_signal_handling : bool := test make_service [
  creating ##"/bin/signal" [] (fun pid => [
    succeeds (handle_signal pid SigStop);
    in_state pid (Pcb.Blocked (WaitingForIo 0));
    succeeds (handle_signal pid SigContinue);
    in_state pid Pcb.Ready])].

Definition test_fork_process : bool := test make_service [
  creating ##"/bin/parent" [] (fun parent_pid => [
    succeeds (fork_impl false parent_pid);
    affirms (fun s => match parent_children s !! parent_pid with Some (_ :: _) => true | _ => false end)])].

Definition test_exec_process : bool := test make_service [
  creating ##"/bin/original" [] (fun pid => [
    succeeds (exec_impl false pid ##"/bin/new" [ ##"--arg1"; ##"--arg2"]);
    affirms (fun s => match process_table s !! pid with
                      | Some pcb => bool_decide (Pcb.name pcb = ##"/bin/new") && (length (Pcb.args pcb) =? 2)%nat
                      | None => false
                      end)])].

Definition test_query_state : bool := test make_service [
  creating ##"/bin/query" [] (fun pid => [
    succeeds (handle_query_state pid);
    refuses (handle_query_state 9999)])].

(** [handle_list_processes] only prints *)
Definition test_list_processes : bool := test make_service [
  creating ##"/bin/p1" [] (fun _ => [creating ##"/bin/p2" [] (fun _ => [])])].

Definition test_timer_interrupt : bool := test make_service [
  creating ##"/bin/timer" [] (fun _ => [succeeds (handle_timer_interrupt (fun _ => false) 0)])].

Definition test_get_process_info : bool := test make_service [
  creating ##"/bin/info" [] (fun pid => [
    succeeds (handle_get_process_info pid);
    refuses (handle_get_process_info 9999)])].

Definition test_peek_message : bool := test make_service [
  creating ##"/bin/peek" [] (fun pid => [
    succeeds (handle_peek_message pid);
    runs_ (handle_send_message pid pid (Text "Test"));
    succeeds (handle_peek_message pid)])].

Definition test_multiple_thread_schedule : bool := test make_service [
  creating ##"/bin/threads" [] (fun pid => [
    succeeds (handle_schedule pid 1); succeeds (handle_schedule pid 2); succeeds (handle_schedule pid 3);
    sees (fun s => Sched.ready_count (scheduler s)) 4])].
End ServiceTests.

(** those that create no process, and those that do *)
Definition tests_without_programs {W} `{P : !Peers W} (w : W) : list bool := [test_process_service_creation w].
Definition tests_with_programs {W} `{P : !Peers W} (w : W) : list bool :=
  [test_create_process w; test_process_schedule w; test_process_block_unblock w; test_send_receive_message w;
   test_shared_memory w; test_semaphore w; test_mutex_lock w; test_signal_handling w; test_fork_process w;
   test_exec_process w; test_query_state w; test_list_processes w; test_timer_interrupt w; test_get_process_info w;
   test_peek_message w; test_multiple_thread_schedule w].

(** the world of the tests: no subscriber, no files *)
Definition empty_world : Peers Mmu.MMU :=
  {| shared_mmu u := u; set_shared_mmu u _ := u; bus_request _ u := (u, Disconnected);
     bus_send _ u := u; host_file _ _ := None |}.
(** a bus on which every request is answered, and a program for every name *)
Definition full_world : Peers Mmu.MMU :=
  {| shared_mmu u := u; set_shared_mmu u _ := u;
     bus_request m u := (u, Replied (Ok (match m with MsgMemory (AllocFrame _ _) => PhysicalAddr 0x1000 | _ => Void end)));
     bus_send _ u := u; host_file _ _ := Some ##"HALT" |}.

Definition test_mmu (mem : PhysMem.PhysicalMemory) : Mmu.MMU := {| Mmu.page_tables := ∅; Mmu.memory := mem; Mmu.page_size := 4096 |}.

(** Property: with any memory, on the bus of the tests all of the seventeen but
    the first fail, as the program of the process they create is not found; on a
    bus that answers and with a file for every program, they all pass. *)
Theorem process_service_unit_tests mem :
  all (tests_without_programs (P := empty_world) (test_mmu mem)) = true /\
  existsb id (tests_with_programs (P := empty_world) (test_mmu mem)) = false /\
  all (tests_without_programs (P := full_world) (test_mmu mem) ++ tests_with_programs (P := full_world) (test_mmu mem)) = true.
Proof. split_and!; vm_compute; reflexivity. Qed.
